(** * zalloc.h: arena, pool and debug-guard allocators

    A shallow embedding of the three allocators of [zalloc.h] (LP64 ABI:
    [size_t] and [uintptr_t] are 64-bit, [sizeof(void* )] is 8) and the
    properties established about them.

    Memory is modelled by typed stores keyed by address ([gmap Z _]): one
    for the structs the allocators keep in the memory they obtain, one for
    payload bytes or words.  The backend allocation primitive is an oracle
    that decides, from the history of the calls made to it, the address a
    call returns ([0] is the null pointer); every call is recorded. *)

From Stdlib Require Import ZArith Lia List Bool.
From stdpp Require Import base option list gmap strings.

Local Open Scope Z_scope.

(** ** Machine words *)

Definition word_bits : Z := 64.
Definition modulus : Z := 2 ^ word_bits.

(** Unsigned wrap-around of [size_t] and [uintptr_t] arithmetic. *)
Definition wrap (x : Z) : Z := x mod modulus.
Arguments wrap : simpl never.

(** [~x] on a 64-bit unsigned operand. *)
Definition wnot (x : Z) : Z := wrap (Z.lnot x).

(** The largest object a C implementation can hand out ([PTRDIFF_MAX]). *)
Definition max_object : Z := 2 ^ 63 - 1.

(** ** Outcomes of a call *)

Inductive diagnostic : Type :=
  | AssertionFailed
  | BadReallocPointer (ptr : Z) (file : string) (line : Z)
  | CorruptionDuringRealloc (ptr : Z) (file : string) (line : Z)
  | DoubleFree (ptr : Z) (file : string) (line : Z)
  | InvalidFree (ptr : Z)
  | BufferOverflow (ptr : Z) (file : string) (line : Z).

(** A call returns ([Done]), terminates the process through [abort()] or a
    failed [assert] ([Abort], with what was reported), touches memory
    outside of what it owns ([Fault]: undefined behaviour in C), or loops
    forever ([Diverge]). *)
Inductive outcome (A : Type) : Type :=
  | Done (a : A)
  | Abort (d : diagnostic)
  | Fault
  | Diverge.

Arguments Done {A} a.
Arguments Abort {A} d.
Arguments Fault {A}.
Arguments Diverge {A}.

#[global] Instance outcome_ret : MRet outcome := fun A a => Done a.

#[global] Instance outcome_bind : MBind outcome := fun A B k o =>
  match o with
  | Done a => k a
  | Abort d => Abort d
  | Fault => Fault
  | Diverge => Diverge
  end.

(** ** The backend allocation primitive *)

(** One call to the backend, with what it returned. *)
Inductive call : Type :=
  | Malloc (sz ret : Z)
  | Realloc (ptr sz ret : Z)
  | Free (ptr : Z).

(** A backend decides the result of an allocation or a resize from the
    calls made to it so far (newest first). *)
Record backend : Type := Backend {
  bk_malloc : list call -> Z -> Z;
  bk_realloc : list call -> Z -> Z -> Z
}.

(** Two families of primitives are visible to [zalloc.h]: the macros
    [Z_MALLOC], [Z_REALLOC], [Z_FREE], which the includer may define, and
    the C library's [malloc], [realloc], [free]. *)
Record platform : Type := Platform {
  injected : backend;
  stdlib : backend
}.

(** The calls made through each family. *)
Record heap : Type := Heap {
  zcalls : list call;
  ccalls : list call
}.

Definition no_calls : heap := Heap [] [].

Definition Z_MALLOC (P : platform) (h : heap) (sz : Z) : Z * heap :=
  let p := bk_malloc (injected P) (zcalls h) sz in
  (p, Heap (Malloc sz p :: zcalls h) (ccalls h)).

Definition Z_REALLOC (P : platform) (h : heap) (ptr sz : Z) : Z * heap :=
  let p := bk_realloc (injected P) (zcalls h) ptr sz in
  (p, Heap (Realloc ptr sz p :: zcalls h) (ccalls h)).

Definition Z_FREE (h : heap) (ptr : Z) : heap :=
  Heap (Free ptr :: zcalls h) (ccalls h).

Definition malloc (P : platform) (h : heap) (sz : Z) : Z * heap :=
  let p := bk_malloc (stdlib P) (ccalls h) sz in
  (p, Heap (zcalls h) (Malloc sz p :: ccalls h)).

Definition realloc (P : platform) (h : heap) (ptr sz : Z) : Z * heap :=
  let p := bk_realloc (stdlib P) (ccalls h) ptr sz in
  (p, Heap (zcalls h) (Realloc ptr sz p :: ccalls h)).

Definition free (h : heap) (ptr : Z) : heap :=
  Heap (zcalls h) (Free ptr :: ccalls h).

(** The blocks (address, size) a history leaves allocated, newest first.
    A resize that returns the null pointer has failed and leaves the block
    as it is, except a resize to size 0, which releases the block as a free
    does. *)
Fixpoint live (h : list call) : list (Z * Z) :=
  match h with
  | [] => []
  | Malloc sz p :: h' => if p =? 0 then live h' else (p, sz) :: live h'
  | Realloc q sz r :: h' =>
      if r =? 0
      then (if sz =? 0 then filter (fun b => b.1 <> q) (live h') else live h')
      else (r, sz) :: filter (fun b => b.1 <> q) (live h')
  | Free q :: h' => filter (fun b => b.1 <> q) (live h')
  end.

(** Two blocks or regions (address, size) that do not overlap. *)
Definition disjoint (b c : Z * Z) : Prop :=
  b.1 + b.2 <= c.1 \/ c.1 + c.2 <= b.1.

Fixpoint disjoint_blocks (l : list (Z * Z)) : Prop :=
  match l with
  | [] => True
  | b :: t => Forall (disjoint b) t /\ disjoint_blocks t
  end.

(** [p, p + sz) is a block of the address space that avoids the null
    address and every block of [l]. *)
Definition fresh_block (l : list (Z * Z)) (p sz : Z) : Prop :=
  0 < p /\ p + sz < modulus /\ Forall (disjoint (p, sz)) l.

(** The contract of a backend: what it grants is no larger than the largest
    object, lies in the address space and is disjoint from every block that
    is still allocated (for a resize, from every other block). *)
Record backend_ok (B : backend) : Prop := BackendOk {
  malloc_grant : forall h sz,
    bk_malloc B h sz <> 0 ->
    sz <= max_object /\ fresh_block (live h) (bk_malloc B h sz) sz;
  realloc_grant : forall h q sz,
    bk_realloc B h q sz <> 0 ->
    sz <= max_object /\
    fresh_block (filter (fun b => b.1 <> q) (live h)) (bk_realloc B h q sz) sz
}.

(** The backend granted every allocation and resize of a history. *)
Definition granted (c : call) : Prop :=
  match c with
  | Malloc _ r => r <> 0
  | Realloc _ _ r => r <> 0
  | Free _ => True
  end.

(** *** Concrete backends *)

Definition block_end (c : call) : Z :=
  match c with
  | Malloc sz r => r + sz
  | Realloc _ sz r => r + sz
  | Free _ => 0
  end.

Definition high_water (h : list call) : Z :=
  fold_right (fun c acc => Z.max (block_end c) acc) 4096 h.

Definition heap_limit : Z := 2 ^ 47.

(** A backend that never reuses memory: every grant starts at the next
    multiple of 16 above everything granted before. *)
Definition bump_malloc (h : list call) (sz : Z) : Z :=
  let p := (high_water h + 15) / 16 * 16 in
  if (0 <=? sz) && (p + sz <=? heap_limit) then p else 0.

Definition bump : backend := Backend bump_malloc (fun h _ sz => bump_malloc h sz).

(** A backend that refuses everything. *)
Definition exhausted : backend := Backend (fun _ _ => 0) (fun _ _ _ => 0).

(** A backend that allocates like [bump] and refuses every resize. *)
Definition no_resize : backend := Backend bump_malloc (fun _ _ _ => 0).

(** A backend that grants the block released last again when the next
    allocation asks for no more bytes than the block has, as the free lists
    of a C library do, and allocates like [bump] otherwise. *)
Definition reuse_malloc (h : list call) (sz : Z) : Z :=
  match h with
  | Free q :: Malloc n q' :: _ =>
      if (q =? q') && (0 <? sz) && (sz <=? n) then q else bump_malloc h sz
  | _ => bump_malloc h sz
  end.

Definition reusing : backend := Backend reuse_malloc (fun h _ sz => bump_malloc h sz).

Definition default_platform : platform := Platform bump bump.

(** ** Byte and word memory *)

(** [memset(p, v, n)] on a store of bytes. *)
Fixpoint memset (mem : gmap Z Z) (p v : Z) (n : nat) : gmap Z Z :=
  match n with
  | O => mem
  | S k => memset (<[wrap p := v]> mem) (p + 1) v k
  end.

(** [memcpy(dst, src, n)]: the source is read as it was before the call. *)
Fixpoint memcpy (src_mem mem : gmap Z Z) (dst src : Z) (n : nat) : gmap Z Z :=
  match n with
  | O => mem
  | S k =>
      let mem' := match src_mem !! wrap src with
                  | Some v => <[wrap dst := v]> mem
                  | None => delete (wrap dst) mem
                  end in
      memcpy src_mem mem' (dst + 1) (src + 1) k
  end.

(** * Z-ARENA *)

Module Arena.

Definition ZARENA_MAX_ALIGN : Z := 16.
Definition ZARENA_DEFAULT_BLOCK_SIZE : Z := 4096.

(** [struct zarena_block]; the flexible array [data] starts right after the
    three words of the struct. *)
Record zarena_block : Type := Block {
  next : Z;
  capacity : Z;
  used : Z
}.

Definition sizeof_block : Z := 24.

(** [(uintptr_t)b->data] *)
Definition data (b : Z) : Z := wrap (b + sizeof_block).

Record zarena : Type := Arena {
  head : Z;
  first : Z;
  total_alloc : Z
}.

(** The memory an arena lives in: the block structs, the payload bytes and
    the calls made to the backend. *)
Record memory : Type := Memory {
  blocks : gmap Z zarena_block;
  bytes : gmap Z Z;
  hp : heap
}.

Definition empty_memory : memory := Memory ∅ ∅ no_calls.

Definition load (m : memory) (b : Z) : outcome zarena_block :=
  match blocks m !! b with
  | Some blk => Done blk
  | None => Fault
  end.

Definition set_next (b v : Z) (m : memory) : memory :=
  Memory (alter (fun blk => Block v (capacity blk) (used blk)) b (blocks m))
         (bytes m) (hp m).

Definition set_used (b v : Z) (m : memory) : memory :=
  Memory (alter (fun blk => Block (next blk) (capacity blk) v) b (blocks m))
         (bytes m) (hp m).

Definition add_total (a : zarena) (size : Z) : zarena :=
  Arena (head a) (first a) (wrap (total_alloc a + size)).

Definition _zarena_align_ptr (ptr align : Z) : outcome Z :=
  if Z.land align (wrap (align - 1)) =? 0
  then Done (Z.land (wrap (ptr + wrap (align - 1))) (wnot (wrap (align - 1))))
  else Abort AssertionFailed.

(** The struct is written into what the backend granted; when the size
    computation wrapped, it does not fit there. *)
Definition _zarena_new_block (P : platform) (m : memory) (cap : Z)
  : outcome (Z * memory) :=
  let total_sz := wrap (sizeof_block + cap) in
  let '(b, h) := Z_MALLOC P (hp m) total_sz in
  if b =? 0 then Done (0, Memory (blocks m) (bytes m) h)
  else if total_sz <? sizeof_block then Fault
  else Done (b, Memory (<[b := Block 0 cap 0]> (blocks m)) (bytes m) h).

Definition zarena_init : zarena := Arena 0 0 0.

(** The loop of [zarena_reset].  It visits one block of the store per
    iteration, so when it has not reached the end of the chain after more
    iterations than the store has blocks, the chain is cyclic and the loop
    never ends. *)
Fixpoint reset_loop (fuel : nat) (bs : gmap Z zarena_block) (curr : Z)
  : outcome (gmap Z zarena_block) :=
  if curr =? 0 then Done bs
  else match fuel with
       | O => Diverge
       | S fuel' =>
           match bs !! curr with
           | None => Fault
           | Some blk =>
               reset_loop fuel'
                 (<[curr := Block (next blk) (capacity blk) 0]> bs) (next blk)
           end
       end.

Definition zarena_reset (a : zarena) (m : memory) : outcome (zarena * memory) :=
  bs ← reset_loop (S (size (blocks m))) (blocks m) (first a);
  Done (Arena (first a) (first a) 0, Memory bs (bytes m) (hp m)).

(** First attempt of [zarena_alloc_align]: bump the cursor of the current
    block.  [None] when the function goes on to the next attempt. *)
Definition bump_head (a : zarena) (m : memory) (size align : Z)
  : outcome (option (Z * zarena * memory)) :=
  if head a =? 0 then Done None
  else
    hb ← load m (head a);
    let base := data (head a) in
    let curr := wrap (base + used hb) in
    nxt ← _zarena_align_ptr curr align;
    let padding := wrap (nxt - curr) in
    let needed := wrap (size + padding) in
    if wrap (used hb + needed) <=? capacity hb
    then Done (Some (nxt, add_total a size,
                     set_used (head a) (wrap (used hb + needed)) m))
    else Done None.

(** Second attempt: move on to the block that follows the current one. *)
Definition advance (a : zarena) (m : memory) (size align : Z)
  : outcome (option (Z * zarena * memory)) :=
  if head a =? 0 then Done None
  else
    hb ← load m (head a);
    if next hb =? 0 then Done None
    else
      let next_blk := next hb in
      nb ← load m next_blk;
      let base := data next_blk in
      start ← _zarena_align_ptr base align;
      let padding := wrap (start - base) in
      if wrap (size + padding) <=? capacity nb
      then Done (Some (start,
                       add_total (Arena next_blk (first a) (total_alloc a)) size,
                       set_used next_blk (wrap (size + padding)) m))
      else Done None.

(** Last attempt: a new block, linked in after the current one. *)
Definition grow (P : platform) (a : zarena) (m : memory) (size align : Z)
  : outcome (Z * zarena * memory) :=
  cap0 ← (if head a =? 0 then Done ZARENA_DEFAULT_BLOCK_SIZE
          else hb ← load m (head a); Done (wrap (capacity hb * 2)));
  let next_cap := if cap0 <? wrap (size + align) then wrap (size + align) else cap0 in
  '(b, m1) ← _zarena_new_block P m next_cap;
  if b =? 0 then Done (0, a, m1)
  else
    '(a2, m2) ← (if head a =? 0
                 then Done (Arena (head a) b (total_alloc a), m1)
                 else hb ← load m1 (head a);
                      Done (a, set_next (head a) b (set_next b (next hb) m1)));
    let a3 := Arena b (first a2) (total_alloc a2) in
    let base := data b in
    start ← _zarena_align_ptr base align;
    let padding := wrap (start - base) in
    Done (start, add_total a3 size, set_used b (wrap (size + padding)) m2).

Definition zarena_alloc_align (P : platform) (a : zarena) (m : memory)
  (size align : Z) : outcome (Z * zarena * memory) :=
  if size =? 0 then Done (0, a, m)
  else
    r1 ← bump_head a m size align;
    match r1 with
    | Some r => Done r
    | None =>
        r2 ← advance a m size align;
        match r2 with
        | Some r => Done r
        | None => grow P a m size align
        end
    end.

Definition zarena_alloc (P : platform) (a : zarena) (m : memory) (size : Z)
  : outcome (Z * zarena * memory) :=
  zarena_alloc_align P a m size ZARENA_MAX_ALIGN.

Definition zarena_alloc_zero (P : platform) (a : zarena) (m : memory) (size : Z)
  : outcome (Z * zarena * memory) :=
  '(p, a', m') ← zarena_alloc_align P a m size ZARENA_MAX_ALIGN;
  if p =? 0 then Done (p, a', m')
  else Done (p, a', Memory (blocks m') (memset (bytes m') p 0 (Z.to_nat size)) (hp m')).

(** The tail extension of [zarena_realloc]. *)
Definition extend_tail (a : zarena) (m : memory) (old_ptr old_size new_size : Z)
  : outcome (option (Z * zarena * memory)) :=
  if head a =? 0 then Done None
  else
    hb ← load m (head a);
    let data_end := wrap (data (head a) + used hb) in
    if wrap (old_ptr + old_size) =? data_end
    then
      let diff := wrap (new_size - old_size) in
      if wrap (used hb + diff) <=? capacity hb
      then Done (Some (old_ptr, add_total a diff,
                       set_used (head a) (wrap (used hb + diff)) m))
      else Done None
    else Done None.

Definition zarena_realloc (P : platform) (a : zarena) (m : memory)
  (old_ptr old_size new_size : Z) : outcome (Z * zarena * memory) :=
  if old_ptr =? 0 then zarena_alloc P a m new_size
  else if new_size =? 0 then Done (0, a, m)
  else if new_size <=? old_size then Done (old_ptr, a, m)
  else
    r ← extend_tail a m old_ptr old_size new_size;
    match r with
    | Some r => Done r
    | None =>
        '(new_ptr, a', m') ← zarena_alloc P a m new_size;
        if new_ptr =? 0 then Done (new_ptr, a', m')
        else Done (new_ptr, a',
                   Memory (blocks m')
                          (memcpy (bytes m') (bytes m') new_ptr old_ptr (Z.to_nat old_size))
                          (hp m'))
    end.

(** The loop of [zarena_free]; as in [reset_loop], a walk longer than the
    store has blocks never ends. *)
Fixpoint free_loop (fuel : nat) (bs : gmap Z zarena_block) (h : heap) (curr : Z)
  : outcome heap :=
  if curr =? 0 then Done h
  else match fuel with
       | O => Diverge
       | S fuel' =>
           match bs !! curr with
           | None => Fault
           | Some blk => free_loop fuel' bs (Z_FREE h curr) (next blk)
           end
       end.

Definition zarena_free (a : zarena) (m : memory) : outcome (zarena * memory) :=
  h ← free_loop (S (size (blocks m))) (blocks m) (hp m) (first a);
  Done (Arena 0 0 0, Memory (blocks m) (bytes m) h).

(** An operation of a client on one arena, and what it returned. *)
Inductive op : Type :=
  | Alloc (size : Z)
  | AllocAlign (size align : Z)
  | AllocZero (size : Z)
  | ReallocOp (old_ptr old_size new_size : Z)
  | Reset.

Definition step (P : platform) (a : zarena) (m : memory) (o : op)
  : outcome (Z * zarena * memory) :=
  match o with
  | Alloc size => zarena_alloc P a m size
  | AllocAlign size align => zarena_alloc_align P a m size align
  | AllocZero size => zarena_alloc_zero P a m size
  | ReallocOp old_ptr old_size new_size => zarena_realloc P a m old_ptr old_size new_size
  | Reset => '(a', m') ← zarena_reset a m; Done (0, a', m')
  end.

(** A sequence of operations; the pointers returned, in order. *)
Fixpoint run (P : platform) (a : zarena) (m : memory) (ops : list op)
  : outcome (list Z * zarena * memory) :=
  match ops with
  | [] => Done ([], a, m)
  | o :: ops' =>
      '(p, a1, m1) ← step P a m o;
      '(ps, a2, m2) ← run P a1 m1 ops';
      Done (p :: ps, a2, m2)
  end.

End Arena.

(** * Z-POOL *)

Module Pool.

Definition sizeof_ptr : Z := 8.

(** [struct zpool]; a [zpool_node] is one word, the [next] link, kept in
    the first word of a free item. *)
Record zpool : Type := Pool {
  item_size : Z;
  count_per_block : Z;
  head : Z;
  blocks : Z;
  block_count : Z;
  block_cap : Z
}.

(** The words (free-list links and the array of slab pointers) of the
    memory a pool lives in, keyed by their address. *)
Record memory : Type := Memory {
  words : gmap Z Z;
  hp : heap
}.

Definition empty_memory : memory := Memory ∅ no_calls.

Definition zpool_init (item_size items_per_block : Z) : zpool :=
  let align := sizeof_ptr in
  let item_size := if item_size <? sizeof_ptr then sizeof_ptr else item_size in
  Pool (Z.land (wrap (item_size + (align - 1))) (wnot (align - 1)))
       (if items_per_block <? 1 then 64 else items_per_block)
       0 0 0 0.

(** What [realloc] does to the contents when it moves an array of [n]
    words from [src] to [dst]. *)
Fixpoint move_words (src_w w : gmap Z Z) (dst src : Z) (n : nat) : gmap Z Z :=
  match n with
  | O => w
  | S k =>
      let w' := match src_w !! wrap src with
                | Some v => <[wrap dst := v]> w
                | None => delete (wrap dst) w
                end in
      move_words src_w w' (dst + sizeof_ptr) (src + sizeof_ptr) k
  end.

(** The loop of [_zpool_grow] that chains the items of a slab, from item
    [i] on, for [n] iterations. *)
Fixpoint link_items (w : gmap Z Z) (block isz i : Z) (n : nat) : gmap Z Z :=
  match n with
  | O => w
  | S k =>
      link_items (<[wrap (block + wrap (i * isz)) := wrap (block + wrap ((i + 1) * isz))]> w)
                 block isz (i + 1) k
  end.

(** [_zpool_grow] returns nothing; the caller looks at [p->head].  A slab
    or an array of slab pointers whose size computation wrapped is too
    small for what is written to it. *)
Definition _zpool_grow (P : platform) (p : zpool) (m : memory)
  : outcome (zpool * memory) :=
  let block_mem_size := wrap (item_size p * count_per_block p) in
  let '(block, h1) := Z_MALLOC P (hp m) block_mem_size in
  if block =? 0 then Done (p, Memory (words m) h1)
  else
    let grown :=
      if block_count p =? block_cap p
      then
        let new_cap := if block_cap p =? 0 then 8 else wrap (block_cap p * 2) in
        let '(new_list, h2) := Z_REALLOC P h1 (blocks p) (wrap (new_cap * sizeof_ptr)) in
        if new_list =? 0 then inl (Z_FREE h2 block)
        else
          let w := if new_list =? blocks p then words m
                   else move_words (words m) (words m) new_list (blocks p)
                          (Z.to_nat (block_cap p)) in
          inr (Pool (item_size p) (count_per_block p) (head p) new_list
                    (block_count p) new_cap,
               Memory w h2)
      else inr (p, Memory (words m) h1) in
    match grown with
    | inl h3 => Done (p, Memory (words m) h3)
    | inr (p1, m1) =>
        if wrap (block_cap p1 * sizeof_ptr) <? sizeof_ptr * block_count p1 + sizeof_ptr
        then Fault
        else
          let w1 := <[wrap (blocks p1 + sizeof_ptr * block_count p1) := block]> (words m1) in
          let count := wrap (block_count p1 + 1) in
          if (1 <=? count_per_block p1) && (sizeof_ptr <=? item_size p1)
             && (item_size p1 * count_per_block p1 =? block_mem_size)
          then
            let w2 := link_items w1 block (item_size p1) 0
                        (Z.to_nat (wrap (count_per_block p1 - 1))) in
            let last := wrap (block + wrap (wrap (count_per_block p1 - 1) * item_size p1)) in
            let w3 := <[last := head p1]> w2 in
            Done (Pool (item_size p1) (count_per_block p1) block (blocks p1)
                       count (block_cap p1),
                  Memory w3 (hp m1))
          else Fault
    end.

Definition zpool_alloc (P : platform) (p : zpool) (m : memory)
  : outcome (Z * zpool * memory) :=
  '(p1, m1) ← (if head p =? 0 then _zpool_grow P p m else Done (p, m));
  if head p1 =? 0 then Done (0, p1, m1)
  else
    match words m1 !! head p1 with
    | None => Fault
    | Some nxt =>
        Done (head p1,
              Pool (item_size p1) (count_per_block p1) nxt (blocks p1)
                   (block_count p1) (block_cap p1),
              m1)
    end.

Definition zpool_recycle (p : zpool) (m : memory) (ptr : Z) : zpool * memory :=
  if ptr =? 0 then (p, m)
  else (Pool (item_size p) (count_per_block p) ptr (blocks p)
             (block_count p) (block_cap p),
        Memory (<[ptr := head p]> (words m)) (hp m)).

(** The loop of [zpool_free], from index [i] on. *)
Fixpoint free_slabs (p : zpool) (w : gmap Z Z) (h : heap) (i : Z) (n : nat)
  : outcome heap :=
  match n with
  | O => Done h
  | S k =>
      match w !! wrap (blocks p + sizeof_ptr * i) with
      | None => Fault
      | Some b => free_slabs p w (Z_FREE h b) (i + 1) k
      end
  end.

Definition zpool_free (p : zpool) (m : memory) : outcome (zpool * memory) :=
  h ← free_slabs p (words m) (hp m) 0 (Z.to_nat (block_count p));
  let h' := if blocks p =? 0 then h else Z_FREE h (blocks p) in
  Done (Pool 0 0 0 0 0 0, Memory (words m) h').

End Pool.

(** * Z-DEBUG *)

Module Debug.

Definition ZDEBUG_MAGIC_ALIVE : Z := 0x11223344.
Definition ZDEBUG_MAGIC_FREED : Z := 0xDEADDEAD.
Definition ZDEBUG_CANARY_VAL : Z := 0xBB.
Definition ZDEBUG_CANARY_SIZE : Z := 16.

Record zdebug_header : Type := Header {
  prev : Z;
  next : Z;
  file : string;
  size : Z;
  line : Z;
  magic : Z
}.

Definition sizeof_header : Z := 40.

(** The offsets of [size], [line] and [magic] in the struct, after the
    three pointers [prev], [next] and [file]. *)
Definition offsetof_size : Z := 24.
Definition offsetof_line : Z := 32.
Definition offsetof_magic : Z := 36.

(** Byte [j] of an unsigned integer, the least significant byte first (the
    byte order of x86-64 and AArch64), and the integer with that byte
    replaced by [v]. *)
Definition byte_of (x j : Z) : Z := Z.land (Z.shiftr x (8 * j)) 255.

Definition with_byte (x j v : Z) : Z :=
  Z.lor (Z.land x (Z.lnot (Z.shiftl 255 (8 * j)))) (Z.shiftl (Z.land v 255) (8 * j)).

(** An [int] and the 32 bits that hold it. *)
Definition int_bits (x : Z) : Z := x mod 2 ^ 32.
Definition int_of_bits (u : Z) : Z := if u <? 2 ^ 31 then u else u - 2 ^ 32.

(** The byte at offset [off] of a header, for the offsets of [size], [line]
    and [magic], and the header after [v] has been written there. *)
Definition peek (hd : zdebug_header) (off : Z) : Z :=
  if off <? offsetof_line then byte_of (size hd) (off - offsetof_size)
  else if off <? offsetof_magic
  then byte_of (int_bits (line hd)) (off - offsetof_line)
  else byte_of (magic hd) (off - offsetof_magic).

Definition poke (hd : zdebug_header) (off v : Z) : zdebug_header :=
  if off <? offsetof_line
  then Header (prev hd) (next hd) (file hd)
              (with_byte (size hd) (off - offsetof_size) v) (line hd) (magic hd)
  else if off <? offsetof_magic
  then Header (prev hd) (next hd) (file hd) (size hd)
              (int_of_bits (with_byte (int_bits (line hd)) (off - offsetof_line) v))
              (magic hd)
  else Header (prev hd) (next hd) (file hd) (size hd) (line hd)
              (with_byte (magic hd) (off - offsetof_magic) v).

(** What [ZDEBUG_LOG] prints on the paths that return. *)
Inductive message : Type :=
  | OutOfMemory (file : string) (line : Z)
  | LeaksBanner
  | Leak (size ptr : Z) (file : string) (line : Z)
  | LeaksTotal (bytes count : Z).

(** The headers and the payload and canary bytes, keyed by address.  The
    header of a block is readable from the allocation of the block until
    the block is handed back to the backend. *)
Record state : Type := State {
  hdrs : gmap Z zdebug_header;
  bytes : gmap Z Z;
  g_zdebug_head : Z;
  log : list message;
  hp : heap
}.

Definition initial : state := State ∅ ∅ 0 [] no_calls.

Definition load (st : state) (h : Z) : outcome zdebug_header :=
  match hdrs st !! h with
  | Some hd => Done hd
  | None => Fault
  end.

(** A write to fields of the header at [h]. *)
Definition modify (st : state) (h : Z) (f : zdebug_header -> zdebug_header)
  : outcome state :=
  match hdrs st !! h with
  | Some hd => Done (State (<[h := f hd]> (hdrs st)) (bytes st) (g_zdebug_head st)
                           (log st) (hp st))
  | None => Fault
  end.

Definition set_links (p n : Z) (hd : zdebug_header) : zdebug_header :=
  Header p n (file hd) (size hd) (line hd) (magic hd).
Definition set_prev (p : Z) (hd : zdebug_header) : zdebug_header :=
  Header p (next hd) (file hd) (size hd) (line hd) (magic hd).
Definition set_next (n : Z) (hd : zdebug_header) : zdebug_header :=
  Header (prev hd) n (file hd) (size hd) (line hd) (magic hd).
Definition set_magic (v : Z) (hd : zdebug_header) : zdebug_header :=
  Header (prev hd) (next hd) (file hd) (size hd) (line hd) v.
Definition set_origin (sz : Z) (f : string) (l : Z) (hd : zdebug_header)
  : zdebug_header :=
  Header (prev hd) (next hd) f sz l (magic hd).

Definition set_head (st : state) (h : Z) : state :=
  State (hdrs st) (bytes st) h (log st) (hp st).
Definition set_heap (st : state) (h : heap) : state :=
  State (hdrs st) (bytes st) (g_zdebug_head st) (log st) h.
Definition set_bytes (st : state) (b : gmap Z Z) : state :=
  State (hdrs st) b (g_zdebug_head st) (log st) (hp st).
Definition say (st : state) (msg : message) : state :=
  State (hdrs st) (bytes st) (g_zdebug_head st) (msg :: log st) (hp st).

(** The block of the header at [h] has gone back to the backend: its
    header is not readable any more. *)
Definition forget (st : state) (h : Z) : state :=
  State (delete h (hdrs st)) (bytes st) (g_zdebug_head st) (log st) (hp st).

Definition _zdebug_add (st : state) (h : Z) : outcome state :=
  st1 ← modify st h (set_links 0 (g_zdebug_head st));
  st2 ← (if g_zdebug_head st =? 0 then Done st1
         else modify st1 (g_zdebug_head st) (set_prev h));
  Done (set_head st2 h).

Definition _zdebug_remove (st : state) (h : Z) : outcome state :=
  hd ← load st h;
  st1 ← (if prev hd =? 0 then Done (set_head st (next hd))
         else modify st (prev hd) (set_next (next hd)));
  hd1 ← load st1 h;
  if next hd1 =? 0 then Done st1
  else modify st1 (next hd1) (set_prev (prev hd1)).

(** [(uint8_t* )(h + 1)] *)
Definition user_mem (h : Z) : Z := wrap (h + sizeof_header).

(** [a] is the address of a byte of [size], [line] or [magic] of the
    header at [h]. *)
Definition in_fields (h a : Z) : bool :=
  (h + offsetof_size <=? a) && (a <? h + sizeof_header).

(** A byte read or written at [a] by the code that checks or sets the
    canary of the block of the header at [h].  The canary starts at
    [user_mem + h->size]: after the payload or, when that sum wraps around
    the address space, up to sixteen bytes before the end of the header,
    where it lies over [size], [line] and [magic] of the header itself. *)
Definition load_byte (st : state) (h a : Z) : option Z :=
  if in_fields h a
  then match hdrs st !! h with
       | Some hd => Some (peek hd (a - h))
       | None => None
       end
  else bytes st !! a.

Definition store_byte (st : state) (h a v : Z) : state :=
  if in_fields h a
  then State (alter (fun hd => poke hd (a - h) v) h (hdrs st)) (bytes st)
             (g_zdebug_head st) (log st) (hp st)
  else set_bytes st (<[a := v]> (bytes st)).

(** [memset(p, v, n)] by that code. *)
Fixpoint store_bytes (st : state) (h p v : Z) (n : nat) : state :=
  match n with
  | O => st
  | S k => store_bytes (store_byte st h (wrap p) v) h (p + 1) v k
  end.

Definition _zdebug_set_canary (st : state) (h : Z) : outcome state :=
  hd ← load st h;
  let footer := wrap (user_mem h + size hd) in
  Done (store_bytes st h footer ZDEBUG_CANARY_VAL (Z.to_nat ZDEBUG_CANARY_SIZE)).

Definition canary_byte_ok (st : state) (h footer : Z) (i : nat) : bool :=
  match load_byte st h (wrap (footer + Z.of_nat i)) with
  | Some v => v =? ZDEBUG_CANARY_VAL
  | None => false
  end.

Definition _zdebug_check_canary (st : state) (h : Z) : outcome bool :=
  hd ← load st h;
  let footer := wrap (user_mem h + size hd) in
  Done (forallb (canary_byte_ok st h footer)
                (seq 0 (Z.to_nat ZDEBUG_CANARY_SIZE))).

(** The fields of the header are written into the block the backend
    granted: a block shorter than [zdebug_header] does not hold them.  The
    total is computed without a check: for a size of [2^64 - 16] or more it
    wraps to the size of the header and up to fifteen bytes, and the canary
    is then written over the end of the header. *)
Definition zdebug_malloc_loc (P : platform) (st : state) (sz : Z)
  (f : string) (l : Z) : outcome (Z * state) :=
  if sz =? 0 then Done (0, st)
  else
    let total_size := wrap (sizeof_header + sz + ZDEBUG_CANARY_SIZE) in
    let '(h, hp') := malloc P (hp st) total_size in
    if h =? 0 then Done (0, say (set_heap st hp') (OutOfMemory f l))
    else if total_size <? sizeof_header then Fault
    else
      let st1 := State (<[h := Header 0 0 f sz l ZDEBUG_MAGIC_ALIVE]> (hdrs st))
                       (bytes st) (g_zdebug_head st) (log st) hp' in
      st2 ← _zdebug_set_canary st1 h;
      st3 ← _zdebug_add st2 h;
      Done (user_mem h, st3).

(** [memset] writes [count * size] bytes from the payload address on; when
    the total asked of [malloc] has wrapped, the block ends before them. *)
Definition zdebug_calloc_loc (P : platform) (st : state) (count sz : Z)
  (f : string) (l : Z) : outcome (Z * state) :=
  let n := wrap (count * sz) in
  '(ptr, st1) ← zdebug_malloc_loc P st n f l;
  if ptr =? 0 then Done (ptr, st1)
  else if wrap (sizeof_header + n + ZDEBUG_CANARY_SIZE) <? sizeof_header + n then Fault
  else Done (ptr, set_bytes st1 (memset (bytes st1) ptr 0 (Z.to_nat n))).

Definition zdebug_free (st : state) (ptr : Z) : outcome state :=
  if ptr =? 0 then Done st
  else
    let h := wrap (ptr - sizeof_header) in
    hd ← load st h;
    if negb (magic hd =? ZDEBUG_MAGIC_ALIVE)
    then if magic hd =? ZDEBUG_MAGIC_FREED
         then Abort (DoubleFree ptr (file hd) (line hd))
         else Abort (InvalidFree ptr)
    else
      ok ← _zdebug_check_canary st h;
      if negb ok then Abort (BufferOverflow ptr (file hd) (line hd))
      else
        st1 ← modify st h (set_magic ZDEBUG_MAGIC_FREED);
        st2 ← _zdebug_remove st1 h;
        Done (forget (set_heap st2 (free (hp st2) h)) h).

(** What a successful [realloc] to [total_size] bytes does to the contents
    when the block moves from [h] to [new_h]: the new block starts with the
    bytes of the old one (a header, a payload and a canary), as many as
    both hold, and the old block has gone back to the backend. *)
Definition moved (st : state) (h new_h : Z) (hd : zdebug_header) (total_size : Z)
  : state :=
  if new_h =? h then st
  else
    let n := Z.min (sizeof_header + size hd + ZDEBUG_CANARY_SIZE) total_size
             - sizeof_header in
    State (<[new_h := hd]> (delete h (hdrs st)))
          (memcpy (bytes st) (bytes st) (user_mem new_h) (user_mem h) (Z.to_nat n))
          (g_zdebug_head st) (log st) (hp st).

(** Every null result of [realloc] is taken for a failure and the header
    linked back; after [realloc(h, 0)], which has handed the block back
    (see [live]), that header is not the guard's any more.  The header of
    the resized block is written through the [zdebug_header] pointer, as in
    [zdebug_malloc_loc]. *)
Definition zdebug_realloc_loc (P : platform) (st : state) (ptr sz : Z)
  (f : string) (l : Z) : outcome (Z * state) :=
  if ptr =? 0 then zdebug_malloc_loc P st sz f l
  else if sz =? 0 then st' ← zdebug_free st ptr; Done (0, st')
  else
    let h := wrap (ptr - sizeof_header) in
    hd ← load st h;
    if negb (magic hd =? ZDEBUG_MAGIC_ALIVE)
    then Abort (BadReallocPointer ptr f l)
    else
      ok ← _zdebug_check_canary st h;
      if negb ok then Abort (CorruptionDuringRealloc ptr (file hd) (line hd))
      else
        st1 ← _zdebug_remove st h;
        let total_size := wrap (sizeof_header + sz + ZDEBUG_CANARY_SIZE) in
        let '(new_h, hp') := realloc P (hp st1) h total_size in
        if new_h =? 0
        then
          let st1' := if total_size =? 0 then forget (set_heap st1 hp') h
                      else set_heap st1 hp' in
          st2 ← _zdebug_add st1' h; Done (0, st2)
        else if total_size <? sizeof_header then Fault
        else
          hd1 ← load st1 h;
          let st2 := moved (set_heap st1 hp') h new_h hd1 total_size in
          st3 ← modify st2 new_h (set_origin sz f l);
          st4 ← _zdebug_set_canary st3 new_h;
          st5 ← _zdebug_add st4 new_h;
          Done (user_mem new_h, st5).

(** The loop of [zdebug_print_leaks]: one header of the store per
    iteration, so a walk longer than the store has headers is on a cycle
    and never ends. *)
Fixpoint leaks_loop (fuel : nat) (st : state) (curr count bytes_ : Z)
  : outcome (Z * Z * state) :=
  if curr =? 0 then Done (count, bytes_, st)
  else match fuel with
       | O => Diverge
       | S fuel' =>
           hd ← load st curr;
           leaks_loop fuel'
             (say st (Leak (size hd) (user_mem curr) (file hd) (line hd)))
             (next hd) (wrap (count + 1)) (wrap (bytes_ + size hd))
       end.

Definition zdebug_print_leaks (st : state) : outcome (Z * state) :=
  let curr := g_zdebug_head st in
  let st1 := if curr =? 0 then st else say st LeaksBanner in
  '(count, bytes_, st2) ← leaks_loop (S (base.size (hdrs st))) st1 curr 0 0;
  let st3 := if 0 <? count then say st2 (LeaksTotal bytes_ count) else st2 in
  Done (count, st3).

End Debug.

(** * Properties *)

(** ** Words *)

Lemma modulus_eq : modulus = 18446744073709551616.
Proof. reflexivity. Qed.

Lemma wrap_range x : 0 <= wrap x < modulus.
Proof. unfold wrap. apply Z.mod_pos_bound. reflexivity. Qed.

Lemma wrap_small x : 0 <= x < modulus -> wrap x = x.
Proof. intros H. unfold wrap. apply Z.mod_small. exact H. Qed.

Lemma wrap_wrap x : wrap (wrap x) = wrap x.
Proof. apply wrap_small, wrap_range. Qed.

Lemma bind_done {A B : Type} (a : A) (k : A -> outcome B) : (Done a ≫= k) = k a.
Proof. reflexivity. Qed.

(** ** Arena: a resize to zero *)

Section ArenaResizeToZero.
  Import Arena.

(** C10. For a non-null [old_ptr], [zarena_realloc(a, old_ptr, old_size, 0)]
    returns the null pointer and changes nothing: the arena struct ([head],
    [first], [total_alloc]), every block (cursor and links), the payload
    bytes and the calls made to the backend are as before. *)
Theorem zarena_realloc_to_zero_is_noop (P : platform) (a : zarena) (m : memory)
    (old_ptr old_size : Z) :
  old_ptr <> 0 ->
  zarena_realloc P a m old_ptr old_size 0 = Done (0, a, m).
Proof.
  intros Hp. unfold zarena_realloc.
  destruct (old_ptr =? 0) eqn:E; [apply Z.eqb_eq in E; contradiction|].
  reflexivity.
Qed.

Lemma zarena_realloc_to_zero_witness :
  4128 <> 0 /\
  zarena_realloc default_platform (Arena 4096 4096 10)
    (Memory {[ 4096 := Block 0 4096 18 ]} ∅ (Heap [Malloc 4120 4096] []))
    4128 10 0
  = Done (0, Arena 4096 4096 10,
          Memory {[ 4096 := Block 0 4096 18 ]} ∅ (Heap [Malloc 4120 4096] [])).
Proof.
  split; [lia|].
  apply (zarena_realloc_to_zero_is_noop default_platform _ _ 4128 10). lia.
Defined.

End ArenaResizeToZero.

(** ** Pool: failure to grow *)

Section PoolGrowFailure.
  Import Pool.

(** The size of the array of slab pointers [_zpool_grow] asks for. *)
Definition grown_list_size (p : zpool) : Z :=
  wrap ((if block_cap p =? 0 then 8 else wrap (block_cap p * 2)) * sizeof_ptr).

(** C7. With an empty free list [zpool_alloc] asks the backend for one slab
    of [item_size * count_per_block] bytes (as [size_t]).  When the backend
    refuses the slab, or grants it and refuses to grow the full array of
    slab pointers, [zpool_alloc] returns the null pointer, the pool struct
    and the words of memory are as before the call, and in the second case
    the slab has been handed back to the backend. *)
Theorem zpool_alloc_failure_keeps_pool (P : platform) (p : zpool) (m : memory) :
  let slab_size := wrap (item_size p * count_per_block p) in
  let block := bk_malloc (injected P) (zcalls (hp m)) slab_size in
  let asked := Malloc slab_size block :: zcalls (hp m) in
  head p = 0 ->
  block = 0 \/
  (block_count p = block_cap p /\
   bk_realloc (injected P) asked (blocks p) (grown_list_size p) = 0) ->
  zpool_alloc P p m =
    Done (0, p,
          Memory (words m)
                 (Heap (if block =? 0 then asked
                        else Free block
                             :: Realloc (blocks p) (grown_list_size p) 0 :: asked)
                       (ccalls (hp m)))).
Proof.
  intros slab_size block asked Hhead Hfail.
  unfold zpool_alloc. rewrite Hhead. simpl (0 =? 0).
  unfold _zpool_grow, Z_MALLOC.
  fold slab_size. fold block. fold asked.
  destruct (block =? 0) eqn:Eb.
  - rewrite bind_done, Hhead. reflexivity.
  - destruct Hfail as [H0 | [Hfull Hre]].
    { apply Z.eqb_neq in Eb. contradiction. }
    rewrite Hfull, Z.eqb_refl. unfold Z_REALLOC. cbn [zcalls ccalls].
    unfold grown_list_size in Hre. rewrite Hre. cbn.
    rewrite Hhead. reflexivity.
Qed.

Lemma zpool_alloc_failure_witness :
  zpool_alloc (Platform no_resize bump) (zpool_init 12 3) empty_memory
  = Done (0, zpool_init 12 3,
          Memory ∅ (Heap [Free 4096; Realloc 0 64 0; Malloc 48 4096] [])).
Proof.
  apply (zpool_alloc_failure_keeps_pool (Platform no_resize bump)
           (zpool_init 12 3) empty_memory).
  - reflexivity.
  - right. split; reflexivity.
Defined.

End PoolGrowFailure.

(** ** Outcomes *)

Lemma bind_Done_inv {A B : Type} (o : outcome A) (k : A -> outcome B) (b : B) :
  (o ≫= k) = Done b -> exists a, o = Done a /\ k a = Done b.
Proof.
  destruct o as [a| | |]; cbn; intros H; try discriminate.
  exists a. split; [reflexivity | exact H].
Qed.

Lemma Done_inj {A : Type} (a b : A) : Done a = Done b -> a = b.
Proof. intros H. injection H as H. exact H. Qed.

(** Splits a hypothesis [o ≫= k = Done b] into its two halves. *)
Ltac bind_inv H :=
  let a := fresh "r" in
  let Ha := fresh "Hr" in
  apply bind_Done_inv in H; destruct H as (a & Ha & H).

(** ** Debug guard: the fields that identify an allocation *)

Section DebugHeaders.
  Import Debug.

(** Two headers with the same origin, size and magic (only the links may
    differ). *)
Definition same_allocation (hd hd' : zdebug_header) : Prop :=
  file hd' = file hd /\ line hd' = line hd /\ size hd' = size hd /\
  magic hd' = magic hd.

(** Every header of [s] is in [s'] with the same origin, size and magic. *)
Definition links_only (s s' : gmap Z zdebug_header) : Prop :=
  forall h hd, s !! h = Some hd ->
    exists hd', s' !! h = Some hd' /\ same_allocation hd hd'.

Lemma same_allocation_refl hd : same_allocation hd hd.
Proof. repeat split. Qed.

Lemma same_allocation_trans a b c :
  same_allocation a b -> same_allocation b c -> same_allocation a c.
Proof. unfold same_allocation. intros (?&?&?&?) (?&?&?&?). repeat split; congruence. Qed.

Lemma links_only_refl s : links_only s s.
Proof. intros h hd H. exists hd. split; [exact H | apply same_allocation_refl]. Qed.

Lemma links_only_trans s1 s2 s3 :
  links_only s1 s2 -> links_only s2 s3 -> links_only s1 s3.
Proof.
  intros H12 H23 h hd H. destruct (H12 h hd H) as (hd2 & H2 & S2).
  destruct (H23 h hd2 H2) as (hd3 & H3 & S3).
  exists hd3. split; [exact H3 | eapply same_allocation_trans; eassumption].
Qed.

Lemma modify_inv st k f st' :
  modify st k f = Done st' ->
  exists hd, hdrs st !! k = Some hd /\
    st' = State (<[k := f hd]> (hdrs st)) (bytes st) (g_zdebug_head st) (log st) (hp st).
Proof.
  unfold modify. destruct (hdrs st !! k) as [hd|] eqn:E; [|discriminate].
  intros H. injection H as <-. exists hd. split; reflexivity.
Qed.

Lemma load_inv st h hd : load st h = Done hd -> hdrs st !! h = Some hd.
Proof. unfold load. destruct (hdrs st !! h); [congruence | discriminate]. Qed.

Lemma modify_links_only st k f st' :
  (forall hd, same_allocation hd (f hd)) ->
  modify st k f = Done st' ->
  links_only (hdrs st) (hdrs st') /\ bytes st' = bytes st /\
  log st' = log st /\ hp st' = hp st /\ g_zdebug_head st' = g_zdebug_head st.
Proof.
  intros Hf H. apply modify_inv in H as (hd0 & Hk & ->). cbn.
  split; [|repeat split].
  intros h hd Hh. destruct (decide (k = h)) as [->|Hne].
  - rewrite lookup_insert_eq. exists (f hd0). split; [reflexivity|].
    rewrite Hk in Hh. injection Hh as <-. apply Hf.
  - rewrite lookup_insert_ne by exact Hne. exists hd.
    split; [exact Hh | apply same_allocation_refl].
Qed.

Lemma set_prev_same p hd : same_allocation hd (set_prev p hd).
Proof. repeat split. Qed.
Lemma set_next_same n hd : same_allocation hd (set_next n hd).
Proof. repeat split. Qed.
Lemma set_links_same p n hd : same_allocation hd (set_links p n hd).
Proof. repeat split. Qed.

(** Unlinking and linking write links only. *)
Lemma _zdebug_remove_links_only st h st' :
  _zdebug_remove st h = Done st' ->
  links_only (hdrs st) (hdrs st') /\ bytes st' = bytes st /\
  log st' = log st /\ hp st' = hp st.
Proof.
  unfold _zdebug_remove. intros H.
  bind_inv H. bind_inv H. bind_inv H.
  assert (links_only (hdrs st) (hdrs r0) /\ bytes r0 = bytes st /\
          log r0 = log st /\ hp r0 = hp st) as (L1 & B1 & G1 & P1).
  { destruct (prev r =? 0).
    - injection Hr0 as <-. cbn. split; [apply links_only_refl | repeat split].
    - apply modify_links_only in Hr0 as (?&?&?&?&?); [|apply set_next_same].
      repeat split; assumption. }
  destruct (next r1 =? 0).
  - injection H as <-. repeat split; assumption.
  - apply modify_links_only in H as (?&?&?&?&?); [|apply set_prev_same].
    split; [eapply links_only_trans; eassumption|].
    repeat split; congruence.
Qed.

Lemma _zdebug_add_links_only st h st' :
  _zdebug_add st h = Done st' ->
  links_only (hdrs st) (hdrs st') /\ bytes st' = bytes st /\
  log st' = log st /\ hp st' = hp st.
Proof.
  unfold _zdebug_add. intros H.
  bind_inv H. bind_inv H. injection H as <-. cbn.
  apply modify_links_only in Hr as (L0 & B0 & G0 & P0 & D0);
    [|apply set_links_same].
  destruct (g_zdebug_head st =? 0).
  - injection Hr0 as <-. repeat split; assumption.
  - apply modify_links_only in Hr0 as (?&?&?&?&?); [|apply set_prev_same].
    split; [eapply links_only_trans; eassumption|].
    repeat split; congruence.
Qed.

End DebugHeaders.

(** ** Debug guard: the bytes of the canary *)

Section DebugCanary.
  Import Debug.

Lemma load_byte_outside st h a :
  in_fields h a = false -> load_byte st h a = bytes st !! a.
Proof. unfold load_byte. intros ->. reflexivity. Qed.

Lemma store_byte_outside st h a v :
  in_fields h a = false -> store_byte st h a v = set_bytes st (<[a := v]> (bytes st)).
Proof. unfold store_byte. intros ->. reflexivity. Qed.

(** The bytes written for a canary change neither the history of the
    backend, nor the log, nor the head of the list. *)
Lemma store_byte_frame st h a v :
  hp (store_byte st h a v) = hp st /\ log (store_byte st h a v) = log st /\
  g_zdebug_head (store_byte st h a v) = g_zdebug_head st.
Proof. unfold store_byte. destruct (in_fields h a); repeat split. Qed.

Lemma store_bytes_frame h v n : forall st p,
  hp (store_bytes st h p v n) = hp st /\ log (store_bytes st h p v n) = log st /\
  g_zdebug_head (store_bytes st h p v n) = g_zdebug_head st.
Proof.
  induction n as [|k IH]; intros st p; cbn [store_bytes]; [repeat split|].
  destruct (IH (store_byte st h (wrap p) v) (p + 1)) as (E1 & E2 & E3).
  destruct (store_byte_frame st h (wrap p) v) as (F1 & F2 & F3).
  repeat split; congruence.
Qed.

Lemma store_bytes_hp st h p v n : hp (store_bytes st h p v n) = hp st.
Proof. apply store_bytes_frame. Qed.

(** A [memset] that stays off the fields of the header writes the store of
    bytes only. *)
Lemma store_bytes_outside h v n : forall st p,
  (forall i : nat, (i < n)%nat -> in_fields h (wrap (p + Z.of_nat i)) = false) ->
  store_bytes st h p v n = set_bytes st (memset (bytes st) p v n).
Proof.
  induction n as [|k IH]; intros st p H; cbn [store_bytes memset].
  - destruct st; reflexivity.
  - rewrite store_byte_outside.
    2:{ specialize (H 0%nat ltac:(lia)). rewrite Z.add_0_r in H. exact H. }
    rewrite IH; [reflexivity|].
    intros i Hi. specialize (H (S i) ltac:(lia)).
    replace (p + 1 + Z.of_nat i) with (p + Z.of_nat (S i)) by lia. exact H.
Qed.

(** The address of the canary bytes of a block that lies in the address
    space: after the payload. *)
Lemma canary_addr h sz (i : nat) :
  0 < h -> 0 <= sz -> h + (sizeof_header + sz + ZDEBUG_CANARY_SIZE) <= modulus ->
  (i < 16)%nat ->
  wrap (wrap (user_mem h + sz) + Z.of_nat i) = h + sizeof_header + sz + Z.of_nat i.
Proof.
  intros Hh Hs Hend Hi. unfold user_mem, sizeof_header, ZDEBUG_CANARY_SIZE in *.
  rewrite (wrap_small (h + 40)) by lia.
  rewrite (wrap_small (h + 40 + sz)) by lia.
  apply wrap_small. lia.
Qed.

Lemma canary_off_fields h sz (i : nat) :
  0 < h -> 0 <= sz -> h + (sizeof_header + sz + ZDEBUG_CANARY_SIZE) <= modulus ->
  (i < 16)%nat ->
  in_fields h (wrap (wrap (user_mem h + sz) + Z.of_nat i)) = false.
Proof.
  intros Hh Hs Hend Hi. rewrite canary_addr by assumption.
  unfold in_fields, sizeof_header. apply andb_false_intro2. apply Z.ltb_ge. lia.
Qed.

(** Setting the canary of such a block is a [memset] on the store of
    bytes. *)
Lemma _zdebug_set_canary_bytes st h hd :
  hdrs st !! h = Some hd ->
  0 < h -> 0 <= size hd -> h + (sizeof_header + size hd + ZDEBUG_CANARY_SIZE) <= modulus ->
  _zdebug_set_canary st h
  = Done (set_bytes st (memset (bytes st) (wrap (user_mem h + size hd))
                               ZDEBUG_CANARY_VAL (Z.to_nat ZDEBUG_CANARY_SIZE))).
Proof.
  intros Hhd Hh Hs Hend. unfold _zdebug_set_canary, load. rewrite Hhd.
  cbn [mbind outcome_bind]. f_equal. apply store_bytes_outside.
  intros i Hi. change (Z.to_nat ZDEBUG_CANARY_SIZE) with 16%nat in Hi.
  apply canary_off_fields; assumption.
Qed.

End DebugCanary.

(** ** Debug guard: violations found by [zdebug_free] *)

Section DebugFree.
  Import Debug.

(** The sixteen bytes from [user_mem + size] on, for the header at [h],
    hold the sentinel. *)
Definition canary_intact (st : state) (h : Z) (hd : zdebug_header) : Prop :=
  forall i : nat, (i < 16)%nat ->
    load_byte st h (wrap (wrap (user_mem h + size hd) + Z.of_nat i))
    = Some ZDEBUG_CANARY_VAL.

(** The block of the header at [h] lies in the address space, its canary
    after its payload. *)
Definition block_in_range (h : Z) (hd : zdebug_header) : Prop :=
  0 < h /\ 0 <= size hd /\
  h + (sizeof_header + size hd + ZDEBUG_CANARY_SIZE) <= modulus.

Lemma check_canary_true st h hd :
  hdrs st !! h = Some hd ->
  _zdebug_check_canary st h = Done true -> canary_intact st h hd.
Proof.
  unfold _zdebug_check_canary, load. intros ->. cbn -[forallb seq].
  intros H. apply Done_inj in H. rewrite forallb_forall in H.
  intros i Hi. specialize (H i). unfold canary_byte_ok in H.
  destruct (load_byte st h _) as [v|] eqn:E.
  - f_equal. apply Z.eqb_eq. apply H. apply in_seq.
    change (Z.to_nat ZDEBUG_CANARY_SIZE) with 16%nat. lia.
  - discriminate H. apply in_seq.
    change (Z.to_nat ZDEBUG_CANARY_SIZE) with 16%nat. lia.
Qed.

Lemma check_canary_intact st h hd :
  hdrs st !! h = Some hd ->
  canary_intact st h hd -> _zdebug_check_canary st h = Done true.
Proof.
  unfold _zdebug_check_canary, load. intros -> Hc. cbn -[forallb seq].
  f_equal. apply forallb_forall. intros i Hi. apply in_seq in Hi.
  change (Z.to_nat ZDEBUG_CANARY_SIZE) with 16%nat in Hi.
  unfold canary_byte_ok. rewrite Hc by lia. apply Z.eqb_refl.
Qed.

Lemma check_canary_total st h hd :
  hdrs st !! h = Some hd -> exists b, _zdebug_check_canary st h = Done b.
Proof.
  unfold _zdebug_check_canary, load. intros ->. cbn -[forallb seq]. eauto.
Qed.

(** C6. [zdebug_free(p)] on a non-null [p] whose header is readable never
    returns when the magic is not ALIVE or the canary is damaged: it aborts
    with the double-free report and the allocation site when the magic is
    FREED, with the invalid-free report when the magic is anything else but
    ALIVE, and with the buffer-overflow report and the allocation site when
    the magic is ALIVE and one of the sixteen bytes after the payload
    differs from the sentinel. *)
Theorem zdebug_free_violation_aborts (st : state) (ptr : Z) (hd : zdebug_header) :
  ptr <> 0 ->
  hdrs st !! wrap (ptr - sizeof_header) = Some hd ->
  (magic hd = ZDEBUG_MAGIC_FREED ->
     zdebug_free st ptr = Abort (DoubleFree ptr (file hd) (line hd))) /\
  (magic hd <> ZDEBUG_MAGIC_ALIVE -> magic hd <> ZDEBUG_MAGIC_FREED ->
     zdebug_free st ptr = Abort (InvalidFree ptr)) /\
  (magic hd = ZDEBUG_MAGIC_ALIVE ->
   block_in_range (wrap (ptr - sizeof_header)) hd ->
   ~ canary_intact st (wrap (ptr - sizeof_header)) hd ->
     zdebug_free st ptr = Abort (BufferOverflow ptr (file hd) (line hd))).
Proof.
  intros Hp Hh.
  assert (Hnz : (ptr =? 0) = false) by (apply Z.eqb_neq; exact Hp).
  repeat split.
  - intros Hm. unfold zdebug_free, load. rewrite Hnz, Hh. cbn. rewrite Hm.
    reflexivity.
  - intros Ha Hf. unfold zdebug_free, load. rewrite Hnz, Hh. cbn.
    apply Z.eqb_neq in Ha, Hf. rewrite Ha, Hf. reflexivity.
  - intros Hm _ Hc. unfold zdebug_free. rewrite Hnz.
    unfold load at 1. rewrite Hh. cbn -[_zdebug_check_canary].
    rewrite Hm. cbn -[_zdebug_check_canary].
    destruct (check_canary_total st _ hd Hh) as [b Hb]. rewrite Hb.
    destruct b; [|reflexivity].
    exfalso. apply Hc. eapply check_canary_true; eassumption.
Qed.

(** An allocation of three bytes whose client has written a fourth. *)
Definition overrun : state :=
  State {[ 4096 := Header 0 0 "main.c" 3 10 ZDEBUG_MAGIC_ALIVE ]}
        (<[4139 := 0]> (memset ∅ 4139 ZDEBUG_CANARY_VAL 16)) 4096 []
        (Heap [] [Malloc 59 4096]).

Lemma zdebug_free_violation_witness :
  zdebug_free overrun 4136 = Abort (BufferOverflow 4136 "main.c" 10).
Proof.
  refine (proj2 (proj2 (zdebug_free_violation_aborts overrun 4136
            (Header 0 0 "main.c" 3 10 ZDEBUG_MAGIC_ALIVE) _ _)) _ _ _).
  - lia.
  - reflexivity.
  - reflexivity.
  - vm_compute. repeat split; congruence.
  - intros Hc. specialize (Hc 0%nat ltac:(lia)). vm_compute in Hc. discriminate.
Defined.

(** Releasing the same pointer twice is not always found.  The memory of a
    released block belongs to the backend, which may grant it again: here
    the client releases [p], allocates again and gets the same block, and
    releases [p] a second time.  The second release finds a header that is
    ALIVE (that of the new allocation) and returns without a report. *)
Lemma zdebug_free_twice_unnoticed :
  exists st1 st2 st3 st4,
    zdebug_malloc_loc (Platform bump reusing) initial 3 "a.c" 10 = Done (4136, st1) /\
    zdebug_free st1 4136 = Done st2 /\
    zdebug_malloc_loc (Platform bump reusing) st2 3 "b.c" 20 = Done (4136, st3) /\
    zdebug_free st3 4136 = Done st4 /\
    log st4 = [] /\
    ccalls (hp st4) = [Free 4096; Malloc 59 4096; Free 4096; Malloc 59 4096].
Proof.
  eexists. eexists. eexists. eexists.
  split; [vm_compute; reflexivity|].
  split; [vm_compute; reflexivity|].
  split; [vm_compute; reflexivity|].
  split; [vm_compute; reflexivity|].
  split; vm_compute; reflexivity.
Qed.

End DebugFree.

(** ** Bytes *)

Lemma memset_keeps n : forall (mem : gmap Z Z) p v a,
  mem !! a = Some v -> memset mem p v n !! a = Some v.
Proof.
  induction n as [|k IH]; intros mem p v a H; cbn; [exact H|].
  apply IH. destruct (decide (wrap p = a)) as [->|Hne].
  - apply lookup_insert_eq.
  - rewrite lookup_insert_ne by exact Hne. exact H.
Qed.

Lemma memset_lookup n : forall (mem : gmap Z Z) p v (i : nat),
  (i < n)%nat -> memset mem p v n !! wrap (p + Z.of_nat i) = Some v.
Proof.
  induction n as [|k IH]; intros mem p v i Hi; [lia|].
  cbn [memset]. destruct i as [|j].
  - apply memset_keeps. replace (p + Z.of_nat 0) with p by lia.
    apply lookup_insert_eq.
  - replace (p + Z.of_nat (S j)) with (p + 1 + Z.of_nat j) by lia.
    apply IH. lia.
Qed.

Lemma memset_other n : forall (mem : gmap Z Z) p v a,
  (forall i : nat, (i < n)%nat -> wrap (p + Z.of_nat i) <> a) ->
  memset mem p v n !! a = mem !! a.
Proof.
  induction n as [|k IH]; intros mem p v a H; cbn [memset]; [reflexivity|].
  rewrite IH.
  - apply lookup_insert_ne. specialize (H 0%nat ltac:(lia)).
    replace (p + Z.of_nat 0) with p in H by lia. exact H.
  - intros i Hi. specialize (H (S i) ltac:(lia)).
    replace (p + 1 + Z.of_nat i) with (p + Z.of_nat (S i)) by lia. exact H.
Qed.

Lemma memcpy_other n : forall (src_mem mem : gmap Z Z) dst src a,
  (forall i : nat, (i < n)%nat -> wrap (dst + Z.of_nat i) <> a) ->
  memcpy src_mem mem dst src n !! a = mem !! a.
Proof.
  induction n as [|k IH]; intros src_mem mem dst src a H; cbn [memcpy]; [reflexivity|].
  rewrite IH.
  - specialize (H 0%nat ltac:(lia)).
    replace (dst + Z.of_nat 0) with dst in H by lia.
    destruct (src_mem !! wrap src).
    + apply lookup_insert_ne. exact H.
    + apply lookup_delete_ne. exact H.
  - intros i Hi. specialize (H (S i) ltac:(lia)).
    replace (dst + 1 + Z.of_nat i) with (dst + Z.of_nat (S i)) by lia. exact H.
Qed.

(** ** Debug guard: the size computed by [zdebug_calloc_loc] *)

Section DebugCalloc.
  Import Debug.

(** What [_zdebug_add] needs to link a header: a list head that is null or
    a readable header. *)
Definition head_readable (st : state) : Prop :=
  g_zdebug_head st = 0 \/ is_Some (hdrs st !! g_zdebug_head st).

Lemma _zdebug_add_returns st h hd :
  hdrs st !! h = Some hd -> head_readable st ->
  exists st', _zdebug_add st h = Done st'.
Proof.
  intros Hh Hg. unfold _zdebug_add, modify. rewrite Hh. cbn.
  destruct (g_zdebug_head st =? 0) eqn:E; cbn; [eauto|].
  destruct Hg as [Hg|Hg]; [apply Z.eqb_neq in E; contradiction|].
  destruct (decide (h = g_zdebug_head st)) as [<-|Hne].
  - rewrite lookup_insert_eq. cbn. eauto.
  - rewrite lookup_insert_ne by exact Hne. destruct Hg as [x ->]. cbn. eauto.
Qed.

(** C8, as the code has it.  [zdebug_calloc_loc] multiplies with wrap-around
    and checks nothing.  When [count * size] exceeds the largest [size_t]
    and the wrapped product [m] is not zero, it asks [malloc] for
    [m + 56] bytes (header, [m] payload bytes, canary) and, when the backend
    grants them at [h], returns the payload address [h + 40], records [m]
    as the size of the allocation and writes the [m + 16] bytes after the
    header and no other: zero to the [m] bytes of the payload, the sentinel
    to the sixteen bytes after them.  When [m] is zero it returns the null
    pointer without calling the backend. *)
Theorem zdebug_calloc_wraps (P : platform) (st : state) (count sz : Z)
    (f : string) (l : Z) :
  let m := wrap (count * sz) in
  let h := bk_malloc (stdlib P) (ccalls (hp st)) (m + 56) in
  0 <= count < modulus -> 0 <= sz < modulus ->
  modulus <= count * sz ->
  head_readable st ->
  (m = 0 -> zdebug_calloc_loc P st count sz f l = Done (0, st)) /\
  (m <> 0 -> 0 < h -> h + (m + 56) <= modulus ->
   exists st' hd,
     zdebug_calloc_loc P st count sz f l = Done (h + 40, st') /\
     ccalls (hp st') = Malloc (m + 56) h :: ccalls (hp st) /\
     hdrs st' !! h = Some hd /\
     size hd = m /\ magic hd = ZDEBUG_MAGIC_ALIVE /\
     file hd = f /\ line hd = l /\
     (forall a, h + 40 <= a < h + 40 + m -> bytes st' !! a = Some 0) /\
     (forall a, h + 40 + m <= a < h + 56 + m ->
        bytes st' !! a = Some ZDEBUG_CANARY_VAL) /\
     (forall a, ~ (h + 40 <= a < h + 56 + m) -> bytes st' !! a = bytes st !! a)).
Proof.
  intros m h Hc Hs Hover Hg. split.
  - intros Hm. unfold zdebug_calloc_loc, zdebug_malloc_loc. fold m.
    rewrite Hm. reflexivity.
  - intros Hm Hpos Hfit.
    pose proof (wrap_range (count * sz)) as Hr. fold m in Hr.
    unfold zdebug_calloc_loc, zdebug_malloc_loc. fold m.
    assert (Et : wrap (sizeof_header + m + ZDEBUG_CANARY_SIZE) = m + 56).
    { unfold sizeof_header, ZDEBUG_CANARY_SIZE.
      rewrite wrap_small by lia. lia. }
    rewrite Et. unfold malloc. fold h.
    assert (Hh : h <> 0) by lia.
    apply Z.eqb_neq in Hm as Em. apply Z.eqb_neq in Hh as Eh. rewrite Em, Eh.
    assert (Ef : (m + 56 <? sizeof_header) = false).
    { apply Z.ltb_ge. unfold sizeof_header. lia. }
    rewrite Ef.
    set (hd0 := Header 0 0 f m l ZDEBUG_MAGIC_ALIVE).
    set (st1 := State (<[h:=hd0]> (hdrs st)) (bytes st) (g_zdebug_head st) (log st)
                      (Heap (zcalls (hp st)) (Malloc (m + 56) h :: ccalls (hp st)))).
    assert (H1 : hdrs st1 !! h = Some hd0) by apply lookup_insert_eq.
    rewrite (_zdebug_set_canary_bytes st1 h hd0 H1)
      by (unfold sizeof_header, ZDEBUG_CANARY_SIZE; cbn [size hd0]; lia).
    cbn [mbind outcome_bind size hd0 bytes st1].
    set (st2 := set_bytes st1 _).
    destruct (_zdebug_add_returns st2 h hd0) as [st3 H3].
    { exact H1. }
    { destruct Hg as [Hg|Hg]; [left; exact Hg|right]. cbn.
      destruct (decide (h = g_zdebug_head st)) as [<-|Hne].
      - rewrite lookup_insert_eq. eauto.
      - rewrite lookup_insert_ne by exact Hne. exact Hg. }
    rewrite H3. cbn [mbind outcome_bind].
    assert (Eu : user_mem h = h + 40).
    { unfold user_mem, sizeof_header. apply wrap_small. lia. }
    rewrite Eu.
    assert (En : (h + 40 =? 0) = false) by (apply Z.eqb_neq; lia).
    rewrite En.
    assert (Ew : (m + 56 <? sizeof_header + m) = false).
    { apply Z.ltb_ge. unfold sizeof_header. lia. }
    rewrite Ew.
    apply _zdebug_add_links_only in H3 as (L & Eb3 & _ & Hhp).
    destruct (L h hd0 H1) as (hd & Hl & Sf & Sl & Ss & Sm).
    eexists. exists hd. split; [reflexivity|].
    cbn [hp hdrs bytes set_bytes]. rewrite Hhp, Eb3.
    split; [reflexivity|]. split; [exact Hl|].
    split; [exact Ss|]. split; [exact Sm|]. split; [exact Sf|]. split; [exact Sl|].
    cbn [bytes st2 set_bytes st1]. rewrite Eu.
    rewrite (wrap_small (h + 40 + m)) by lia.
    change (Z.to_nat ZDEBUG_CANARY_SIZE) with 16%nat.
    split; [|split].
    + intros a Ha.
      replace a with (wrap (h + 40 + Z.of_nat (Z.to_nat (a - (h + 40)))))
        by (rewrite Z2Nat.id by lia; rewrite wrap_small by lia; lia).
      apply memset_lookup. lia.
    + intros a Ha. rewrite memset_other.
      * replace a with (wrap (h + 40 + m + Z.of_nat (Z.to_nat (a - (h + 40 + m)))))
          by (rewrite Z2Nat.id by lia; rewrite wrap_small by lia; lia).
        apply memset_lookup. lia.
      * intros i Hi. rewrite wrap_small by lia. lia.
    + intros a Ha. rewrite !memset_other; [reflexivity| |].
      * intros i Hi. rewrite wrap_small by lia. lia.
      * intros i Hi. rewrite wrap_small by lia. lia.
Qed.

(** The product of [2^32] and [2^32] exceeds the largest [size_t] and wraps
    to zero: the call returns the null pointer, allocates nothing and
    records nothing. *)
Lemma zdebug_calloc_wrapped_to_zero :
  modulus - 1 < 2 ^ 32 * 2 ^ 32 /\
  zdebug_calloc_loc default_platform initial (2 ^ 32) (2 ^ 32) "main.c" 7
  = Done (0, initial).
Proof. split; reflexivity. Qed.

Lemma zdebug_calloc_wraps_witness :
  exists st' hd,
    zdebug_calloc_loc default_platform initial (2 ^ 63 + 1) 2 "main.c" 7
      = Done (4096 + 40, st') /\
    ccalls (hp st') = [Malloc 58 4096] /\
    hdrs st' !! 4096 = Some hd /\ size hd = 2 /\
    bytes st' !! 4136 = Some 0 /\ bytes st' !! 4137 = Some 0 /\
    bytes st' !! 4138 = Some ZDEBUG_CANARY_VAL /\
    bytes st' !! 4154 = bytes initial !! 4154.
Proof.
  destruct (proj2 (zdebug_calloc_wraps default_platform initial (2 ^ 63 + 1) 2
                     "main.c" 7 ltac:(vm_compute; split; [discriminate | reflexivity])
                     ltac:(vm_compute; split; [discriminate | reflexivity])
                     ltac:(vm_compute; discriminate)
                     ltac:(left; reflexivity))
             ltac:(vm_compute; discriminate) ltac:(reflexivity)
             ltac:(vm_compute; discriminate))
    as (st' & hd & H1 & H2 & H3 & H4 & _ & _ & _ & B1 & B2 & B3).
  exists st', hd.
  split; [exact H1|]. split; [exact H2|]. split; [exact H3|]. split; [exact H4|].
  split; [apply B1; vm_compute; split; [discriminate | reflexivity]|].
  split; [apply B1; vm_compute; split; [discriminate | reflexivity]|].
  split; [apply B2; vm_compute; split; [discriminate | reflexivity]|].
  apply B3. vm_compute. intros [_ H]. discriminate H.
Defined.

End DebugCalloc.

(** ** Which primitive each component calls *)

(** Takes apart a hypothesis [H : e = Done r], following the binds and the
    tests of [e]. *)
Ltac done_inv H :=
  repeat first
    [ discriminate H
    | progress (apply Done_inj in H)
    | match type of H with
      | (_ ≫= _) = Done _ =>
          let r := fresh "r" in
          let Hr := fresh "Hr" in
          apply bind_Done_inv in H; destruct H as (r & Hr & H)
      | (let '(_, _) := ?x in _) = Done _ => destruct x eqn:?
      | (if ?c then _ else _) = Done _ => destruct c eqn:?
      | (match ?x with _ => _ end) = Done _ => destruct x eqn:?
      end ].

(** The same, for every hypothesis of the context. *)
Ltac done_inv_all :=
  repeat match goal with
    | H : (_ ≫= _) = Done _ |- _ => done_inv H
    | H : (let '(_, _) := _ in _) = Done _ |- _ => done_inv H
    | H : (if _ then _ else _) = Done _ |- _ => done_inv H
    | H : (match _ with _ => _ end) = Done _ |- _ => done_inv H
    | H : Done _ = Done _ |- _ => apply Done_inj in H
    end;
  simplify_eq.

Section ArenaRouting.
  Import Arena.
  Variable P : platform.

Lemma _zarena_new_block_ccalls m cap b m' :
  _zarena_new_block P m cap = Done (b, m') -> ccalls (hp m') = ccalls (hp m).
Proof.
  unfold _zarena_new_block, Z_MALLOC. intros H. done_inv_all; reflexivity.
Qed.

Lemma bump_head_ccalls a m size align p a' m' :
  bump_head a m size align = Done (Some (p, a', m')) ->
  ccalls (hp m') = ccalls (hp m).
Proof. unfold bump_head. intros H. done_inv_all; reflexivity. Qed.

Lemma advance_ccalls a m size align p a' m' :
  advance a m size align = Done (Some (p, a', m')) ->
  ccalls (hp m') = ccalls (hp m).
Proof. unfold advance. intros H. done_inv_all; reflexivity. Qed.

Lemma grow_ccalls a m size align p a' m' :
  grow P a m size align = Done (p, a', m') ->
  ccalls (hp m') = ccalls (hp m).
Proof.
  unfold grow. intros H. done_inv H; simplify_eq;
    match goal with
    | Hn : _zarena_new_block _ _ _ = Done _ |- _ =>
        apply _zarena_new_block_ccalls in Hn
    end; done_inv_all; cbn; congruence.
Qed.

Lemma zarena_alloc_align_ccalls a m size align p a' m' :
  zarena_alloc_align P a m size align = Done (p, a', m') ->
  ccalls (hp m') = ccalls (hp m).
Proof.
  unfold zarena_alloc_align. intros H. done_inv H; simplify_eq.
  - reflexivity.
  - eapply bump_head_ccalls; eassumption.
  - eapply advance_ccalls; eassumption.
  - eapply grow_ccalls; eassumption.
Qed.

Lemma zarena_realloc_ccalls a m old_ptr old_size new_size p a' m' :
  zarena_realloc P a m old_ptr old_size new_size = Done (p, a', m') ->
  ccalls (hp m') = ccalls (hp m).
Proof.
  unfold zarena_realloc, zarena_alloc, extend_tail. intros H.
  done_inv H; simplify_eq; try reflexivity;
    repeat match goal with
    | Hn : zarena_alloc_align _ _ _ _ _ = Done _ |- _ =>
        apply zarena_alloc_align_ccalls in Hn
    end; done_inv_all; cbn; congruence.
Qed.

Lemma free_loop_ccalls fuel : forall bs h curr h',
  free_loop fuel bs h curr = Done h' -> ccalls h' = ccalls h.
Proof.
  induction fuel as [|k IH]; intros bs h curr h' H; cbn in H.
  - done_inv H. congruence.
  - done_inv H; [congruence|]. apply IH in H. exact H.
Qed.

Lemma step_ccalls a m o p a' m' :
  step P a m o = Done (p, a', m') -> ccalls (hp m') = ccalls (hp m).
Proof.
  destruct o; cbn [step]; intros H.
  - eapply zarena_alloc_align_ccalls; exact H.
  - eapply zarena_alloc_align_ccalls; exact H.
  - unfold zarena_alloc_zero in H. done_inv H; simplify_eq;
      match goal with
      | Hn : zarena_alloc_align _ _ _ _ _ = Done _ |- _ =>
          apply zarena_alloc_align_ccalls in Hn
      end; cbn; congruence.
  - eapply zarena_realloc_ccalls; exact H.
  - unfold zarena_reset in H. done_inv_all. reflexivity.
Qed.

Lemma zarena_free_ccalls a m a' m' :
  zarena_free a m = Done (a', m') -> ccalls (hp m') = ccalls (hp m).
Proof.
  unfold zarena_free. intros H. done_inv H. simplify_eq. cbn.
  eapply free_loop_ccalls; eassumption.
Qed.

End ArenaRouting.

Section PoolRouting.
  Import Pool.
  Variable P : platform.

Lemma _zpool_grow_ccalls p m p' m' :
  _zpool_grow P p m = Done (p', m') -> ccalls (hp m') = ccalls (hp m).
Proof.
  unfold _zpool_grow, Z_MALLOC, Z_REALLOC, Z_FREE. intros H.
  done_inv_all; try reflexivity; repeat case_match; simplify_eq; reflexivity.
Qed.

Lemma zpool_alloc_ccalls p m r p' m' :
  zpool_alloc P p m = Done (r, p', m') -> ccalls (hp m') = ccalls (hp m).
Proof.
  unfold zpool_alloc. intros H.
  assert (Hg : forall p1 m1,
             (if head p =? 0 then _zpool_grow P p m else Done (p, m)) = Done (p1, m1) ->
             ccalls (hp m1) = ccalls (hp m)).
  { intros p1 m1 Hg. destruct (head p =? 0).
    - eapply _zpool_grow_ccalls; exact Hg.
    - simplify_eq. reflexivity. }
  done_inv H; simplify_eq; eapply Hg; eassumption.
Qed.

Lemma free_slabs_ccalls n : forall p w h i h',
  free_slabs p w h i n = Done h' -> ccalls h' = ccalls h.
Proof.
  induction n as [|k IH]; intros p w h i h' H; cbn in H.
  - done_inv H. congruence.
  - done_inv H. apply IH in H. exact H.
Qed.

Lemma zpool_free_ccalls p m p' m' :
  zpool_free p m = Done (p', m') -> ccalls (hp m') = ccalls (hp m).
Proof.
  unfold zpool_free. intros H. done_inv H. simplify_eq. cbn.
  apply free_slabs_ccalls in Hr. destruct (blocks p =? 0); cbn; exact Hr.
Qed.

End PoolRouting.

Section DebugRouting.
  Import Debug.
  Variable P : platform.

Lemma zdebug_malloc_loc_zcalls st sz f l p st' :
  zdebug_malloc_loc P st sz f l = Done (p, st') ->
  zcalls (hp st') = zcalls (hp st).
Proof.
  unfold zdebug_malloc_loc, malloc, _zdebug_set_canary. intros H.
  done_inv H; simplify_eq; try reflexivity.
  done_inv_all.
  match goal with
  | Ha : _zdebug_add _ _ = Done _ |- _ =>
      apply _zdebug_add_links_only in Ha as (_ & _ & _ & ->)
  end. rewrite store_bytes_hp. reflexivity.
Qed.

Lemma zdebug_calloc_loc_zcalls st count sz f l p st' :
  zdebug_calloc_loc P st count sz f l = Done (p, st') ->
  zcalls (hp st') = zcalls (hp st).
Proof.
  unfold zdebug_calloc_loc. intros H. done_inv H; simplify_eq;
    match goal with
    | Hm : zdebug_malloc_loc _ _ _ _ _ = Done _ |- _ =>
        apply zdebug_malloc_loc_zcalls in Hm
    end; cbn; congruence.
Qed.

Lemma zdebug_free_zcalls st ptr st' :
  zdebug_free st ptr = Done st' -> zcalls (hp st') = zcalls (hp st).
Proof.
  unfold zdebug_free. intros H. done_inv H; simplify_eq; try reflexivity.
  match goal with
  | Hm : modify _ _ _ = Done _ |- _ => apply modify_inv in Hm as (? & _ & ->)
  end.
  match goal with
  | Ha : _zdebug_remove _ _ = Done _ |- _ =>
      apply _zdebug_remove_links_only in Ha as (_ & _ & _ & Hh)
  end. cbn. rewrite Hh. reflexivity.
Qed.

Lemma zdebug_realloc_loc_zcalls st ptr sz f l p st' :
  zdebug_realloc_loc P st ptr sz f l = Done (p, st') ->
  zcalls (hp st') = zcalls (hp st).
Proof.
  unfold zdebug_realloc_loc, realloc, _zdebug_set_canary, moved. intros H.
  destruct (ptr =? 0); [eapply zdebug_malloc_loc_zcalls; exact H|].
  destruct (sz =? 0).
  { done_inv H. simplify_eq. eapply zdebug_free_zcalls; eassumption. }
  done_inv H; simplify_eq; done_inv_all;
    repeat match goal with
    | Ha : _zdebug_add _ _ = Done _ |- _ =>
        apply _zdebug_add_links_only in Ha as (_ & _ & _ & ->)
    | Ha : _zdebug_remove _ _ = Done _ |- _ =>
        apply _zdebug_remove_links_only in Ha as (_ & _ & _ & ?)
    | Hm : modify _ _ _ = Done _ |- _ => apply modify_inv in Hm as (? & _ & ->)
    end; rewrite ?store_bytes_hp; cbn; repeat case_match; cbn; congruence.
Qed.

Lemma leaks_loop_hp fuel : forall st curr count b count' b' st',
  leaks_loop fuel st curr count b = Done (count', b', st') -> hp st' = hp st.
Proof.
  induction fuel as [|k IH]; intros st curr count b count' b' st' H; cbn in H.
  - done_inv H. simplify_eq. reflexivity.
  - done_inv H; simplify_eq; [reflexivity|]. apply IH in H. exact H.
Qed.

Lemma zdebug_print_leaks_zcalls st n st' :
  zdebug_print_leaks st = Done (n, st') -> zcalls (hp st') = zcalls (hp st).
Proof.
  unfold zdebug_print_leaks. intros H. apply bind_Done_inv in H.
  destruct H as ([[c b] st2] & Hr & H). apply leaks_loop_hp in Hr.
  simplify_eq. repeat case_match; cbn; rewrite Hr; repeat case_match; reflexivity.
Qed.

End DebugRouting.

(** C5, as the code has it.  The arena and the pool reach the backend only
    through [Z_MALLOC], [Z_REALLOC] and [Z_FREE]: replacing the C library
    under them changes nothing, and none of their operations calls it.  The
    debug guard calls the C library's [malloc], [realloc] and [free]
    directly: replacing the injected primitive changes nothing for it, and
    none of its operations goes through that primitive. *)
Theorem components_route_backend_calls (Inj Inj' Lib Lib' : backend) :
  (forall a m o,
     Arena.step (Platform Inj Lib) a m o = Arena.step (Platform Inj Lib') a m o) /\
  (forall p m,
     Pool.zpool_alloc (Platform Inj Lib) p m = Pool.zpool_alloc (Platform Inj Lib') p m) /\
  (forall a m o p a' m',
     Arena.step (Platform Inj Lib) a m o = Done (p, a', m') ->
     ccalls (Arena.hp m') = ccalls (Arena.hp m)) /\
  (forall a m a' m',
     Arena.zarena_free a m = Done (a', m') ->
     ccalls (Arena.hp m') = ccalls (Arena.hp m)) /\
  (forall p m r p' m',
     Pool.zpool_alloc (Platform Inj Lib) p m = Done (r, p', m') ->
     ccalls (Pool.hp m') = ccalls (Pool.hp m)) /\
  (forall p m ptr, Pool.hp (Pool.zpool_recycle p m ptr).2 = Pool.hp m) /\
  (forall p m p' m',
     Pool.zpool_free p m = Done (p', m') ->
     ccalls (Pool.hp m') = ccalls (Pool.hp m)) /\
  (forall st sz f l,
     Debug.zdebug_malloc_loc (Platform Inj Lib) st sz f l
     = Debug.zdebug_malloc_loc (Platform Inj' Lib) st sz f l) /\
  (forall st count sz f l,
     Debug.zdebug_calloc_loc (Platform Inj Lib) st count sz f l
     = Debug.zdebug_calloc_loc (Platform Inj' Lib) st count sz f l) /\
  (forall st ptr sz f l,
     Debug.zdebug_realloc_loc (Platform Inj Lib) st ptr sz f l
     = Debug.zdebug_realloc_loc (Platform Inj' Lib) st ptr sz f l) /\
  (forall st sz f l p st',
     Debug.zdebug_malloc_loc (Platform Inj Lib) st sz f l = Done (p, st') ->
     zcalls (Debug.hp st') = zcalls (Debug.hp st)) /\
  (forall st count sz f l p st',
     Debug.zdebug_calloc_loc (Platform Inj Lib) st count sz f l = Done (p, st') ->
     zcalls (Debug.hp st') = zcalls (Debug.hp st)) /\
  (forall st ptr sz f l p st',
     Debug.zdebug_realloc_loc (Platform Inj Lib) st ptr sz f l = Done (p, st') ->
     zcalls (Debug.hp st') = zcalls (Debug.hp st)) /\
  (forall st ptr st',
     Debug.zdebug_free st ptr = Done st' ->
     zcalls (Debug.hp st') = zcalls (Debug.hp st)) /\
  (forall st n st',
     Debug.zdebug_print_leaks st = Done (n, st') ->
     zcalls (Debug.hp st') = zcalls (Debug.hp st)).
Proof.
  repeat apply conj.
  - intros a m o. destruct o; reflexivity.
  - intros. reflexivity.
  - intros a m o p a' m'. apply step_ccalls.
  - intros a m a' m'. apply zarena_free_ccalls.
  - intros p m r p' m'. apply zpool_alloc_ccalls.
  - intros p m ptr. unfold Pool.zpool_recycle. destruct (ptr =? 0); reflexivity.
  - intros p m p' m'. apply zpool_free_ccalls.
  - intros. reflexivity.
  - intros. reflexivity.
  - intros. reflexivity.
  - intros st sz f l p st'. apply zdebug_malloc_loc_zcalls.
  - intros st count sz f l p st'. apply zdebug_calloc_loc_zcalls.
  - intros st ptr sz f l p st'. apply zdebug_realloc_loc_zcalls.
  - intros st ptr st'. apply zdebug_free_zcalls.
  - intros st n st'. apply zdebug_print_leaks_zcalls.
Qed.

(** With an injected primitive that refuses everything, the debug guard
    still allocates: the call went to the C library, and the history of the
    injected primitive is empty. *)
Lemma debug_guard_bypasses_injected_backend :
  exists st,
    Debug.zdebug_malloc_loc (Platform exhausted bump) Debug.initial 8 "main.c" 3
      = Done (4136, st) /\
    zcalls (Debug.hp st) = [] /\
    ccalls (Debug.hp st) = [Malloc 64 4096].
Proof. eexists. split; [vm_compute; reflexivity | split; reflexivity]. Qed.

Lemma components_route_backend_calls_witness :
  exists p st',
    Debug.zdebug_malloc_loc (Platform exhausted bump) Debug.initial 8 "main.c" 3
      = Done (p, st') /\
    zcalls (Debug.hp st') = zcalls (Debug.hp Debug.initial).
Proof.
  eexists _, _. split.
  - vm_compute. reflexivity.
  - pose proof (components_route_backend_calls exhausted exhausted bump bump) as H.
    destruct H as (_&_&_&_&_&_&_&_&_&_&H&_).
    eapply (H Debug.initial 8 "main.c" 3). vm_compute. reflexivity.
Defined.

(** ** Arena: what [total_alloc] counts *)

Lemma wrap_add_r a b : wrap (a + wrap b) = wrap (a + b).
Proof. unfold wrap. rewrite Zplus_mod_idemp_r. reflexivity. Qed.

Lemma wrap_add_l a b : wrap (wrap a + b) = wrap (a + b).
Proof. unfold wrap. rewrite Zplus_mod_idemp_l. reflexivity. Qed.

Section ArenaTotal.
  Import Arena.

(** The regions a client holds, as the specification counts them: an
    allocation adds its region, a resize replaces the old region by the new
    one, a reset drops them all. *)
Definition spec_holds (l : list (Z * Z)) (o : op) (p : Z) : list (Z * Z) :=
  match o with
  | Alloc s | AllocAlign s _ | AllocZero s => if p =? 0 then l else (p, s) :: l
  | ReallocOp old _ ns =>
      if p =? 0 then l else (p, ns) :: filter (fun r => r.1 <> old) l
  | Reset => []
  end.

Fixpoint spec_live_regions (l : list (Z * Z)) (ops : list op) (ps : list Z)
  : list (Z * Z) :=
  match ops, ps with
  | o :: ops', p :: ps' => spec_live_regions (spec_holds l o p) ops' ps'
  | _, _ => l
  end.

(** The live requested payload bytes of the specification. *)
Definition spec_live_bytes (l : list (Z * Z)) : Z :=
  fold_right (fun r acc => r.2 + acc) 0 l.

Variable P : platform.

Lemma zarena_alloc_align_total a m size align p a' m' :
  zarena_alloc_align P a m size align = Done (p, a', m') ->
  total_alloc a' = wrap (total_alloc a + size) \/
  (p = 0 /\ total_alloc a' = total_alloc a).
Proof.
  unfold zarena_alloc_align, bump_head, advance, grow, _zarena_new_block, Z_MALLOC.
  intros H. done_inv H; simplify_eq; done_inv_all; cbn;
    solve [ left; reflexivity
          | right; split; first [reflexivity | apply Z.eqb_eq; assumption] ].
Qed.

(** A resize to a smaller size, and a resize that moves the region: the
    bytes that are no longer requested are still in [total_alloc]. *)
Lemma total_alloc_counts_abandoned_bytes :
  (exists ps a m,
     run default_platform zarena_init empty_memory
         [Alloc 20; ReallocOp 4128 20 10] = Done (ps, a, m) /\
     ps = [4128; 4128] /\
     spec_live_bytes
       (spec_live_regions [] [Alloc 20; ReallocOp 4128 20 10] ps) = 10 /\
     total_alloc a = 20) /\
  (exists ps a m,
     run default_platform zarena_init empty_memory
         [Alloc 10; Alloc 10; ReallocOp 4128 10 20] = Done (ps, a, m) /\
     ps = [4128; 4144; 4160] /\
     spec_live_bytes
       (spec_live_regions [] [Alloc 10; Alloc 10; ReallocOp 4128 10 20] ps) = 30 /\
     total_alloc a = 40).
Proof.
  split; do 3 eexists; (split; [vm_compute; reflexivity|]);
    repeat split; reflexivity.
Qed.

End ArenaTotal.

(** ** Alignment *)

(** [align] is a power of two that a [size_t] can hold. *)
Definition power_of_two (align : Z) : Prop :=
  exists k, 0 <= k < word_bits /\ align = 2 ^ k.

(** The distance from [x] up to the next multiple of [align]. *)
Definition padding_to (x align : Z) : Z := (- x) mod align.

Lemma power_of_two_pos al : power_of_two al -> 0 < al <= 2 ^ 63.
Proof.
  intros (k & Hk & ->). unfold word_bits in Hk. split.
  - apply Z.pow_pos_nonneg; lia.
  - apply Z.pow_le_mono_r; lia.
Qed.

Lemma power_of_two_divides al : power_of_two al -> exists K, modulus = al * K /\ 0 < K.
Proof.
  intros (k & Hk & ->). unfold modulus, word_bits in *.
  exists (2 ^ (64 - k)). split.
  - rewrite <- Z.pow_add_r by lia. f_equal. lia.
  - apply Z.pow_pos_nonneg; lia.
Qed.

Lemma padding_to_range x al : 0 < al -> 0 <= padding_to x al < al.
Proof. intros H. unfold padding_to. apply Z.mod_pos_bound. exact H. Qed.

Lemma padding_to_aligned x al : 0 < al -> (x + padding_to x al) mod al = 0.
Proof.
  intros H. unfold padding_to.
  rewrite Zplus_mod_idemp_r. replace (x + - x) with 0 by lia.
  apply Z.mod_0_l. lia.
Qed.

Lemma land_clear_low z k :
  0 <= k < word_bits -> 0 <= z < modulus ->
  Z.land z (wnot (2 ^ k - 1)) = z - z mod 2 ^ k.
Proof.
  intros Hk Hz. unfold wnot, wrap, modulus, word_bits in *.
  assert (E : Z.land z (Z.lnot (2 ^ k - 1) mod 2 ^ 64) = Z.ldiff z (Z.ones k)).
  { apply Z.bits_inj'. intros i Hi.
    rewrite Z.land_spec, Z.ldiff_spec.
    destruct (Z.ltb_spec i 64) as [Hlt|Hge].
    - rewrite Z.mod_pow2_bits_low by lia.
      rewrite Z.lnot_spec by lia. rewrite Z.ones_equiv. rewrite Z.sub_1_r.
      reflexivity.
    - assert (Hb : Z.testbit z i = false).
      { destruct (Z.eq_dec z 0) as [->|Hn]; [apply Z.bits_0|].
        apply Z.bits_above_log2; [lia|].
        apply Z.lt_le_trans with 64; [|exact Hge].
        apply Z.log2_lt_pow2; lia. }
      rewrite Hb. reflexivity. }
  rewrite E. rewrite Z.ldiff_ones_r by lia.
  rewrite Z.shiftl_mul_pow2, Z.shiftr_div_pow2 by lia.
  pose proof (Z.div_mod z (2 ^ k)) as D.
  assert (0 < 2 ^ k) by (apply Z.pow_pos_nonneg; lia). lia.
Qed.

Lemma land_power_of_two k :
  0 <= k -> Z.land (2 ^ k) (2 ^ k - 1) = 0.
Proof.
  intros Hk. apply Z.bits_inj'. intros i Hi.
  rewrite Z.land_spec, Z.bits_0.
  rewrite Z.pow2_bits_eqb by lia.
  replace (2 ^ k - 1) with (Z.ones k) by (rewrite Z.ones_equiv; lia).
  destruct (Z.eqb_spec k i) as [->|Hne]; [|reflexivity].
  rewrite Z.ones_spec_high by lia. reflexivity.
Qed.

(** On a power of two the assertion of [_zarena_align_ptr] holds and the
    result is [ptr] rounded up to the next multiple, as a [uintptr_t]. *)
Lemma _zarena_align_ptr_spec ptr al :
  power_of_two al -> 0 <= ptr < modulus ->
  Arena._zarena_align_ptr ptr al = Done (wrap (ptr + padding_to ptr al)).
Proof.
  intros Hal Hp.
  pose proof (power_of_two_pos al Hal) as Hpos.
  destruct (power_of_two_divides al Hal) as (K & HK & HK0).
  destruct Hal as (k & Hk & ->).
  unfold Arena._zarena_align_ptr.
  assert (E1 : wrap (2 ^ k - 1) = 2 ^ k - 1).
  { apply wrap_small. rewrite modulus_eq. lia. }
  rewrite E1, land_power_of_two by lia. cbn [Z.eqb]. f_equal.
  rewrite land_clear_low by (try apply wrap_range; exact Hk).
  remember (2 ^ k) as al eqn:Eal.
  remember (ptr + (al - 1)) as t eqn:Et.
  pose proof (padding_to_range ptr al ltac:(lia)) as Hpad.
  pose proof (padding_to_aligned ptr al ltac:(lia)) as Hali.
  remember (padding_to ptr al) as pad eqn:Epad.
  (* ptr + pad is the multiple of al at or below t *)
  assert (Ht : ptr + pad = t - t mod al).
  { apply Z.mod_divide in Hali; [|lia]. destruct Hali as [q Hq].
    assert (t = q * al + (al - 1 - pad)) by lia.
    assert (t mod al = al - 1 - pad).
    { symmetry. apply Z.mod_unique_pos with q; lia. }
    lia. }
  rewrite Ht.
  assert (Hm : forall y, wrap y mod al = y mod al).
  { intros y. unfold wrap. rewrite HK.
    rewrite (Z.rem_mul_r y al K) by lia.
    rewrite (Z.mul_comm al), Z.mod_add by lia. apply Z.mod_mod. lia. }
  rewrite Hm.
  pose proof (Z.mod_pos_bound t al ltac:(lia)) as Hr.
  unfold wrap.
  assert (Hd : (t - t mod al) = al * (t / al)).
  { pose proof (Z.div_mod t al ltac:(lia)). lia. }
  destruct (Z_lt_ge_dec t modulus) as [Hlt|Hge].
  - rewrite (Z.mod_small t) by lia.
    rewrite (Z.mod_small (t - t mod al)) by lia. reflexivity.
  - assert (E2 : t mod modulus = t - modulus).
    { symmetry. apply Z.mod_unique_pos with 1; rewrite ?modulus_eq in *; lia. }
    assert (Hge' : modulus <= t - t mod al).
    { rewrite Hd, HK.
      apply Z.mul_le_mono_nonneg_l; [lia|].
      apply Z.div_le_lower_bound; [lia|]. lia. }
    assert (E3 : (t - t mod al) mod modulus = t - t mod al - modulus).
    { symmetry. apply Z.mod_unique_pos with 1; rewrite ?modulus_eq in *; lia. }
    rewrite E2, E3. lia.
Qed.

(** ** Arena: the blocks of a run without reset *)

(** A list of numbers that never decreases. *)
Definition ascending (l : list Z) : Prop :=
  forall (i j : nat) x y, (i <= j)%nat -> l !! i = Some x -> l !! j = Some y -> x <= y.

Lemma ascending_snoc l x :
  ascending l -> (forall y, last l = Some y -> y <= x) -> ascending (l ++ [x]).
Proof.
  intros Hl Hx i j a b Hij Ha Hb.
  destruct (decide (j < length l)%nat) as [Hj|Hj].
  - rewrite lookup_app_l in Ha by lia. rewrite lookup_app_l in Hb by lia.
    exact (Hl i j a b Hij Ha Hb).
  - assert (j = length l).
    { apply lookup_lt_Some in Hb. rewrite length_app in Hb. cbn in Hb. lia. }
    subst j. rewrite lookup_app_r in Hb by lia.
    replace (length l - length l)%nat with 0%nat in Hb by lia.
    cbn in Hb. injection Hb as <-.
    destruct (decide (i < length l)%nat) as [Hi|Hi].
    + rewrite lookup_app_l in Ha by lia.
      destruct (last l) as [y|] eqn:El.
      * transitivity y; [|apply Hx; reflexivity].
        rewrite last_lookup in El.
        eapply (Hl i (pred (length l))); [lia|exact Ha|exact El].
      * apply last_None in El. subst l. cbn in Hi. lia.
    + assert (i = length l) by lia. subst i.
      rewrite lookup_app_r in Ha by lia.
      replace (length l - length l)%nat with 0%nat in Ha by lia.
      cbn in Ha. injection Ha as <-. lia.
Qed.

Lemma disjoint_sym b c : disjoint b c -> disjoint c b.
Proof. unfold disjoint. tauto. Qed.

Lemma disjoint_blocks_in l b c :
  disjoint_blocks l -> In b l -> In c l -> b <> c -> disjoint b c.
Proof.
  induction l as [|x t IH]; cbn; [tauto|].
  intros [Hx Ht] [Hb|Hb] [Hc|Hc] Hne; subst.
  - contradiction.
  - rewrite Forall_forall in Hx. apply Hx. apply list_elem_of_In. exact Hc.
  - rewrite Forall_forall in Hx. apply disjoint_sym, Hx.
    apply list_elem_of_In. exact Hb.
  - apply IH; assumption.
Qed.

Section ArenaInvariant.
  Import Arena.

(** The capacity recorded in the block at [b]. *)
Definition cap_of (m : memory) (b : Z) : Z :=
  match blocks m !! b with
  | Some blk => capacity blk
  | None => 0
  end.

(** The blocks of the arena are what the backend has granted and not got
    back; [capacities] lists their capacities in the order they were
    created. *)
Definition created (m : memory) : list Z :=
  rev (map fst (live (zcalls (hp m)))).

Definition capacities (m : memory) : list Z := map (cap_of m) (created m).

(** A granted block holds a block struct and its [capacity] bytes. *)
Definition block_ok (m : memory) (b : Z * Z) : Prop :=
  0 < b.1 /\ b.1 + b.2 < modulus /\ b.2 <= max_object /\
  exists blk, blocks m !! b.1 = Some blk /\
              b.2 = sizeof_block + capacity blk /\ 0 < capacity blk.

(** A region handed out lies in the data of a granted block, below the
    cursor when that block is the current one. *)
Definition region_ok (a : zarena) (m : memory) (r : Z * Z) : Prop :=
  0 < r.2 /\
  exists b, In b (live (zcalls (hp m))) /\
    b.1 + sizeof_block <= r.1 /\ r.1 + r.2 <= b.1 + b.2 /\
    (b.1 = head a ->
     forall hb, blocks m !! b.1 = Some hb -> r.1 + r.2 <= b.1 + sizeof_block + used hb).

(** What holds of an arena that has only allocated since [zarena_init],
    with [regs] the regions it has handed out. *)
Record arena_inv (a : zarena) (m : memory) (regs : list (Z * Z)) : Prop := ArenaInv {
  inv_head :
    head a = match live (zcalls (hp m)) with [] => 0 | b :: _ => b.1 end;
  inv_blocks : Forall (block_ok m) (live (zcalls (hp m)));
  inv_tail : forall hb, head a <> 0 -> blocks m !! head a = Some hb ->
               next hb = 0 /\ 0 <= used hb <= capacity hb;
  inv_disjoint : disjoint_blocks (live (zcalls (hp m)));
  inv_sorted : ascending (capacities m);
  inv_regions : Forall (region_ok a m) regs;
  inv_regions_disjoint : disjoint_blocks regs
}.

Lemma arena_inv_init m :
  zcalls (hp m) = [] -> arena_inv zarena_init m [].
Proof.
  intros H. constructor; unfold capacities, created; rewrite ?H; cbn;
    try solve [constructor | trivial].
  - intros hb Hn. contradiction.
  - intros i j x y _ Hx. discriminate.
Qed.

Lemma arena_inv_forget a m regs : arena_inv a m regs -> arena_inv a m [].
Proof.
  intros [H1 H2 H3 H4 H5 H6 H7]. constructor; try assumption; constructor.
Qed.

(** The current block is the newest granted block. *)
Lemma inv_head_live a m regs :
  arena_inv a m regs -> head a <> 0 ->
  exists n rest hb,
    live (zcalls (hp m)) = (head a, n) :: rest /\
    blocks m !! head a = Some hb /\
    n = sizeof_block + capacity hb /\ 0 < capacity hb /\
    0 < head a /\ head a + n < modulus /\ n <= max_object /\
    next hb = 0 /\ 0 <= used hb <= capacity hb.
Proof.
  intros I Hn. pose proof (inv_head _ _ _ I) as Hh.
  pose proof (inv_blocks _ _ _ I) as Hb.
  destruct (live (zcalls (hp m))) as [|[c n] rest] eqn:El; [contradiction|].
  cbn in Hh. subst c. apply Forall_cons in Hb as [(H1 & H2 & H3 & hb & H4 & H5 & H6) _].
  cbn in *. exists n, rest, hb.
  destruct (inv_tail _ _ _ I hb Hn H4) as [T1 T2].
  repeat split; try assumption; lia.
Qed.

Lemma inv_head_null a m regs :
  arena_inv a m regs -> head a = 0 -> live (zcalls (hp m)) = [].
Proof.
  intros I Hn. pose proof (inv_head _ _ _ I) as Hh.
  pose proof (inv_blocks _ _ _ I) as Hb.
  destruct (live (zcalls (hp m))) as [|[c n] rest] eqn:El; [reflexivity|].
  apply Forall_cons in Hb as [(H1 & _) _]. cbn in *. lia.
Qed.

Lemma set_used_lookup b v m c :
  blocks (set_used b v m) !! c =
  if decide (b = c) then (fun blk => Block (next blk) (capacity blk) v) <$> blocks m !! c
  else blocks m !! c.
Proof.
  cbn. destruct (decide (b = c)) as [->|Hne].
  - apply lookup_alter_eq.
  - apply lookup_alter_ne. exact Hne.
Qed.

Lemma set_next_lookup b v m c :
  blocks (set_next b v m) !! c =
  if decide (b = c) then (fun blk => Block v (capacity blk) (used blk)) <$> blocks m !! c
  else blocks m !! c.
Proof.
  cbn. destruct (decide (b = c)) as [->|Hne].
  - apply lookup_alter_eq.
  - apply lookup_alter_ne. exact Hne.
Qed.

Lemma cap_of_set_used b v m c : cap_of (set_used b v m) c = cap_of m c.
Proof.
  unfold cap_of. rewrite set_used_lookup.
  destruct (decide (b = c)); [|reflexivity].
  destruct (blocks m !! c); reflexivity.
Qed.

Lemma capacities_set_used b v m : capacities (set_used b v m) = capacities m.
Proof.
  unfold capacities, created. cbn [hp set_used].
  apply map_ext. intros c. apply cap_of_set_used.
Qed.

Lemma block_ok_set_used b v m e : block_ok m e -> block_ok (set_used b v m) e.
Proof.
  intros (H1 & H2 & H3 & blk & H4 & H5 & H6). repeat split; try assumption.
  rewrite set_used_lookup. destruct (decide (b = e.1)).
  - rewrite H4. cbn. eexists. split; [reflexivity|]. cbn. split; assumption.
  - exists blk. repeat split; assumption.
Qed.

(** The cursor of the current block moves up and the bytes it passes are
    handed out. *)
Lemma inv_bump a m regs hb p s u' :
  arena_inv a m regs -> head a <> 0 -> blocks m !! head a = Some hb ->
  0 < s -> head a + sizeof_block + used hb <= p ->
  p + s <= head a + sizeof_block + u' -> u' <= capacity hb ->
  arena_inv (add_total a s) (set_used (head a) u' m) ((p, s) :: regs).
Proof.
  intros I Hn Hhb Hs Hlo Hhi Hcap.
  destruct (inv_head_live a m regs I Hn)
    as (n & rest & hb' & El & Hhb' & En & Hc0 & Hpos & Hend & Hmax & Hnx & Hu).
  rewrite Hhb in Hhb'. injection Hhb' as <-.
  constructor; cbn [head add_total hp set_used].
  - apply (inv_head _ _ _ I).
  - eapply Forall_impl; [apply (inv_blocks _ _ _ I)|].
    intros e. apply block_ok_set_used.
  - intros hb1 _ H1. rewrite set_used_lookup in H1.
    rewrite decide_True in H1 by reflexivity. rewrite Hhb in H1.
    cbn in H1. injection H1 as <-. cbn. split; [exact Hnx|]. unfold sizeof_block in *. lia.
  - apply (inv_disjoint _ _ _ I).
  - rewrite capacities_set_used. apply (inv_sorted _ _ _ I).
  - constructor.
    + split; [exact Hs|]. exists (head a, n).
      cbn [hp set_used head add_total fst snd]. rewrite El.
      split; [left; reflexivity|]. split; [lia|].
      split; [unfold sizeof_block in *; lia|].
      intros _ hb1 H1. rewrite set_used_lookup in H1.
      rewrite decide_True in H1 by reflexivity. rewrite Hhb in H1. cbn in H1.
      injection H1 as <-. cbn. exact Hhi.
    + eapply Forall_impl; [apply (inv_regions _ _ _ I)|].
      intros r (Hr0 & e & He & Hr1 & Hr2 & Hr3).
      split; [exact Hr0|]. exists e.
      cbn [hp set_used head add_total].
      repeat split; try assumption.
      intros Heq hb1 H1. rewrite set_used_lookup in H1.
      rewrite Heq in H1. rewrite decide_True in H1 by reflexivity.
      rewrite Hhb in H1. cbn in H1. injection H1 as <-. cbn.
      specialize (Hr3 Heq hb). rewrite Heq in Hr3. specialize (Hr3 Hhb).
      unfold sizeof_block in *. lia.
  - cbn. split; [|apply (inv_regions_disjoint _ _ _ I)].
    pose proof (inv_regions _ _ _ I) as HR. pose proof (inv_disjoint _ _ _ I) as HD.
    eapply Forall_impl; [exact HR|].
    intros r (Hr0 & e & He & Hr1 & Hr2 & Hr3). unfold disjoint. cbn.
    destruct (decide (e.1 = head a)) as [Heq|Hne].
    + right. specialize (Hr3 Heq hb). rewrite Heq in Hr3. specialize (Hr3 Hhb).
      unfold sizeof_block in *. lia.
    + assert (Hd : disjoint e (head a, n)).
      { apply (disjoint_blocks_in _ _ _ HD He).
        - rewrite El. left. reflexivity.
        - intros ->. apply Hne. reflexivity. }
      unfold disjoint in Hd. cbn in Hd. unfold sizeof_block in *. lia.
Qed.

Lemma created_last a m regs :
  arena_inv a m regs -> head a <> 0 -> last (created m) = Some (head a).
Proof.
  intros I Hn. destruct (inv_head_live a m regs I Hn) as (n & rest & hb & El & _).
  unfold created. rewrite El. cbn. apply last_snoc.
Qed.

(** A block granted by the backend becomes the current block. *)
Lemma inv_new_block a m regs b total cap u' p s fst' tot' m' :
  arena_inv a m regs ->
  fresh_block (live (zcalls (hp m))) b total -> total <= max_object ->
  total = sizeof_block + cap -> 0 < cap ->
  (head a <> 0 -> cap_of m (head a) <= cap) ->
  hp m' = Heap (Malloc total b :: zcalls (hp m)) (ccalls (hp m)) ->
  blocks m' !! b = Some (Block 0 cap u') ->
  (forall c blk, c <> b -> blocks m !! c = Some blk ->
     exists blk', blocks m' !! c = Some blk' /\ capacity blk' = capacity blk) ->
  0 <= u' <= cap -> 0 < s -> b + sizeof_block <= p ->
  p + s <= b + sizeof_block + u' ->
  arena_inv (Arena b fst' tot') m' ((p, s) :: regs).
Proof.
  intros I (Hb0 & Hbend & Hfresh) Hmax Htot Hcap Hgrow Hhp Hnew Hold Hu Hs Hlo Hhi.
  assert (Hb : (b =? 0) = false) by (apply Z.eqb_neq; lia).
  assert (El : live (zcalls (hp m')) = (b, total) :: live (zcalls (hp m))).
  { rewrite Hhp. cbn. rewrite Hb. reflexivity. }
  assert (Hne : forall e, In e (live (zcalls (hp m))) -> e.1 <> b).
  { intros e He Heq. rewrite Forall_forall in Hfresh.
    specialize (Hfresh e). rewrite list_elem_of_In in Hfresh.
    specialize (Hfresh He). unfold disjoint in Hfresh. cbn in Hfresh.
    pose proof (inv_blocks _ _ _ I) as HB. rewrite Forall_forall in HB.
    specialize (HB e). rewrite list_elem_of_In in HB.
    destruct (HB He) as (_ & _ & _ & blk & _ & E2 & C).
    unfold sizeof_block in *. lia. }
  constructor; cbn [head].
  - rewrite El. reflexivity.
  - rewrite El. constructor.
    + unfold block_ok. cbn. repeat split; try assumption.
      exists (Block 0 cap u'). repeat split; assumption.
    + pose proof (inv_blocks _ _ _ I) as HB.
      rewrite Forall_forall in HB |- *. intros e He.
      destruct (HB e He) as (H1 & H2 & H3 & blk & H4 & H5 & H6).
      destruct (Hold e.1 blk) as (blk' & H7 & H8).
      { apply Hne. apply list_elem_of_In. exact He. }
      { exact H4. }
      repeat split; try assumption. exists blk'. rewrite H8. repeat split; assumption.
  - intros hb _ H. rewrite Hnew in H. injection H as <-. cbn. split; [reflexivity|lia].
  - rewrite El. cbn. split; [exact Hfresh | apply (inv_disjoint _ _ _ I)].
  - unfold capacities, created. rewrite El. cbn [map fst rev].
    rewrite map_app. cbn [map].
    assert (E1 : map (cap_of m') (rev (map fst (live (zcalls (hp m))))) = capacities m).
    { unfold capacities, created. apply map_ext_in. intros c Hc.
      apply in_rev in Hc. apply in_map_iff in Hc as (e & <- & He).
      pose proof (inv_blocks _ _ _ I) as HB. rewrite Forall_forall in HB.
      specialize (HB e). rewrite list_elem_of_In in HB.
      destruct (HB He) as (_ & _ & _ & blk & H4 & _).
      destruct (Hold e.1 blk (Hne e He) H4) as (blk' & H7 & H8).
      unfold cap_of. rewrite H4, H7. exact H8. }
    rewrite E1. apply ascending_snoc; [apply (inv_sorted _ _ _ I)|].
    intros y Hy. unfold cap_of at 1. rewrite Hnew. cbn.
    destruct (decide (head a = 0)) as [Hz|Hnz].
    + apply (inv_head_null _ _ _ I) in Hz. unfold capacities, created in Hy.
      rewrite Hz in Hy. discriminate.
    + unfold capacities in Hy. rewrite fmap_last in Hy.
      rewrite (created_last a m regs I Hnz) in Hy. cbn in Hy.
      injection Hy as <-. apply Hgrow. exact Hnz.
  - constructor.
    + split; [exact Hs|]. exists (b, total). rewrite El. cbn.
      split; [left; reflexivity|]. split; [exact Hlo|].
      split; [unfold sizeof_block in *; lia|].
      intros _ hb H. rewrite Hnew in H. injection H as <-. cbn. exact Hhi.
    + eapply Forall_impl; [apply (inv_regions _ _ _ I)|].
      intros r (Hr0 & e & He & Hr1 & Hr2 & Hr3).
      split; [exact Hr0|]. exists e. rewrite El.
      split; [right; exact He|]. split; [exact Hr1|]. split; [exact Hr2|].
      cbn. intros Heq. exfalso. exact (Hne e He Heq).
  - cbn. split; [|apply (inv_regions_disjoint _ _ _ I)].
    eapply Forall_impl; [apply (inv_regions _ _ _ I)|].
    intros r (Hr0 & e & He & Hr1 & Hr2 & Hr3).
    rewrite Forall_forall in Hfresh. specialize (Hfresh e).
    rewrite list_elem_of_In in Hfresh. specialize (Hfresh He).
    unfold disjoint in *. cbn in *. unfold sizeof_block in *. lia.
Qed.

End ArenaInvariant.

Lemma wrap_sub_pad x pad : 0 <= pad < modulus -> wrap (wrap (x + pad) - x) = pad.
Proof.
  intros H. unfold wrap. rewrite Zminus_mod_idemp_l.
  replace (x + pad - x) with pad by lia. apply Z.mod_small. exact H.
Qed.

Section ArenaSteps.
  Import Arena.
  Variable P : platform.
  Hypothesis backend_contract : backend_ok (injected P).

(** A refused allocation changes nothing but the history of calls. *)
Lemma arena_inv_refused a m regs sz :
  arena_inv a m regs ->
  arena_inv a (Memory (blocks m) (bytes m)
                      (Heap (Malloc sz 0 :: zcalls (hp m)) (ccalls (hp m)))) regs.
Proof.
  intros [H1 H2 H3 H4 H5 H6 H7]. constructor; try assumption.
Qed.

(** What one request may ask for. *)
Definition request_ok (size align : Z) : Prop :=
  0 <= size /\ power_of_two align /\ size + align <= 2 ^ 63.

(** What one call has done: nothing, when it returned the null pointer
    (for a size of zero or a refusal of the backend), or handed out an
    aligned region. *)
Definition alloc_post (a : zarena) (m : memory) (regs : list (Z * Z))
    (size align p : Z) (a' : zarena) (m' : memory) : Prop :=
  (exists l, zcalls (hp m') = l ++ zcalls (hp m)) /\
  ((p = 0 /\ arena_inv a' m' regs /\
    (size = 0 \/ ~ Forall granted (zcalls (hp m')))) \/
   (0 < p /\ p mod align = 0 /\ 0 < size /\ arena_inv a' m' ((p, size) :: regs))).

Lemma grow_step a m regs size align :
  arena_inv a m regs -> 0 < size -> request_ok size align ->
  exists p a' m',
    grow P a m size align = Done (p, a', m') /\
    alloc_post a m regs size align p a' m'.
Proof.
  intros I Hs (_ & Hal & Hsum).
  pose proof (power_of_two_pos align Hal) as Halpos.
  unfold grow.
  (* the capacity asked for *)
  assert (Hcap0 : exists cap0,
            (if head a =? 0 then Done ZARENA_DEFAULT_BLOCK_SIZE
             else load m (head a) ≫= (fun hb => Done (wrap (capacity hb * 2))))
            = Done cap0 /\ 0 < cap0 <= 2 * (max_object - sizeof_block) /\
            (head a <> 0 -> 2 * cap_of m (head a) <= cap0)).
  { destruct (Z.eqb_spec (head a) 0) as [Hz|Hnz].
    - exists ZARENA_DEFAULT_BLOCK_SIZE. split; [reflexivity|].
      split; [vm_compute; split; [reflexivity|discriminate]|].
      intros Hn. contradiction.
    - destruct (inv_head_live a m regs I Hnz)
        as (n & rest & hb & El & Hhb & En & Hc0 & Hpos & Hend & Hmax & Hnx & Hu).
      unfold load. rewrite Hhb. cbn.
      unfold sizeof_block, max_object in *.
      rewrite wrap_small by (rewrite modulus_eq; lia).
      eexists. split; [reflexivity|]. split; [lia|].
      intros _. unfold cap_of. rewrite Hhb. lia. }
  destruct Hcap0 as (cap0 & -> & Hc0 & Hdbl). cbn [mbind outcome_bind].
  rewrite (wrap_small (size + align)) by (rewrite modulus_eq; lia).
  set (next_cap := if cap0 <? size + align then size + align else cap0).
  assert (Hnc : size + align <= next_cap /\ cap0 <= next_cap /\
                next_cap <= 2 * (max_object - sizeof_block)).
  { unfold next_cap, max_object, sizeof_block in *.
    destruct (Z.ltb_spec cap0 (size + align)); lia. }
  clearbody next_cap.
  unfold _zarena_new_block, Z_MALLOC.
  assert (Et : wrap (sizeof_block + next_cap) = sizeof_block + next_cap).
  { apply wrap_small. unfold sizeof_block, max_object in *. rewrite modulus_eq. lia. }
  rewrite Et.
  set (b := bk_malloc (injected P) (zcalls (hp m)) (sizeof_block + next_cap)).
  destruct (Z.eqb_spec b 0) as [Hb0|Hbn].
  - (* refused *)
    cbn. exists 0, a, (Memory (blocks m) (bytes m)
                        (Heap (Malloc (sizeof_block + next_cap) b :: zcalls (hp m))
                              (ccalls (hp m)))).
    split; [reflexivity|]. split.
    + exists [Malloc (sizeof_block + next_cap) b]. reflexivity.
    + left. split; [reflexivity|]. rewrite Hb0. split.
      * apply arena_inv_refused. exact I.
      * right. cbn. intros F. apply Forall_cons in F as [F _]. cbn in F. lia.
  - (* granted *)
    destruct (malloc_grant _ backend_contract (zcalls (hp m)) (sizeof_block + next_cap) Hbn)
      as (Hmax & Hfresh).
    fold b in Hfresh. pose proof Hfresh as (Hbpos & Hbend & _).
    assert (Ef : (sizeof_block + next_cap <? sizeof_block) = false).
    { apply Z.ltb_ge. lia. }
    rewrite Ef. cbn [mbind outcome_bind].
    assert (Eb : (b =? 0) = false) by (apply Z.eqb_neq; exact Hbn).
    rewrite Eb.
    set (m1 := Memory (<[b:=Block 0 next_cap 0]> (blocks m)) (bytes m)
                      (Heap (Malloc (sizeof_block + next_cap) b :: zcalls (hp m))
                            (ccalls (hp m)))).
    assert (Hlink : exists a2 m2,
              (if head a =? 0
               then Done (Arena (head a) b (total_alloc a), m1)
               else load m1 (head a) ≫= (fun hb =>
                      Done (a, set_next (head a) b (set_next b (next hb) m1))))
              = Done (a2, m2) /\
              hp m2 = hp m1 /\
              blocks m2 !! b = Some (Block 0 next_cap 0) /\
              (forall c blk, c <> b -> blocks m !! c = Some blk ->
                 exists blk', blocks m2 !! c = Some blk' /\
                              capacity blk' = capacity blk)).
    { destruct (Z.eqb_spec (head a) 0) as [Hz|Hnz].
      - exists (Arena (head a) b (total_alloc a)), m1.
        split; [reflexivity|]. split; [reflexivity|]. split.
        + apply lookup_insert_eq.
        + intros c blk Hc Hblk. exists blk. split; [|reflexivity].
          cbn. rewrite lookup_insert_ne by congruence. exact Hblk.
      - destruct (inv_head_live a m regs I Hnz)
          as (n & rest & hb & El & Hhb & En & Hcp & Hpos & Hend & Hmx & Hnx & Hu).
        assert (Hhb_ne : head a <> b).
        { destruct Hfresh as (_ & _ & F). rewrite El in F.
          apply Forall_cons in F as [F _]. unfold disjoint in F. cbn in F.
          unfold sizeof_block in *. lia. }
        unfold load. cbn [blocks m1]. rewrite lookup_insert_ne by congruence.
        rewrite Hhb. cbn [mbind outcome_bind]. rewrite Hnx.
        eexists _, _. split; [reflexivity|]. split; [reflexivity|]. split.
        + rewrite set_next_lookup, decide_False by exact Hhb_ne.
          rewrite set_next_lookup, decide_True by reflexivity.
          cbn [blocks m1]. rewrite lookup_insert_eq. reflexivity.
        + intros c blk Hc Hblk. rewrite set_next_lookup.
          destruct (decide (head a = c)) as [<-|Hne].
          * rewrite set_next_lookup, decide_False by congruence.
            cbn [blocks m1]. rewrite lookup_insert_ne by congruence.
            rewrite Hhb. cbn. eexists. split; [reflexivity|].
            rewrite Hhb in Hblk. injection Hblk as <-. reflexivity.
          * rewrite set_next_lookup, decide_False by congruence.
            cbn [blocks m1]. rewrite lookup_insert_ne by congruence.
            exists blk. split; [exact Hblk | reflexivity]. }
    destruct Hlink as (a2 & m2 & -> & Hhp2 & Hb2 & Hold). cbn [mbind outcome_bind].
    assert (Edata : data b = b + sizeof_block).
    { unfold data. apply wrap_small. unfold sizeof_block in *. lia. }
    rewrite Edata.
    rewrite _zarena_align_ptr_spec
      by (try exact Hal; unfold sizeof_block in *; lia).
    pose proof (padding_to_range (b + sizeof_block) align ltac:(lia)) as Hpad.
    pose proof (padding_to_aligned (b + sizeof_block) align ltac:(lia)) as Hali.
    remember (padding_to (b + sizeof_block) align) as pad eqn:Epad.
    cbn [mbind outcome_bind].
    rewrite wrap_sub_pad by (rewrite modulus_eq; lia).
    rewrite (wrap_small (b + sizeof_block + pad))
      by (unfold sizeof_block in *; lia).
    rewrite (wrap_small (size + pad)) by (rewrite modulus_eq; lia).
    eexists _, _, _. split; [reflexivity|]. split.
    + exists [Malloc (sizeof_block + next_cap) b]. cbn [hp set_used].
      rewrite Hhp2. reflexivity.
    + right. split; [unfold sizeof_block in *; lia|]. split; [exact Hali|].
      split; [exact Hs|].
      unfold add_total. cbn [head first total_alloc].
      apply (inv_new_block a m regs b (sizeof_block + next_cap) next_cap (size + pad)
               (b + sizeof_block + pad) size _ _ _ I Hfresh Hmax eq_refl).
      * lia.
      * intros Hn. specialize (Hdbl Hn).
        assert (0 <= cap_of m (head a)).
        { destruct (inv_head_live a m regs I Hn)
            as (n & rest & hb & El & Hhb & En & Hcp & _).
          unfold cap_of. rewrite Hhb. lia. }
        lia.
      * cbn [hp set_used]. exact Hhp2.
      * rewrite set_used_lookup, decide_True by reflexivity.
        rewrite Hb2. reflexivity.
      * intros c blk Hc Hblk. rewrite set_used_lookup, decide_False by congruence.
        apply Hold; assumption.
      * lia.
      * exact Hs.
      * lia.
      * lia.
Qed.

Lemma advance_none a m regs size align :
  arena_inv a m regs -> advance a m size align = Done None.
Proof.
  intros I. unfold advance.
  destruct (Z.eqb_spec (head a) 0) as [Hz|Hnz]; [reflexivity|].
  destruct (inv_head_live a m regs I Hnz)
    as (n & rest & hb & El & Hhb & En & Hcp & Hpos & Hend & Hmx & Hnx & Hu).
  unfold load. rewrite Hhb. cbn. rewrite Hnx. reflexivity.
Qed.

Lemma bump_head_step a m regs size align :
  arena_inv a m regs -> 0 < size -> request_ok size align ->
  bump_head a m size align = Done None \/
  exists p a' m',
    bump_head a m size align = Done (Some (p, a', m')) /\
    alloc_post a m regs size align p a' m'.
Proof.
  intros I Hs (_ & Hal & Hsum).
  pose proof (power_of_two_pos align Hal) as Halpos.
  unfold bump_head.
  destruct (Z.eqb_spec (head a) 0) as [Hz|Hnz]; [left; reflexivity|].
  destruct (inv_head_live a m regs I Hnz)
    as (n & rest & hb & El & Hhb & En & Hcp & Hpos & Hend & Hmx & Hnx & Hu).
  unfold load. rewrite Hhb. cbn [mbind outcome_bind].
  assert (Edata : data (head a) = head a + sizeof_block).
  { unfold data. apply wrap_small. unfold sizeof_block in *. lia. }
  rewrite Edata.
  rewrite (wrap_small (head a + sizeof_block + used hb))
    by (unfold sizeof_block in *; lia).
  set (curr := head a + sizeof_block + used hb).
  rewrite _zarena_align_ptr_spec
    by (try exact Hal; unfold curr, sizeof_block in *; lia).
  pose proof (padding_to_range curr align ltac:(lia)) as Hpad.
  pose proof (padding_to_aligned curr align ltac:(lia)) as Hali.
  remember (padding_to curr align) as pad eqn:Epad.
  cbn [mbind outcome_bind].
  rewrite wrap_sub_pad by (rewrite modulus_eq; lia).
  rewrite (wrap_small (size + pad)) by (rewrite modulus_eq; lia).
  rewrite (wrap_small (used hb + (size + pad)))
    by (unfold max_object, sizeof_block in *; rewrite modulus_eq; lia).
  destruct (Z.leb_spec (used hb + (size + pad)) (capacity hb)) as [Hfit|Hno];
    [right | left; reflexivity].
  assert (Enx : wrap (curr + pad) = curr + pad).
  { apply wrap_small. unfold curr, sizeof_block in *. lia. }
  rewrite Enx.
  eexists _, _, _. split; [reflexivity|]. split.
  - exists []. reflexivity.
  - right. split; [unfold curr, sizeof_block in *; lia|].
    split; [exact Hali|]. split; [exact Hs|].
    apply (inv_bump a m regs hb (curr + pad) size (used hb + (size + pad)) I Hnz Hhb Hs);
      unfold curr; lia.
Qed.

(** One call of [zarena_alloc_align] on an arena that has only allocated. *)
Lemma zarena_alloc_align_step a m regs size align :
  arena_inv a m regs -> request_ok size align ->
  exists p a' m',
    zarena_alloc_align P a m size align = Done (p, a', m') /\
    alloc_post a m regs size align p a' m'.
Proof.
  intros I Hreq. pose proof Hreq as (Hs0 & _).
  unfold zarena_alloc_align.
  destruct (Z.eqb_spec size 0) as [Hz|Hnz].
  - exists 0, a, m. split; [reflexivity|]. split; [exists []; reflexivity|].
    left. split; [reflexivity|]. split; [exact I | left; exact Hz].
  - assert (Hs : 0 < size) by lia.
    destruct (bump_head_step a m regs size align I Hs Hreq)
      as [-> | (p & a' & m' & -> & Hpost)]; cbn [mbind outcome_bind].
    + rewrite (advance_none a m regs size align I). cbn [mbind outcome_bind].
      apply grow_step; assumption.
    + exists p, a', m'. split; [reflexivity | exact Hpost].
Qed.

End ArenaSteps.

(** ** The bump backend honours the contract *)

Lemma Forall_filter_keep {A : Type} (Q R : A -> Prop) `{forall x, Decision (R x)}
    (l : list A) :
  Forall Q l -> Forall Q (filter R l).
Proof.
  rewrite !Forall_forall. intros Hl x Hx.
  apply list_elem_of_filter in Hx as [_ Hx]. apply Hl. exact Hx.
Qed.

Lemma filter_all {A : Type} (R : A -> Prop) `{forall x, Decision (R x)} (l : list A) :
  Forall R l -> filter R l = l.
Proof.
  induction 1 as [|x l Hx _ IH]; [reflexivity|].
  rewrite filter_cons_True by exact Hx. rewrite IH. reflexivity.
Qed.

Lemma live_below_high_water h :
  Forall (fun b => b.1 + b.2 <= high_water h) (live h).
Proof.
  induction h as [|c h IH]; [constructor|].
  assert (Hhw : high_water (c :: h) = Z.max (block_end c) (high_water h))
    by reflexivity.
  assert (Hmono : Forall (fun b => b.1 + b.2 <= high_water (c :: h)) (live h)).
  { eapply Forall_impl; [exact IH|]. intros b Hb. cbv beta in Hb.
    rewrite Hhw. lia. }
  destruct c as [sz r|q sz r|q]; cbn [live].
  - destruct (r =? 0); [exact Hmono|].
    constructor; [rewrite Hhw; cbn [fst snd block_end]; lia | exact Hmono].
  - destruct (r =? 0).
    { destruct (sz =? 0); [apply Forall_filter_keep|]; exact Hmono. }
    constructor; [rewrite Hhw; cbn [fst snd block_end]; lia|].
    apply Forall_filter_keep. exact Hmono.
  - apply Forall_filter_keep. exact Hmono.
Qed.

Lemma high_water_min h : 4096 <= high_water h.
Proof.
  induction h as [|c h IH]; [cbn; lia|].
  change (high_water (c :: h)) with (Z.max (block_end c) (high_water h)). lia.
Qed.

Lemma bump_malloc_fresh h sz l :
  Forall (fun b => b.1 + b.2 <= high_water h) l ->
  bump_malloc h sz <> 0 ->
  sz <= max_object /\ fresh_block l (bump_malloc h sz) sz.
Proof.
  intros Hl. unfold bump_malloc.
  pose proof (high_water_min h) as Hhw.
  set (p := (high_water h + 15) / 16 * 16).
  assert (Hp : high_water h <= p).
  { unfold p. pose proof (Z.div_mod (high_water h + 15) 16 ltac:(lia)).
    pose proof (Z.mod_pos_bound (high_water h + 15) 16 ltac:(lia)). lia. }
  destruct (0 <=? sz) eqn:E0; cbn [andb]; [|congruence].
  destruct (p + sz <=? heap_limit) eqn:E1; [|congruence].
  intros _. apply Z.leb_le in E0, E1. unfold heap_limit, max_object in *.
  split; [lia|]. split; [lia|]. split; [rewrite modulus_eq; lia|].
  eapply Forall_impl; [exact Hl|]. intros b Hb. cbv beta in Hb.
  unfold disjoint. cbn [fst snd]. lia.
Qed.

Lemma bump_ok : backend_ok bump.
Proof.
  constructor; cbn.
  - intros h sz. apply bump_malloc_fresh. apply live_below_high_water.
  - intros h q sz. apply bump_malloc_fresh.
    apply Forall_filter_keep. apply live_below_high_water.
Qed.

(** ** Regions that do not overlap *)

Lemma disjoint_blocks_app l1 l2 :
  disjoint_blocks (l1 ++ l2) <->
  disjoint_blocks l1 /\ disjoint_blocks l2 /\
  Forall (fun x => Forall (disjoint x) l2) l1.
Proof.
  induction l1 as [|x l1 IH]; cbn.
  - split; [intros H; repeat split; [exact H | constructor] | tauto].
  - rewrite Forall_app, IH, Forall_cons. tauto.
Qed.

Lemma disjoint_blocks_rev l : disjoint_blocks (rev l) -> disjoint_blocks l.
Proof.
  induction l as [|x l IH]; cbn; [tauto|].
  rewrite disjoint_blocks_app. cbn. intros (H1 & _ & H2).
  split; [|apply IH; exact H1].
  rewrite Forall_forall in H2 |- *. intros y Hy.
  assert (Hy' : y ∈ rev l).
  { apply list_elem_of_In, in_rev. rewrite rev_involutive.
    apply list_elem_of_In. exact Hy. }
  specialize (H2 y Hy'). apply Forall_cons in H2 as [H2 _].
  apply disjoint_sym. exact H2.
Qed.

(** ** Arena: sequences of allocations *)

Section ArenaSequences.
  Import Arena.
  Variable P : platform.
  Hypothesis backend_contract : backend_ok (injected P).

(** The calls [zarena_alloc_align(s, a)] for a list of requests [(s, a)]. *)
Definition alloc_aligns (reqs : list (Z * Z)) : list op :=
  map (fun r => AllocAlign r.1 r.2) reqs.

(** The regions [(p, s)] handed out for the requests. *)
Definition regions (reqs : list (Z * Z)) (ps : list Z) : list (Z * Z) :=
  zip ps (map fst reqs).

Lemma run_cons a m o ops :
  run P a m (o :: ops) =
  step P a m o ≫= (fun '(p, a1, m1) =>
    run P a1 m1 ops ≫= (fun '(ps, a2, m2) => Done (p :: ps, a2, m2))).
Proof. reflexivity. Qed.

Lemma run_alloc_aligns reqs : forall a m regs,
  arena_inv a m regs ->
  Forall (fun r => 0 < r.1 /\ request_ok r.1 r.2) reqs ->
  exists ps a' m',
    run P a m (alloc_aligns reqs) = Done (ps, a', m') /\
    (exists l, zcalls (hp m') = l ++ zcalls (hp m)) /\
    (Forall granted (zcalls (hp m')) ->
     Forall2 (fun r p => p <> 0 /\ p mod r.2 = 0) reqs ps /\
     arena_inv a' m' (rev (regions reqs ps) ++ regs)).
Proof.
  induction reqs as [|[s al] reqs IH]; intros a m regs I Hreqs.
  - exists [], a, m. split; [reflexivity|]. split; [exists []; reflexivity|].
    intros _. split; [constructor | exact I].
  - apply Forall_cons in Hreqs as [[Hs Hreq] Hreqs]. cbn [fst snd] in Hs, Hreq.
    cbn [alloc_aligns map fst snd]. rewrite run_cons. cbn [step].
    destruct (zarena_alloc_align_step P backend_contract a m regs s al I Hreq)
      as (p & a1 & m1 & -> & (l1 & Hl1) & Hpost).
    cbn [mbind outcome_bind].
    assert (Hnext : exists regs1, arena_inv a1 m1 regs1 /\
              (Forall granted (zcalls (hp m1)) ->
               p <> 0 /\ p mod al = 0 /\ regs1 = (p, s) :: regs)).
    { destruct Hpost as [(-> & I1 & [Hz|Hng]) | (Hp & Hal & _ & I1)].
      - lia.
      - exists regs. split; [exact I1|]. intros F. contradiction.
      - exists ((p, s) :: regs). split; [exact I1|]. intros _.
        repeat split; [lia | exact Hal]. }
    destruct Hnext as (regs1 & I1 & Hok).
    destruct (IH a1 m1 regs1 I1 Hreqs) as (ps & a2 & m2 & Hrun & (l2 & Hl2) & Hfin).
    fold (alloc_aligns reqs). rewrite Hrun. cbn [mbind outcome_bind].
    exists (p :: ps), a2, m2. split; [reflexivity|]. split.
    + exists (l2 ++ l1). rewrite Hl2, Hl1. apply app_assoc.
    + intros F.
      assert (F1 : Forall granted (zcalls (hp m1))).
      { rewrite Hl2 in F. apply Forall_app in F. apply F. }
      destruct (Hok F1) as (Hp & Hal & ->).
      destruct (Hfin F) as (HF2 & I2).
      split; [constructor; [split; assumption | exact HF2]|].
      unfold regions in *. cbn [map fst zip zip_with rev].
      rewrite <- app_assoc. exact I2.
Qed.

End ArenaSequences.

(** C1, as the code has it.  On a freshly initialised arena, over a backend
    that honours its contract, every sequence of
    [zarena_alloc_align(s_i, a_i)] with [0 < s_i], [a_i] a power of two and
    [s_i + a_i <= 2^63] returns; when the backend has refused nothing, every
    result is a non-null address that is a multiple of [a_i], and the
    regions [p_i, p_i + s_i) are pairwise disjoint. *)
Theorem zarena_alloc_align_regions (P : platform) (m0 : Arena.memory)
    (reqs : list (Z * Z)) :
  backend_ok (injected P) ->
  zcalls (Arena.hp m0) = [] ->
  Forall (fun r => 0 < r.1 /\ power_of_two r.2 /\ r.1 + r.2 <= 2 ^ 63) reqs ->
  exists ps a m,
    Arena.run P Arena.zarena_init m0 (alloc_aligns reqs) = Done (ps, a, m) /\
    (Forall granted (zcalls (Arena.hp m)) ->
     Forall2 (fun r p => p <> 0 /\ p mod r.2 = 0) reqs ps /\
     disjoint_blocks (regions reqs ps)).
Proof.
  intros HP Hm0 Hreqs.
  destruct (run_alloc_aligns P HP reqs Arena.zarena_init m0 [])
    as (ps & a & m & Hrun & _ & Hfin).
  - apply arena_inv_init. exact Hm0.
  - eapply Forall_impl; [exact Hreqs|]. intros r (H1 & H2 & H3).
    split; [exact H1|]. repeat split; [lia | exact H2 | exact H3].
  - exists ps, a, m. split; [exact Hrun|]. intros F.
    destruct (Hfin F) as (HF2 & I). split; [exact HF2|].
    apply disjoint_blocks_rev. rewrite app_nil_r in I.
    apply (inv_regions_disjoint _ _ _ I).
Qed.

(** A request of [2^64 - 16] bytes: [size + align] wraps to zero, a block of
    the default size is created for it, and the next request is served from
    the same bytes. *)
Lemma zarena_alloc_align_regions_overlap :
  exists a m,
    Arena.run default_platform Arena.zarena_init Arena.empty_memory
      (alloc_aligns [(2 ^ 64 - 16, 16); (32, 16)]) = Done ([4128; 4112], a, m) /\
    Forall granted (zcalls (Arena.hp m)) /\
    ~ disjoint_blocks (regions [(2 ^ 64 - 16, 16); (32, 16)] [4128; 4112]).
Proof.
  eexists _, _. split; [vm_compute; reflexivity|]. split.
  - repeat constructor. discriminate.
  - intros [H _]. apply Forall_cons in H as [[H|H] _];
      vm_compute in H; apply H; reflexivity.
Qed.

Lemma zarena_alloc_align_regions_witness :
  exists ps a m,
    Arena.run default_platform Arena.zarena_init Arena.empty_memory
      (alloc_aligns [(10, 16); (100, 64); (5000, 8)]) = Done (ps, a, m) /\
    (Forall granted (zcalls (Arena.hp m)) ->
     Forall2 (fun r p => p <> 0 /\ p mod r.2 = 0)
             [(10, 16); (100, 64); (5000, 8)] ps /\
     disjoint_blocks (regions [(10, 16); (100, 64); (5000, 8)] ps)).
Proof.
  apply (zarena_alloc_align_regions default_platform Arena.empty_memory
           [(10, 16); (100, 64); (5000, 8)]).
  - exact bump_ok.
  - reflexivity.
  - repeat constructor; cbn; try lia.
    + exists 4. split; [unfold word_bits; lia | reflexivity].
    + exists 6. split; [unfold word_bits; lia | reflexivity].
    + exists 3. split; [unfold word_bits; lia | reflexivity].
Defined.

(** ** Arena: capacities in a run without reset *)

Section ArenaCapacities.
  Import Arena.
  Variable P : platform.
  Hypothesis backend_contract : backend_ok (injected P).

(** An operation that allocates or resizes, with a size that leaves room
    for the alignment. *)
Definition growth_op (o : op) : Prop :=
  match o with
  | Alloc s | AllocZero s => request_ok s ZARENA_MAX_ALIGN
  | AllocAlign s al => request_ok s al
  | ReallocOp _ _ ns => request_ok ns ZARENA_MAX_ALIGN
  | Reset => False
  end.

Lemma arena_inv_bytes a m regs b :
  arena_inv a m regs -> arena_inv a (Memory (blocks m) b (hp m)) regs.
Proof. intros [H1 H2 H3 H4 H5 H6 H7]. constructor; assumption. Qed.

Lemma alloc_post_inv a m size align p a' m' :
  alloc_post a m [] size align p a' m' -> arena_inv a' m' [].
Proof.
  intros (_ & [(_ & I & _) | (_ & _ & _ & I)]);
    [exact I | eapply arena_inv_forget; exact I].
Qed.

(** The cursor of the current block is set anew. *)
Lemma inv_set_used a m hb u' d :
  arena_inv a m [] -> head a <> 0 -> blocks m !! head a = Some hb ->
  0 <= u' <= capacity hb ->
  arena_inv (add_total a d) (set_used (head a) u' m) [].
Proof.
  intros I Hn Hhb Hu.
  destruct (inv_head_live a m [] I Hn)
    as (n & rest & hb' & El & Hhb' & En & Hc0 & Hpos & Hend & Hmax & Hnx & _).
  rewrite Hhb in Hhb'. injection Hhb' as <-.
  constructor; cbn [head add_total hp set_used].
  - apply (inv_head _ _ _ I).
  - eapply Forall_impl; [apply (inv_blocks _ _ _ I)|].
    intros e. apply block_ok_set_used.
  - intros hb1 _ H1. rewrite set_used_lookup in H1.
    rewrite decide_True in H1 by reflexivity. rewrite Hhb in H1.
    cbn in H1. injection H1 as <-. cbn. split; [exact Hnx | exact Hu].
  - apply (inv_disjoint _ _ _ I).
  - rewrite capacities_set_used. apply (inv_sorted _ _ _ I).
  - constructor.
  - exact Logic.I.
Qed.

Lemma extend_tail_step a m old_ptr old_size new_size :
  arena_inv a m [] ->
  extend_tail a m old_ptr old_size new_size = Done None \/
  exists p a' m',
    extend_tail a m old_ptr old_size new_size = Done (Some (p, a', m')) /\
    arena_inv a' m' [].
Proof.
  intros I. unfold extend_tail.
  destruct (Z.eqb_spec (head a) 0) as [Hz|Hnz]; [left; reflexivity|].
  destruct (inv_head_live a m [] I Hnz)
    as (n & rest & hb & El & Hhb & _).
  unfold load. rewrite Hhb. cbn [mbind outcome_bind].
  destruct (_ =? _); [|left; reflexivity].
  destruct (Z.leb_spec (wrap (used hb + wrap (new_size - old_size))) (capacity hb))
    as [Hfit|Hno]; [right | left; reflexivity].
  eexists _, _, _. split; [reflexivity|].
  apply (inv_set_used a m hb); try assumption.
  split; [apply wrap_range | exact Hfit].
Qed.

Lemma max_align_power_of_two : power_of_two ZARENA_MAX_ALIGN.
Proof. exists 4. split; [unfold word_bits; lia | reflexivity]. Qed.

(** One allocation or resize on an arena that has only allocated or
    resized. *)
Lemma growth_step a m o :
  arena_inv a m [] -> growth_op o ->
  exists p a' m', step P a m o = Done (p, a', m') /\ arena_inv a' m' [].
Proof.
  intros I Ho. destruct o as [s|s al|s|old os ns|]; cbn [step growth_op] in *.
  - destruct (zarena_alloc_align_step P backend_contract a m [] s _ I Ho)
      as (p & a' & m' & H & Hpost).
    exists p, a', m'. split; [exact H | eapply alloc_post_inv; exact Hpost].
  - destruct (zarena_alloc_align_step P backend_contract a m [] s al I Ho)
      as (p & a' & m' & H & Hpost).
    exists p, a', m'. split; [exact H | eapply alloc_post_inv; exact Hpost].
  - destruct (zarena_alloc_align_step P backend_contract a m [] s _ I Ho)
      as (p & a' & m' & H & Hpost).
    unfold zarena_alloc_zero. rewrite H. cbn [mbind outcome_bind].
    apply alloc_post_inv in Hpost.
    destruct (p =? 0); eexists _, _, _; (split; [reflexivity|]);
      [exact Hpost | apply arena_inv_bytes; exact Hpost].
  - unfold zarena_realloc, zarena_alloc.
    destruct (zarena_alloc_align_step P backend_contract a m [] ns _ I Ho)
      as (p & a' & m' & H & Hpost).
    apply alloc_post_inv in Hpost.
    destruct (old =? 0); [exists p, a', m'; split; assumption|].
    destruct (ns =? 0); [exists 0, a, m; split; [reflexivity | exact I]|].
    destruct (ns <=? os); [exists old, a, m; split; [reflexivity | exact I]|].
    destruct (extend_tail_step a m old os ns I)
      as [-> | (q & a1 & m1 & -> & I1)]; cbn [mbind outcome_bind].
    + rewrite H. cbn [mbind outcome_bind].
      destruct (p =? 0); eexists _, _, _; (split; [reflexivity|]);
        [exact Hpost | apply arena_inv_bytes; exact Hpost].
    + exists q, a1, m1. split; [reflexivity | exact I1].
  - contradiction.
Qed.

Lemma run_growth ops : forall a m,
  arena_inv a m [] -> Forall growth_op ops ->
  exists ps a' m', run P a m ops = Done (ps, a', m') /\ arena_inv a' m' [].
Proof.
  induction ops as [|o ops IH]; intros a m I Hops.
  - exists [], a, m. split; [reflexivity | exact I].
  - apply Forall_cons in Hops as [Ho Hops].
    destruct (growth_step a m o I Ho) as (p & a1 & m1 & H1 & I1).
    destruct (IH a1 m1 I1 Hops) as (ps & a2 & m2 & H2 & I2).
    exists (p :: ps), a2, m2. split; [|exact I2].
    rewrite run_cons, H1. cbn [mbind outcome_bind]. rewrite H2. reflexivity.
Qed.

End ArenaCapacities.

(** After a reset the current block is the oldest one; a request that
    neither it nor its successor can hold creates a block sized from the
    oldest block, smaller than the newest. *)
Lemma capacities_descend_after_reset :
  exists ps a m,
    Arena.run default_platform Arena.zarena_init Arena.empty_memory
      [Arena.Alloc 4000; Arena.Alloc 8000; Arena.Alloc 16000; Arena.Reset;
       Arena.Alloc 9000] = Done (ps, a, m) /\
    capacities m = [4096; 8192; 16384; 9016] /\
    ~ ascending (capacities m).
Proof.
  eexists _, _, _. split; [vm_compute; reflexivity|].
  split; [vm_compute; reflexivity|].
  intros H. specialize (H 2%nat 3%nat 16384 9016).
  assert (16384 <= 9016); [|lia].
  apply H; [lia | vm_compute; reflexivity | vm_compute; reflexivity].
Qed.

(** ** Blocks left alone *)

Lemma disjoint_blocks_filter (Q : Z * Z -> Prop) `{forall x, Decision (Q x)} l :
  disjoint_blocks l -> disjoint_blocks (filter Q l).
Proof.
  induction l as [|b t IH]; [intros _; exact Logic.I|].
  cbn [disjoint_blocks]. intros [Hb Ht].
  rewrite filter_cons. destruct (decide (Q b)).
  - cbn. split; [apply Forall_filter_keep; exact Hb | apply IH; exact Ht].
  - apply IH. exact Ht.
Qed.

(** ** Debug guard: the list of live allocations *)

Section GuardList.
  Import Debug.

(** The headers reached from [cur] through [next] are those of [l], in
    order, and [prev] of each is the one before it ([p] for the first). *)
Fixpoint dll (s : gmap Z zdebug_header) (p cur : Z) (l : list Z) : Prop :=
  match l with
  | [] => cur = 0
  | h :: t =>
      cur = h /\ h <> 0 /\
      exists hd, s !! h = Some hd /\ prev hd = p /\ dll s h (next hd) t
  end.

Lemma dll_frame s s' l : forall p cur,
  (forall x, In x l -> s' !! x = s !! x) -> dll s p cur l -> dll s' p cur l.
Proof.
  induction l as [|h t IH]; intros p cur Hs; cbn; [tauto|].
  intros (-> & Hn & hd & Hh & Hp & Ht). split; [reflexivity|]. split; [exact Hn|].
  exists hd. split; [rewrite Hs by (left; reflexivity); exact Hh|].
  split; [exact Hp|]. apply IH; [|exact Ht].
  intros x Hx. apply Hs. right. exact Hx.
Qed.

Lemma dll_members s l : forall p cur,
  dll s p cur l -> Forall (fun h => h <> 0 /\ is_Some (s !! h)) l.
Proof.
  induction l as [|h t IH]; intros p cur; cbn; [constructor|].
  intros (-> & Hn & hd & Hh & Hp & Ht). constructor; [|eapply IH; exact Ht].
  split; [exact Hn | eauto].
Qed.

Lemma dll_head s p cur l : dll s p cur l -> cur = match l with [] => 0 | h :: _ => h end.
Proof. destruct l; cbn; tauto. Qed.

(** Linking [h] in front of the list. *)
Lemma _zdebug_add_dll st h hd l :
  dll (hdrs st) 0 (g_zdebug_head st) l -> NoDup l -> ~ In h l -> h <> 0 ->
  hdrs st !! h = Some hd ->
  exists st', _zdebug_add st h = Done st' /\
    dll (hdrs st') 0 (g_zdebug_head st') (h :: l).
Proof.
  intros Hl Hnd Hnin Hh0 Hh. unfold _zdebug_add, modify. rewrite Hh.
  cbn [mbind outcome_bind hdrs g_zdebug_head].
  destruct l as [|g t].
  - cbn in Hl. rewrite Hl. cbn. eexists. split; [reflexivity|]. cbn.
    split; [reflexivity|]. split; [exact Hh0|].
    eexists. split; [apply lookup_insert_eq|]. cbn. split; reflexivity.
  - cbn [dll] in Hl. destruct Hl as (Hg & Hg0 & hg & Hhg & Hpg & Ht).
    rewrite Hg. apply Z.eqb_neq in Hg0 as Eg. rewrite Eg.
    assert (Hne : h <> g) by (intros ->; apply Hnin; left; reflexivity).
    rewrite lookup_insert_ne by exact Hne. rewrite Hhg.
    cbn [mbind outcome_bind hdrs g_zdebug_head bytes log hp].
    eexists. split; [reflexivity|]. cbn [hdrs g_zdebug_head set_head dll].
    split; [reflexivity|]. split; [exact Hh0|].
    eexists. split.
    { rewrite lookup_insert_ne by congruence. apply lookup_insert_eq. }
    cbn. split; [reflexivity|]. split; [reflexivity|]. split; [exact Hg0|].
    eexists. split; [apply lookup_insert_eq|]. cbn. split; [reflexivity|].
    apply NoDup_cons in Hnd as [Hgt _].
    eapply dll_frame; [|exact Ht].
    intros x Hx. rewrite !lookup_insert_ne; [reflexivity| |].
    + intros ->. apply Hnin. right. exact Hx.
    + intros ->. apply Hgt. apply list_elem_of_In. exact Hx.
Qed.

Lemma modify_alter st k f hd :
  hdrs st !! k = Some hd ->
  modify st k f = Done (State (alter f k (hdrs st)) (bytes st) (g_zdebug_head st)
                              (log st) (hp st)).
Proof.
  intros H. unfold modify. rewrite H. do 2 f_equal.
  apply map_eq. intros i. destruct (decide (k = i)) as [<-|Hne].
  - rewrite lookup_insert_eq, lookup_alter_eq, H. reflexivity.
  - rewrite lookup_insert_ne, lookup_alter_ne by exact Hne. reflexivity.
Qed.

(** The links of a member of the list. *)
Lemma dll_links s h hd l2 : forall l1 p cur,
  dll s p cur (l1 ++ h :: l2) -> s !! h = Some hd ->
  prev hd = default p (last l1) /\ next hd = default 0 (head l2).
Proof.
  induction l1 as [|x l1 IH]; intros p cur; cbn [app dll].
  - intros (_ & _ & hd0 & Hh & Hp & Ht) Hhd. rewrite Hh in Hhd. injection Hhd as <-.
    split; [exact Hp|]. apply dll_head in Ht. rewrite Ht.
    destruct l2; reflexivity.
  - intros (_ & _ & hx & Hx & Hp & Ht) Hhd.
    destruct (IH x (next hx) Ht Hhd) as [H1 H2]. split; [|exact H2].
    rewrite H1. destruct l1 as [|y l1]; [reflexivity|].
    cbn [last]. destruct (last (y :: l1)) eqn:E; [reflexivity|].
    apply last_None in E. discriminate.
Qed.

(** The store after [h] has been unlinked: the header before it and the
    header after it point to each other. *)
Definition unlinked (s : gmap Z zdebug_header) (hd : zdebug_header)
  : gmap Z zdebug_header :=
  let s1 := if prev hd =? 0 then s else alter (set_next (next hd)) (prev hd) s in
  if next hd =? 0 then s1 else alter (set_prev (prev hd)) (next hd) s1.

Lemma unlinked_other s hd x :
  x <> prev hd -> x <> next hd -> unlinked s hd !! x = s !! x.
Proof.
  intros H1 H2. unfold unlinked.
  destruct (next hd =? 0); destruct (prev hd =? 0);
    rewrite ?lookup_alter_ne by congruence; reflexivity.
Qed.

Lemma unlink_dll s h hd l2 : forall l1 p cur,
  dll s p cur (l1 ++ h :: l2) -> NoDup (l1 ++ h :: l2) ->
  ~ In p (l1 ++ h :: l2) ->
  s !! h = Some hd ->
  dll (unlinked s hd) p (if l1 is [] then next hd else cur) (l1 ++ l2).
Proof.
  induction l1 as [|x l1 IH]; intros p cur Hd Hnd Hp Hh.
  - cbn [app] in *. destruct (dll_links s h hd l2 [] p cur Hd Hh) as [Hq Hn].
    cbn in Hq. cbn [dll] in Hd. destruct Hd as (_ & Hh0 & hd0 & Hh' & _ & Ht).
    rewrite Hh in Hh'. injection Hh' as <-.
    apply NoDup_cons in Hnd as [Hhl2 Hnd2].
    destruct l2 as [|n t]; cbn [dll] in *.
    + exact Ht.
    + destruct Ht as (Hn' & Hn0 & hn & Hhn & Hpn & Ht).
      split; [exact Hn'|]. split; [exact Hn0|].
      assert (Hqn : prev hd <> n).
      { rewrite Hq. intros ->. apply Hp. right. left. reflexivity. }
      exists (set_prev (prev hd) hn). split.
      { unfold unlinked. rewrite Hn'. apply Z.eqb_neq in Hn0. rewrite Hn0.
        rewrite lookup_alter_eq.
        destruct (prev hd =? 0); rewrite ?lookup_alter_ne by exact Hqn;
          rewrite Hhn; reflexivity. }
      cbn. split; [exact Hq|].
      eapply dll_frame; [|exact Ht].
      intros y Hy. apply unlinked_other.
      * rewrite Hq. intros ->. apply Hp. right. right. exact Hy.
      * rewrite Hn'. intros ->. apply NoDup_cons in Hnd2 as [Hnt _].
        apply Hnt. apply list_elem_of_In. exact Hy.
  - cbn [app] in *. destruct (dll_links s h hd l2 (x :: l1) p cur Hd Hh) as [Hq Hn].
    cbn [dll] in Hd. destruct Hd as (Hc & Hx0 & hx & Hhx & Hpx & Ht).
    apply NoDup_cons in Hnd as [Hxl Hnd'].
    assert (Hxin : ~ In x (l1 ++ h :: l2)).
    { intros Hi. apply Hxl. apply list_elem_of_In. exact Hi. }
    specialize (IH x (next hx) Ht Hnd' Hxin Hh).
    cbn [dll]. split; [exact Hc|]. split; [exact Hx0|].
    assert (Hnx : next hd <> x).
    { rewrite Hn. destruct l2 as [|n t]; cbn; [congruence|].
      intros ->. apply Hxin. apply in_or_app. right. right. left. reflexivity. }
    destruct l1 as [|y l1].
    + (* x is the header before h *)
      cbn in Hq. cbn [app] in *.
      exists (set_next (next hd) hx). split.
      { unfold unlinked. rewrite Hq. apply Z.eqb_neq in Hx0. rewrite Hx0.
        destruct (next hd =? 0); rewrite ?lookup_alter_ne by congruence;
          rewrite lookup_alter_eq, Hhx; reflexivity. }
      cbn. split; [exact Hpx | exact IH].
    + exists hx. split.
      { rewrite unlinked_other; [exact Hhx| |congruence].
        assert (Hq' : prev hd ∈ y :: l1).
        { rewrite Hq. change (last (x :: y :: l1)) with (last (y :: l1)).
          destruct (last (y :: l1)) as [q|] eqn:E.
          - cbn. eapply last_Some_elem_of. exact E.
          - apply last_None in E. discriminate. }
        intros Heq. apply Hxin. rewrite Heq. apply in_or_app. left.
        apply list_elem_of_In. exact Hq'. }
      split; [exact Hpx | exact IH].
Qed.

(** Unlinking a member of the list. *)
Lemma _zdebug_remove_dll st h hd l1 l2 :
  dll (hdrs st) 0 (g_zdebug_head st) (l1 ++ h :: l2) ->
  NoDup (l1 ++ h :: l2) ->
  hdrs st !! h = Some hd ->
  exists st', _zdebug_remove st h = Done st' /\
    hdrs st' = unlinked (hdrs st) hd /\
    dll (hdrs st') 0 (g_zdebug_head st') (l1 ++ l2).
Proof.
  intros Hd Hnd Hh.
  pose proof (dll_members _ _ _ _ Hd) as Hm.
  assert (Hz : ~ In 0 (l1 ++ h :: l2)).
  { intros Hi. rewrite Forall_forall in Hm.
    apply list_elem_of_In in Hi. destruct (Hm 0 Hi) as [Hc _]. congruence. }
  destruct (dll_links _ h hd l2 l1 0 _ Hd Hh) as [Hq Hn].
  pose proof (unlink_dll _ h hd l2 l1 0 _ Hd Hnd Hz Hh) as Hu.
  (* the header before h, when there is one, is in the store and is not h *)
  assert (Hprev : prev hd = 0 /\ l1 = [] \/
                  prev hd <> 0 /\ l1 <> [] /\ prev hd <> h /\
                  is_Some (hdrs st !! prev hd)).
  { destruct (last l1) as [q|] eqn:E.
    - right. cbn in Hq. apply last_Some_elem_of in E.
      assert (Hin : q ∈ l1 ++ h :: l2) by (apply elem_of_app; left; exact E).
      rewrite Forall_forall in Hm. destruct (Hm q Hin) as [Hq0 Hqs].
      rewrite Hq. split; [exact Hq0|]. split; [intros ->; inversion E|].
      split; [|exact Hqs].
      intros ->. apply NoDup_app in Hnd as (_ & Hdis & _).
      apply (Hdis h E). left.
    - left. apply last_None in E. cbn in Hq. split; assumption. }
  assert (Hnext : next hd = 0 \/
                  next hd <> 0 /\ next hd <> h /\ next hd <> prev hd /\
                  is_Some (hdrs st !! next hd)).
  { destruct l2 as [|n t]; [left; exact Hn | right].
    cbn in Hn.
    assert (Hin : n ∈ l1 ++ h :: n :: t).
    { apply elem_of_app. right. right. left. }
    rewrite Forall_forall in Hm. destruct (Hm n Hin) as [Hn0 Hns].
    rewrite Hn. split; [exact Hn0|].
    apply NoDup_app in Hnd as (Hnd1 & Hdis & Hnd2).
    apply NoDup_cons in Hnd2 as [Hh2 _].
    split; [intros ->; apply Hh2; left|]. split; [|exact Hns].
    destruct Hprev as [[-> _]|(_ & _ & _ & _)]; [exact Hn0|].
    rewrite Hq. destruct (last l1) as [q|] eqn:E; [|cbn; exact Hn0].
    cbn. intros ->. apply last_Some_elem_of in E.
    apply (Hdis q E). right. left. }
  unfold _zdebug_remove, load. rewrite Hh. cbn [mbind outcome_bind].
  unfold unlinked in *.
  destruct Hprev as [[Hp0 ->] | (Hp0 & Hl1 & Hph & [hq Hhq])].
  - apply Z.eqb_eq in Hp0 as Ep. rewrite Ep in *.
    cbn [mbind outcome_bind hdrs set_head].
    rewrite Hh. cbn [mbind outcome_bind].
    destruct Hnext as [Hn0 | (Hn0 & Hnh & Hnp & [hn Hhn])].
    + apply Z.eqb_eq in Hn0 as En. rewrite En in *. eexists.
      split; [reflexivity|]. split; [reflexivity | exact Hu].
    + apply Z.eqb_neq in Hn0 as En. rewrite En in *.
      erewrite modify_alter by (cbn; exact Hhn).
      eexists. split; [reflexivity|]. split; [reflexivity | exact Hu].
  - apply Z.eqb_neq in Hp0 as Ep. rewrite Ep in *.
    erewrite modify_alter by exact Hhq. cbn [mbind outcome_bind hdrs].
    rewrite lookup_alter_ne by exact Hph. rewrite Hh. cbn [mbind outcome_bind].
    assert (Hcur : (if l1 is [] then next hd else g_zdebug_head st) = g_zdebug_head st).
    { destruct l1; [contradiction | reflexivity]. }
    rewrite Hcur in Hu.
    destruct Hnext as [Hn0 | (Hn0 & Hnh & Hnp & [hn Hhn])].
    + apply Z.eqb_eq in Hn0 as En. rewrite En in *. eexists.
      split; [reflexivity|]. split; [reflexivity | exact Hu].
    + apply Z.eqb_neq in Hn0 as En. rewrite En in *.
      erewrite modify_alter
        by (cbn; rewrite lookup_alter_ne by congruence; exact Hhn).
      eexists. split; [reflexivity|]. split; [reflexivity | exact Hu].
Qed.

End GuardList.

Section GuardInvariant.
  Import Debug.

(** The bytes of a block: header, payload and canary. *)
Definition total_of (hd : zdebug_header) : Z :=
  sizeof_header + size hd + ZDEBUG_CANARY_SIZE.

(** A live allocation: its header is ALIVE, its canary is intact and its
    block is one the backend has granted and not got back. *)
Definition member_ok (st : state) (h : Z) : Prop :=
  exists hd, hdrs st !! h = Some hd /\
    magic hd = ZDEBUG_MAGIC_ALIVE /\ 0 <= size hd /\
    canary_intact st h hd /\
    0 < h /\ h + total_of hd < modulus /\
    In (h, total_of hd) (live (ccalls (hp st))).

(** The state of the guard: the list rooted at [g_zdebug_head] is made of
    the headers [l], each once, each a live allocation. *)
Record guard_inv (st : state) (l : list Z) : Prop := GuardInv {
  g_list : dll (hdrs st) 0 (g_zdebug_head st) l;
  g_nodup : NoDup l;
  g_members : Forall (member_ok st) l;
  g_blocks : disjoint_blocks (live (ccalls (hp st)))
}.

Lemma guard_inv_initial : guard_inv initial [].
Proof. constructor; cbn; constructor. Qed.

(** The list depends on the links of its members only. *)
Lemma dll_same_links s s' l : forall p cur,
  (forall x hd, In x l -> s !! x = Some hd ->
     exists hd', s' !! x = Some hd' /\ prev hd' = prev hd /\ next hd' = next hd) ->
  dll s p cur l -> dll s' p cur l.
Proof.
  induction l as [|h t IH]; intros p cur Hs; cbn; [tauto|].
  intros (-> & Hn & hd & Hh & Hp & Ht). split; [reflexivity|]. split; [exact Hn|].
  destruct (Hs h hd (or_introl eq_refl) Hh) as (hd' & Hh' & Hp' & Hn').
  exists hd'. split; [exact Hh'|]. split; [congruence|].
  rewrite Hn'. apply IH; [|exact Ht].
  intros x hx Hx. apply Hs. right. exact Hx.
Qed.

(** The canary of a block that lies in the address space is in the store
    of bytes, after the payload. *)
Lemma canary_intact_bytes st h hd :
  0 < h -> 0 <= size hd -> h + total_of hd <= modulus ->
  canary_intact st h hd <->
  forall i : nat, (i < 16)%nat ->
    bytes st !! (h + sizeof_header + size hd + Z.of_nat i) = Some ZDEBUG_CANARY_VAL.
Proof.
  intros Hh Hs Hend. unfold total_of in Hend. unfold canary_intact.
  split; intros H i Hi; specialize (H i Hi).
  - rewrite load_byte_outside in H by (apply canary_off_fields; assumption).
    rewrite canary_addr in H by assumption. exact H.
  - rewrite load_byte_outside by (apply canary_off_fields; assumption).
    rewrite canary_addr by assumption. exact H.
Qed.

(** A member stays a live allocation when its header keeps its origin,
    size and magic, its canary is not written, and its block stays
    granted. *)
Lemma member_ok_stable st st' h :
  member_ok st h ->
  (forall hd, hdrs st !! h = Some hd ->
     exists hd', hdrs st' !! h = Some hd' /\ same_allocation hd hd') ->
  (forall hd a, hdrs st !! h = Some hd ->
     h + sizeof_header + size hd <= a < h + total_of hd ->
     bytes st' !! a = bytes st !! a) ->
  (forall n, In (h, n) (live (ccalls (hp st))) -> In (h, n) (live (ccalls (hp st')))) ->
  member_ok st' h.
Proof.
  intros (hd & Hh & Hm & Hs & Hc & Hpos & Hend & Hl) Hhd Hb Hlive.
  destruct (Hhd hd Hh) as (hd' & Hh' & Sf & Sl & Ss & Sm).
  assert (Et : total_of hd' = total_of hd) by (unfold total_of; rewrite Ss; reflexivity).
  exists hd'. split; [exact Hh'|]. split; [congruence|]. split; [lia|].
  split; [|rewrite Et; repeat split; try assumption; apply Hlive; exact Hl].
  apply canary_intact_bytes; [exact Hpos | lia | lia|].
  rewrite canary_intact_bytes in Hc by (assumption || lia).
  intros i Hi. rewrite Ss. specialize (Hc i Hi).
  rewrite (Hb hd); [exact Hc | exact Hh|].
  unfold total_of, sizeof_header, ZDEBUG_CANARY_SIZE in *. lia.
Qed.

End GuardInvariant.

Section GuardSteps.
  Import Debug.
  Variable P : platform.
  Hypothesis libc_contract : backend_ok (stdlib P).

Lemma guard_inv_ext st st' l :
  guard_inv st l ->
  hdrs st' = hdrs st -> bytes st' = bytes st ->
  g_zdebug_head st' = g_zdebug_head st ->
  live (ccalls (hp st')) = live (ccalls (hp st)) ->
  guard_inv st' l.
Proof.
  intros [H1 H2 H3 H4] Eh Eb Eg El. constructor.
  - rewrite Eh, Eg. exact H1.
  - exact H2.
  - eapply Forall_impl; [exact H3|]. intros h Hm.
    apply (member_ok_stable st st' h Hm).
    + intros hd Hh. exists hd. rewrite Eh. split; [exact Hh | apply same_allocation_refl].
    + intros hd a _ _. rewrite Eb. reflexivity.
    + intros n. rewrite El. tauto.
  - rewrite El. exact H4.
Qed.

(** A size whose sum with the sizes of the header and of the canary a
    [size_t] holds: the total asked of the backend does not wrap. *)
Definition size_ok (sz : Z) : Prop :=
  0 <= sz /\ sizeof_header + sz + ZDEBUG_CANARY_SIZE < modulus.

Lemma total_size_exact sz :
  size_ok sz ->
  wrap (sizeof_header + sz + ZDEBUG_CANARY_SIZE) = sizeof_header + sz + ZDEBUG_CANARY_SIZE.
Proof.
  unfold size_ok, sizeof_header, ZDEBUG_CANARY_SIZE. intros Hs.
  apply wrap_small. lia.
Qed.

(** A header installed in a freshly granted block is linked in front of
    the list. *)
Lemma guard_inv_link st0 st2 l b total sz hdN lv :
  guard_inv st0 l ->
  g_zdebug_head st2 = g_zdebug_head st0 ->
  (forall x, In x l -> x <> b -> hdrs st2 !! x = hdrs st0 !! x) ->
  hdrs st2 !! b = Some hdN -> magic hdN = ZDEBUG_MAGIC_ALIVE -> size hdN = sz ->
  (forall a, ~ (b <= a < b + total) -> bytes st2 !! a = bytes st0 !! a) ->
  canary_intact st2 b hdN ->
  live (ccalls (hp st2)) = (b, total) :: lv ->
  (forall h n, In h l -> In (h, n) (live (ccalls (hp st0))) -> In (h, n) lv) ->
  disjoint_blocks lv -> fresh_block lv b total ->
  total = sizeof_header + sz + ZDEBUG_CANARY_SIZE -> 0 <= sz ->
  exists st3, _zdebug_add st2 b = Done st3 /\ guard_inv st3 (b :: l) /\
    bytes st3 = bytes st2 /\ log st3 = log st2 /\ hp st3 = hp st2 /\
    exists hd3, hdrs st3 !! b = Some hd3 /\ same_allocation hdN hd3.
Proof.
  intros I Eg Eh Hb Hmag Hsz Hbytes Hcan Elive Hlv Hdis Hfresh Etot Hs0.
  pose proof Hfresh as (Hbpos & Hbend & Hff).
  (* the members are away from the new block *)
  assert (Haway : forall h, In h l ->
            h <> b /\ exists hd, hdrs st0 !! h = Some hd /\ 0 <= size hd /\
              (b + total <= h \/ h + total_of hd <= b)).
  { intros h Hh. pose proof (g_members _ _ I) as Hm. rewrite Forall_forall in Hm.
    destruct (Hm h) as (hd & Hhd & _ & Hs & _ & Hpos & Hend & Hl).
    { apply list_elem_of_In. exact Hh. }
    rewrite Forall_forall in Hff. specialize (Hff (h, total_of hd)).
    assert (Hin : (h, total_of hd) ∈ lv).
    { apply list_elem_of_In. apply Hlv; assumption. }
    specialize (Hff Hin). unfold disjoint in Hff. cbn in Hff.
    unfold total_of, sizeof_header, ZDEBUG_CANARY_SIZE in *.
    split; [lia|]. exists hd. split; [exact Hhd | lia]. }
  assert (Hnin : ~ In b l).
  { intros Hi. destruct (Haway b Hi) as [Hc _]. congruence. }
  destruct (_zdebug_add_dll st2 b hdN l) as (st3 & Hadd & Hdll).
  { rewrite Eg. eapply dll_frame; [|apply (g_list _ _ I)].
    intros x Hx. apply Eh; [exact Hx|]. intros ->. contradiction. }
  { apply (g_nodup _ _ I). }
  { exact Hnin. }
  { lia. }
  { exact Hb. }
  destruct (_zdebug_add_links_only _ _ _ Hadd) as (Hlo & Eb3 & Elog3 & Ehp3).
  destruct (Hlo b hdN Hb) as (hd3 & Hb3 & Hsame).
  exists st3. split; [exact Hadd|]. split; [|repeat split; try assumption; eauto].
  constructor.
  - exact Hdll.
  - apply NoDup_cons. split; [|apply (g_nodup _ _ I)].
    intros Hi. apply Hnin. apply list_elem_of_In. exact Hi.
  - constructor.
    + destruct Hsame as (Sf & Sl & Ss & Sm).
      exists hd3. split; [exact Hb3|]. split; [congruence|]. split; [lia|].
      split.
      { assert (Hcan3 : canary_intact st2 b hd3).
        { intros i Hi. rewrite Ss. apply Hcan. exact Hi. }
        unfold total_of in *.
        rewrite canary_intact_bytes in Hcan3 |- *
          by (unfold total_of; rewrite ?Ss, ?Hsz; lia).
        rewrite Eb3. exact Hcan3. }
      unfold total_of. rewrite Ss, Hsz, <- Etot. split; [exact Hbpos|].
      split; [exact Hbend|]. rewrite Ehp3, Elive. left. reflexivity.
    + pose proof (g_members _ _ I) as Hm.
      rewrite Forall_forall in Hm |- *. intros h Hh.
      apply list_elem_of_In in Hh as Hh'.
      destruct (Haway h Hh') as (Hne & hd & Hhd & Hsh & Hfar).
      apply (member_ok_stable st0 st3 h (Hm h Hh)).
      * intros hd' Hhd'. apply Hlo. rewrite Eh by assumption. exact Hhd'.
      * intros hd' a Hhd' Ha. rewrite Hhd in Hhd'. injection Hhd' as <-.
        rewrite Eb3. apply Hbytes. unfold sizeof_header in *. lia.
      * intros n Hn. rewrite Ehp3, Elive. right. apply Hlv; assumption.
  - rewrite Ehp3, Elive. cbn. split; [exact Hff | exact Hdis].
Qed.

(** The canary written by [_zdebug_set_canary] lies in the block. *)
Lemma canary_memset_outside mem b sz a :
  0 < b -> 0 <= sz -> b + (sizeof_header + sz + ZDEBUG_CANARY_SIZE) < modulus ->
  ~ (b <= a < b + (sizeof_header + sz + ZDEBUG_CANARY_SIZE)) ->
  memset mem (wrap (user_mem b + sz)) ZDEBUG_CANARY_VAL (Z.to_nat ZDEBUG_CANARY_SIZE) !! a
  = mem !! a.
Proof.
  intros Hb Hs Hend Ha. apply memset_other. intros i Hi.
  change (Z.to_nat ZDEBUG_CANARY_SIZE) with 16%nat in Hi.
  rewrite canary_addr by (assumption || lia).
  unfold sizeof_header, ZDEBUG_CANARY_SIZE in *. lia.
Qed.

(** The canary just written is intact. *)
Lemma canary_memset_intact st b hd mem :
  0 < b -> 0 <= size hd -> b + total_of hd <= modulus ->
  bytes st = memset mem (wrap (user_mem b + size hd)) ZDEBUG_CANARY_VAL
                    (Z.to_nat ZDEBUG_CANARY_SIZE) ->
  canary_intact st b hd.
Proof.
  intros Hb Hs Hend E i Hi. unfold total_of in Hend.
  rewrite load_byte_outside by (apply canary_off_fields; assumption).
  rewrite E. apply memset_lookup. exact Hi.
Qed.

Lemma zdebug_malloc_loc_step st l sz f ln p st' :
  guard_inv st l -> size_ok sz ->
  zdebug_malloc_loc P st sz f ln = Done (p, st') ->
  (p = 0 /\ guard_inv st' l) \/
  (exists h hd, p = h + sizeof_header /\ guard_inv st' (h :: l) /\
     hdrs st' !! h = Some hd /\ size hd = sz /\ file hd = f /\ line hd = ln).
Proof.
  intros I Hs H. unfold zdebug_malloc_loc in H.
  destruct (sz =? 0) eqn:Ez.
  { apply Done_inj in H. injection H as <- <-. left. split; [reflexivity | exact I]. }
  unfold malloc in H.
  set (total := wrap (sizeof_header + sz + ZDEBUG_CANARY_SIZE)) in *.
  set (b := bk_malloc (stdlib P) (ccalls (hp st)) total) in *.
  destruct (Z.eqb_spec b 0) as [Hb0|Hbn].
  { apply Done_inj in H. injection H as <- <-. left. split; [reflexivity|].
    apply (guard_inv_ext st); try reflexivity; [exact I|].
    cbn. rewrite Hb0. reflexivity. }
  pose proof (total_size_exact sz Hs) as Etot. fold total in Etot.
  pose proof Hs as [Hs0 Hs1].
  assert (Ef : (total <? sizeof_header) = false).
  { apply Z.ltb_ge. unfold sizeof_header, ZDEBUG_CANARY_SIZE in *. lia. }
  rewrite Ef in H.
  destruct (malloc_grant _ libc_contract (ccalls (hp st)) total Hbn) as (Hmax & Hfresh).
  fold b in Hfresh. pose proof Hfresh as (Hbpos & Hbend & _).
  set (hd0 := Header 0 0 f sz ln ZDEBUG_MAGIC_ALIVE) in *.
  match type of H with
  | (_zdebug_set_canary ?s1 b ≫= _) = _ => set (st1 := s1) in *
  end.
  assert (A0 : hdrs st1 !! b = Some hd0) by (cbn; apply lookup_insert_eq).
  rewrite (_zdebug_set_canary_bytes st1 b hd0 A0) in H
    by (cbn [size hd0]; lia).
  cbn [mbind outcome_bind size hd0] in H.
  match type of H with
  | (_zdebug_add ?s2 b ≫= _) = _ => set (st2 := s2) in *
  end.
  assert (A1 : forall x, In x l -> x <> b -> hdrs st2 !! x = hdrs st !! x).
  { intros x _ Hx. cbn. apply lookup_insert_ne. congruence. }
  assert (A2 : hdrs st2 !! b = Some hd0) by exact A0.
  assert (A3 : forall a, ~ (b <= a < b + total) -> bytes st2 !! a = bytes st !! a).
  { intros a Ha. cbn [bytes st2 st1 set_bytes]. rewrite Etot in *.
    apply canary_memset_outside; assumption || lia. }
  assert (A4 : canary_intact st2 b hd0).
  { apply (canary_memset_intact st2 b hd0 (bytes st));
      [exact Hbpos | exact Hs0 | unfold total_of; cbn [size hd0]; lia | reflexivity]. }
  assert (A5 : live (ccalls (hp st2)) = (b, total) :: live (ccalls (hp st))).
  { cbn. apply Z.eqb_neq in Hbn. rewrite Hbn. reflexivity. }
  destruct (guard_inv_link st st2 l b total sz hd0 (live (ccalls (hp st)))
              I eq_refl A1 A2 eq_refl eq_refl A3 A4 A5
              (fun h n _ Hin => Hin) (g_blocks _ _ I) Hfresh Etot ltac:(lia))
    as (st3 & Hadd & I3 & _ & _ & _ & hd3 & Hb3 & Sf & Sl & Ss & Sm).
  rewrite Hadd in H. cbn [mbind outcome_bind] in H.
  apply Done_inj in H. injection H as <- <-. right.
  exists b, hd3. split.
  { unfold user_mem. apply wrap_small. unfold sizeof_header, ZDEBUG_CANARY_SIZE in *. lia. }
  split; [exact I3|]. split; [exact Hb3|].
  split; [exact Ss|]. split; [exact Sf | exact Sl].
Qed.

(** Writes to the payload of a live allocation. *)
Lemma guard_inv_payload_write st l h hd b' :
  guard_inv st l -> In h l -> hdrs st !! h = Some hd ->
  (forall a, ~ (h + sizeof_header <= a < h + sizeof_header + size hd) ->
     b' !! a = bytes st !! a) ->
  guard_inv (set_bytes st b') l.
Proof.
  intros I Hh Hhd Hb.
  pose proof (g_members _ _ I) as Hm. rewrite Forall_forall in Hm.
  destruct (Hm h) as (hd0 & Hhd0 & _ & Hs & _ & Hpos & Hend & Hl).
  { apply list_elem_of_In. exact Hh. }
  rewrite Hhd in Hhd0. injection Hhd0 as <-.
  constructor; cbn [hdrs g_zdebug_head hp set_bytes].
  - apply (g_list _ _ I).
  - apply (g_nodup _ _ I).
  - rewrite Forall_forall. intros x Hx.
    apply (member_ok_stable st _ x (Hm x Hx)).
    + intros hx Hhx. exists hx. split; [exact Hhx | apply same_allocation_refl].
    + intros hx a Hhx Ha. cbn [bytes set_bytes]. apply Hb.
      destruct (decide (x = h)) as [->|Hne].
      * rewrite Hhd in Hhx. injection Hhx as <-. lia.
      * destruct (Hm x Hx) as (hx0 & Hhx0 & _ & Hsx & _ & Hposx & Hendx & Hlx).
        rewrite Hhx in Hhx0. injection Hhx0 as <-.
        assert (Hd : disjoint (x, total_of hx) (h, total_of hd)).
        { apply (disjoint_blocks_in _ _ _ (g_blocks _ _ I) Hlx Hl). congruence. }
        unfold disjoint in Hd. cbn in Hd.
        unfold total_of, sizeof_header, ZDEBUG_CANARY_SIZE in *. lia.
    + intros n Hn. exact Hn.
  - apply (g_blocks _ _ I).
Qed.

Lemma zdebug_calloc_loc_step st l count sz f ln p st' :
  guard_inv st l -> size_ok (wrap (count * sz)) ->
  zdebug_calloc_loc P st count sz f ln = Done (p, st') ->
  (p = 0 /\ guard_inv st' l) \/
  (exists h, p = h + sizeof_header /\ ~ In h l /\ guard_inv st' (h :: l)).
Proof.
  intros I Hok H. unfold zdebug_calloc_loc in H. cbv zeta in H.
  apply bind_Done_inv in H. destruct H as ([q st1] & Hm & H).
  destruct (zdebug_malloc_loc_step st l (wrap (count * sz)) f ln q st1 I Hok Hm)
    as [(-> & I1) | (h & hd & -> & I1 & Hhd & Hsz & _)].
  - cbn in H. apply Done_inj in H. injection H as <- <-. left. split; [reflexivity | exact I1].
  - pose proof (g_members _ _ I1) as Hmem. apply Forall_cons in Hmem as [Hmh _].
    destruct Hmh as (hd0 & Hhd0 & _ & Hs & _ & Hpos & Hend & _).
    rewrite Hhd in Hhd0. injection Hhd0 as <-.
    assert (Hnz : (h + sizeof_header =? 0) = false).
    { apply Z.eqb_neq. unfold sizeof_header. lia. }
    rewrite Hnz in H.
    assert (Ew : (wrap (sizeof_header + wrap (count * sz) + ZDEBUG_CANARY_SIZE)
                  <? sizeof_header + wrap (count * sz)) = false).
    { rewrite (total_size_exact _ Hok). apply Z.ltb_ge.
      unfold ZDEBUG_CANARY_SIZE. lia. }
    rewrite Ew in H.
    apply Done_inj in H. injection H as <- <-. right.
    exists h. split; [reflexivity|]. split.
    { pose proof (g_nodup _ _ I1) as Hnd. apply NoDup_cons in Hnd as [Hn _].
      intros Hi. apply Hn. apply list_elem_of_In. exact Hi. }
    apply (guard_inv_payload_write st1 (h :: l) h hd); try assumption.
    { left. reflexivity. }
    intros a Ha. apply memset_other. intros i Hi. rewrite Hsz in Ha.
    unfold total_of, sizeof_header, ZDEBUG_CANARY_SIZE in *.
    rewrite wrap_small by lia. lia.
Qed.

Lemma NoDup_remove_mid (l1 l2 : list Z) h :
  NoDup (l1 ++ h :: l2) -> NoDup (l1 ++ l2) /\ ~ In h (l1 ++ l2).
Proof.
  intros H. apply NoDup_app in H as (H1 & Hd & H2).
  apply NoDup_cons in H2 as [Hh2 H2]. split.
  - apply NoDup_app. split; [exact H1|]. split; [|exact H2].
    intros x Hx Hx2. apply (Hd x Hx). right. exact Hx2.
  - intros Hi. apply in_app_or in Hi as [Hi|Hi].
    + apply list_elem_of_In in Hi. apply (Hd h Hi). left.
    + apply Hh2. apply list_elem_of_In. exact Hi.
Qed.

(** What the validation of [zdebug_free] and [zdebug_realloc_loc] finds on
    a live allocation. *)
Lemma member_validated st l h :
  guard_inv st l -> In h l ->
  exists hd, hdrs st !! h = Some hd /\
    (magic hd =? ZDEBUG_MAGIC_ALIVE) = true /\
    _zdebug_check_canary st h = Done true /\
    (h + sizeof_header =? 0) = false /\
    wrap (h + sizeof_header - sizeof_header) = h /\
    0 <= size hd /\ 0 < h /\ h + total_of hd < modulus.
Proof.
  intros I Hh. pose proof (g_members _ _ I) as Hm. rewrite Forall_forall in Hm.
  destruct (Hm h) as (hd & Hhd & Hmag & Hs & Hc & Hpos & Hend & Hl).
  { apply list_elem_of_In. exact Hh. }
  exists hd. split; [exact Hhd|]. split; [apply Z.eqb_eq; exact Hmag|].
  split; [apply (check_canary_intact st h hd Hhd Hc)|].
  unfold total_of, sizeof_header, ZDEBUG_CANARY_SIZE in *.
  split; [apply Z.eqb_neq; lia|].
  split; [replace (h + 40 - 40) with h by lia; apply wrap_small; lia|].
  repeat split; lia.
Qed.

(** Releasing a live allocation. *)
Lemma zdebug_free_step st l1 h l2 :
  guard_inv st (l1 ++ h :: l2) ->
  exists st', zdebug_free st (h + sizeof_header) = Done st' /\
    guard_inv st' (l1 ++ l2).
Proof.
  intros I.
  assert (Hin : In h (l1 ++ h :: l2)) by (apply in_or_app; right; left; reflexivity).
  destruct (member_validated st _ h I Hin)
    as (hd & Hhd & Hmag & Hcan & Hnz & Hw & Hs & Hpos & Hend).
  destruct (NoDup_remove_mid l1 l2 h (g_nodup _ _ I)) as [Hnd' Hnin].
  unfold zdebug_free. rewrite Hnz, Hw.
  assert (Hl : load st h = Done hd) by (unfold load; rewrite Hhd; reflexivity).
  rewrite Hl. cbn [mbind outcome_bind]. rewrite Hmag. cbn [negb].
  rewrite Hcan. cbn [mbind outcome_bind negb].
  erewrite modify_alter by exact Hhd. cbn [mbind outcome_bind].
  set (st1 := State (alter (set_magic ZDEBUG_MAGIC_FREED) h (hdrs st)) (bytes st)
                    (g_zdebug_head st) (log st) (hp st)).
  assert (Hhd1 : hdrs st1 !! h = Some (set_magic ZDEBUG_MAGIC_FREED hd)).
  { cbn. rewrite lookup_alter_eq, Hhd. reflexivity. }
  destruct (_zdebug_remove_dll st1 h (set_magic ZDEBUG_MAGIC_FREED hd) l1 l2)
    as (st2 & Hrem & _ & Hdll).
  { cbn [hdrs g_zdebug_head st1]. eapply dll_same_links; [|apply (g_list _ _ I)].
    intros x hx _ Hx. destruct (decide (h = x)) as [<-|Hne].
    - rewrite lookup_alter_eq, Hx. cbn. eexists. split; [reflexivity|]. split; reflexivity.
    - rewrite lookup_alter_ne by exact Hne. exists hx. repeat split. exact Hx. }
  { apply (g_nodup _ _ I). }
  { exact Hhd1. }
  rewrite Hrem. cbn [mbind outcome_bind].
  eexists. split; [reflexivity|].
  destruct (_zdebug_remove_links_only _ _ _ Hrem) as (Hlo & Eb & _ & Ehp).
  pose proof (g_members _ _ I) as Hm. rewrite Forall_forall in Hm.
  constructor; cbn [hdrs g_zdebug_head bytes hp set_heap forget free ccalls live].
  - eapply dll_frame; [|exact Hdll].
    intros x Hx. apply lookup_delete_ne. intros ->. contradiction.
  - exact Hnd'.
  - rewrite Forall_forall. intros x Hx.
    assert (Hxin : x ∈ l1 ++ h :: l2).
    { apply elem_of_app in Hx as [Hx|Hx]; apply elem_of_app; [left | right; right];
        exact Hx. }
    assert (Hxh : x <> h).
    { intros ->. apply Hnin. apply list_elem_of_In. exact Hx. }
    apply (member_ok_stable st _ x (Hm x Hxin)).
    + intros hx Hhx. cbn [hdrs set_heap forget].
      rewrite lookup_delete_ne by congruence. apply Hlo. cbn.
      rewrite lookup_alter_ne by congruence. exact Hhx.
    + intros hx a _ _. cbn [bytes set_heap forget]. rewrite Eb. reflexivity.
    + intros n Hn. cbn [hp set_heap forget free ccalls live]. rewrite Ehp. cbn [st1 hp].
      apply list_elem_of_In. apply list_elem_of_filter. split; [exact Hxh|].
      apply list_elem_of_In. exact Hn.
  - rewrite Ehp. cbn [st1 hp]. apply disjoint_blocks_filter. apply (g_blocks _ _ I).
Qed.

(** Unlinking a live allocation leaves the others as they are. *)
Lemma _zdebug_remove_step st l1 h l2 hd :
  guard_inv st (l1 ++ h :: l2) -> hdrs st !! h = Some hd ->
  exists st1, _zdebug_remove st h = Done st1 /\
    guard_inv st1 (l1 ++ l2) /\
    links_only (hdrs st) (hdrs st1) /\
    bytes st1 = bytes st /\ log st1 = log st /\ hp st1 = hp st.
Proof.
  intros I Hhd.
  destruct (_zdebug_remove_dll st h hd l1 l2 (g_list _ _ I) (g_nodup _ _ I) Hhd)
    as (st1 & Hrem & _ & Hdll).
  destruct (_zdebug_remove_links_only _ _ _ Hrem) as (Hlo & Eb & El & Ehp).
  destruct (NoDup_remove_mid l1 l2 h (g_nodup _ _ I)) as [Hnd' Hnin].
  exists st1. split; [exact Hrem|]. split; [|repeat split; assumption].
  pose proof (g_members _ _ I) as Hm. rewrite Forall_forall in Hm.
  constructor.
  - exact Hdll.
  - exact Hnd'.
  - rewrite Forall_forall. intros x Hx.
    assert (Hxin : x ∈ l1 ++ h :: l2).
    { apply elem_of_app in Hx as [Hx|Hx]; apply elem_of_app; [left | right; right];
        exact Hx. }
    apply (member_ok_stable st _ x (Hm x Hxin)).
    + intros hx Hhx. apply Hlo. exact Hhx.
    + intros hx a _ _. rewrite Eb. reflexivity.
    + intros n Hn. rewrite Ehp. exact Hn.
  - rewrite Ehp. apply (g_blocks _ _ I).
Qed.

(** The validation and the unlinking that [zdebug_realloc_loc] does before
    it asks the backend. *)
Lemma zdebug_realloc_loc_prefix st l h sz f ln hd st1 :
  guard_inv st l -> In h l -> sz <> 0 -> hdrs st !! h = Some hd ->
  _zdebug_remove st h = Done st1 -> hp st1 = hp st ->
  zdebug_realloc_loc P st (h + sizeof_header) sz f ln =
  let total_size := wrap (sizeof_header + sz + ZDEBUG_CANARY_SIZE) in
  let new_h := bk_realloc (stdlib P) (ccalls (hp st)) h total_size in
  let hp' := Heap (zcalls (hp st)) (Realloc h total_size new_h :: ccalls (hp st)) in
  if new_h =? 0
  then _zdebug_add (if total_size =? 0 then forget (set_heap st1 hp') h
                    else set_heap st1 hp') h ≫= (fun st2 => Done (0, st2))
  else if total_size <? sizeof_header then Fault
  else
    load st1 h ≫= (fun hd1 =>
      modify (moved (set_heap st1 hp') h new_h hd1 total_size) new_h
             (set_origin sz f ln)
      ≫= (fun st3 => _zdebug_set_canary st3 new_h
      ≫= (fun st4 => _zdebug_add st4 new_h
      ≫= (fun st5 => Done (user_mem new_h, st5))))).
Proof.
  intros I Hin Hsz Hhd Hrem Ehp.
  destruct (member_validated st l h I Hin)
    as (hd0 & Hhd0 & Hmag & Hcan & Hnz & Hw & _).
  unfold zdebug_realloc_loc. rewrite Hnz, Hw.
  apply Z.eqb_neq in Hsz. rewrite Hsz.
  assert (Hl : load st h = Done hd0) by (unfold load; rewrite Hhd0; reflexivity).
  rewrite Hl. cbn [mbind outcome_bind].
  rewrite Hmag. cbn [negb]. rewrite Hcan. cbn [mbind outcome_bind negb].
  rewrite Hrem. cbn [mbind outcome_bind]. unfold realloc. rewrite Ehp.
  reflexivity.
Qed.

(** The backend refuses the resize and returns the null pointer. *)
Lemma zdebug_realloc_loc_refused st l1 h l2 sz f ln hd :
  guard_inv st (l1 ++ h :: l2) -> sz <> 0 ->
  wrap (sizeof_header + sz + ZDEBUG_CANARY_SIZE) <> 0 -> hdrs st !! h = Some hd ->
  bk_realloc (stdlib P) (ccalls (hp st)) h
    (wrap (sizeof_header + sz + ZDEBUG_CANARY_SIZE)) = 0 ->
  exists st', zdebug_realloc_loc P st (h + sizeof_header) sz f ln = Done (0, st') /\
    guard_inv st' (h :: l1 ++ l2) /\
    bytes st' = bytes st /\
    live (ccalls (hp st')) = live (ccalls (hp st)) /\
    exists hd', hdrs st' !! h = Some hd' /\ same_allocation hd hd'.
Proof.
  intros I Hsz Hok Hhd Hre.
  assert (Hin : In h (l1 ++ h :: l2)) by (apply in_or_app; right; left; reflexivity).
  destruct (_zdebug_remove_step st l1 h l2 hd I Hhd)
    as (st1 & Hrem & I1 & Hlo1 & Eb1 & El1 & Ehp1).
  rewrite (zdebug_realloc_loc_prefix st _ h sz f ln hd st1 I Hin Hsz Hhd Hrem Ehp1).
  cbn zeta. rewrite Hre. cbn [Z.eqb].
  assert (Et0 : (wrap (sizeof_header + sz + ZDEBUG_CANARY_SIZE) =? 0) = false).
  { apply Z.eqb_neq. exact Hok. }
  rewrite Et0.
  destruct (Hlo1 h hd Hhd) as (hd1 & Hhd1 & Hsame1).
  destruct (NoDup_remove_mid l1 l2 h (g_nodup _ _ I)) as [Hnd' Hnin].
  destruct (member_validated st _ h I Hin) as (hd0 & _ & _ & _ & _ & _ & _ & Hpos & _).
  set (st1' := set_heap st1 _).
  destruct (_zdebug_add_dll st1' h hd1 (l1 ++ l2)) as (st2 & Hadd & Hdll).
  { apply (g_list _ _ I1). }
  { exact Hnd'. }
  { exact Hnin. }
  { lia. }
  { exact Hhd1. }
  rewrite Hadd. cbn [mbind outcome_bind].
  destruct (_zdebug_add_links_only _ _ _ Hadd) as (Hlo2 & Eb2 & El2 & Ehp2).
  exists st2. split; [reflexivity|].
  assert (Hlo : links_only (hdrs st) (hdrs st2)).
  { eapply links_only_trans; [exact Hlo1 | exact Hlo2]. }
  split; [|split; [rewrite Eb2; exact Eb1 | split; [|apply Hlo; exact Hhd]]].
  2:{ rewrite Ehp2. cbn [hp set_heap st1' ccalls live]. cbn [Z.eqb]. rewrite Et0.
      reflexivity. }
  pose proof (g_members _ _ I) as Hm. rewrite Forall_forall in Hm.
  constructor.
  - exact Hdll.
  - apply NoDup_cons. split; [|exact Hnd'].
    intros Hi. apply Hnin. apply list_elem_of_In. exact Hi.
  - rewrite Forall_forall. intros x Hx.
    assert (Hxin : x ∈ l1 ++ h :: l2).
    { apply elem_of_cons in Hx as [->|Hx]; [apply list_elem_of_In; exact Hin|].
      apply elem_of_app in Hx as [Hx|Hx]; apply elem_of_app; [left | right; right];
        exact Hx. }
    apply (member_ok_stable st _ x (Hm x Hxin)).
    + intros hx Hhx. apply Hlo. exact Hhx.
    + intros hx a _ _. rewrite Eb2. cbn. rewrite Eb1. reflexivity.
    + intros n Hn. rewrite Ehp2. cbn [hp set_heap st1' ccalls live].
      cbn [Z.eqb]. rewrite Et0. exact Hn.
  - rewrite Ehp2. cbn [hp set_heap st1' ccalls live]. cbn [Z.eqb]. rewrite Et0.
    apply (g_blocks _ _ I).
Qed.

(** Resizing a live allocation. *)
Lemma zdebug_realloc_loc_step st l1 h l2 sz f ln p st' :
  guard_inv st (l1 ++ h :: l2) -> 0 < sz -> size_ok sz ->
  zdebug_realloc_loc P st (h + sizeof_header) sz f ln = Done (p, st') ->
  (p = 0 /\ guard_inv st' (h :: l1 ++ l2)) \/
  (exists h', p = h' + sizeof_header /\ guard_inv st' (h' :: l1 ++ l2)).
Proof.
  intros I Hsz Hok H.
  assert (Hin : In h (l1 ++ h :: l2)) by (apply in_or_app; right; left; reflexivity).
  destruct (member_validated st _ h I Hin)
    as (hd & Hhd & Hmag & _ & _ & _ & Hs & Hpos & Hend).
  set (total := wrap (sizeof_header + sz + ZDEBUG_CANARY_SIZE)).
  set (new_h := bk_realloc (stdlib P) (ccalls (hp st)) h total).
  assert (Hnw : wrap (sizeof_header + sz + ZDEBUG_CANARY_SIZE) <> 0).
  { rewrite (total_size_exact sz Hok).
    unfold size_ok, sizeof_header, ZDEBUG_CANARY_SIZE in *. lia. }
  destruct (Z.eqb_spec new_h 0) as [Hz|Hnz].
  { destruct (zdebug_realloc_loc_refused st l1 h l2 sz f ln hd I ltac:(lia) Hnw Hhd Hz)
      as (st'' & Hr & I' & _).
    rewrite Hr in H. apply Done_inj in H. injection H as <- <-.
    left. split; [reflexivity | exact I']. }
  destruct (_zdebug_remove_step st l1 h l2 hd I Hhd)
    as (st1 & Hrem & I1 & Hlo1 & Eb1 & El1 & Ehp1).
  rewrite (zdebug_realloc_loc_prefix st _ h sz f ln hd st1 I Hin ltac:(lia) Hhd Hrem Ehp1)
    in H.
  cbn zeta in H. fold total new_h in H.
  apply Z.eqb_neq in Hnz as En. rewrite En in H.
  pose proof (total_size_exact sz Hok) as Etot. fold total in Etot.
  pose proof Hok as [Hs0 Hs1].
  assert (Ef : (total <? sizeof_header) = false).
  { apply Z.ltb_ge. unfold sizeof_header, ZDEBUG_CANARY_SIZE in *. lia. }
  rewrite Ef in H.
  destruct (realloc_grant _ libc_contract (ccalls (hp st)) h total Hnz)
    as (Hmax & Hfresh).
  fold new_h in Hfresh. pose proof Hfresh as (Hnpos & Hnend & _).
  destruct (Hlo1 h hd Hhd) as (hd1 & Hhd1 & Sf1 & Sl1 & Ss1 & Sm1).
  unfold load in H. rewrite Hhd1 in H. cbn [mbind outcome_bind] in H.
  set (hp' := Heap (zcalls (hp st)) (Realloc h total new_h :: ccalls (hp st))) in *.
  set (st2 := moved (set_heap st1 hp') h new_h hd1 total) in *.
  destruct (NoDup_remove_mid l1 l2 h (g_nodup _ _ I)) as [Hnd' Hnin].
  assert (B1 : hdrs st2 !! new_h = Some hd1).
  { unfold st2, moved. destruct (Z.eqb_spec new_h h) as [->|Hne].
    - exact Hhd1.
    - cbn. apply lookup_insert_eq. }
  assert (B2 : forall x, In x (l1 ++ l2) -> x <> new_h ->
                 hdrs st2 !! x = hdrs st1 !! x).
  { intros x Hin' Hx. unfold st2, moved. destruct (new_h =? h); [reflexivity|].
    cbn. rewrite lookup_insert_ne by congruence.
    apply lookup_delete_ne. intros ->. contradiction. }
  assert (B3 : g_zdebug_head st2 = g_zdebug_head st1 /\ hp st2 = hp' /\ log st2 = log st1).
  { unfold st2, moved. destruct (new_h =? h); repeat split. }
  assert (B4 : forall a, ~ (new_h <= a < new_h + total) -> bytes st2 !! a = bytes st1 !! a).
  { intros a Ha. unfold st2, moved. destruct (new_h =? h); [reflexivity|].
    cbn [bytes set_heap]. apply memcpy_other. intros i Hi.
    unfold user_mem, sizeof_header, ZDEBUG_CANARY_SIZE in *.
    rewrite (wrap_small (new_h + 40)) by lia.
    rewrite wrap_small by lia. lia. }
  unfold modify in H. rewrite B1 in H. cbn [mbind outcome_bind] in H.
  set (hdN := set_origin sz f ln hd1) in *.
  match type of H with
  | (_zdebug_set_canary ?s3 new_h ≫= _) = _ => set (st3 := s3) in *
  end.
  assert (A0 : hdrs st3 !! new_h = Some hdN) by (cbn; apply lookup_insert_eq).
  rewrite (_zdebug_set_canary_bytes st3 new_h hdN A0) in H
    by (cbn [size hdN set_origin]; lia).
  cbn [mbind outcome_bind size hdN set_origin] in H.
  match type of H with
  | (_zdebug_add ?s4 new_h ≫= _) = _ => set (st4 := s4) in *
  end.
  destruct B3 as (B3a & B3b & B3c).
  assert (A1 : forall x, In x (l1 ++ l2) -> x <> new_h ->
                 hdrs st4 !! x = hdrs st1 !! x).
  { intros x Hin' Hx. cbn. rewrite lookup_insert_ne by congruence.
    apply B2; assumption. }
  assert (A2 : hdrs st4 !! new_h = Some hdN) by exact A0.
  assert (A3 : forall a, ~ (new_h <= a < new_h + total) -> bytes st4 !! a = bytes st1 !! a).
  { intros a Ha. cbn [bytes st4 st3 set_bytes]. rewrite <- B4 by exact Ha.
    rewrite Etot in *. apply canary_memset_outside; assumption || lia. }
  assert (A4 : canary_intact st4 new_h hdN).
  { apply (canary_memset_intact st4 new_h hdN (bytes st2));
      [exact Hnpos | cbn; lia | unfold total_of; cbn [size hdN set_origin]; lia
      | reflexivity]. }
  assert (A5 : live (ccalls (hp st4)) =
               (new_h, total) :: filter (fun b => b.1 <> h) (live (ccalls (hp st1)))).
  { cbn [hp st4 st3 set_bytes]. rewrite B3b, Ehp1. cbn. rewrite En. reflexivity. }
  assert (A6 : forall x n, In x (l1 ++ l2) -> In (x, n) (live (ccalls (hp st1))) ->
               In (x, n) (filter (fun b => b.1 <> h) (live (ccalls (hp st1))))).
  { intros x n Hx Hn. apply list_elem_of_In. apply list_elem_of_filter.
    split; [cbn; intros ->; contradiction | apply list_elem_of_In; exact Hn]. }
  assert (A7 : magic hdN = ZDEBUG_MAGIC_ALIVE).
  { cbn. rewrite Sm1. apply Z.eqb_eq. exact Hmag. }
  rewrite <- Ehp1 in Hfresh.
  destruct (guard_inv_link st1 st4 (l1 ++ l2) new_h total sz hdN _
              I1 B3a A1 A2 A7 eq_refl A3 A4 A5 A6
              (disjoint_blocks_filter _ _ (g_blocks _ _ I1)) Hfresh Etot ltac:(lia))
    as (st5 & Hadd & I5 & _).
  rewrite Hadd in H. cbn [mbind outcome_bind] in H.
  apply Done_inj in H. injection H as <- <-. right.
  exists new_h. split; [|exact I5].
  unfold user_mem. apply wrap_small. unfold sizeof_header, ZDEBUG_CANARY_SIZE in *. lia.
Qed.

End GuardSteps.

(** ** Debug guard: the leak report *)

Section GuardLeaks.
  Import Debug.

(** Distinct non-null addresses are fewer than the address space has. *)
Lemma addresses_count (l : list Z) :
  NoDup l -> Forall (fun h => 0 < h < modulus) l ->
  Z.of_nat (length l) < modulus.
Proof.
  intros Hnd Hr. apply NoDup_ListNoDup in Hnd.
  set (N := Z.to_nat (modulus - 1)).
  assert (Hincl : incl l (map (fun i => Z.of_nat i + 1) (seq 0 N))).
  { intros h Hh. rewrite Forall_forall in Hr. apply list_elem_of_In in Hh.
    specialize (Hr h Hh). apply in_map_iff. exists (Z.to_nat (h - 1)).
    split; [lia|]. apply in_seq. unfold N. lia. }
  apply (NoDup_incl_length Hnd) in Hincl.
  rewrite length_map, length_seq in Hincl. unfold N in Hincl.
  rewrite modulus_eq in *. lia.
Qed.

Lemma members_in_store (s : gmap Z zdebug_header) (l : list Z) :
  NoDup l -> Forall (fun h => is_Some (s !! h)) l -> (length l <= base.size s)%nat.
Proof.
  intros Hnd Hs. rewrite <- (size_list_to_set (C:=gset Z) l Hnd).
  rewrite <- (size_dom (D:=gset Z) s). apply subseteq_size.
  intros x Hx. apply elem_of_list_to_set in Hx. apply elem_of_dom.
  rewrite Forall_forall in Hs. apply Hs. exact Hx.
Qed.

(** The walk of [zdebug_print_leaks] counts the headers of the list. *)
Lemma leaks_loop_counts l : forall fuel st p cur count b,
  dll (hdrs st) p cur l -> (length l <= fuel)%nat ->
  0 <= count -> count + Z.of_nat (length l) < modulus ->
  exists b' st',
    leaks_loop fuel st cur count b = Done (count + Z.of_nat (length l), b', st') /\
    hdrs st' = hdrs st /\ bytes st' = bytes st /\
    g_zdebug_head st' = g_zdebug_head st /\ hp st' = hp st.
Proof.
  induction l as [|h t IH]; intros fuel st p cur count b Hd Hf Hc Hm.
  - cbn in Hd. subst cur. exists b, st. split; [|repeat split].
    destruct fuel; cbn; f_equal; f_equal; f_equal; lia.
  - cbn [dll] in Hd. destruct Hd as (-> & Hh0 & hd & Hhd & _ & Ht).
    destruct fuel as [|fuel]; [cbn in Hf; lia|].
    cbn [leaks_loop]. apply Z.eqb_neq in Hh0. rewrite Hh0.
    unfold load. rewrite Hhd. cbn [mbind outcome_bind].
    cbn [length] in Hf, Hm.
    rewrite (wrap_small (count + 1)) by lia.
    destruct (IH fuel (say st (Leak (size hd) (user_mem h) (file hd) (line hd)))
                h (next hd) (count + 1) (wrap (b + size hd)))
      as (b' & st' & Hrun & E1 & E2 & E3 & E4).
    + exact Ht.
    + lia.
    + lia.
    + lia.
    + exists b', st'. split; [|repeat split; assumption].
      rewrite Hrun. do 3 f_equal. cbn [length]. lia.
Qed.

(** On a well-formed state [zdebug_print_leaks] returns the number of
    headers in the list and touches nothing but the log. *)
Lemma zdebug_print_leaks_counts st l :
  guard_inv st l ->
  exists st', zdebug_print_leaks st = Done (Z.of_nat (length l), st') /\
    guard_inv st' l.
Proof.
  intros I. unfold zdebug_print_leaks.
  pose proof (g_members _ _ I) as Hm.
  assert (Hlen : Z.of_nat (length l) < modulus).
  { apply addresses_count; [apply (g_nodup _ _ I)|].
    eapply Forall_impl; [exact Hm|].
    intros h (hd & _ & _ & Hs & _ & Hpos & Hend & _).
    unfold total_of, sizeof_header, ZDEBUG_CANARY_SIZE in *. lia. }
  assert (Hfuel : (length l <= S (base.size (hdrs st)))%nat).
  { apply Nat.le_le_succ_r. apply members_in_store; [apply (g_nodup _ _ I)|].
    eapply Forall_impl; [exact Hm|]. intros h (hd & Hhd & _). eauto. }
  set (st1 := if g_zdebug_head st =? 0 then st else say st LeaksBanner).
  assert (E1 : hdrs st1 = hdrs st /\ bytes st1 = bytes st /\
               g_zdebug_head st1 = g_zdebug_head st /\ hp st1 = hp st).
  { unfold st1. destruct (g_zdebug_head st =? 0); repeat split. }
  destruct E1 as (Eh & Eb & Eg & Ep).
  destruct (leaks_loop_counts l (S (base.size (hdrs st))) st1 0 (g_zdebug_head st) 0 0)
    as (b' & st2 & Hrun & Eh2 & Eb2 & Eg2 & Ep2).
  - rewrite Eh. apply (g_list _ _ I).
  - exact Hfuel.
  - lia.
  - lia.
  - rewrite Hrun. cbn [mbind outcome_bind]. rewrite Z.add_0_l.
    eexists. split; [reflexivity|].
    apply (guard_inv_ext st); [exact I| | | |];
      destruct (0 <? Z.of_nat (length l)); cbn; congruence.
Qed.

End GuardLeaks.

(** ** Debug guard: every sequence of operations *)

Section GuardRuns.
  Import Debug.

(** The pointers a client holds after a release. *)
Definition released (L : list Z) (ptr : Z) : list Z :=
  filter (fun q => q <> ptr) L.

(** The pointers a client holds after [zdebug_realloc_loc(ptr, sz)] has
    returned [p]: a null [ptr] allocates, a zero [sz] releases, a null [p]
    leaves [ptr] as it was, otherwise [p] replaces [ptr]. *)
Definition resized (L : list Z) (ptr sz p : Z) : list Z :=
  if ptr =? 0 then (if p =? 0 then L else p :: L)
  else if sz =? 0 then released L ptr
  else if p =? 0 then L
  else p :: released L ptr.

(** The header of a payload pointer. *)
Definition header_of (p : Z) : Z := p - sizeof_header.

(** A line number: an [int]. *)
Definition int_ok (ln : Z) : Prop := - 2 ^ 31 <= ln < 2 ^ 31.

(** The states the guard reaches from its initial state through calls that
    return, with the pointers the client holds.  The client passes sizes
    whose total with the header and the canary a [size_t] holds (for
    [zdebug_calloc_loc], a count and a size that a [size_t] holds and whose
    wrapped product is such a size), line numbers that an [int] holds and,
    to [zdebug_realloc_loc] and [zdebug_free], the null pointer or a
    pointer it holds; between the calls it writes bytes to the payloads it
    holds, within their sizes. *)
Inductive reachable (P : platform) : state -> list Z -> Prop :=
  | reach_initial : reachable P initial []
  | reach_malloc st L sz f ln p st' :
      reachable P st L -> size_ok sz -> int_ok ln ->
      zdebug_malloc_loc P st sz f ln = Done (p, st') ->
      reachable P st' (if p =? 0 then L else p :: L)
  | reach_calloc st L count sz f ln p st' :
      reachable P st L -> 0 <= count < modulus -> 0 <= sz < modulus ->
      size_ok (wrap (count * sz)) -> int_ok ln ->
      zdebug_calloc_loc P st count sz f ln = Done (p, st') ->
      reachable P st' (if p =? 0 then L else p :: L)
  | reach_realloc st L ptr sz f ln p st' :
      reachable P st L -> ptr = 0 \/ In ptr L -> size_ok sz -> int_ok ln ->
      zdebug_realloc_loc P st ptr sz f ln = Done (p, st') ->
      reachable P st' (resized L ptr sz p)
  | reach_free st L ptr st' :
      reachable P st L -> ptr = 0 \/ In ptr L ->
      zdebug_free st ptr = Done st' ->
      reachable P st' (released L ptr)
  | reach_leaks st L n st' :
      reachable P st L ->
      zdebug_print_leaks st = Done (n, st') ->
      reachable P st' L
  | reach_write st L ptr hd off v :
      reachable P st L -> In ptr L ->
      hdrs st !! header_of ptr = Some hd -> 0 <= off < size hd -> 0 <= v < 256 ->
      reachable P (set_bytes st (<[ptr + off := v]> (bytes st))) L.

Lemma released_headers l1 h l2 L ptr :
  NoDup (l1 ++ h :: l2) -> l1 ++ h :: l2 ≡ₚ map header_of L ->
  header_of ptr = h ->
  l1 ++ l2 ≡ₚ map header_of (released L ptr).
Proof.
  intros Hnd Hperm Hh.
  destruct (NoDup_remove_mid l1 l2 h Hnd) as [Hnd' Hnin].
  assert (HndL : NoDup (header_of <$> L)).
  { change (NoDup (map header_of L)). rewrite <- Hperm. exact Hnd. }
  apply NoDup_Permutation.
  - exact Hnd'.
  - change (NoDup (header_of <$> released L ptr)).
    apply NoDup_fmap_2; [intros x y; unfold header_of; lia|].
    apply NoDup_filter. eapply NoDup_fmap_1. exact HndL.
  - intros x. change (map header_of (released L ptr)) with (header_of <$> released L ptr).
    rewrite list_elem_of_fmap. split.
    + intros Hx.
      assert (Hxl : x ∈ l1 ++ h :: l2).
      { apply elem_of_app in Hx as [Hx|Hx]; apply elem_of_app; [left | right; right];
          exact Hx. }
      rewrite Hperm in Hxl. change (x ∈ header_of <$> L) in Hxl.
      apply list_elem_of_fmap in Hxl as (q & -> & Hq).
      exists q. split; [reflexivity|]. apply list_elem_of_filter. split; [|exact Hq].
      intros ->. apply Hnin. apply list_elem_of_In. rewrite <- Hh. exact Hx.
    + intros (q & -> & Hq). apply list_elem_of_filter in Hq as [Hne Hq].
      assert (Hxl : header_of q ∈ l1 ++ h :: l2).
      { rewrite Hperm. change (header_of q ∈ header_of <$> L).
        apply list_elem_of_fmap. exists q. split; [reflexivity | exact Hq]. }
      apply elem_of_app in Hxl as [Hx|Hx]; [apply elem_of_app; left; exact Hx|].
      apply elem_of_cons in Hx as [Hx|Hx]; [|apply elem_of_app; right; exact Hx].
      exfalso. apply Hne. unfold header_of in *. lia.
Qed.

Lemma member_positive st l h : guard_inv st l -> In h l -> 0 < h.
Proof.
  intros I Hh. destruct (member_validated st l h I Hh) as (hd & _ & _ & _ & _ & _ & _ & H & _).
  exact H.
Qed.

(** A pointer the client holds is the payload of a header of the list. *)
Lemma held_pointer l L ptr :
  l ≡ₚ map header_of L -> In ptr L ->
  exists l1 l2, l = l1 ++ header_of ptr :: l2 /\ ptr = header_of ptr + sizeof_header.
Proof.
  intros Hperm Hptr.
  assert (Hin : In (header_of ptr) l).
  { apply list_elem_of_In. rewrite Hperm. apply list_elem_of_In.
    apply in_map. exact Hptr. }
  apply in_split in Hin as (l1 & l2 & ->).
  exists l1, l2. split; [reflexivity | unfold header_of; lia].
Qed.

Section WithBackend.
  Variable P : platform.
  Hypothesis libc_contract : backend_ok (stdlib P).

Lemma allocated_tracks l L p (st' : state) :
  l ≡ₚ map header_of L ->
  (p = 0 /\ guard_inv st' l) \/
  (exists h, p = h + sizeof_header /\ guard_inv st' (h :: l)) ->
  exists l', guard_inv st' l' /\ l' ≡ₚ map header_of (if p =? 0 then L else p :: L).
Proof.
  intros Hperm [(-> & I')|(h & -> & I')].
  - exists l. split; [exact I' | exact Hperm].
  - pose proof (member_positive st' (h :: l) h I' (or_introl eq_refl)) as Hpos.
    assert (E : (h + sizeof_header =? 0) = false).
    { apply Z.eqb_neq. unfold sizeof_header. lia. }
    rewrite E. exists (h :: l). split; [exact I'|]. cbn [map].
    replace (header_of (h + sizeof_header)) with h by (unfold header_of; lia).
    apply perm_skip. exact Hperm.
Qed.

(** The invariant of the guard holds in every state it reaches. *)
Lemma reachable_guard_inv st L :
  reachable P st L ->
  exists l, guard_inv st l /\ l ≡ₚ map header_of L.
Proof.
  induction 1 as [ | st L sz f ln p st' _ IH Hsz Hln H
                   | st L count sz f ln p st' _ IH Hcount Hsz' Hsz Hln H
                   | st L ptr sz f ln p st' _ IH Hptr Hsz Hln H
                   | st L ptr st' _ IH Hptr H
                   | st L n st' _ IH H
                   | st L ptr hd off v _ IH Hptr Hhd Hoff Hv ].
  - exists []. split; [apply guard_inv_initial | reflexivity].
  - destruct IH as (l & I & Hperm).
    apply (allocated_tracks l L p st' Hperm).
    destruct (zdebug_malloc_loc_step P libc_contract st l sz f ln p st' I Hsz H)
      as [Hl | (h & hd & -> & I' & _)]; [left; exact Hl | right; eauto].
  - destruct IH as (l & I & Hperm).
    apply (allocated_tracks l L p st' Hperm).
    destruct (zdebug_calloc_loc_step P libc_contract st l count sz f ln p st' I Hsz H)
      as [Hl | (h & -> & _ & I')]; [left; exact Hl | right; eauto].
  - destruct IH as (l & I & Hperm). unfold resized.
    destruct (Z.eqb_spec ptr 0) as [Hz|Hnz].
    { (* a null pointer: an allocation *)
      unfold zdebug_realloc_loc in H. subst ptr. cbn [Z.eqb] in H.
      apply (allocated_tracks l L p st' Hperm).
      destruct (zdebug_malloc_loc_step P libc_contract st l sz f ln p st' I Hsz H)
        as [Hl | (h & hd & -> & I' & _)]; [left; exact Hl | right; eauto]. }
    destruct Hptr as [Hptr|Hptr]; [contradiction|].
    destruct (held_pointer l L ptr Hperm Hptr) as (l1 & l2 & -> & Eptr).
    set (h := header_of ptr) in *.
    destruct (Z.eqb_spec sz 0) as [Hsz0|Hsz0].
    { (* a size of zero: a release *)
      unfold zdebug_realloc_loc in H. apply Z.eqb_neq in Hnz. rewrite Hnz in H.
      subst sz. cbn [Z.eqb] in H.
      destruct (zdebug_free_step st l1 h l2 I) as (st'' & Hf & I').
      rewrite <- Eptr in Hf. rewrite Hf in H. cbn [mbind outcome_bind] in H.
      apply Done_inj in H. injection H as <- <-.
      exists (l1 ++ l2). split; [exact I'|].
      apply (released_headers l1 h l2 L ptr (g_nodup _ _ I) Hperm eq_refl). }
    rewrite Eptr in H.
    destruct (zdebug_realloc_loc_step P libc_contract st l1 h l2 sz f ln p st' I
                ltac:(destruct Hsz; lia) Hsz H) as [(-> & I') | (h' & -> & I')].
    + cbn [Z.eqb]. exists (h :: l1 ++ l2). split; [exact I'|].
      rewrite <- Hperm. apply Permutation_middle.
    + pose proof (member_positive st' _ h' I' (or_introl eq_refl)) as Hpos.
      assert (E : (h' + sizeof_header =? 0) = false).
      { apply Z.eqb_neq. unfold sizeof_header. lia. }
      rewrite E. exists (h' :: l1 ++ l2). split; [exact I'|]. cbn [map].
      replace (header_of (h' + sizeof_header)) with h' by (unfold header_of; lia).
      apply perm_skip.
      apply (released_headers l1 h l2 L ptr (g_nodup _ _ I) Hperm eq_refl).
  - destruct IH as (l & I & Hperm).
    destruct (Z.eqb_spec ptr 0) as [Hz|Hnz].
    { unfold zdebug_free in H. subst ptr. cbn [Z.eqb] in H.
      apply Done_inj in H. subst st'. exists l. split; [exact I|].
      unfold released. rewrite Hperm.
      assert (E : filter (fun q => q <> 0) L = L); [|rewrite E; reflexivity].
      apply filter_all. rewrite Forall_forall. intros q Hq Hq0. subst q.
      assert (Hin : In (header_of 0) l).
      { apply list_elem_of_In. rewrite Hperm. apply list_elem_of_In.
        apply in_map. apply list_elem_of_In. exact Hq. }
      pose proof (member_positive st l _ I Hin). unfold header_of, sizeof_header in *. lia. }
    destruct Hptr as [Hptr|Hptr]; [contradiction|].
    destruct (held_pointer l L ptr Hperm Hptr) as (l1 & l2 & -> & Eptr).
    set (h := header_of ptr) in *.
    destruct (zdebug_free_step st l1 h l2 I) as (st'' & Hf & I').
    rewrite <- Eptr in Hf. rewrite Hf in H. apply Done_inj in H. subst st''.
    exists (l1 ++ l2). split; [exact I'|].
    apply (released_headers l1 h l2 L ptr (g_nodup _ _ I) Hperm eq_refl).
  - destruct IH as (l & I & Hperm).
    destruct (zdebug_print_leaks_counts st l I) as (st'' & Hl & I').
    rewrite Hl in H. apply Done_inj in H. injection H as _ <-.
    exists l. split; [exact I' | exact Hperm].
  - destruct IH as (l & I & Hperm).
    destruct (held_pointer l L ptr Hperm Hptr) as (l1 & l2 & El & Eptr).
    exists l. split; [|exact Hperm].
    apply (guard_inv_payload_write st l (header_of ptr) hd); try assumption.
    + rewrite El. apply in_elt.
    + intros a Ha. apply lookup_insert_ne. unfold header_of in *. lia.
Qed.

End WithBackend.

End GuardRuns.

Lemma no_resize_ok : backend_ok no_resize.
Proof.
  constructor; cbn.
  - intros h sz. apply bump_malloc_fresh. apply live_below_high_water.
  - intros h q sz H. contradiction.
Qed.

Ltac client_ok :=
  first [ unfold size_ok, Debug.sizeof_header, Debug.ZDEBUG_CANARY_SIZE;
          rewrite ?modulus_eq; lia
        | unfold int_ok; lia ].

(** C9. In every state the guard reaches through calls whose sizes do not
    wrap, the list rooted at [g_zdebug_head] is a well-formed doubly-linked
    list ([prev] of the first header is null, [prev] of every other header
    is the header whose [next] it is, the last [next] is null) without
    repetition; its members are exactly the headers of the pointers the
    client holds (the allocations that succeeded and were not released),
    each with magic ALIVE; and [zdebug_print_leaks] returns the length of
    that list. *)
Theorem live_list_well_formed (P : platform) (st : Debug.state) (L : list Z) :
  backend_ok (stdlib P) -> reachable P st L ->
  exists l,
    dll (Debug.hdrs st) 0 (Debug.g_zdebug_head st) l /\
    NoDup l /\
    l ≡ₚ map header_of L /\
    Forall (fun h => exists hd, Debug.hdrs st !! h = Some hd /\
                       Debug.magic hd = Debug.ZDEBUG_MAGIC_ALIVE) l /\
    exists st', Debug.zdebug_print_leaks st = Done (Z.of_nat (length l), st').
Proof.
  intros HP Hr.
  destruct (reachable_guard_inv P HP st L Hr) as (l & I & Hperm).
  exists l. split; [apply (g_list _ _ I)|]. split; [apply (g_nodup _ _ I)|].
  split; [exact Hperm|]. split.
  - eapply Forall_impl; [apply (g_members _ _ I)|].
    intros h (hd & Hhd & Hm & _). exists hd. split; assumption.
  - destruct (zdebug_print_leaks_counts st l I) as (st' & Hl & _).
    exists st'. exact Hl.
Qed.

(** Two allocations, the newer one first in the list. *)
Lemma two_allocations_reachable (B : backend) :
  bk_malloc B = bump_malloc ->
  exists st,
    reachable (Platform bump B) st [4200; 4136] /\
    Debug.hdrs st !! 4096
      = Some (Debug.Header 4160 0 "a.c" 3 10 Debug.ZDEBUG_MAGIC_ALIVE) /\
    ccalls (Debug.hp st) = [Malloc 58 4160; Malloc 59 4096].
Proof.
  intros HB.
  assert (H1 : exists st1,
             Debug.zdebug_malloc_loc (Platform bump B) Debug.initial 3 "a.c" 10
             = Done (4136, st1) /\
             exists st2,
               Debug.zdebug_malloc_loc (Platform bump B) st1 2 "b.c" 11
               = Done (4200, st2) /\
               Debug.hdrs st2 !! 4096
                 = Some (Debug.Header 4160 0 "a.c" 3 10 Debug.ZDEBUG_MAGIC_ALIVE) /\
               ccalls (Debug.hp st2) = [Malloc 58 4160; Malloc 59 4096]).
  { unfold Debug.zdebug_malloc_loc, malloc. cbn [stdlib]. rewrite HB.
    eexists. split; [vm_compute; reflexivity|].
    eexists. split; [vm_compute; reflexivity|].
    split; vm_compute; reflexivity. }
  destruct H1 as (st1 & E1 & st2 & E2 & Hh & Hc).
  exists st2. split; [|split; assumption].
  apply (reach_malloc (Platform bump B) st1 [4136] 2 "b.c" 11 4200 st2);
    [|client_ok | client_ok | exact E2].
  apply (reach_malloc (Platform bump B) Debug.initial [] 3 "a.c" 10 4136 st1);
    [apply reach_initial | client_ok | client_ok | exact E1].
Qed.

Lemma live_list_well_formed_witness :
  exists st l,
    reachable default_platform st [4200; 4136] /\
    dll (Debug.hdrs st) 0 (Debug.g_zdebug_head st) l /\
    NoDup l /\
    l ≡ₚ map header_of [4200; 4136] /\
    exists st', Debug.zdebug_print_leaks st = Done (Z.of_nat (length l), st').
Proof.
  destruct (two_allocations_reachable bump eq_refl) as (st & Hr & _).
  destruct (live_list_well_formed default_platform st [4200; 4136] bump_ok Hr)
    as (l & H1 & H2 & H3 & _ & H4).
  exists st, l. repeat split; assumption.
Defined.

(** An allocation of [2^64 - 16] bytes.  The total of header, payload and
    canary wraps to 40, the size of the header alone; the backend grants
    the 40 bytes at 4096; the canary, which starts at the payload address
    plus the size, is written over [size], [line] and [magic] of the
    header; the header is linked into the list and the payload address
    returned.  The list then has a member whose magic is not ALIVE. *)
Lemma live_list_member_not_alive :
  exists st hd st',
    Debug.zdebug_malloc_loc default_platform Debug.initial (2 ^ 64 - 16) "main.c" 7
      = Done (4136, st) /\
    ccalls (Debug.hp st) = [Malloc 40 4096] /\
    Debug.g_zdebug_head st = 4096 /\
    Debug.hdrs st !! 4096 = Some hd /\
    Debug.magic hd = 0xBBBBBBBB /\
    Debug.magic hd <> Debug.ZDEBUG_MAGIC_ALIVE /\
    Debug.zdebug_print_leaks st = Done (1, st').
Proof.
  eexists. eexists. eexists.
  split; [vm_compute; reflexivity|].
  split; [vm_compute; reflexivity|].
  split; [vm_compute; reflexivity|].
  split; [vm_compute; reflexivity|].
  split; [vm_compute; reflexivity|].
  split; [vm_compute; discriminate|].
  vm_compute. reflexivity.
Qed.

(** C2. When the backend refuses the resize that [zdebug_realloc_loc]
    asks for a pointer [p] the client holds, with a new size that is not
    zero and whose total with the header and the canary, as a [size_t], is
    not zero, the call returns the null pointer; the header of [p] keeps
    its origin, its size and the magic ALIVE; no byte of memory is written;
    the list of live allocations is made of the headers of the pointers the
    client holds, that of [p] once; the block of [p] is still allocated;
    and, when the total has not wrapped, the state is one the guard reaches
    with the same pointers. *)
Theorem zdebug_realloc_refused_keeps_allocation (P : platform) (st : Debug.state)
    (L : list Z) (ptr sz : Z) (f : string) (ln : Z) (hd : Debug.zdebug_header) :
  backend_ok (stdlib P) -> reachable P st L ->
  In ptr L -> 0 < sz < modulus ->
  wrap (Debug.sizeof_header + sz + Debug.ZDEBUG_CANARY_SIZE) <> 0 ->
  Debug.hdrs st !! header_of ptr = Some hd ->
  bk_realloc (stdlib P) (ccalls (Debug.hp st)) (header_of ptr)
    (wrap (Debug.sizeof_header + sz + Debug.ZDEBUG_CANARY_SIZE)) = 0 ->
  exists st',
    Debug.zdebug_realloc_loc P st ptr sz f ln = Done (0, st') /\
    (exists hd', Debug.hdrs st' !! header_of ptr = Some hd' /\
       Debug.file hd' = Debug.file hd /\ Debug.line hd' = Debug.line hd /\
       Debug.size hd' = Debug.size hd /\
       Debug.magic hd' = Debug.ZDEBUG_MAGIC_ALIVE) /\
    Debug.bytes st' = Debug.bytes st /\
    (exists l', dll (Debug.hdrs st') 0 (Debug.g_zdebug_head st') l' /\
       l' ≡ₚ map header_of L /\
       count_occ Z.eq_dec l' (header_of ptr) = 1%nat) /\
    live (ccalls (Debug.hp st')) = live (ccalls (Debug.hp st)) /\
    (size_ok sz -> int_ok ln -> reachable P st' L).
Proof.
  intros HP Hr Hptr Hsz Hok Hhd Hre.
  destruct (reachable_guard_inv P HP st L Hr) as (l & I & Hperm).
  destruct (held_pointer l L ptr Hperm Hptr) as (l1 & l2 & -> & Eptr).
  set (h := header_of ptr) in *.
  destruct (zdebug_realloc_loc_refused P st l1 h l2 sz f ln hd I ltac:(lia) Hok Hhd Hre)
    as (st' & Hrun & I' & Eb & El & hd' & Hhd' & Sf & Sl & Ss & Sm).
  rewrite <- Eptr in Hrun.
  exists st'. split; [exact Hrun|].
  split; [|split; [exact Eb|split; [|split; [exact El|]]]].
  - exists hd'. repeat split; try assumption.
    rewrite Sm.
    assert (Hin : In h (l1 ++ h :: l2)) by (apply in_or_app; right; left; reflexivity).
    destruct (member_validated st _ h I Hin) as (hd0 & Hhd0 & Hmag & _).
    rewrite Hhd in Hhd0. injection Hhd0 as <-. apply Z.eqb_eq. exact Hmag.
  - exists (h :: l1 ++ l2). split; [apply (g_list _ _ I')|].
    split; [rewrite <- Hperm; apply Permutation_middle|].
    pose proof (g_nodup _ _ I') as Hnd. apply NoDup_ListNoDup in Hnd.
    apply (proj1 (NoDup_count_occ' Z.eq_dec _) Hnd). left. reflexivity.
  - intros Hsok Hln.
    assert (E : resized L ptr sz 0 = L).
    { unfold resized.
      assert (Hp : (ptr =? 0) = false).
      { apply Z.eqb_neq. intros ->.
        assert (Hin : In h (l1 ++ h :: l2)) by (apply in_or_app; right; left; reflexivity).
        pose proof (member_positive st _ h I Hin).
        unfold h, header_of, Debug.sizeof_header in *. lia. }
      assert (Hz : (sz =? 0) = false) by (apply Z.eqb_neq; lia).
      rewrite Hp, Hz. reflexivity. }
    rewrite <- E.
    apply (reach_realloc P st L ptr sz f ln 0 st' Hr (or_intror Hptr) Hsok Hln Hrun).
Qed.

Lemma zdebug_realloc_refused_witness :
  exists st st',
    reachable (Platform bump no_resize) st [4200; 4136] /\
    Debug.zdebug_realloc_loc (Platform bump no_resize) st 4136 5 "c.c" 12
      = Done (0, st') /\
    Debug.bytes st' = Debug.bytes st /\
    reachable (Platform bump no_resize) st' [4200; 4136].
Proof.
  destruct (two_allocations_reachable no_resize eq_refl) as (st & Hr & Hh & Hc).
  destruct (zdebug_realloc_refused_keeps_allocation (Platform bump no_resize) st
              [4200; 4136] 4136 5 "c.c" 12 _ no_resize_ok Hr
              ltac:(right; left; reflexivity)
              ltac:(rewrite modulus_eq; lia) ltac:(vm_compute; discriminate) Hh eq_refl)
    as (st' & H1 & _ & H3 & _ & _ & H5).
  exists st, st'. split; [exact Hr|]. split; [exact H1|]. split; [exact H3|].
  apply H5; client_ok.
Defined.

(** A resize to [2^64 - 56] bytes.  The total of header, payload and canary
    wraps to zero and the backend is asked for [realloc(h, 0)], which hands
    the block back and returns the null pointer.  The block is not
    allocated any more, and the guard goes on to link its header into the
    list: it writes to memory it does not own. *)
Lemma zdebug_realloc_wrapped_releases :
  exists st,
    Debug.zdebug_malloc_loc (Platform bump no_resize) Debug.initial 3 "a.c" 10
      = Done (4136, st) /\
    live (ccalls (Debug.hp st)) = [(4096, 59)] /\
    wrap (Debug.sizeof_header + (2 ^ 64 - 56) + Debug.ZDEBUG_CANARY_SIZE) = 0 /\
    bk_realloc no_resize (ccalls (Debug.hp st)) 4096 0 = 0 /\
    live (Realloc 4096 0 0 :: ccalls (Debug.hp st)) = [] /\
    Debug.zdebug_realloc_loc (Platform bump no_resize) st 4136 (2 ^ 64 - 56) "c.c" 12
      = Fault.
Proof.
  eexists.
  split; [vm_compute; reflexivity|].
  split; [vm_compute; reflexivity|].
  split; [vm_compute; reflexivity|].
  split; [reflexivity|].
  split; vm_compute; reflexivity.
Qed.

(** ** Arena: the chain of blocks, resets included *)

Section ArenaChains.
  Import Arena.

(** The blocks reached from [cur] along the [next] links, up to the null
    link. *)
Fixpoint linked (bs : gmap Z zarena_block) (cur : Z) (l : list Z) : Prop :=
  match l with
  | [] => cur = 0
  | b :: t =>
      cur = b /\ b <> 0 /\
      exists blk, bs !! b = Some blk /\ linked bs (next blk) t
  end.

Lemma linked_ext bs bs' l : forall cur,
  (forall b blk, In b l -> bs !! b = Some blk ->
     exists blk', bs' !! b = Some blk' /\ next blk' = next blk) ->
  linked bs cur l -> linked bs' cur l.
Proof.
  induction l as [|b t IH]; intros cur Hsame H; [exact H|].
  destruct H as (-> & Hb & blk & Hblk & Ht).
  destruct (Hsame b blk (or_introl eq_refl) Hblk) as (blk' & Hblk' & En).
  split; [reflexivity|]. split; [exact Hb|]. exists blk'. split; [exact Hblk'|].
  rewrite En. apply IH; [|exact Ht].
  intros c blkc Hc. apply Hsame. right. exact Hc.
Qed.

Lemma linked_members bs l : forall cur,
  linked bs cur l -> Forall (fun b => b <> 0 /\ is_Some (bs !! b)) l.
Proof.
  induction l as [|b t IH]; intros cur H; [constructor|].
  destruct H as (-> & Hb & blk & Hblk & Ht).
  constructor; [split; [exact Hb | exists blk; exact Hblk] | eapply IH; exact Ht].
Qed.

Lemma linked_split bs pre b post : forall cur,
  linked bs cur (pre ++ b :: post) ->
  exists blk, bs !! b = Some blk /\ linked bs (next blk) post.
Proof.
  induction pre as [|x pre IH]; intros cur H; cbn in H.
  - destruct H as (_ & _ & blk & Hblk & Ht). exists blk. split; assumption.
  - destruct H as (_ & _ & blk & _ & Ht). eapply IH. exact Ht.
Qed.

Lemma linked_start bs cur l : linked bs cur l -> cur = hd 0 l.
Proof. destruct l; cbn; [tauto | intros (H & _); exact H]. Qed.

(** A new block is linked in after the block [h] of the chain. *)
Lemma linked_insert bs bs' pre h post b hb : forall cur,
  linked bs cur (pre ++ h :: post) ->
  NoDup (pre ++ h :: post) -> ~ In b (pre ++ h :: post) -> b <> 0 ->
  bs !! h = Some hb ->
  (exists blk, bs' !! h = Some blk /\ next blk = b) ->
  (exists blk, bs' !! b = Some blk /\ next blk = next hb) ->
  (forall c, c <> b -> c <> h -> bs' !! c = bs !! c) ->
  linked bs' cur (pre ++ h :: b :: post).
Proof.
  induction pre as [|x pre IH]; intros cur H Hnd Hnin Hb0 Hhb Hh' Hb' Hoth; cbn in *.
  - destruct H as (-> & Hh0 & blk & Hblk & Ht).
    rewrite Hhb in Hblk. injection Hblk as <-.
    destruct Hh' as (blkh & Hblkh & Enh). destruct Hb' as (blkb & Hblkb & Enb).
    split; [reflexivity|]. split; [exact Hh0|]. exists blkh. split; [exact Hblkh|].
    rewrite Enh. split; [reflexivity|]. split; [exact Hb0|].
    exists blkb. split; [exact Hblkb|]. rewrite Enb.
    apply (linked_ext bs); [|exact Ht].
    intros c blkc Hc Hblkc. exists blkc. split; [|reflexivity].
    rewrite Hoth; [exact Hblkc | |].
    + intros ->. apply Hnin. right. exact Hc.
    + intros ->. apply NoDup_cons in Hnd as [Hn _]. apply Hn.
      apply list_elem_of_In. exact Hc.
  - destruct H as (-> & Hx0 & blk & Hblk & Ht).
    apply NoDup_cons in Hnd as [Hxn Hnd].
    split; [reflexivity|]. split; [exact Hx0|]. exists blk. split.
    + rewrite Hoth; [exact Hblk | |].
      * intros ->. apply Hnin. left. reflexivity.
      * intros ->. apply Hxn. apply list_elem_of_In. apply in_elt.
    + apply IH; try assumption.
      intros Hi. apply Hnin. right. exact Hi.
Qed.

(** What holds of the blocks of an arena, whatever was asked of it: the
    chain from [first] runs through every block the backend has granted,
    once, and the current block is one of them. *)
Record arena_wf (a : zarena) (m : memory) (ch : list Z) : Prop := ArenaWf {
  wf_linked : linked (blocks m) (first a) ch;
  wf_nodup : NoDup ch;
  wf_live : ch ≡ₚ map fst (live (zcalls (hp m)));
  wf_blocks : Forall (block_ok m) (live (zcalls (hp m)));
  wf_disjoint : disjoint_blocks (live (zcalls (hp m)));
  wf_head : (head a = 0 /\ ch = []) \/ In (head a) ch
}.

Lemma arena_wf_init m : zcalls (hp m) = [] -> arena_wf zarena_init m [].
Proof.
  intros H. constructor; rewrite ?H; cbn; try solve [constructor | trivial].
  left. split; reflexivity.
Qed.

Lemma wf_block a m ch b :
  arena_wf a m ch -> In b ch ->
  exists n blk, In (b, n) (live (zcalls (hp m))) /\ blocks m !! b = Some blk /\
    n = sizeof_block + capacity blk /\ 0 < capacity blk /\
    0 < b /\ b + n < modulus /\ n <= max_object.
Proof.
  intros W Hb.
  assert (Hin : In b (map fst (live (zcalls (hp m))))).
  { apply list_elem_of_In. rewrite <- (wf_live _ _ _ W). apply list_elem_of_In. exact Hb. }
  apply in_map_iff in Hin as ([c n] & Hc & Hin). cbn in Hc. subst c.
  pose proof (wf_blocks _ _ _ W) as HB. rewrite Forall_forall in HB.
  destruct (HB (b, n)) as (H1 & H2 & H3 & blk & H4 & H5 & H6).
  { apply list_elem_of_In. exact Hin. }
  cbn in *. exists n, blk. repeat split; assumption.
Qed.

Lemma wf_fresh a m ch b total :
  arena_wf a m ch -> fresh_block (live (zcalls (hp m))) b total -> 0 < total ->
  ~ In b ch.
Proof.
  intros W (Hb0 & _ & Hf) Ht Hb.
  destruct (wf_block a m ch b W Hb) as (n & blk & Hin & _ & Hn & Hc & _).
  rewrite Forall_forall in Hf. specialize (Hf (b, n)).
  rewrite list_elem_of_In in Hf. specialize (Hf Hin).
  unfold disjoint in Hf. cbn in Hf. unfold sizeof_block in *. lia.
Qed.

End ArenaChains.

Section ArenaChainSteps.
  Import Arena.
  Variable P : platform.
  Hypothesis backend_contract : backend_ok (injected P).

(** Writes to cursors, to the bytes, to [total_alloc] and a move of [head]
    along the chain keep the chain. *)
Lemma arena_wf_ext a m ch a' m' :
  arena_wf a m ch -> first a' = first a ->
  live (zcalls (hp m')) = live (zcalls (hp m)) ->
  (forall c blk, blocks m !! c = Some blk ->
     exists blk', blocks m' !! c = Some blk' /\
                  next blk' = next blk /\ capacity blk' = capacity blk) ->
  (head a' = 0 /\ ch = []) \/ In (head a') ch ->
  arena_wf a' m' ch.
Proof.
  intros W Ef El Hsame Hh. constructor.
  - rewrite Ef. apply (linked_ext (blocks m)); [|apply (wf_linked _ _ _ W)].
    intros b blk _ Hblk. destruct (Hsame b blk Hblk) as (blk' & H1 & H2 & _).
    exists blk'. split; assumption.
  - apply (wf_nodup _ _ _ W).
  - rewrite El. apply (wf_live _ _ _ W).
  - rewrite El. eapply Forall_impl; [apply (wf_blocks _ _ _ W)|].
    intros e (H1 & H2 & H3 & blk & H4 & H5 & H6).
    destruct (Hsame e.1 blk H4) as (blk' & H7 & _ & H8).
    repeat split; try assumption. exists blk'. rewrite H8. repeat split; assumption.
  - rewrite El. apply (wf_disjoint _ _ _ W).
  - exact Hh.
Qed.

Lemma set_used_same b v m c blk :
  blocks m !! c = Some blk ->
  exists blk', blocks (set_used b v m) !! c = Some blk' /\
               next blk' = next blk /\ capacity blk' = capacity blk.
Proof.
  intros H. rewrite set_used_lookup. destruct (decide (b = c)).
  - rewrite H. cbn. eexists. split; [reflexivity|]. split; reflexivity.
  - exists blk. split; [exact H|]. split; reflexivity.
Qed.

(** The block that a chain member links to is null or a chain member. *)
Lemma wf_next a m ch b blk :
  arena_wf a m ch -> In b ch -> blocks m !! b = Some blk ->
  next blk = 0 \/ In (next blk) ch.
Proof.
  intros W Hb Hblk. apply in_split in Hb as (pre & post & ->).
  destruct (linked_split _ _ _ _ _ (wf_linked _ _ _ W)) as (blk' & Hblk' & Hl).
  rewrite Hblk in Hblk'. injection Hblk' as <-.
  destruct post as [|c post]; cbn in Hl.
  - left. exact Hl.
  - right. destruct Hl as (-> & _). apply in_or_app. right. right. left. reflexivity.
Qed.

(** What [grow] has done when it returns: nothing but a refused call, or a
    new block [b] of capacity [cap] linked in after the current block and
    made current. *)
Definition grown (a : zarena) (m : memory) (ch : list Z) (size align p : Z)
    (a' : zarena) (m' : memory) (b cap : Z) (ch' : list Z) : Prop :=
  ~ In b ch /\ 0 < b /\ 0 < cap /\ wrap (size + align) <= cap /\
  sizeof_block + cap <= max_object /\
  fresh_block (live (zcalls (hp m))) b (sizeof_block + cap) /\
  hp m' = Heap (Malloc (sizeof_block + cap) b :: zcalls (hp m)) (ccalls (hp m)) /\
  bytes m' = bytes m /\
  a' = Arena b (if head a =? 0 then b else first a) (wrap (total_alloc a + size)) /\
  _zarena_align_ptr (data b) align = Done p /\
  (exists nb, blocks m' !! b = Some (Block nb cap (wrap (size + wrap (p - data b)))) /\
     (head a = 0 -> nb = 0) /\
     (forall hb, head a <> 0 -> blocks m !! head a = Some hb -> nb = next hb)) /\
  (forall hb, head a <> 0 -> blocks m !! head a = Some hb ->
     blocks m' !! head a = Some (Block b (capacity hb) (used hb)) /\
     2 * capacity hb <= cap) /\
  (forall c, c <> b -> c <> head a -> blocks m' !! c = blocks m !! c) /\
  ((head a = 0 /\ ch = [] /\ ch' = [b]) \/
   (exists pre post, ch = pre ++ head a :: post /\ ch' = pre ++ head a :: b :: post)) /\
  arena_wf a' m' ch'.

Lemma wf_head_cases a m ch :
  arena_wf a m ch ->
  (head a = 0 /\ ch = [] /\ live (zcalls (hp m)) = []) \/
  (head a <> 0 /\ In (head a) ch).
Proof.
  intros W. destruct (wf_head _ _ _ W) as [[H0 Hch]|Hin].
  - left. split; [exact H0|]. split; [exact Hch|].
    pose proof (wf_live _ _ _ W) as Hp. rewrite Hch in Hp.
    apply Permutation_nil_l in Hp. destruct (live (zcalls (hp m))); [reflexivity|discriminate].
  - right. split; [|exact Hin].
    pose proof (linked_members _ _ _ (wf_linked _ _ _ W)) as Hm.
    rewrite Forall_forall in Hm. apply (Hm (head a)). apply list_elem_of_In. exact Hin.
Qed.

Lemma grow_spec a m ch size align p a' m' :
  arena_wf a m ch ->
  grow P a m size align = Done (p, a', m') ->
  (p = 0 /\ a' = a /\ blocks m' = blocks m /\ bytes m' = bytes m /\
   (exists total, hp m' = Heap (Malloc total 0 :: zcalls (hp m)) (ccalls (hp m))) /\
   arena_wf a' m' ch) \/
  (exists b cap ch', grown a m ch size align p a' m' b cap ch').
Proof.
  intros W H. unfold grow in H.
  apply bind_Done_inv in H. destruct H as (cap0 & Hcap0 & H).
  assert (Hc0 : 0 < cap0 <= 2 * (max_object - sizeof_block) /\
                (forall hb, head a <> 0 -> blocks m !! head a = Some hb ->
                   cap0 = 2 * capacity hb)).
  { destruct (wf_head_cases a m ch W) as [(Hz & _)|(Hnz & Hin)].
    - rewrite Hz in Hcap0. cbn [Z.eqb] in Hcap0. apply Done_inj in Hcap0. subst cap0.
      split; [vm_compute; split; [reflexivity|discriminate] | intros hb Hc; contradiction].
    - apply Z.eqb_neq in Hnz as E. rewrite E in Hcap0.
      destruct (wf_block a m ch (head a) W Hin)
        as (n & hb & Hl & Hhb & En & Hcp & Hpos & Hend & Hmx).
      unfold load in Hcap0. rewrite Hhb in Hcap0. cbn in Hcap0.
      apply Done_inj in Hcap0. subst cap0.
      unfold sizeof_block, max_object in *.
      rewrite wrap_small by (rewrite modulus_eq; lia).
      split; [lia|]. intros hb' _ Hhb'. rewrite Hhb in Hhb'. injection Hhb' as <-. lia. }
  destruct Hc0 as (Hc0 & Hdbl).
  set (next_cap := if cap0 <? wrap (size + align) then wrap (size + align) else cap0) in *.
  assert (Hnc : cap0 <= next_cap < modulus /\ wrap (size + align) <= next_cap).
  { pose proof (wrap_range (size + align)). unfold next_cap, max_object, sizeof_block in *.
    rewrite modulus_eq in *. destruct (Z.ltb_spec cap0 (wrap (size + align))); lia. }
  destruct Hnc as (Hnc & Hreq). clearbody next_cap.
  apply bind_Done_inv in H. destruct H as ([b m1] & Hnew & H).
  unfold _zarena_new_block, Z_MALLOC in Hnew.
  set (total := wrap (sizeof_block + next_cap)) in *.
  set (b0 := bk_malloc (injected P) (zcalls (hp m)) total) in *.
  destruct (Z.eqb_spec b0 0) as [Hb0|Hbn].
  { (* refused *)
    apply Done_inj in Hnew. injection Hnew as <- <-. cbn [Z.eqb] in H.
    apply Done_inj in H. injection H as <- <- <-. left.
    split; [reflexivity|]. split; [reflexivity|]. split; [reflexivity|].
    split; [reflexivity|]. split.
    { exists total. cbn. rewrite Hb0. reflexivity. }
    apply (arena_wf_ext a m ch); [exact W|reflexivity| |intros c blk Hc; eauto|
                                  apply (wf_head _ _ _ W)].
    cbn. rewrite Hb0. reflexivity. }
  destruct (total <? sizeof_block) eqn:Ef; [discriminate|].
  apply Done_inj in Hnew. injection Hnew as <- <-.
  apply Z.ltb_ge in Ef.
  assert (Etot : total = sizeof_block + next_cap).
  { unfold total. destruct (Z_lt_ge_dec (sizeof_block + next_cap) modulus) as [Hlt|Hge].
    - apply wrap_small. unfold sizeof_block in *. lia.
    - exfalso. assert (E : total = sizeof_block + next_cap - modulus).
      { unfold total, wrap. symmetry. unfold sizeof_block in *. rewrite modulus_eq in *.
        apply Z.mod_unique_pos with 1; lia. }
      unfold sizeof_block in *. lia. }
  destruct (malloc_grant _ backend_contract (zcalls (hp m)) total Hbn)
    as (Hmax & Hfresh).
  fold b0 in Hfresh.
  assert (Hnin : ~ In b0 ch).
  { apply (wf_fresh a m ch b0 total W Hfresh). unfold sizeof_block in *. lia. }
  apply Z.eqb_neq in Hbn as Eb. rewrite Eb in H.
  set (m1 := Memory (<[b0:=Block 0 next_cap 0]> (blocks m)) (bytes m)
                    (Heap (Malloc total b0 :: zcalls (hp m)) (ccalls (hp m)))) in *.
  apply bind_Done_inv in H. destruct H as ([a2 m2] & Hlink & H).
  apply bind_Done_inv in H. destruct H as (start & Hstart & H).
  apply Done_inj in H. injection H as <- <- <-.
  right. exists b0, next_cap.
  assert (El : live (zcalls (hp m1)) = (b0, total) :: live (zcalls (hp m))).
  { cbn. rewrite Eb. reflexivity. }
  destruct (wf_head_cases a m ch W) as [(Hz & Hch & Hlv)|(Hnz & Hin)].
  - (* the first block of the arena *)
    rewrite Hz in Hlink. cbn [Z.eqb] in Hlink.
    apply Done_inj in Hlink. injection Hlink as <- <-.
    exists [b0]. unfold grown. rewrite Hz. cbn [Z.eqb head first total_alloc add_total].
    rewrite <- Etot.
    split; [exact Hnin|]. split; [destruct Hfresh; assumption|].
    split; [lia|]. split; [exact Hreq|]. split; [exact Hmax|]. split; [exact Hfresh|].
    split; [reflexivity|]. split; [reflexivity|]. split; [reflexivity|].
    split; [exact Hstart|].
    assert (Hb1 : blocks (set_used b0 (wrap (size + wrap (start - data b0))) m1) !! b0
                  = Some (Block 0 next_cap (wrap (size + wrap (start - data b0))))).
    { rewrite set_used_lookup, decide_True by reflexivity.
      cbn [blocks m1]. rewrite lookup_insert_eq. reflexivity. }
    split. { exists 0. split; [exact Hb1|]. split; [reflexivity|]. intros hb Hc. contradiction. }
    split. { intros hb Hc. contradiction. }
    assert (Hoth : forall c, c <> b0 ->
              blocks (set_used b0 (wrap (size + wrap (start - data b0))) m1) !! c
              = blocks m !! c).
    { intros c Hc. rewrite set_used_lookup, decide_False by congruence.
      cbn [blocks m1]. apply lookup_insert_ne. congruence. }
    split. { intros c Hc _. apply Hoth. exact Hc. }
    split. { left. repeat split; assumption. }
    constructor; cbn [first head hp set_used].
    + cbn. split; [reflexivity|]. split; [exact Hbn|]. eexists. split; [exact Hb1|]. reflexivity.
    + apply NoDup_singleton.
    + rewrite El, Hlv. reflexivity.
    + rewrite El, Hlv. constructor; [|constructor].
      unfold block_ok. cbn [fst snd]. destruct Hfresh as (F1 & F2 & _).
      split; [exact F1|]. split; [exact F2|]. split; [exact Hmax|].
      eexists. split; [exact Hb1|]. cbn. split; [exact Etot | lia].
    + rewrite El, Hlv. cbn. split; [constructor | exact I].
    + right. left. reflexivity.
  - (* linked in after the current block *)
    apply Z.eqb_neq in Hnz as E. rewrite E in Hlink.
    destruct (wf_block a m ch (head a) W Hin)
      as (n & hb & Hl & Hhb & En & Hcp & Hpos & Hend & Hmx).
    assert (Hhb_ne : head a <> b0) by (intros Heq; apply Hnin; rewrite <- Heq; exact Hin).
    unfold load in Hlink. cbn [blocks m1] in Hlink.
    rewrite lookup_insert_ne in Hlink by congruence.
    rewrite Hhb in Hlink. cbn [mbind outcome_bind] in Hlink.
    apply Done_inj in Hlink. injection Hlink as <- <-.
    apply in_split in Hin as (pre & post & Ech).
    exists (pre ++ head a :: b0 :: post). unfold grown. rewrite E.
    cbn [head first total_alloc add_total]. rewrite <- Etot.
    set (u := wrap (size + wrap (start - data b0))).
    set (m2 := set_used b0 u (set_next (head a) b0 (set_next b0 (next hb) m1))).
    assert (Hb1 : blocks m2 !! b0 = Some (Block (next hb) next_cap u)).
    { unfold m2. rewrite set_used_lookup, decide_True by reflexivity.
      rewrite set_next_lookup, decide_False by exact Hhb_ne.
      rewrite set_next_lookup, decide_True by reflexivity.
      cbn [blocks m1]. rewrite lookup_insert_eq. reflexivity. }
    assert (Hh1 : blocks m2 !! head a = Some (Block b0 (capacity hb) (used hb))).
    { unfold m2. rewrite set_used_lookup, decide_False by congruence.
      rewrite set_next_lookup, decide_True by reflexivity.
      rewrite set_next_lookup, decide_False by congruence.
      cbn [blocks m1]. rewrite lookup_insert_ne by congruence.
      rewrite Hhb. reflexivity. }
    assert (Hoth : forall c, c <> b0 -> c <> head a -> blocks m2 !! c = blocks m !! c).
    { intros c Hc1 Hc2. unfold m2. rewrite set_used_lookup, decide_False by congruence.
      rewrite set_next_lookup, decide_False by congruence.
      rewrite set_next_lookup, decide_False by congruence.
      cbn [blocks m1]. apply lookup_insert_ne. congruence. }
    split; [exact Hnin|]. split; [destruct Hfresh; assumption|].
    split; [lia|]. split; [exact Hreq|]. split; [exact Hmax|]. split; [exact Hfresh|].
    split; [reflexivity|]. split; [reflexivity|]. split; [reflexivity|].
    split; [exact Hstart|].
    split. { exists (next hb). split; [exact Hb1|]. split; [intros Hc; contradiction|].
             intros hb' _ Hhb'. rewrite Hhb in Hhb'. injection Hhb' as <-. reflexivity. }
    split. { intros hb' _ Hhb'. rewrite Hhb in Hhb'. injection Hhb' as <-.
             split; [exact Hh1|]. rewrite (Hdbl hb Hnz Hhb) in Hnc. lia. }
    split; [exact Hoth|].
    split. { right. exists pre, post. split; [exact Ech | reflexivity]. }
    assert (Hsame : forall c blk, c <> b0 -> blocks m !! c = Some blk ->
              exists blk', blocks m2 !! c = Some blk' /\ capacity blk' = capacity blk).
    { intros c blk Hc Hblk. destruct (decide (c = head a)) as [->|Hne].
      - rewrite Hhb in Hblk. injection Hblk as <-. eexists. split; [exact Hh1|]. reflexivity.
      - exists blk. split; [|reflexivity]. rewrite Hoth by assumption. exact Hblk. }
    constructor; cbn [first head].
    + fold m2. apply (linked_insert (blocks m) (blocks m2) pre (head a) post b0 hb).
      * rewrite <- Ech. apply (wf_linked _ _ _ W).
      * rewrite <- Ech. apply (wf_nodup _ _ _ W).
      * rewrite <- Ech. exact Hnin.
      * exact Hbn.
      * exact Hhb.
      * eexists. split; [exact Hh1|]. reflexivity.
      * eexists. split; [exact Hb1|]. reflexivity.
      * exact Hoth.
    + pose proof (wf_nodup _ _ _ W) as Hnd. rewrite Ech in Hnd, Hnin.
      apply NoDup_app in Hnd as (N1 & N2 & N3). apply NoDup_cons in N3 as (N3 & N4).
      apply NoDup_app. split; [exact N1|]. split.
      { intros x Hx Hx'. apply elem_of_cons in Hx' as [->|Hx'].
        - apply (N2 _ Hx). left.
        - apply elem_of_cons in Hx' as [->|Hx'].
          + apply Hnin. apply in_or_app. left. apply list_elem_of_In. exact Hx.
          + apply (N2 _ Hx). right. exact Hx'. }
      apply NoDup_cons. split.
      { intros Hx. apply elem_of_cons in Hx as [Hx|Hx]; [congruence|]. apply N3. exact Hx. }
      apply NoDup_cons. split; [|exact N4].
      intros Hx. apply Hnin. apply in_or_app. right. right. apply list_elem_of_In. exact Hx.
    + fold m2. change (hp m2) with (hp m1). rewrite El. cbn [map fst].
      rewrite <- (wf_live _ _ _ W), Ech. symmetry.
      rewrite (cons_middle (head a) pre (b0 :: post)), (cons_middle (head a) pre post).
      rewrite !app_assoc. apply Permutation_middle.
    + fold m2. change (hp m2) with (hp m1). rewrite El. constructor.
      * unfold block_ok. cbn [fst snd]. destruct Hfresh as (F1 & F2 & _).
        split; [exact F1|]. split; [exact F2|]. split; [exact Hmax|].
        eexists. split; [exact Hb1|]. cbn. split; [exact Etot | lia].
      * pose proof (wf_blocks _ _ _ W) as HB.
        rewrite Forall_forall in HB |- *. intros e He.
        destruct (HB e He) as (H1 & H2 & H3 & blk & H4 & H5 & H6).
        destruct (Hsame e.1 blk) as (blk' & H7 & H8); [|exact H4|].
        { intros Heq. apply Hnin.
          apply list_elem_of_In. rewrite (wf_live _ _ _ W). apply list_elem_of_In.
          rewrite <- Heq. apply in_map. apply list_elem_of_In. exact He. }
        repeat split; try assumption. exists blk'. rewrite H8. repeat split; assumption.
    + fold m2. change (hp m2) with (hp m1). rewrite El. cbn.
      split; [destruct Hfresh as (_ & _ & F); exact F | apply (wf_disjoint _ _ _ W)].
    + right. apply in_or_app. right. right. left. reflexivity.
Qed.

End ArenaChainSteps.

Section ArenaChainRuns.
  Import Arena.
  Variable P : platform.
  Hypothesis backend_contract : backend_ok (injected P).

Lemma arena_wf_set_used a m ch b v t :
  arena_wf a m ch -> arena_wf (Arena (head a) (first a) t) (set_used b v m) ch.
Proof.
  intros W. apply (arena_wf_ext a m ch); [exact W|reflexivity|reflexivity| |].
  - intros c blk Hc. apply set_used_same. exact Hc.
  - apply (wf_head _ _ _ W).
Qed.

Lemma arena_wf_bytes a m ch b :
  arena_wf a m ch -> arena_wf a (Memory (blocks m) b (hp m)) ch.
Proof.
  intros W. apply (arena_wf_ext a m ch); [exact W|reflexivity|reflexivity| |].
  - intros c blk Hc. exists blk. repeat split. exact Hc.
  - apply (wf_head _ _ _ W).
Qed.

(** What the first two attempts of [zarena_alloc_align] have done when
    they hand out a region. *)
Lemma bump_head_spec a m size align p a' m' :
  bump_head a m size align = Done (Some (p, a', m')) ->
  exists hb,
    head a <> 0 /\ blocks m !! head a = Some hb /\
    _zarena_align_ptr (wrap (data (head a) + used hb)) align = Done p /\
    wrap (used hb + wrap (size + wrap (p - wrap (data (head a) + used hb)))) <= capacity hb /\
    a' = add_total a size /\
    m' = set_used (head a)
           (wrap (used hb + wrap (size + wrap (p - wrap (data (head a) + used hb))))) m.
Proof.
  unfold bump_head. intros H.
  destruct (Z.eqb_spec (head a) 0) as [Hz|Hnz]; [discriminate|].
  unfold load in H. destruct (blocks m !! head a) as [hb|] eqn:Hhb; [|discriminate].
  cbn [mbind outcome_bind] in H.
  destruct (_zarena_align_ptr (wrap (data (head a) + used hb)) align) as [nxt| | |] eqn:En;
    try discriminate.
  cbn [mbind outcome_bind] in H.
  destruct (Z.leb_spec (wrap (used hb + wrap (size + wrap (nxt - wrap (data (head a) + used hb)))))
                       (capacity hb)) as [Hle|Hgt]; [|discriminate].
  apply Done_inj in H. injection H as <- <- <-.
  exists hb. repeat split; assumption.
Qed.

Lemma advance_spec a m size align p a' m' :
  advance a m size align = Done (Some (p, a', m')) ->
  exists hb nb,
    head a <> 0 /\ blocks m !! head a = Some hb /\ next hb <> 0 /\
    blocks m !! next hb = Some nb /\
    _zarena_align_ptr (data (next hb)) align = Done p /\
    wrap (size + wrap (p - data (next hb))) <= capacity nb /\
    a' = Arena (next hb) (first a) (wrap (total_alloc a + size)) /\
    m' = set_used (next hb) (wrap (size + wrap (p - data (next hb)))) m.
Proof.
  unfold advance. intros H.
  destruct (Z.eqb_spec (head a) 0) as [Hz|Hnz]; [discriminate|].
  unfold load in H. destruct (blocks m !! head a) as [hb|] eqn:Hhb; [|discriminate].
  cbn [mbind outcome_bind] in H.
  destruct (Z.eqb_spec (next hb) 0) as [Hn|Hn]; [discriminate|].
  destruct (blocks m !! next hb) as [nb|] eqn:Hnb; [|discriminate].
  cbn [mbind outcome_bind] in H.
  destruct (_zarena_align_ptr (data (next hb)) align) as [st| | |] eqn:En;
    try discriminate.
  cbn [mbind outcome_bind] in H.
  destruct (Z.leb_spec (wrap (size + wrap (st - data (next hb)))) (capacity nb))
    as [Hle|Hgt]; [|discriminate].
  apply Done_inj in H. injection H as <- <- <-.
  exists hb, nb. repeat split; assumption.
Qed.

(** The three attempts of [zarena_alloc_align]. *)
Lemma zarena_alloc_align_cases a m size align r :
  zarena_alloc_align P a m size align = Done r ->
  (size = 0 /\ r = (0, a, m)) \/
  (size <> 0 /\ bump_head a m size align = Done (Some r)) \/
  (size <> 0 /\ bump_head a m size align = Done None /\
   advance a m size align = Done (Some r)) \/
  (size <> 0 /\ bump_head a m size align = Done None /\
   advance a m size align = Done None /\ grow P a m size align = Done r).
Proof.
  unfold zarena_alloc_align. intros H.
  destruct (Z.eqb_spec size 0) as [Hz|Hnz].
  { left. apply Done_inj in H. split; congruence. }
  right. apply bind_Done_inv in H. destruct H as (r1 & H1 & H).
  destruct r1 as [r1|].
  { left. apply Done_inj in H. subst r1. split; assumption. }
  right. apply bind_Done_inv in H. destruct H as (r2 & H2 & H).
  destruct r2 as [r2|].
  { left. apply Done_inj in H. subst r2. repeat split; assumption. }
  right. repeat split; assumption.
Qed.

Lemma zarena_alloc_align_wf a m ch size align p a' m' :
  arena_wf a m ch ->
  zarena_alloc_align P a m size align = Done (p, a', m') ->
  exists ch', arena_wf a' m' ch'.
Proof.
  intros W H.
  destruct (zarena_alloc_align_cases _ _ _ _ _ H)
    as [(_ & E) | [(_ & Hb) | [(_ & _ & Ha) | (_ & _ & _ & Hg)]]].
  - injection E as -> -> ->. exists ch. exact W.
  - destruct (bump_head_spec _ _ _ _ _ _ _ Hb) as (hb & _ & _ & _ & _ & -> & ->).
    exists ch. apply arena_wf_set_used. exact W.
  - destruct (advance_spec _ _ _ _ _ _ _ Ha)
      as (hb & nb & Hnz & Hhb & Hn & Hnb & _ & _ & -> & ->).
    exists ch. apply (arena_wf_ext a m ch); [exact W|reflexivity|reflexivity| |].
    + intros c blk Hc. apply set_used_same. exact Hc.
    + right. cbn [head].
      destruct (wf_head_cases a m ch W) as [(Hz & _)|(_ & Hin)]; [contradiction|].
      destruct (wf_next a m ch (head a) hb W Hin Hhb) as [Hc|Hc]; [contradiction|exact Hc].
  - destruct (grow_spec P backend_contract a m ch size align p a' m' W Hg)
      as [(_ & _ & _ & _ & _ & W') | (b & cap & ch' & G)].
    + exists ch. exact W'.
    + exists ch'. unfold grown in G. apply G.
Qed.

(** *** The loops of [zarena_reset] and [zarena_free] *)

Lemma chain_in_store (bs : gmap Z zarena_block) (l : list Z) :
  NoDup l -> Forall (fun b => b <> 0 /\ is_Some (bs !! b)) l ->
  (length l <= size bs)%nat.
Proof.
  intros Hnd Hs. rewrite <- (size_list_to_set (C:=gset Z) l Hnd).
  rewrite <- (size_dom (D:=gset Z) bs). apply subseteq_size.
  intros x Hx. apply elem_of_list_to_set in Hx. apply elem_of_dom.
  rewrite Forall_forall in Hs. apply Hs. exact Hx.
Qed.

Lemma reset_loop_spec ch : forall fuel bs cur,
  linked bs cur ch -> NoDup ch -> (length ch <= fuel)%nat ->
  exists bs',
    reset_loop fuel bs cur = Done bs' /\
    (forall c blk, In c ch -> bs !! c = Some blk ->
       bs' !! c = Some (Block (next blk) (capacity blk) 0)) /\
    (forall c, ~ In c ch -> bs' !! c = bs !! c).
Proof.
  induction ch as [|b t IH]; intros fuel bs cur Hl Hnd Hf.
  - cbn in Hl. subst cur. exists bs. destruct fuel; cbn; (split; [reflexivity|]);
      (split; [intros c blk []|reflexivity]).
  - destruct Hl as (-> & Hb & blk & Hblk & Ht).
    destruct fuel as [|fuel]; [cbn in Hf; lia|].
    apply NoDup_cons in Hnd as [Hnb Hnd].
    cbn [reset_loop]. apply Z.eqb_neq in Hb as E. rewrite E, Hblk.
    destruct (IH fuel (<[b := Block (next blk) (capacity blk) 0]> bs) (next blk))
      as (bs' & Hr & Hin & Hout).
    + apply (linked_ext bs); [|exact Ht].
      intros c blkc Hc Hblkc. exists blkc. split; [|reflexivity].
      rewrite lookup_insert_ne; [exact Hblkc|].
      intros ->. apply Hnb. apply list_elem_of_In. exact Hc.
    + exact Hnd.
    + cbn in Hf. lia.
    + exists bs'. split; [exact Hr|]. split.
      * intros c blkc [->|Hc] Hblkc.
        -- rewrite Hblk in Hblkc. injection Hblkc as <-.
           rewrite Hout by (intros Hc; apply Hnb; apply list_elem_of_In; exact Hc).
           apply lookup_insert_eq.
        -- apply Hin; [exact Hc|]. rewrite lookup_insert_ne; [exact Hblkc|].
           intros ->. apply Hnb. apply list_elem_of_In. exact Hc.
      * intros c Hc. rewrite Hout by (intros Hi; apply Hc; right; exact Hi).
        apply lookup_insert_ne. intros ->. apply Hc. left. reflexivity.
Qed.

Lemma free_loop_spec ch : forall fuel bs h cur,
  linked bs cur ch -> (length ch <= fuel)%nat ->
  free_loop fuel bs h cur = Done (Heap (rev (map Free ch) ++ zcalls h) (ccalls h)).
Proof.
  induction ch as [|b t IH]; intros fuel bs h cur Hl Hf.
  - cbn in Hl. subst cur. destruct h. destruct fuel; reflexivity.
  - destruct Hl as (-> & Hb & blk & Hblk & Ht).
    destruct fuel as [|fuel]; [cbn in Hf; lia|].
    cbn [free_loop]. apply Z.eqb_neq in Hb as E. rewrite E, Hblk.
    rewrite (IH fuel bs (Z_FREE h b) (next blk) Ht) by (cbn in Hf; lia).
    cbn [Z_FREE zcalls ccalls map rev]. rewrite <- app_assoc. reflexivity.
Qed.

(** Once every block has been released nothing stays allocated. *)
Lemma live_released ch : forall h,
  Forall (fun b => In b.1 ch) (live h) -> live (rev (map Free ch) ++ h) = [].
Proof.
  induction ch as [|c t IH]; intros h Hall.
  - cbn. destruct (live h) as [|b l]; [reflexivity|].
    apply Forall_cons in Hall as [[] _].
  - cbn [map rev]. rewrite <- app_assoc. cbn [app]. apply IH.
    cbn [live]. rewrite Forall_forall in Hall |- *. intros b Hb.
    apply list_elem_of_filter in Hb as [Hne Hb].
    destruct (Hall b Hb) as [Heq|Hin]; [congruence | exact Hin].
Qed.

Lemma zarena_reset_spec a m ch :
  arena_wf a m ch ->
  exists bs',
    zarena_reset a m = Done (Arena (first a) (first a) 0, Memory bs' (bytes m) (hp m)) /\
    (forall c blk, In c ch -> blocks m !! c = Some blk ->
       bs' !! c = Some (Block (next blk) (capacity blk) 0)) /\
    (forall c, ~ In c ch -> bs' !! c = blocks m !! c) /\
    arena_wf (Arena (first a) (first a) 0) (Memory bs' (bytes m) (hp m)) ch.
Proof.
  intros W. unfold zarena_reset.
  destruct (reset_loop_spec ch (S (size (blocks m))) (blocks m) (first a))
    as (bs' & Hr & Hin & Hout).
  - apply (wf_linked _ _ _ W).
  - apply (wf_nodup _ _ _ W).
  - apply Nat.le_le_succ_r. apply chain_in_store; [apply (wf_nodup _ _ _ W)|].
    apply (linked_members _ _ _ (wf_linked _ _ _ W)).
  - exists bs'. rewrite Hr. split; [reflexivity|]. split; [exact Hin|].
    split; [exact Hout|].
    apply (arena_wf_ext a m ch); [exact W|reflexivity|reflexivity| |].
    + intros c blk Hblk. cbn [blocks].
      destruct (decide (c ∈ ch)) as [Hc|Hc].
      * rewrite (Hin c blk) by (try apply list_elem_of_In; assumption).
        eexists. split; [reflexivity|]. split; reflexivity.
      * rewrite Hout by (intros Hi; apply Hc; apply list_elem_of_In; exact Hi).
        exists blk. repeat split. exact Hblk.
    + cbn [head]. pose proof (linked_start _ _ _ (wf_linked _ _ _ W)) as Hs.
      destruct ch as [|b t]; [left; split; [exact Hs|reflexivity]|].
      right. rewrite Hs. left. reflexivity.
Qed.

Lemma zarena_free_spec a m ch :
  arena_wf a m ch ->
  zarena_free a m =
    Done (zarena_init,
          Memory (blocks m) (bytes m)
                 (Heap (rev (map Free ch) ++ zcalls (hp m)) (ccalls (hp m)))) /\
  live (rev (map Free ch) ++ zcalls (hp m)) = [].
Proof.
  intros W. split.
  - unfold zarena_free.
    rewrite (free_loop_spec ch (S (size (blocks m))) (blocks m) (hp m) (first a)).
    + reflexivity.
    + apply (wf_linked _ _ _ W).
    + apply Nat.le_le_succ_r. apply chain_in_store; [apply (wf_nodup _ _ _ W)|].
      apply (linked_members _ _ _ (wf_linked _ _ _ W)).
  - apply live_released. rewrite Forall_forall. intros b Hb.
    apply list_elem_of_In. rewrite (wf_live _ _ _ W). apply list_elem_of_In.
    apply in_map. apply list_elem_of_In. exact Hb.
Qed.

End ArenaChainRuns.

Lemma NoDup_split_unique {A : Type} (x : A) (pre : list A) : forall post pre' post',
  NoDup (pre ++ x :: post) -> pre ++ x :: post = pre' ++ x :: post' ->
  pre = pre' /\ post = post'.
Proof.
  induction pre as [|y pre IH]; intros post pre' post' Hnd E.
  - destruct pre' as [|z pre']; cbn in E.
    + injection E as ->. split; reflexivity.
    + injection E as <- ->. cbn in Hnd. apply NoDup_cons in Hnd as [Hn _].
      exfalso. apply Hn. apply elem_of_app. right. left.
  - destruct pre' as [|z pre']; cbn in E.
    + injection E as -> <-. cbn in Hnd. apply NoDup_cons in Hnd as [Hn _].
      exfalso. apply Hn. apply elem_of_app. right. left.
    + injection E as <- E. cbn in Hnd. apply NoDup_cons in Hnd as [_ Hnd].
      destruct (IH _ _ _ Hnd E) as [-> ->]. split; reflexivity.
Qed.

(** What [_zarena_align_ptr] returns on a power of two. *)
Lemma align_facts x al p :
  power_of_two al -> 0 <= x < modulus ->
  Arena._zarena_align_ptr x al = Done p ->
  exists pad, 0 <= pad < al /\ p = wrap (x + pad) /\ (x + pad) mod al = 0 /\
              wrap (p - x) = pad.
Proof.
  intros Hal Hx H. rewrite (_zarena_align_ptr_spec x al Hal Hx) in H.
  apply Done_inj in H. subst p.
  pose proof (power_of_two_pos al Hal) as Hpos.
  exists (padding_to x al).
  pose proof (padding_to_range x al ltac:(lia)) as Hr.
  split; [exact Hr|]. split; [reflexivity|].
  split; [apply padding_to_aligned; lia|].
  apply wrap_sub_pad. rewrite modulus_eq. lia.
Qed.

Lemma align_returns x al :
  power_of_two al -> 0 <= x < modulus ->
  exists p, Arena._zarena_align_ptr x al = Done p.
Proof. intros Hal Hx. eexists. apply _zarena_align_ptr_spec; assumption. Qed.

Section ArenaSafety.
  Import Arena.
  Variable P : platform.
  Hypothesis backend_contract : backend_ok (injected P).

(** A region handed out lies in the data of a block of the chain, below
    its cursor. *)
Definition region_in (m : memory) (ch : list Z) (r : Z * Z) : Prop :=
  0 < r.2 /\
  exists b blk, In b ch /\ blocks m !! b = Some blk /\
    b + sizeof_block <= r.1 /\ r.1 + r.2 <= b + sizeof_block + used blk.

(** What holds of an arena whose client asks for sizes within bounds, with
    [regs] the regions the client holds: every cursor is within its block,
    the blocks after the current one are unused, and the regions held lie
    below the cursors and are pairwise disjoint. *)
Record arena_safe (a : zarena) (m : memory) (ch : list Z) (regs : list (Z * Z))
    : Prop := ArenaSafe {
  sf_wf : arena_wf a m ch;
  sf_used : forall b blk, In b ch -> blocks m !! b = Some blk ->
              0 <= used blk <= capacity blk;
  sf_rest : head a <> 0 ->
            exists pre post, ch = pre ++ head a :: post /\
              Forall (fun b => forall blk, blocks m !! b = Some blk -> used blk = 0) post;
  sf_regions : Forall (region_in m ch) regs;
  sf_disjoint : disjoint_blocks regs
}.

Lemma arena_safe_init m : zcalls (hp m) = [] -> arena_safe zarena_init m [] [].
Proof.
  intros H. constructor.
  - apply arena_wf_init. exact H.
  - intros b blk [].
  - intros Hc. contradiction.
  - constructor.
  - exact I.
Qed.

(** The bytes of a block of the chain. *)
Lemma safe_span a m ch regs b blk :
  arena_safe a m ch regs -> In b ch -> blocks m !! b = Some blk ->
  In (b, sizeof_block + capacity blk) (live (zcalls (hp m))) /\
  0 < b /\ b + sizeof_block + capacity blk < modulus /\
  0 < capacity blk /\ sizeof_block + capacity blk <= max_object /\
  0 <= used blk <= capacity blk.
Proof.
  intros S Hb Hblk.
  destruct (wf_block a m ch b (sf_wf _ _ _ _ S) Hb)
    as (n & blk' & Hl & Hblk' & En & Hc & Hpos & Hend & Hmx).
  rewrite Hblk in Hblk'. injection Hblk' as <-. subst n.
  pose proof (sf_used _ _ _ _ S b blk Hb Hblk).
  repeat split; try assumption; try lia.
Qed.

(** Regions in two blocks of the chain do not overlap. *)
Lemma regions_apart a m ch b1 blk1 b2 blk2 r1 r2 :
  arena_wf a m ch ->
  In b1 ch -> blocks m !! b1 = Some blk1 ->
  In b2 ch -> blocks m !! b2 = Some blk2 -> b1 <> b2 ->
  b1 + sizeof_block <= r1.1 -> r1.1 + r1.2 <= b1 + sizeof_block + capacity blk1 ->
  b2 + sizeof_block <= r2.1 -> r2.1 + r2.2 <= b2 + sizeof_block + capacity blk2 ->
  disjoint r1 r2.
Proof.
  intros W H1 B1 H2 B2 Hne L1 U1 L2 U2.
  destruct (wf_block a m ch b1 W H1) as (n1 & k1 & I1 & K1 & E1 & _).
  destruct (wf_block a m ch b2 W H2) as (n2 & k2 & I2 & K2 & E2 & _).
  rewrite B1 in K1. injection K1 as <-. rewrite B2 in K2. injection K2 as <-.
  subst n1 n2.
  assert (Hd : disjoint (b1, sizeof_block + capacity blk1) (b2, sizeof_block + capacity blk2)).
  { apply (disjoint_blocks_in _ _ _ (wf_disjoint _ _ _ W) I1 I2). congruence. }
  unfold disjoint in *. cbn in Hd. unfold sizeof_block in *. lia.
Qed.

Lemma region_in_mono m ch m' ch' r :
  region_in m ch r ->
  (forall b blk, In b ch -> blocks m !! b = Some blk ->
     0 < used blk ->
     exists blk', blocks m' !! b = Some blk' /\ used blk <= used blk') ->
  (forall b, In b ch -> In b ch') ->
  region_in m' ch' r.
Proof.
  intros (Hr & b & blk & Hb & Hblk & Hlo & Hhi) Hsame Hsub.
  split; [exact Hr|].
  destruct (Hsame b blk Hb Hblk ltac:(lia)) as (blk' & Hblk' & Hu).
  exists b, blk'. split; [apply Hsub; exact Hb|]. split; [exact Hblk'|]. lia.
Qed.

(** What one call has done: when it returns the null pointer, nothing (the
    size was zero) or nothing but a call that the backend refused;
    otherwise the region it returns is aligned and ends at the cursor of
    the current block. *)
Definition handed_out (regs : list (Z * Z)) (size align p : Z)
    (a' : zarena) (m' : memory) : Prop :=
  0 < p /\ p mod align = 0 /\ 0 < size /\
  (exists ch', arena_safe a' m' ch' ((p, size) :: regs)) /\
  exists hb', head a' <> 0 /\ blocks m' !! head a' = Some hb' /\
              head a' + sizeof_block <= p /\
              p + size = head a' + sizeof_block + used hb'.

Definition safe_post (a : zarena) (m : memory) (regs : list (Z * Z))
    (size align p : Z) (a' : zarena) (m' : memory) : Prop :=
  (exists l, zcalls (hp m') = l ++ zcalls (hp m)) /\
  ccalls (hp m') = ccalls (hp m) /\ bytes m' = bytes m /\
  ((p = 0 /\ (exists ch', arena_safe a' m' ch' regs) /\
    ((size = 0 /\ m' = m) \/
     exists total, zcalls (hp m') = Malloc total 0 :: zcalls (hp m))) \/
   handed_out regs size align p a' m').

Lemma bump_head_safe a m ch regs size align p a' m' :
  arena_safe a m ch regs -> 0 < size -> request_ok size align ->
  bump_head a m size align = Done (Some (p, a', m')) ->
  handed_out regs size align p a' m' /\ hp m' = hp m /\ bytes m' = bytes m.
Proof.
  intros S Hs (_ & Hal & Hsum) H.
  pose proof (power_of_two_pos align Hal) as Halpos.
  destruct (bump_head_spec _ _ _ _ _ _ _ H) as (hb & Hnz & Hhb & Hali & Hfit & -> & ->).
  pose proof (sf_wf _ _ _ _ S) as W.
  destruct (wf_head_cases a m ch W) as [(Hz & _)|(_ & Hin)]; [contradiction|].
  destruct (safe_span a m ch regs (head a) hb S Hin Hhb)
    as (Hlv & Hpos & Hend & Hcp & Hmx & Hu).
  assert (Edata : data (head a) = head a + sizeof_block).
  { unfold data. apply wrap_small. unfold sizeof_block in *. lia. }
  rewrite Edata in *.
  rewrite (wrap_small (head a + sizeof_block + used hb)) in *
    by (unfold sizeof_block in *; lia).
  set (curr := head a + sizeof_block + used hb) in *.
  destruct (align_facts curr align p Hal ltac:(unfold curr, sizeof_block in *; lia) Hali)
    as (pad & Hpad & Ep & Hmod & Esub).
  rewrite Esub in *.
  rewrite (wrap_small (size + pad)) in * by (rewrite modulus_eq; lia).
  rewrite (wrap_small (used hb + (size + pad))) in *
    by (unfold max_object, sizeof_block in *; rewrite modulus_eq; lia).
  assert (Ep' : p = curr + pad).
  { rewrite Ep. apply wrap_small. unfold curr, sizeof_block in *. lia. }
  clear Ep. subst p.
  set (u' := used hb + (size + pad)) in *.
  split; [|split; reflexivity].
  split; [unfold curr, sizeof_block in *; lia|]. split; [exact Hmod|].
  split; [exact Hs|].
  assert (Hh' : blocks (set_used (head a) u' m) !! head a
                = Some (Block (next hb) (capacity hb) u')).
  { rewrite set_used_lookup, decide_True by reflexivity. rewrite Hhb. reflexivity. }
  split.
  - exists ch. constructor.
    + unfold add_total. apply arena_wf_set_used. exact W.
    + intros b blk Hb Hblk. rewrite set_used_lookup in Hblk.
      destruct (decide (head a = b)) as [<-|Hne].
      * rewrite Hhb in Hblk. cbn in Hblk. injection Hblk as <-. cbn. unfold u'. lia.
      * apply (sf_used _ _ _ _ S b blk Hb Hblk).
    + cbn [head add_total]. intros _.
      destruct (sf_rest _ _ _ _ S Hnz) as (pre & post & Ech & Hpost).
      exists pre, post. split; [exact Ech|].
      rewrite Forall_forall in Hpost |- *. intros b Hb blk Hblk.
      rewrite set_used_lookup in Hblk.
      destruct (decide (head a = b)) as [<-|Hne]; [|apply (Hpost b Hb blk Hblk)].
      exfalso. pose proof (wf_nodup _ _ _ W) as Hnd. rewrite Ech in Hnd.
      apply NoDup_app in Hnd as (_ & _ & Hnd). apply NoDup_cons in Hnd as [Hn _].
      apply Hn. exact Hb.
    + constructor.
      * split; [exact Hs|]. exists (head a), (Block (next hb) (capacity hb) u').
        split; [exact Hin|]. split; [exact Hh'|]. cbn. unfold curr, u'. lia.
      * eapply Forall_impl; [apply (sf_regions _ _ _ _ S)|].
        intros r Hr. apply (region_in_mono m ch); [exact Hr| |tauto].
        intros b blk Hb Hblk _. rewrite set_used_lookup.
        destruct (decide (head a = b)) as [<-|Hne].
        -- rewrite Hhb in Hblk. injection Hblk as <-. rewrite Hhb. cbn.
           eexists. split; [reflexivity|]. cbn. unfold u'. lia.
        -- exists blk. split; [exact Hblk | lia].
    + cbn. split; [|apply (sf_disjoint _ _ _ _ S)].
      eapply Forall_impl; [apply (sf_regions _ _ _ _ S)|].
      intros r (Hr & b & blk & Hb & Hblk & Hlo & Hhi).
      destruct (decide (b = head a)) as [->|Hne].
      * rewrite Hhb in Hblk. injection Hblk as <-.
        unfold disjoint. cbn. right. unfold curr. lia.
      * pose proof (sf_used _ _ _ _ S b blk Hb Hblk) as Hub.
        apply (regions_apart a m ch (head a) hb b blk _ _ W Hin Hhb Hb Hblk);
          cbn; unfold curr, u' in *; lia.
  - exists (Block (next hb) (capacity hb) u'). cbn [head add_total].
    split; [exact Hnz|]. split; [exact Hh'|]. cbn. unfold curr, u'. lia.
Qed.

(** A request that fits the current block is served from it. *)
Lemma bump_head_fits a m ch regs size align hb :
  arena_safe a m ch regs -> head a <> 0 -> blocks m !! head a = Some hb ->
  0 < size -> request_ok size align ->
  used hb + size + align <= capacity hb ->
  exists r, bump_head a m size align = Done (Some r).
Proof.
  intros S Hnz Hhb Hs (_ & Hal & Hsum) Hfit.
  pose proof (power_of_two_pos align Hal) as Halpos.
  pose proof (sf_wf _ _ _ _ S) as W.
  destruct (wf_head_cases a m ch W) as [(Hz & _)|(_ & Hin)]; [contradiction|].
  destruct (safe_span a m ch regs (head a) hb S Hin Hhb)
    as (Hlv & Hpos & Hend & Hcp & Hmx & Hu).
  unfold bump_head. apply Z.eqb_neq in Hnz as E. rewrite E.
  unfold load. rewrite Hhb. cbn [mbind outcome_bind].
  assert (Edata : data (head a) = head a + sizeof_block).
  { unfold data. apply wrap_small. unfold sizeof_block in *. lia. }
  rewrite Edata.
  rewrite (wrap_small (head a + sizeof_block + used hb))
    by (unfold sizeof_block in *; lia).
  set (curr := head a + sizeof_block + used hb).
  rewrite _zarena_align_ptr_spec
    by (try exact Hal; unfold curr, sizeof_block in *; lia).
  pose proof (padding_to_range curr align ltac:(lia)) as Hpad.
  cbn [mbind outcome_bind].
  rewrite wrap_sub_pad by (rewrite modulus_eq; lia).
  rewrite (wrap_small (size + padding_to curr align)) by (rewrite modulus_eq; lia).
  rewrite (wrap_small (used hb + (size + padding_to curr align)))
    by (unfold max_object, sizeof_block in *; rewrite modulus_eq; lia).
  destruct (Z.leb_spec (used hb + (size + padding_to curr align)) (capacity hb)) as [_|Hno];
    [eexists; reflexivity | lia].
Qed.

(** A request within bounds always returns. *)
Lemma zarena_alloc_align_returns a m ch size align :
  arena_wf a m ch -> request_ok size align ->
  exists r, zarena_alloc_align P a m size align = Done r.
Proof.
  intros W (Hs0 & Hal & Hsum).
  pose proof (power_of_two_pos align Hal) as Halpos.
  unfold zarena_alloc_align.
  destruct (size =? 0); [eexists; reflexivity|].
  destruct (wf_head_cases a m ch W) as [(Hz & Hch & Hlv)|(Hnz & Hin)].
  - (* no block yet *)
    unfold bump_head, advance, grow. rewrite Hz. cbn [Z.eqb mbind outcome_bind].
    rewrite (wrap_small (size + align)) by (rewrite modulus_eq; lia).
    set (next_cap := if ZARENA_DEFAULT_BLOCK_SIZE <? size + align
                     then size + align else ZARENA_DEFAULT_BLOCK_SIZE).
    assert (Hnc : 0 < next_cap <= 2 ^ 63).
    { unfold next_cap, ZARENA_DEFAULT_BLOCK_SIZE.
      destruct (Z.ltb_spec 4096 (size + align)); lia. }
    clearbody next_cap.
    unfold _zarena_new_block, Z_MALLOC.
    rewrite (wrap_small (sizeof_block + next_cap))
      by (unfold sizeof_block; rewrite modulus_eq; lia).
    set (b := bk_malloc (injected P) (zcalls (hp m)) (sizeof_block + next_cap)).
    destruct (Z.eqb_spec b 0) as [Hb0|Hbn]; [cbn; eexists; reflexivity|].
    destruct (Z.ltb_spec (sizeof_block + next_cap) sizeof_block) as [Hc|_]; [lia|].
    cbn [mbind outcome_bind]. apply Z.eqb_neq in Hbn as E. rewrite E.
    cbn [mbind outcome_bind].
    destruct (align_returns (data b) align Hal (wrap_range _)) as (st & ->).
    cbn. eexists. reflexivity.
  - destruct (wf_block a m ch (head a) W Hin)
      as (n & hb & Hl & Hhb & En & Hcp & Hpos & Hend & Hmx).
    apply Z.eqb_neq in Hnz as E.
    assert (Hbump : exists r1, bump_head a m size align = Done r1).
    { unfold bump_head. rewrite E. unfold load. rewrite Hhb. cbn [mbind outcome_bind].
      destruct (align_returns (wrap (data (head a) + used hb)) align Hal (wrap_range _))
        as (st & ->). cbn [mbind outcome_bind].
      destruct (_ <=? _); eexists; reflexivity. }
    destruct Hbump as (r1 & ->). cbn [mbind outcome_bind].
    destruct r1 as [r1|]; [eexists; reflexivity|].
    assert (Hadv : exists r2, advance a m size align = Done r2).
    { unfold advance. rewrite E. unfold load. rewrite Hhb. cbn [mbind outcome_bind].
      destruct (Z.eqb_spec (next hb) 0) as [Hn0|Hn0]; [eexists; reflexivity|].
      destruct (wf_next a m ch (head a) hb W Hin Hhb) as [Hc|Hnin]; [contradiction|].
      destruct (wf_block a m ch (next hb) W Hnin) as (n' & nb & _ & Hnb & _).
      rewrite Hnb. cbn [mbind outcome_bind].
      destruct (align_returns (data (next hb)) align Hal (wrap_range _)) as (st & ->).
      cbn [mbind outcome_bind]. destruct (_ <=? _); eexists; reflexivity. }
    destruct Hadv as (r2 & ->). cbn [mbind outcome_bind].
    destruct r2 as [r2|]; [eexists; reflexivity|].
    assert (Hld : load m (head a) = Done hb) by (unfold load; rewrite Hhb; reflexivity).
    unfold grow. rewrite E, Hld. cbn [mbind outcome_bind].
    rewrite (wrap_small (size + align)) by (rewrite modulus_eq; lia).
    rewrite (wrap_small (capacity hb * 2))
      by (unfold sizeof_block, max_object in *; rewrite modulus_eq; lia).
    set (next_cap := if capacity hb * 2 <? size + align
                     then size + align else capacity hb * 2).
    assert (Hnc : 0 < next_cap <= 2 ^ 64 - 50).
    { unfold next_cap, sizeof_block, max_object in *.
      destruct (Z.ltb_spec (capacity hb * 2) (size + align)); lia. }
    clearbody next_cap.
    unfold _zarena_new_block, Z_MALLOC.
    rewrite (wrap_small (sizeof_block + next_cap))
      by (unfold sizeof_block; rewrite modulus_eq; lia).
    set (b := bk_malloc (injected P) (zcalls (hp m)) (sizeof_block + next_cap)).
    destruct (Z.eqb_spec b 0) as [Hb0|Hbn]; [cbn; eexists; reflexivity|].
    destruct (Z.ltb_spec (sizeof_block + next_cap) sizeof_block) as [Hc|_]; [lia|].
    cbn [mbind outcome_bind]. apply Z.eqb_neq in Hbn as Eb. rewrite Eb.
    destruct (malloc_grant _ backend_contract (zcalls (hp m)) (sizeof_block + next_cap) Hbn)
      as (Hmax & Hfresh).
    fold b in Hfresh.
    assert (Hne : head a <> b).
    { intros Heq. apply (wf_fresh a m ch b _ W Hfresh); [unfold sizeof_block; lia|].
      rewrite <- Heq. exact Hin. }
    unfold load. cbn [blocks]. rewrite lookup_insert_ne by congruence.
    rewrite Hhb. cbn [mbind outcome_bind].
    destruct (align_returns (data b) align Hal (wrap_range _)) as (st & ->).
    cbn. eexists. reflexivity.
Qed.

Lemma advance_safe a m ch regs size align p a' m' :
  arena_safe a m ch regs -> 0 < size -> request_ok size align ->
  advance a m size align = Done (Some (p, a', m')) ->
  handed_out regs size align p a' m' /\ hp m' = hp m /\ bytes m' = bytes m.
Proof.
  intros S Hs (_ & Hal & Hsum) H.
  pose proof (power_of_two_pos align Hal) as Halpos.
  destruct (advance_spec _ _ _ _ _ _ _ H)
    as (hb & nb & Hnz & Hhb & Hn & Hnb & Hali & Hfit & -> & ->).
  pose proof (sf_wf _ _ _ _ S) as W.
  destruct (sf_rest _ _ _ _ S Hnz) as (pre & post & Ech & Hpost).
  assert (Hpost' : exists post', post = next hb :: post').
  { pose proof (wf_linked _ _ _ W) as Hl. rewrite Ech in Hl.
    destruct (linked_split _ _ _ _ _ Hl) as (blk & Hblk & Hl').
    rewrite Hhb in Hblk. injection Hblk as <-.
    destruct post as [|c post']; cbn in Hl'; [contradiction|].
    destruct Hl' as (-> & _). exists post'. reflexivity. }
  destruct Hpost' as (post' & ->).
  assert (Hin : In (next hb) ch).
  { rewrite Ech. apply in_or_app. right. right. left. reflexivity. }
  apply Forall_cons in Hpost as [Hu0 Hpost]. specialize (Hu0 nb Hnb).
  destruct (safe_span a m ch regs (next hb) nb S Hin Hnb)
    as (Hlv & Hpos & Hend & Hcp & Hmx & Hu).
  set (b := next hb) in *.
  assert (Edata : data b = b + sizeof_block).
  { unfold data. apply wrap_small. unfold sizeof_block in *. lia. }
  rewrite Edata in *.
  destruct (align_facts (b + sizeof_block) align p Hal
              ltac:(unfold sizeof_block in *; lia) Hali)
    as (pad & Hpad & Ep & Hmod & Esub).
  rewrite Esub in *.
  rewrite (wrap_small (size + pad)) in * by (rewrite modulus_eq; lia).
  assert (Ep' : p = b + sizeof_block + pad).
  { rewrite Ep. apply wrap_small. unfold sizeof_block in *. lia. }
  clear Ep. subst p.
  set (u' := size + pad) in *.
  assert (Hnd : NoDup ((pre ++ [head a]) ++ b :: post')).
  { rewrite <- app_assoc. cbn. rewrite <- Ech. apply (wf_nodup _ _ _ W). }
  split; [|split; reflexivity].
  split; [unfold sizeof_block in *; lia|]. split; [exact Hmod|].
  split; [exact Hs|].
  assert (Hb' : blocks (set_used b u' m) !! b = Some (Block (next nb) (capacity nb) u')).
  { rewrite set_used_lookup, decide_True by reflexivity. rewrite Hnb. reflexivity. }
  assert (W' : arena_wf (Arena b (first a) (wrap (total_alloc a + size)))
                        (set_used b u' m) ch).
  { apply (arena_wf_ext a m ch); [exact W|reflexivity|reflexivity| |].
    - intros c blk Hc. apply set_used_same. exact Hc.
    - right. exact Hin. }
  split.
  - exists ch. constructor.
    + exact W'.
    + intros c blk Hc Hblk. rewrite set_used_lookup in Hblk.
      destruct (decide (b = c)) as [<-|Hne].
      * rewrite Hnb in Hblk. cbn in Hblk. injection Hblk as <-. cbn. unfold u'. lia.
      * apply (sf_used _ _ _ _ S c blk Hc Hblk).
    + cbn [head]. intros _. exists (pre ++ [head a]), post'.
      split; [rewrite <- app_assoc; exact Ech|].
      rewrite Forall_forall in Hpost |- *. intros c Hc blk Hblk.
      rewrite set_used_lookup in Hblk.
      destruct (decide (b = c)) as [<-|Hne]; [|apply (Hpost c Hc blk Hblk)].
      exfalso. apply NoDup_app in Hnd as (_ & _ & Hnd). apply NoDup_cons in Hnd as [Hnn _].
      apply Hnn. exact Hc.
    + constructor.
      * split; [exact Hs|]. exists b, (Block (next nb) (capacity nb) u').
        split; [exact Hin|]. split; [exact Hb'|]. cbn. unfold u'. lia.
      * eapply Forall_impl; [apply (sf_regions _ _ _ _ S)|].
        intros r Hr. apply (region_in_mono m ch); [exact Hr| |tauto].
        intros c blk Hc Hblk Hpos'. rewrite set_used_lookup.
        destruct (decide (b = c)) as [<-|Hne].
        -- rewrite Hnb in Hblk. injection Hblk as <-. lia.
        -- exists blk. split; [exact Hblk | lia].
    + cbn. split; [|apply (sf_disjoint _ _ _ _ S)].
      eapply Forall_impl; [apply (sf_regions _ _ _ _ S)|].
      intros r (Hr & c & blk & Hc & Hblk & Hlo & Hhi).
      destruct (decide (c = b)) as [->|Hne].
      * rewrite Hnb in Hblk. injection Hblk as <-. lia.
      * pose proof (sf_used _ _ _ _ S c blk Hc Hblk) as Hub.
        apply (regions_apart a m ch b nb c blk _ _ W Hin Hnb Hc Hblk);
          cbn; unfold u' in *; lia.
  - exists (Block (next nb) (capacity nb) u'). cbn [head].
    split; [lia|]. split; [exact Hb'|]. cbn. unfold u'. lia.
Qed.

Lemma grow_safe a m ch regs size align p a' m' :
  arena_safe a m ch regs -> 0 < size -> request_ok size align ->
  grow P a m size align = Done (p, a', m') ->
  safe_post a m regs size align p a' m'.
Proof.
  intros S Hs (_ & Hal & Hsum) H.
  pose proof (power_of_two_pos align Hal) as Halpos.
  pose proof (sf_wf _ _ _ _ S) as W.
  destruct (grow_spec P backend_contract a m ch size align p a' m' W H)
    as [(-> & -> & Eb & Ey & (total & Eh) & W') | (b & cap & ch' & G)].
  - (* refused *)
    split; [exists [Malloc total 0]; rewrite Eh; reflexivity|].
    split; [rewrite Eh; reflexivity|]. split; [exact Ey|].
    left. split; [reflexivity|]. split.
    + exists ch. constructor.
      * exact W'.
      * rewrite Eb. apply (sf_used _ _ _ _ S).
      * rewrite Eb. apply (sf_rest _ _ _ _ S).
      * eapply Forall_impl; [apply (sf_regions _ _ _ _ S)|].
        intros r Hr. apply (region_in_mono m ch); [exact Hr| |tauto].
        intros c blk Hc Hblk _. exists blk. rewrite Eb. split; [exact Hblk|lia].
      * apply (sf_disjoint _ _ _ _ S).
    + right. exists total. rewrite Eh. reflexivity.
  - destruct G as (Hnin & Hbpos & Hcap & Hreq & Hmax & Hfresh & Eh & Ey & -> & Hali &
                   (nb & Hb' & Hnb0 & Hnb1) & Hhead & Hoth & Hch & W').
    rewrite (wrap_small (size + align)) in Hreq by (rewrite modulus_eq; lia).
    pose proof Hfresh as (_ & Hbend & _).
    assert (Edata : data b = b + sizeof_block).
    { unfold data. apply wrap_small. unfold sizeof_block in *. lia. }
    rewrite Edata in *.
    destruct (align_facts (b + sizeof_block) align p Hal
                ltac:(unfold sizeof_block in *; lia) Hali)
      as (pad & Hpad & Ep & Hmod & Esub).
    rewrite Esub in *.
    rewrite (wrap_small (size + pad)) in * by (rewrite modulus_eq; lia).
    assert (Ep' : p = b + sizeof_block + pad).
    { rewrite Ep. apply wrap_small. unfold sizeof_block in *. lia. }
    clear Ep. subst p.
    set (u' := size + pad) in *.
    set (a' := Arena b (if head a =? 0 then b else first a) (wrap (total_alloc a + size))) in *.
    assert (Hsub : forall c, In c ch -> In c ch').
    { intros c Hc. destruct Hch as [(_ & Ech & _)|(pre & post & Ech & ->)].
      - rewrite Ech in Hc. destruct Hc.
      - rewrite Ech in Hc. apply in_app_or in Hc as [Hc|[Hc|Hc]]; apply in_or_app;
          [left; exact Hc | right; left; exact Hc | right; right; right; exact Hc]. }
    assert (Hbin : In b ch').
    { destruct Hch as [(_ & _ & ->)|(pre & post & _ & ->)]; [left; reflexivity|].
      apply in_or_app. right. right. left. reflexivity. }
    assert (Hold : forall c blk, In c ch -> blocks m !! c = Some blk ->
              exists blk', blocks m' !! c = Some blk' /\ used blk' = used blk /\
                           capacity blk' = capacity blk).
    { intros c blk Hc Hblk.
      assert (c <> b) by (intros ->; contradiction).
      destruct (decide (c = head a)) as [->|Hne].
      - assert (Hnz : head a <> 0).
        { destruct (wf_head_cases a m ch W) as [(_ & Ech & _)|(Hnz & _)]; [|exact Hnz].
          rewrite Ech in Hc. destruct Hc. }
        destruct (Hhead blk Hnz Hblk) as (Hh' & _).
        eexists. split; [exact Hh'|]. split; reflexivity.
      - exists blk. rewrite Hoth by assumption. repeat split. exact Hblk. }
    split; [exists [Malloc (sizeof_block + cap) b]; rewrite Eh; reflexivity|].
    split; [rewrite Eh; reflexivity|]. split; [exact Ey|].
    right. split; [unfold sizeof_block in *; lia|]. split; [exact Hmod|].
    split; [exact Hs|]. split.
    + exists ch'. constructor.
      * exact W'.
      * intros c blk Hc Hblk. destruct (decide (c = b)) as [->|Hne].
        -- rewrite Hb' in Hblk. injection Hblk as <-. cbn. unfold u'. lia.
        -- assert (Hc' : In c ch).
           { destruct Hch as [(_ & _ & ->)|(pre & post & -> & ->)].
             - destruct Hc as [Hc|[]]. congruence.
             - apply in_app_or in Hc as [Hc|[Hc|[Hc|Hc]]]; try congruence;
                 apply in_or_app; [left|right; left|right; right]; assumption. }
           destruct (wf_block a m ch c W Hc') as (n & blk0 & _ & Hblk0 & _).
           destruct (Hold c blk0 Hc' Hblk0) as (blk' & Hblk' & Eu & Ec).
           rewrite Hblk in Hblk'. injection Hblk' as <-. rewrite Eu, Ec.
           apply (sf_used _ _ _ _ S c blk0 Hc' Hblk0).
      * cbn [head a']. intros _.
        destruct Hch as [(_ & _ & ->)|(pre & post & Ech & ->)].
        -- exists [], []. split; [reflexivity | constructor].
        -- exists (pre ++ [head a]), post. split; [rewrite <- app_assoc; reflexivity|].
           assert (Hnz : head a <> 0).
           { destruct (wf_head_cases a m ch W) as [(_ & Ech' & _)|(Hnz & _)]; [|exact Hnz].
             rewrite Ech' in Ech. destruct pre; discriminate. }
           destruct (sf_rest _ _ _ _ S Hnz) as (pre0 & post0 & Ech0 & Hpost).
           pose proof (wf_nodup _ _ _ W) as Hnd. rewrite Ech0 in Hnd.
           rewrite Ech in Ech0.
           destruct (NoDup_split_unique _ _ _ _ _ Hnd (eq_sym Ech0)) as [-> ->].
           rewrite Forall_forall in Hpost |- *. intros c Hc blk Hblk.
           assert (Hc' : In c ch).
           { rewrite Ech. apply in_or_app. right. right. apply list_elem_of_In. exact Hc. }
           destruct (wf_block a m ch c W Hc') as (n & blk0 & _ & Hblk0 & _).
           destruct (Hold c blk0 Hc' Hblk0) as (blk' & Hblk' & Eu & Ec).
           rewrite Hblk in Hblk'. injection Hblk' as <-. rewrite Eu.
           apply (Hpost c Hc blk0 Hblk0).
      * constructor.
        -- split; [exact Hs|]. exists b, (Block nb cap u').
           split; [exact Hbin|]. split; [exact Hb'|]. cbn. unfold u'. lia.
        -- eapply Forall_impl; [apply (sf_regions _ _ _ _ S)|].
           intros r Hr. apply (region_in_mono m ch); [exact Hr| |exact Hsub].
           intros c blk Hc Hblk _.
           destruct (Hold c blk Hc Hblk) as (blk' & Hblk' & Eu & _).
           exists blk'. split; [exact Hblk' | lia].
      * cbn. split; [|apply (sf_disjoint _ _ _ _ S)].
        eapply Forall_impl; [apply (sf_regions _ _ _ _ S)|].
        intros r (Hr & c & blk & Hc & Hblk & Hlo & Hhi).
        destruct (Hold c blk Hc Hblk) as (blk' & Hblk' & Eu & Ec).
        pose proof (sf_used _ _ _ _ S c blk Hc Hblk) as Hub.
        apply (regions_apart a' m' ch' b (Block nb cap u') c blk' _ _ W' Hbin Hb'
                 (Hsub c Hc) Hblk'); cbn; unfold u' in *; try lia.
        intros ->. contradiction.
    + exists (Block nb cap u'). cbn [head a'].
      split; [lia|]. split; [exact Hb'|]. cbn. unfold u'. lia.
Qed.

(** One call of [zarena_alloc_align] with a request within bounds. *)
Lemma zarena_alloc_align_safe a m ch regs size align :
  arena_safe a m ch regs -> request_ok size align ->
  exists p a' m',
    zarena_alloc_align P a m size align = Done (p, a', m') /\
    safe_post a m regs size align p a' m'.
Proof.
  intros S Hreq. pose proof Hreq as (Hs0 & _).
  destruct (zarena_alloc_align_returns a m ch size align (sf_wf _ _ _ _ S) Hreq)
    as ([[p a'] m'] & H).
  exists p, a', m'. split; [exact H|].
  destruct (zarena_alloc_align_cases _ _ _ _ _ _ H)
    as [(Hz & E) | [(Hnz & Hb) | [(Hnz & _ & Ha) | (Hnz & _ & _ & Hg)]]].
  - injection E as -> -> ->.
    split; [exists []; reflexivity|]. split; [reflexivity|]. split; [reflexivity|].
    left. split; [reflexivity|]. split; [exists ch; exact S | left; split; [exact Hz | reflexivity]].
  - destruct (bump_head_safe a m ch regs size align p a' m' S ltac:(lia) Hreq Hb)
      as (Ho & Eh & Ey).
    split; [exists []; rewrite Eh; reflexivity|]. split; [rewrite Eh; reflexivity|].
    split; [exact Ey | right; exact Ho].
  - destruct (advance_safe a m ch regs size align p a' m' S ltac:(lia) Hreq Ha)
      as (Ho & Eh & Ey).
    split; [exists []; rewrite Eh; reflexivity|]. split; [rewrite Eh; reflexivity|].
    split; [exact Ey | right; exact Ho].
  - apply (grow_safe a m ch); try assumption. lia.
Qed.

End ArenaSafety.

Lemma memcpy_lookup n : forall (src_mem mem : gmap Z Z) dst src (i : nat),
  (i < n)%nat ->
  (forall j : nat, (j < n)%nat -> j <> i ->
     wrap (dst + Z.of_nat j) <> wrap (dst + Z.of_nat i)) ->
  memcpy src_mem mem dst src n !! wrap (dst + Z.of_nat i)
  = src_mem !! wrap (src + Z.of_nat i).
Proof.
  induction n as [|k IH]; intros src_mem mem dst src i Hi Hinj; [lia|].
  cbn [memcpy]. destruct i as [|j].
  - replace (dst + Z.of_nat 0) with dst in * by lia.
    replace (src + Z.of_nat 0) with src by lia.
    rewrite memcpy_other.
    + destruct (src_mem !! wrap src); [apply lookup_insert_eq | apply lookup_delete_eq].
    + intros j Hj. specialize (Hinj (S j) ltac:(lia) ltac:(lia)).
      replace (dst + 1 + Z.of_nat j) with (dst + Z.of_nat (S j)) by lia. exact Hinj.
  - replace (dst + Z.of_nat (S j)) with (dst + 1 + Z.of_nat j) in * by lia.
    replace (src + Z.of_nat (S j)) with (src + 1 + Z.of_nat j) by lia.
    apply IH; [lia|]. intros j' Hj' Hne.
    specialize (Hinj (S j') ltac:(lia) ltac:(lia)).
    replace (dst + Z.of_nat (S j')) with (dst + 1 + Z.of_nat j') in Hinj by lia.
    exact Hinj.
Qed.

Section ArenaClients.
  Import Arena.
  Variable P : platform.
  Hypothesis backend_contract : backend_ok (injected P).

(** What a client may ask: sizes within bounds, and a resize only of a
    region it holds, with the size it holds it at, or of the null pointer. *)
Definition valid_op (regs : list (Z * Z)) (o : op) : Prop :=
  match o with
  | Alloc s | AllocZero s => request_ok s ZARENA_MAX_ALIGN
  | AllocAlign s al => request_ok s al
  | ReallocOp old os ns =>
      request_ok ns ZARENA_MAX_ALIGN /\ (old = 0 \/ In (old, os) regs)
  | Reset => True
  end.

(** The regions the client holds once the operation has returned [p]: a
    non-null result is a new region; after a resize it stands for the old
    region; after a reset nothing is held. *)
Definition held_after (regs : list (Z * Z)) (o : op) (p : Z) : list (Z * Z) :=
  match o with
  | Alloc s | AllocAlign s _ | AllocZero s => if p =? 0 then regs else (p, s) :: regs
  | ReallocOp old os ns =>
      if p =? 0 then regs else (p, ns) :: filter (fun r => r <> (old, os)) regs
  | Reset => []
  end.

Lemma arena_safe_bytes a m ch regs b :
  arena_safe a m ch regs -> arena_safe a (Memory (blocks m) b (hp m)) ch regs.
Proof.
  intros [W U R G D]. constructor; try assumption.
  apply arena_wf_bytes. exact W.
Qed.

Lemma arena_safe_cons_filter a m ch r regs (Q : Z * Z -> Prop)
    `{forall x, Decision (Q x)} :
  arena_safe a m ch (r :: regs) -> arena_safe a m ch (r :: filter Q regs).
Proof.
  intros [W U R G D]. constructor; try assumption.
  - apply Forall_cons in G as [G1 G2]. constructor; [exact G1|].
    apply Forall_filter_keep. exact G2.
  - destruct D as [D1 D2]. split; [apply Forall_filter_keep; exact D1|].
    apply disjoint_blocks_filter. exact D2.
Qed.

(** A region held lies in the data of a block that is still allocated. *)
Lemma region_bounds a m ch regs r :
  arena_safe a m ch regs -> In r regs ->
  0 < r.2 /\ 0 < r.1 /\ r.1 + r.2 < modulus /\
  exists b n, In (b, n) (live (zcalls (hp m))) /\
    b + sizeof_block <= r.1 /\ r.1 + r.2 <= b + n.
Proof.
  intros S Hr. pose proof (sf_regions _ _ _ _ S) as G.
  rewrite Forall_forall in G. destruct (G r) as (H0 & b & blk & Hb & Hblk & Hlo & Hhi).
  { apply list_elem_of_In. exact Hr. }
  destruct (safe_span a m ch regs b blk S Hb Hblk) as (Hl & Hpos & Hend & Hc & Hmx & Hu).
  split; [exact H0|]. split; [unfold sizeof_block in *; lia|].
  split; [unfold sizeof_block in *; lia|].
  exists b, (sizeof_block + capacity blk). split; [exact Hl|]. lia.
Qed.

Lemma zarena_reset_safe a m ch regs :
  arena_safe a m ch regs ->
  exists a' m',
    zarena_reset a m = Done (a', m') /\ arena_safe a' m' ch [] /\
    hp m' = hp m /\ bytes m' = bytes m /\
    head a' = first a /\ first a' = first a /\ total_alloc a' = 0 /\
    (forall c blk, In c ch -> blocks m !! c = Some blk ->
       blocks m' !! c = Some (Block (next blk) (capacity blk) 0)).
Proof.
  intros S. pose proof (sf_wf _ _ _ _ S) as W.
  destruct (zarena_reset_spec a m ch W) as (bs' & Hr & Hin & Hout & W').
  assert (Hz : forall c blk, In c ch -> bs' !! c = Some blk ->
                 used blk = 0 /\ 0 < capacity blk).
  { intros c blk Hc Hblk.
    destruct (wf_block a m ch c W Hc) as (n & blk0 & _ & Hblk0 & _ & Hcp & _).
    rewrite (Hin c blk0 Hc Hblk0) in Hblk. injection Hblk as <-. cbn.
    split; [reflexivity|exact Hcp]. }
  eexists _, _. split; [exact Hr|]. cbn [hp bytes head first total_alloc blocks].
  split.
  { constructor.
    - exact W'.
    - cbn [blocks]. intros c blk Hc Hblk. destruct (Hz c blk Hc Hblk). lia.
    - cbn [head blocks]. intros Hnz.
      pose proof (linked_start _ _ _ (wf_linked _ _ _ W)) as Hs.
      destruct ch as [|b t]; [cbn in Hs; contradiction|]. cbn in Hs.
      exists [], t. split; [rewrite Hs; reflexivity|].
      rewrite Forall_forall. intros c Hc blk Hblk.
      apply (Hz c blk); [right; apply list_elem_of_In; exact Hc | exact Hblk].
    - constructor.
    - exact I. }
  split; [reflexivity|]. split; [reflexivity|]. split; [reflexivity|].
  split; [reflexivity|]. split; [reflexivity|]. exact Hin.
Qed.

(** The tail extension of [zarena_realloc] always returns. *)
Lemma extend_tail_returns a m ch old os ns :
  arena_wf a m ch -> exists r, extend_tail a m old os ns = Done r.
Proof.
  intros W. unfold extend_tail.
  destruct (wf_head_cases a m ch W) as [(Hz & _)|(Hnz & Hin)].
  - rewrite Hz. eexists. reflexivity.
  - apply Z.eqb_neq in Hnz as E. rewrite E.
    destruct (wf_block a m ch (head a) W Hin) as (n & hb & _ & Hhb & _).
    unfold load. rewrite Hhb. cbn [mbind outcome_bind].
    destruct (wrap (old + os) =? wrap (data (head a) + used hb)); [|eexists; reflexivity].
    destruct (wrap (used hb + wrap (ns - os)) <=? capacity hb); eexists; reflexivity.
Qed.

Lemma extend_tail_spec a m old os ns p a' m' :
  extend_tail a m old os ns = Done (Some (p, a', m')) ->
  exists hb,
    head a <> 0 /\ blocks m !! head a = Some hb /\
    wrap (old + os) = wrap (data (head a) + used hb) /\
    wrap (used hb + wrap (ns - os)) <= capacity hb /\
    p = old /\ a' = add_total a (wrap (ns - os)) /\
    m' = set_used (head a) (wrap (used hb + wrap (ns - os))) m.
Proof.
  unfold extend_tail. intros H.
  destruct (Z.eqb_spec (head a) 0) as [Hz|Hnz]; [discriminate|].
  unfold load in H. destruct (blocks m !! head a) as [hb|] eqn:Hhb; [|discriminate].
  cbn [mbind outcome_bind] in H.
  destruct (Z.eqb_spec (wrap (old + os)) (wrap (data (head a) + used hb))) as [He|He];
    [|discriminate].
  destruct (Z.leb_spec (wrap (used hb + wrap (ns - os))) (capacity hb)) as [Hle|Hgt];
    [|discriminate].
  apply Done_inj in H. injection H as <- <- <-.
  exists hb. repeat split; assumption.
Qed.

(** One call of [zarena_realloc] by a client that holds [(old, os)]. *)
Lemma zarena_realloc_safe a m ch regs old os ns :
  arena_safe a m ch regs -> request_ok ns ZARENA_MAX_ALIGN ->
  old = 0 \/ In (old, os) regs ->
  exists p a' m' ch',
    zarena_realloc P a m old os ns = Done (p, a', m') /\
    arena_safe a' m' ch' (held_after regs (ReallocOp old os ns) p) /\
    (exists l, zcalls (hp m') = l ++ zcalls (hp m)) /\
    ccalls (hp m') = ccalls (hp m) /\
    (old <> 0 -> p <> 0 ->
     forall i, 0 <= i < Z.min os ns -> bytes m' !! (p + i) = bytes m !! (old + i)) /\
    (forall r i, In r regs -> 0 <= i < r.2 ->
       bytes m' !! (r.1 + i) = bytes m !! (r.1 + i)) /\
    (old <> 0 -> p = 0 -> ns = 0 \/ exists total,
       zcalls (hp m') = Malloc total 0 :: zcalls (hp m)) /\
    (old = 0 -> p <> 0 -> p mod ZARENA_MAX_ALIGN = 0).
Proof.
  intros S Hreq Hold. pose proof Hreq as (Hns0 & _ & Hsum).
  pose proof (sf_wf _ _ _ _ S) as W.
  unfold zarena_realloc, zarena_alloc. cbn [held_after].
  destruct (Z.eqb_spec old 0) as [Hz|Hnz].
  { (* the null pointer: an allocation *)
    destruct (zarena_alloc_align_safe P backend_contract a m ch regs ns ZARENA_MAX_ALIGN S Hreq)
      as (p & a' & m' & H & Hcalls & Hcc & Hby & Hpost).
    destruct Hpost as [(-> & (ch' & S') & _) | (Hp & Hmod & _ & (ch' & S') & _)].
    - exists 0, a', m', ch'. cbn [Z.eqb].
      split; [exact H|]. split; [exact S'|]. split; [exact Hcalls|]. split; [exact Hcc|].
      split; [intros; contradiction|]. split; [intros; rewrite Hby; reflexivity|].
      split; intros; contradiction.
    - exists p, a', m', ch'. assert (E : (p =? 0) = false) by (apply Z.eqb_neq; lia).
      rewrite E. split; [exact H|].
      split; [apply arena_safe_cons_filter; exact S'|].
      split; [exact Hcalls|]. split; [exact Hcc|].
      split; [intros; contradiction|]. split; [intros; rewrite Hby; reflexivity|].
      split; [intros; contradiction | intros; exact Hmod]. }
  destruct Hold as [Hold|Hold]; [contradiction|].
  pose proof (sf_regions _ _ _ _ S) as G. rewrite Forall_forall in G.
  destruct (G (old, os)) as (Hos & b & blk & Hb & Hblk & Hlo & Hhi).
  { apply list_elem_of_In. exact Hold. }
  cbn [fst snd] in Hos, Hlo, Hhi.
  destruct (safe_span a m ch regs b blk S Hb Hblk) as (Hl & Hpos & Hend & Hc & Hmx & Hu).
  assert (Hothers : forall r, In r regs -> r <> (old, os) -> disjoint (old, os) r).
  { intros r Hr Hne. apply (disjoint_blocks_in regs); try assumption.
    - apply (sf_disjoint _ _ _ _ S).
    - congruence. }
  destruct (Z.eqb_spec ns 0) as [Hn0|Hn0].
  { exists 0, a, m, ch. cbn [Z.eqb]. split; [reflexivity|]. split; [exact S|].
    split; [exists []; reflexivity|]. split; [reflexivity|].
    split; [intros; contradiction|]. split; [reflexivity|].
    split; [intros; left; exact Hn0 | intros; contradiction]. }
  assert (Eold : (old =? 0) = false) by (apply Z.eqb_neq; exact Hnz).
  destruct (Z.leb_spec ns os) as [Hle|Hgt].
  { (* not larger: the region is cut short where it is *)
    exists old, a, m, ch. rewrite Eold. split; [reflexivity|]. split.
    { constructor; try apply S.
      - constructor.
        + split; [cbn; lia|]. exists b, blk. cbn. repeat split; try assumption; lia.
        + apply Forall_filter_keep. apply (sf_regions _ _ _ _ S).
      - cbn. split; [|apply disjoint_blocks_filter; apply (sf_disjoint _ _ _ _ S)].
        rewrite Forall_forall. intros r Hr.
        apply list_elem_of_filter in Hr as [Hne Hr].
        apply list_elem_of_In in Hr.
        pose proof (Hothers r Hr Hne) as Hd. unfold disjoint in *. cbn in *. lia. }
    split; [exists []; reflexivity|]. split; [reflexivity|].
    split; [reflexivity|]. split; [reflexivity|].
    split; intros; contradiction. }
  destruct (extend_tail_returns a m ch old os ns W) as (r & Hr).
  rewrite Hr. cbn [mbind outcome_bind]. destruct r as [[[p a'] m']|].
  { (* extended in place *)
    destruct (extend_tail_spec _ _ _ _ _ _ _ _ Hr)
      as (hb & Hhnz & Hhb & Hend' & Hfit & -> & -> & ->).
    destruct (wf_head_cases a m ch W) as [(Hz & _)|(_ & Hin)]; [contradiction|].
    destruct (safe_span a m ch regs (head a) hb S Hin Hhb)
      as (Hlh & Hposh & Hendh & Hch & Hmxh & Huh).
    assert (Edata : data (head a) = head a + sizeof_block).
    { unfold data. apply wrap_small. unfold sizeof_block in *. lia. }
    rewrite Edata in Hend'.
    rewrite (wrap_small (old + os)) in Hend' by (unfold sizeof_block in *; lia).
    rewrite (wrap_small (head a + sizeof_block + used hb)) in Hend'
      by (unfold sizeof_block in *; lia).
    assert (Ebh : b = head a).
    { destruct (decide (b = head a)) as [E|Hne]; [exact E|exfalso].
      assert (Hd : disjoint (b, sizeof_block + capacity blk)
                            (head a, sizeof_block + capacity hb)).
      { apply (disjoint_blocks_in _ _ _ (wf_disjoint _ _ _ W) Hl Hlh). congruence. }
      unfold disjoint in Hd. cbn in Hd. unfold sizeof_block in *. lia. }
    subst b. rewrite Hhb in Hblk. injection Hblk as <-.
    assert (Ediff : wrap (ns - os) = ns - os).
    { apply wrap_small. rewrite modulus_eq. unfold ZARENA_MAX_ALIGN in *. lia. }
    rewrite Ediff in *.
    rewrite (wrap_small (used hb + (ns - os))) in *
      by (unfold max_object, sizeof_block, ZARENA_MAX_ALIGN in *; rewrite modulus_eq; lia).
    set (u' := used hb + (ns - os)) in *.
    assert (Hh' : blocks (set_used (head a) u' m) !! head a
                  = Some (Block (next hb) (capacity hb) u')).
    { rewrite set_used_lookup, decide_True by reflexivity. rewrite Hhb. reflexivity. }
    exists old, (add_total a (ns - os)), (set_used (head a) u' m), ch.
    rewrite Eold. split; [reflexivity|]. split.
    { constructor.
      - unfold add_total. apply arena_wf_set_used. exact W.
      - intros c blk Hcin Hblk. rewrite set_used_lookup in Hblk.
        destruct (decide (head a = c)) as [<-|Hne].
        + rewrite Hhb in Hblk. cbn in Hblk. injection Hblk as <-. cbn. unfold u'. lia.
        + apply (sf_used _ _ _ _ S c blk Hcin Hblk).
      - cbn [head add_total]. intros _.
        destruct (sf_rest _ _ _ _ S Hhnz) as (pre & post & Ech & Hpost).
        exists pre, post. split; [exact Ech|].
        rewrite Forall_forall in Hpost |- *. intros c Hcin blk Hblk.
        rewrite set_used_lookup in Hblk.
        destruct (decide (head a = c)) as [<-|Hne]; [|apply (Hpost c Hcin blk Hblk)].
        exfalso. pose proof (wf_nodup _ _ _ W) as Hnd. rewrite Ech in Hnd.
        apply NoDup_app in Hnd as (_ & _ & Hnd). apply NoDup_cons in Hnd as [Hnn _].
        apply Hnn. exact Hcin.
      - constructor.
        + split; [cbn; lia|]. exists (head a), (Block (next hb) (capacity hb) u').
          split; [exact Hin|]. split; [exact Hh'|]. cbn. unfold u'. lia.
        + apply Forall_filter_keep.
          eapply Forall_impl; [apply (sf_regions _ _ _ _ S)|].
          intros r Hrr. apply (region_in_mono m ch); [exact Hrr| |tauto].
          intros c blk Hcin Hblk _. rewrite set_used_lookup.
          destruct (decide (head a = c)) as [<-|Hne].
          * rewrite Hhb in Hblk. injection Hblk as <-. rewrite Hhb. cbn.
            eexists. split; [reflexivity|]. cbn. unfold u'. lia.
          * exists blk. split; [exact Hblk | lia].
      - cbn. split; [|apply disjoint_blocks_filter; apply (sf_disjoint _ _ _ _ S)].
        rewrite Forall_forall. intros r Hrin.
        apply list_elem_of_filter in Hrin as [Hne Hrin].
        apply list_elem_of_In in Hrin.
        pose proof (Hothers r Hrin Hne) as Hd.
        destruct (G r) as (Hr0 & c & blkc & Hcin & Hblkc & Hloc & Hhic).
        { apply list_elem_of_In. exact Hrin. }
        destruct (decide (c = head a)) as [->|Hnc].
        + rewrite Hhb in Hblkc. injection Hblkc as <-.
          unfold disjoint in *. cbn in *. lia.
        + pose proof (sf_used _ _ _ _ S c blkc Hcin Hblkc) as Hub.
          apply (regions_apart a m ch (head a) hb c blkc _ _ W Hin Hhb Hcin Hblkc);
            cbn; unfold u' in *; lia. }
    split; [exists []; reflexivity|]. split; [reflexivity|].
    split; [reflexivity|]. split; [reflexivity|].
    split; intros; contradiction. }
  (* a new region, and a copy *)
  destruct (zarena_alloc_align_safe P backend_contract a m ch regs ns ZARENA_MAX_ALIGN S Hreq)
    as (p & a' & m' & H & Hcalls & Hcc & Hby & Hpost).
  rewrite H. cbn [mbind outcome_bind].
  destruct Hpost as [(-> & (ch' & S') & Hwhy) | (Hp & Hmod & _ & (ch' & S') & _)].
  - exists 0, a', m', ch'. cbn [Z.eqb].
    split; [reflexivity|]. split; [exact S'|]. split; [exact Hcalls|].
    split; [exact Hcc|]. split; [intros; contradiction|].
    split; [intros; rewrite Hby; reflexivity|]. split; [|intros; contradiction].
    intros _ _. destruct Hwhy as [(Hc0 & _)|Hw]; [left; exact Hc0 | right; exact Hw].
  - assert (E : (p =? 0) = false) by (apply Z.eqb_neq; lia). rewrite E.
    set (by' := memcpy (bytes m') (bytes m') p old (Z.to_nat os)).
    exists p, a', (Memory (blocks m') by' (hp m')), ch'. rewrite E.
    split; [reflexivity|]. split.
    { apply arena_safe_bytes. apply arena_safe_cons_filter. exact S'. }
    split; [exact Hcalls|]. split; [exact Hcc|].
    destruct (region_bounds a' m' ch' _ (p, ns) S' (or_introl eq_refl))
      as (_ & Hp0 & Hpend & _).
    cbn [fst snd] in Hp0, Hpend.
    pose proof (sf_disjoint _ _ _ _ S') as [Dnew _]. rewrite Forall_forall in Dnew.
    split.
    { intros _ _ i Hi. rewrite Z.min_l in Hi by lia. cbn [bytes]. unfold by'.
      replace (p + i) with (wrap (p + Z.of_nat (Z.to_nat i)))
        by (rewrite Z2Nat.id by lia; apply wrap_small; lia).
      rewrite memcpy_lookup.
      - rewrite Z2Nat.id by lia. rewrite wrap_small by (unfold sizeof_block in *; lia).
        rewrite Hby. reflexivity.
      - lia.
      - intros j Hj Hne. rewrite !wrap_small by lia. lia. }
    split; [|split; [intros; lia | intros; contradiction]].
    intros r i Hrin Hi. cbn [bytes]. unfold by'. rewrite memcpy_other; [rewrite Hby; reflexivity|].
    intros j Hj. rewrite wrap_small by lia.
    specialize (Dnew r). rewrite list_elem_of_In in Dnew. specialize (Dnew Hrin).
    unfold disjoint in Dnew. cbn in Dnew. lia.
Qed.

End ArenaClients.

Section ArenaReach.
  Import Arena.

(** The states an arena reaches from [zarena_init] through calls that
    return, with the regions its client holds; between the calls the client
    writes to the regions it holds. *)
Inductive arena_reach (P : platform) : zarena -> memory -> list (Z * Z) -> Prop :=
  | areach_init m0 :
      zcalls (hp m0) = [] -> arena_reach P zarena_init m0 []
  | areach_step a m regs o p a' m' :
      arena_reach P a m regs -> valid_op regs o ->
      step P a m o = Done (p, a', m') ->
      arena_reach P a' m' (held_after regs o p)
  | areach_write a m regs r i v :
      arena_reach P a m regs -> In r regs -> 0 <= i < r.2 ->
      arena_reach P a (Memory (blocks m) (<[r.1 + i := v]> (bytes m)) (hp m)) regs.

Section ArenaWithBackend.
  Variable P : platform.
  Hypothesis backend_contract : backend_ok (injected P).

Lemma alloc_held a m regs s al p a' m' :
  safe_post a m regs s al p a' m' ->
  exists ch', arena_safe a' m' ch' (if p =? 0 then regs else (p, s) :: regs).
Proof.
  intros (_ & _ & _ & [(-> & S' & _) | (Hp & _ & _ & S' & _)]).
  - exact S'.
  - assert (E : (p =? 0) = false) by (apply Z.eqb_neq; lia). rewrite E. exact S'.
Qed.

(** One operation of a client. *)
Lemma step_safe a m ch regs o :
  arena_safe a m ch regs -> valid_op regs o ->
  exists p a' m' ch',
    step P a m o = Done (p, a', m') /\
    arena_safe a' m' ch' (held_after regs o p) /\
    (exists l, zcalls (hp m') = l ++ zcalls (hp m)) /\
    ccalls (hp m') = ccalls (hp m).
Proof.
  intros S Hv. destruct o as [s|s al|s|old os ns|]; cbn [step valid_op held_after] in *.
  - destruct (zarena_alloc_align_safe P backend_contract a m ch regs s _ S Hv)
      as (p & a' & m' & H & Hpost).
    destruct (alloc_held a m regs s _ p a' m' Hpost) as (ch' & S').
    exists p, a', m', ch'. split; [exact H|]. split; [exact S'|].
    destruct Hpost as (Hc & Hcc & _). split; assumption.
  - destruct (zarena_alloc_align_safe P backend_contract a m ch regs s al S Hv)
      as (p & a' & m' & H & Hpost).
    destruct (alloc_held a m regs s _ p a' m' Hpost) as (ch' & S').
    exists p, a', m', ch'. split; [exact H|]. split; [exact S'|].
    destruct Hpost as (Hc & Hcc & _). split; assumption.
  - destruct (zarena_alloc_align_safe P backend_contract a m ch regs s _ S Hv)
      as (p & a' & m' & H & Hpost).
    destruct (alloc_held a m regs s _ p a' m' Hpost) as (ch' & S').
    destruct Hpost as (Hc & Hcc & _).
    unfold zarena_alloc_zero. rewrite H. cbn [mbind outcome_bind].
    destruct (p =? 0) eqn:E.
    + exists p, a', m', ch'. rewrite E. split; [reflexivity|].
      split; [exact S'|]. split; assumption.
    + eexists p, a', _, ch'. rewrite E. split; [reflexivity|].
      split; [apply arena_safe_bytes; exact S'|]. split; assumption.
  - destruct Hv as [Hreq Hold].
    destruct (zarena_realloc_safe P backend_contract a m ch regs old os ns S Hreq Hold)
      as (p & a' & m' & ch' & H & S' & Hc & Hcc & _).
    exists p, a', m', ch'. split; [exact H|]. split; [exact S'|]. split; assumption.
  - destruct (zarena_reset_safe a m ch regs S) as (a' & m' & H & S' & Eh & _).
    exists 0, a', m', ch. rewrite H. split; [reflexivity|]. split; [exact S'|].
    rewrite Eh. split; [exists []; reflexivity | reflexivity].
Qed.

(** The invariant holds in every state the arena reaches. *)
Lemma arena_reach_safe a m regs :
  arena_reach P a m regs -> exists ch, arena_safe a m ch regs.
Proof.
  induction 1 as [m0 H0 | a m regs o p a' m' _ IH Hv H | a m regs r i v _ IH Hr Hi].
  - exists []. apply arena_safe_init. exact H0.
  - destruct IH as (ch & S).
    destruct (step_safe a m ch regs o S Hv) as (p1 & a1 & m1 & ch1 & H1 & S1 & _).
    rewrite H in H1. apply Done_inj in H1. injection H1 as <- <- <-.
    exists ch1. exact S1.
  - destruct IH as (ch & S). exists ch. apply arena_safe_bytes. exact S.
Qed.

End ArenaWithBackend.
End ArenaReach.

(** ** Arena: capacities and [total_alloc] for a client within bounds *)

Section ArenaGrowth.
  Import Arena.

(** The states an arena reaches from [zarena_init] without a reset, through
    calls that return, with the regions its client holds: the client asks
    within bounds, resizes only regions it holds and writes only to regions
    it holds. *)
Inductive arena_grown (P : platform) : zarena -> memory -> list (Z * Z) -> Prop :=
  | agrown_init m0 :
      zcalls (hp m0) = [] -> arena_grown P zarena_init m0 []
  | agrown_step a m regs o p a' m' :
      arena_grown P a m regs -> valid_op regs o -> o <> Reset ->
      step P a m o = Done (p, a', m') ->
      arena_grown P a' m' (held_after regs o p)
  | agrown_write a m regs r i v :
      arena_grown P a m regs -> In r regs -> 0 <= i < r.2 ->
      arena_grown P a (Memory (blocks m) (<[r.1 + i := v]> (bytes m)) (hp m)) regs.

Lemma valid_growth regs o : valid_op regs o -> o <> Reset -> growth_op o.
Proof.
  destruct o as [s|s al|s|old os ns|]; cbn; intros Hv Hr;
    [exact Hv | exact Hv | exact Hv | exact (proj1 Hv) | congruence].
Qed.

(** The test of [zarena_realloc] for the extension in place: the region
    ends at the cursor of the current block and the block has room for the
    difference. *)
Definition extends_in_place (a : zarena) (m : memory) (old os ns : Z) : bool :=
  negb (head a =? 0) &&
  match blocks m !! head a with
  | Some hb =>
      (wrap (old + os) =? wrap (data (head a) + used hb)) &&
      (wrap (used hb + wrap (ns - os)) <=? capacity hb)
  | None => false
  end.

Lemma extend_tail_in_place a m ch old os ns :
  arena_wf a m ch ->
  extend_tail a m old os ns =
  Done (if extends_in_place a m old os ns
        then match blocks m !! head a with
             | Some hb =>
                 Some (old, add_total a (wrap (ns - os)),
                       set_used (head a) (wrap (used hb + wrap (ns - os))) m)
             | None => None
             end
        else None).
Proof.
  intros W. unfold extend_tail, extends_in_place.
  destruct (wf_head_cases a m ch W) as [(Hz & _)|(Hnz & Hin)].
  - rewrite Hz. reflexivity.
  - apply Z.eqb_neq in Hnz as E. rewrite E. cbn [negb andb].
    destruct (wf_block a m ch (head a) W Hin) as (n & hb & _ & Hhb & _).
    unfold load. rewrite Hhb. cbn [mbind outcome_bind].
    destruct (wrap (old + os) =? wrap (data (head a) + used hb)); [|reflexivity].
    cbn [andb]. destruct (wrap (used hb + wrap (ns - os)) <=? capacity hb); reflexivity.
Qed.

Section ArenaGrowthBackend.
  Variable P : platform.
  Hypothesis backend_contract : backend_ok (injected P).

Lemma arena_grown_inv a m regs : arena_grown P a m regs -> arena_inv a m [].
Proof.
  induction 1 as [m0 H0 | a m regs o p a' m' _ IH Hv Hr H | a m regs r i v _ IH Hr Hi].
  - apply arena_inv_init. exact H0.
  - destruct (growth_step P backend_contract a m o IH (valid_growth regs o Hv Hr))
      as (p1 & a1 & m1 & H1 & I1).
    rewrite H in H1. apply Done_inj in H1. injection H1 as <- <- <-. exact I1.
  - apply arena_inv_bytes. exact IH.
Qed.

Lemma arena_grown_reach a m regs : arena_grown P a m regs -> arena_reach P a m regs.
Proof.
  induction 1 as [m0 H0 | a m regs o p a' m' _ IH Hv Hr H | a m regs r i v _ IH Hr Hi].
  - apply areach_init. exact H0.
  - apply (areach_step P a m regs o p a' m' IH Hv H).
  - apply areach_write; assumption.
Qed.

(** What an allocation within bounds adds to [total_alloc]. *)
Lemma zarena_alloc_align_counts a m ch regs size align :
  arena_safe a m ch regs -> request_ok size align ->
  exists p a' m',
    zarena_alloc_align P a m size align = Done (p, a', m') /\
    total_alloc a' = (if p =? 0 then total_alloc a else wrap (total_alloc a + size)).
Proof.
  intros S Hreq. pose proof Hreq as (Hs0 & _).
  destruct (zarena_alloc_align_safe P backend_contract a m ch regs size align S Hreq)
    as (p & a' & m' & H & Hpost).
  exists p, a', m'. split; [exact H|].
  destruct (zarena_alloc_align_cases _ _ _ _ _ _ H)
    as [(Hz & E) | [(Hnz & Hb) | [(Hnz & _ & Ha) | (Hnz & _ & _ & Hg)]]].
  - injection E as -> -> ->. reflexivity.
  - destruct (bump_head_safe a m ch regs size align p a' m' S ltac:(lia) Hreq Hb)
      as ((Hp & _) & _).
    destruct (bump_head_spec _ _ _ _ _ _ _ Hb) as (hb & _ & _ & _ & _ & -> & _).
    assert (E : (p =? 0) = false) by (apply Z.eqb_neq; lia). rewrite E. reflexivity.
  - destruct (advance_safe a m ch regs size align p a' m' S ltac:(lia) Hreq Ha)
      as ((Hp & _) & _).
    destruct (advance_spec _ _ _ _ _ _ _ Ha) as (hb & nb & _ & _ & _ & _ & _ & _ & -> & _).
    assert (E : (p =? 0) = false) by (apply Z.eqb_neq; lia). rewrite E. reflexivity.
  - destruct (grow_spec P backend_contract a m ch size align p a' m' (sf_wf _ _ _ _ S) Hg)
      as [(-> & -> & _) | (b & cap & ch' & G)]; [reflexivity|].
    destruct G as (_ & Hb & _ & _ & _ & _ & Ehp & _ & -> & _).
    destruct Hpost as (_ & _ & _ & [(-> & _ & [(Hz & _) | (total & Hc)]) | (Hp & _)]).
    + contradiction.
    + rewrite Ehp in Hc. cbn in Hc. injection Hc as _ Hc. lia.
    + assert (E : (p =? 0) = false) by (apply Z.eqb_neq; lia). rewrite E. reflexivity.
Qed.

End ArenaGrowthBackend.

(** C3, as the code has it.  On an arena that has not been reset since
    [zarena_init], over a backend that honours its contract, with a client
    who asks within bounds (alignments that are powers of two, every
    [size + align] at most [2^63], resizes of regions it holds), the
    capacities of the blocks, in the order the blocks were created, never
    decrease; every such alloc, alloc_align, alloc_zero and realloc returns
    and leaves them so. *)
Theorem capacities_ascend_without_reset (P : platform) (a : zarena) (m : memory)
    (regs : list (Z * Z)) :
  backend_ok (injected P) -> arena_grown P a m regs ->
  ascending (capacities m) /\
  forall o, valid_op regs o -> o <> Reset ->
    exists p a' m',
      step P a m o = Done (p, a', m') /\ ascending (capacities m').
Proof.
  intros HP G. pose proof (arena_grown_inv P HP a m regs G) as I.
  split; [apply (inv_sorted _ _ _ I)|].
  intros o Hv Hr.
  destruct (growth_step P HP a m o I (valid_growth regs o Hv Hr))
    as (p & a' & m' & H & I').
  exists p, a', m'. split; [exact H | apply (inv_sorted _ _ _ I')].
Qed.

Lemma capacities_ascend_witness :
  exists a m regs,
    arena_grown default_platform a m regs /\
    capacities m = [4096; 8192] /\
    ascending (capacities m) /\
    exists p a' m',
      step default_platform a m (ReallocOp 4128 4000 20000) = Done (p, a', m') /\
      ascending (capacities m').
Proof.
  assert (Hreq : forall s, 0 <= s <= 2 ^ 62 -> request_ok s ZARENA_MAX_ALIGN).
  { intros s Hs. split; [lia|]. split; [apply max_align_power_of_two|].
    unfold ZARENA_MAX_ALIGN. lia. }
  assert (G : exists a m,
             arena_grown default_platform a m [(8256, 8000); (4128, 4000)] /\
             capacities m = [4096; 8192]).
  { eexists _, _. split.
    - eapply (agrown_step default_platform _ _ [(4128, 4000)] (Alloc 8000) 8256).
      + eapply (agrown_step default_platform _ _ [] (Alloc 4000) 4128).
        * apply (agrown_init default_platform empty_memory). reflexivity.
        * apply Hreq. lia.
        * discriminate.
        * vm_compute. reflexivity.
      + apply Hreq. lia.
      + discriminate.
      + vm_compute. reflexivity.
    - vm_compute. reflexivity. }
  destruct G as (a & m & G & Hc).
  destruct (capacities_ascend_without_reset default_platform a m _ bump_ok G)
    as (Hasc & Hstep).
  exists a, m, [(8256, 8000); (4128, 4000)].
  split; [exact G|]. split; [exact Hc|]. split; [exact Hasc|].
  apply Hstep; [|discriminate].
  split; [apply Hreq; lia | right; right; left; reflexivity].
Defined.

(** C4, as the code has it.  On an arena a client has used within bounds,
    every operation within bounds returns, and [total_alloc] is the running
    sum, as a [size_t], of the payload bytes carved out of the blocks since
    the last reset, without the padding: an allocation that returns a
    region adds its size and one that returns the null pointer adds nothing;
    a resize to a size that is not larger changes nothing; a resize that
    passes the test for the extension in place returns the old pointer and
    adds the difference of the sizes; any other resize allocates, adding
    the new size when it returns a region (the bytes of the abandoned region
    stay counted); [zarena_reset] sets it to zero. *)
Theorem total_alloc_running_sum (P : platform) (a : zarena) (m : memory)
    (regs : list (Z * Z)) (o : op) :
  backend_ok (injected P) -> arena_reach P a m regs -> valid_op regs o ->
  exists p a' m',
    step P a m o = Done (p, a', m') /\
    match o with
    | Alloc s | AllocAlign s _ | AllocZero s =>
        total_alloc a' = (if p =? 0 then total_alloc a else wrap (total_alloc a + s))
    | ReallocOp old os ns =>
        if old =? 0
        then total_alloc a' = (if p =? 0 then total_alloc a else wrap (total_alloc a + ns))
        else if (ns =? 0) || (ns <=? os)
        then total_alloc a' = total_alloc a /\ p = (if ns =? 0 then 0 else old)
        else if extends_in_place a m old os ns
        then total_alloc a' = wrap (total_alloc a + (ns - os)) /\ p = old
        else total_alloc a' = (if p =? 0 then total_alloc a else wrap (total_alloc a + ns))
    | Reset => total_alloc a' = 0
    end.
Proof.
  intros HP R Hv.
  destruct (arena_reach_safe P HP a m regs R) as (ch & S).
  destruct o as [s|s al|s|old os ns|]; cbn [step valid_op] in *.
  - apply (zarena_alloc_align_counts P HP a m ch regs s _ S Hv).
  - apply (zarena_alloc_align_counts P HP a m ch regs s al S Hv).
  - destruct (zarena_alloc_align_counts P HP a m ch regs s _ S Hv)
      as (p & a' & m' & H & Ht).
    unfold zarena_alloc_zero. rewrite H. cbn [mbind outcome_bind].
    destruct (p =? 0) eqn:E; eexists p, a', _; rewrite ?E; (split; [reflexivity | exact Ht]).
  - destruct Hv as [Hreq Hold].
    destruct (zarena_alloc_align_counts P HP a m ch regs ns _ S Hreq)
      as (p & a' & m' & H & Ht).
    unfold zarena_realloc, zarena_alloc.
    destruct (old =? 0); [exists p, a', m'; split; assumption|].
    destruct (ns =? 0) eqn:En.
    { exists 0, a, m. split; [reflexivity|]. cbn [orb]. split; reflexivity. }
    cbn [orb]. destruct (ns <=? os) eqn:Ele.
    { exists old, a, m. split; [reflexivity|]. split; reflexivity. }
    rewrite (extend_tail_in_place a m ch old os ns (sf_wf _ _ _ _ S)).
    cbn [mbind outcome_bind].
    destruct (extends_in_place a m old os ns) eqn:Ein.
    + unfold extends_in_place in Ein. destruct (blocks m !! head a) as [hb|] eqn:Hhb.
      * eexists _, _, _. split; [reflexivity|]. split; [|reflexivity].
        cbn [total_alloc add_total]. apply wrap_add_r.
      * rewrite andb_false_r in Ein. discriminate.
    + rewrite H. cbn [mbind outcome_bind].
      destruct (p =? 0) eqn:E; eexists p, a', _; rewrite ?E; (split; [reflexivity | exact Ht]).
  - destruct (zarena_reset_safe a m ch regs S) as (a' & m' & H & _ & _ & Ea).
    exists 0, a', m'. rewrite H. split; [reflexivity|].
    unfold zarena_reset in H. apply bind_Done_inv in H as (bs & _ & H).
    apply Done_inj in H. injection H as <- _. reflexivity.
Qed.

(** An arena after [zarena_alloc(10)]: the region ends at the cursor. *)
Lemma total_alloc_running_sum_witness :
  exists a m p a' m',
    arena_reach default_platform a m [(4128, 10)] /\
    total_alloc a = 10 /\
    extends_in_place a m 4128 10 20 = true /\
    step default_platform a m (ReallocOp 4128 10 20) = Done (p, a', m') /\
    total_alloc a' = wrap (10 + (20 - 10)) /\ p = 4128.
Proof.
  assert (Hreq : forall s, 0 <= s <= 2 ^ 62 -> request_ok s ZARENA_MAX_ALIGN).
  { intros s Hs. split; [lia|]. split; [apply max_align_power_of_two|].
    unfold ZARENA_MAX_ALIGN. lia. }
  assert (R : exists a m,
             arena_reach default_platform a m [(4128, 10)] /\ total_alloc a = 10 /\
             extends_in_place a m 4128 10 20 = true).
  { eexists _, _. split; [|split].
    - eapply (areach_step default_platform _ _ [] (Alloc 10) 4128).
      + apply (areach_init default_platform empty_memory). reflexivity.
      + apply Hreq. lia.
      + vm_compute. reflexivity.
    - reflexivity.
    - vm_compute. reflexivity. }
  destruct R as (a & m & R & Ht & Ein).
  destruct (total_alloc_running_sum default_platform a m _ (ReallocOp 4128 10 20)
              bump_ok R) as (p & a' & m' & H & Hm).
  { split; [apply Hreq; lia | right; left; reflexivity]. }
  cbn [Z.eqb orb] in Hm. rewrite Ein in Hm.
  change (4128 =? 0) with false in Hm. change (20 =? 0) with false in Hm.
  change (20 <=? 10) with false in Hm. cbn [orb] in Hm. rewrite Ht in Hm.
  exists a, m, p, a', m'. repeat split; try assumption; apply Hm.
Defined.

End ArenaGrowth.

(** ** Arena: alignment *)

Lemma land_pred_zero al :
  0 < al -> Z.land al (al - 1) = 0 -> al = 2 ^ Z.log2 al.
Proof.
  intros Hpos Hl.
  pose proof (Z.log2_spec al Hpos) as [Hlo Hhi].
  pose proof (Z.log2_nonneg al) as Hk.
  destruct (Z.eq_dec al (2 ^ Z.log2 al)) as [E|Hne]; [exact E|exfalso].
  assert (Hlog : Z.log2 (al - 1) = Z.log2 al).
  { apply Z.log2_unique; [exact Hk|]. rewrite <- Z.add_1_r in Hhi. lia. }
  assert (H1 : Z.testbit al (Z.log2 al) = true) by (apply Z.bit_log2; exact Hpos).
  assert (H2 : Z.testbit (al - 1) (Z.log2 al) = true).
  { rewrite <- Hlog. apply Z.bit_log2. lia. }
  assert (H3 : Z.testbit (Z.land al (al - 1)) (Z.log2 al) = true).
  { rewrite Z.land_spec, H1, H2. reflexivity. }
  rewrite Hl, Z.bits_0 in H3. discriminate.
Qed.

Lemma align_zero ptr : Arena._zarena_align_ptr ptr 0 = Done 0.
Proof.
  unfold Arena._zarena_align_ptr. cbn [Z.land Z.eqb]. f_equal.
  change (wnot (wrap (0 - 1))) with 0. apply Z.land_0_r.
Qed.

(** X1. On a power of two [align], [_zarena_align_ptr(ptr, align)] is [ptr]
    rounded up to the next multiple of [align]: the least multiple of
    [align] that is not below [ptr], when that fits a [uintptr_t]. *)
Theorem zarena_align_ptr_rounds_up (ptr al : Z) :
  power_of_two al -> 0 <= ptr -> ptr + al <= modulus ->
  exists r, Arena._zarena_align_ptr ptr al = Done r /\
            ptr <= r < ptr + al /\ r mod al = 0.
Proof.
  intros Hal Hp Hfit. pose proof (power_of_two_pos al Hal) as Hpos.
  rewrite _zarena_align_ptr_spec by (try exact Hal; lia).
  pose proof (padding_to_range ptr al ltac:(lia)) as Hr.
  exists (wrap (ptr + padding_to ptr al)). split; [reflexivity|].
  rewrite wrap_small by lia. split; [lia|].
  apply padding_to_aligned. lia.
Qed.

Lemma zarena_align_ptr_rounds_up_witness :
  power_of_two 16 /\
  exists r, Arena._zarena_align_ptr 4121 16 = Done r /\
            4121 <= r < 4121 + 16 /\ r mod 16 = 0.
Proof.
  assert (H : power_of_two 16).
  { exists 4. split; [unfold word_bits; lia | reflexivity]. }
  split; [exact H|].
  apply (zarena_align_ptr_rounds_up 4121 16 H); [lia | rewrite modulus_eq; lia].
Defined.

(** X2. The assertion of [_zarena_align_ptr] fails exactly on the
    alignments that are neither zero nor a power of two; an alignment of
    zero passes it, and the result is then the null address. *)
Theorem zarena_align_ptr_assertion (ptr al : Z) :
  0 <= al < modulus ->
  (al = 0 -> Arena._zarena_align_ptr ptr al = Done 0) /\
  (0 < al ->
   (Arena._zarena_align_ptr ptr al = Abort AssertionFailed <-> ~ power_of_two al)).
Proof.
  intros Hal. split.
  - intros ->. apply align_zero.
  - intros Hpos. unfold Arena._zarena_align_ptr.
    rewrite (wrap_small (al - 1)) by lia.
    destruct (Z.eqb_spec (Z.land al (al - 1)) 0) as [Hz|Hnz].
    + split; [discriminate|]. intros Hn. exfalso. apply Hn.
      exists (Z.log2 al). split; [|apply land_pred_zero; assumption].
      split; [apply Z.log2_nonneg|].
      apply Z.log2_lt_pow2; [exact Hpos|]. exact (proj2 Hal).
    + split; [|reflexivity]. intros _ (k & Hk & ->).
      apply Hnz. apply land_power_of_two. lia.
Qed.

Lemma zarena_align_ptr_assertion_witness :
  0 <= 24 < modulus /\
  (24 = 0 -> Arena._zarena_align_ptr 4121 24 = Done 0) /\
  (0 < 24 ->
   (Arena._zarena_align_ptr 4121 24 = Abort AssertionFailed <-> ~ power_of_two 24)).
Proof.
  assert (H : 0 <= 24 < modulus) by (rewrite modulus_eq; lia).
  split; [exact H | apply (zarena_align_ptr_assertion 4121 24 H)].
Defined.

Section ArenaZeroAlign.
  Import Arena.

(** A call that does not end in [abort()]. *)
Definition no_abort {A : Type} (o : outcome A) : Prop := forall d, o <> Abort d.

Lemma no_abort_Done {A : Type} (x : A) : no_abort (Done x).
Proof. intros d. discriminate. Qed.

Lemma no_abort_bind {A B : Type} (o : outcome A) (k : A -> outcome B) :
  no_abort o -> (forall x, no_abort (k x)) -> no_abort (o ≫= k).
Proof.
  intros Ho Hk d. destruct o as [x|d'| |]; cbn; try discriminate.
  - apply Hk.
  - exfalso. exact (Ho d' eq_refl).
Qed.

Lemma no_abort_if {A : Type} (c : bool) (x y : outcome A) :
  no_abort x -> no_abort y -> no_abort (if c then x else y).
Proof. destruct c; tauto. Qed.

Lemma no_abort_load m b : no_abort (load m b).
Proof. intros d. unfold load. destruct (blocks m !! b); discriminate. Qed.

Lemma no_abort_align_zero ptr : no_abort (_zarena_align_ptr ptr 0).
Proof. intros d. rewrite align_zero. discriminate. Qed.

Lemma zarena_alloc_align_zero_no_abort P a m size :
  no_abort (zarena_alloc_align P a m size 0).
Proof.
  unfold zarena_alloc_align. apply no_abort_if; [apply no_abort_Done|].
  apply no_abort_bind.
  { unfold bump_head. apply no_abort_if; [apply no_abort_Done|].
    apply no_abort_bind; [apply no_abort_load|]. intros hb.
    apply no_abort_bind; [apply no_abort_align_zero|]. intros nxt.
    apply no_abort_if; apply no_abort_Done. }
  intros [r1|]; [apply no_abort_Done|].
  apply no_abort_bind.
  { unfold advance. apply no_abort_if; [apply no_abort_Done|].
    apply no_abort_bind; [apply no_abort_load|]. intros hb.
    apply no_abort_if; [apply no_abort_Done|].
    apply no_abort_bind; [apply no_abort_load|]. intros nb.
    apply no_abort_bind; [apply no_abort_align_zero|]. intros st.
    apply no_abort_if; apply no_abort_Done. }
  intros [r2|]; [apply no_abort_Done|].
  unfold grow. apply no_abort_bind.
  { apply no_abort_if; [apply no_abort_Done|].
    apply no_abort_bind; [apply no_abort_load|]. intros hb. apply no_abort_Done. }
  intros cap0. apply no_abort_bind.
  { unfold _zarena_new_block. destruct (Z_MALLOC _ _ _) as [b h].
    apply no_abort_if; [apply no_abort_Done|].
    apply no_abort_if; [intros d; discriminate | apply no_abort_Done]. }
  intros [b m1]. apply no_abort_if; [apply no_abort_Done|].
  apply no_abort_bind.
  { apply no_abort_if; [apply no_abort_Done|].
    apply no_abort_bind; [apply no_abort_load|]. intros hb. apply no_abort_Done. }
  intros [a2 m2]. apply no_abort_bind; [apply no_abort_align_zero|].
  intros st. apply no_abort_Done.
Qed.

Lemma zarena_alloc_align_zero_null P a m size p a' m' :
  zarena_alloc_align P a m size 0 = Done (p, a', m') -> p = 0.
Proof.
  intros H.
  destruct (zarena_alloc_align_cases _ _ _ _ _ _ H)
    as [(_ & E) | [(_ & Hb) | [(_ & _ & Ha) | (_ & _ & _ & Hg)]]].
  - injection E as -> _ _. reflexivity.
  - destruct (bump_head_spec _ _ _ _ _ _ _ Hb) as (hb & _ & _ & Hal & _).
    rewrite align_zero in Hal. apply Done_inj in Hal. congruence.
  - destruct (advance_spec _ _ _ _ _ _ _ Ha) as (hb & nb & _ & _ & _ & _ & Hal & _).
    rewrite align_zero in Hal. apply Done_inj in Hal. congruence.
  - unfold grow in Hg.
    apply bind_Done_inv in Hg. destruct Hg as (cap0 & _ & Hg).
    apply bind_Done_inv in Hg. destruct Hg as ([b m1] & _ & Hg).
    destruct (b =? 0).
    { apply Done_inj in Hg. injection Hg as <- _ _. reflexivity. }
    apply bind_Done_inv in Hg. destruct Hg as ([a2 m2] & _ & Hg).
    apply bind_Done_inv in Hg. destruct Hg as (st & Hal & Hg).
    rewrite align_zero in Hal. apply Done_inj in Hal.
    apply Done_inj in Hg. injection Hg as <- _ _. congruence.
Qed.

(** X3. An alignment of zero is not rejected: [zarena_alloc_align] never
    aborts on it, and whenever it returns, it returns the null pointer,
    also when a block had room or the backend granted a new block. *)
Theorem zarena_alloc_align_zero_align (P : platform) (a : zarena) (m : memory)
    (size : Z) :
  match zarena_alloc_align P a m size 0 with
  | Done (p, _, _) => p = 0
  | Abort _ => False
  | Fault | Diverge => True
  end.
Proof.
  destruct (zarena_alloc_align P a m size 0) as [[[p a'] m']|d| |] eqn:E.
  - apply (zarena_alloc_align_zero_null P a m size p a' m' E).
  - exact (zarena_alloc_align_zero_no_abort P a m size d E).
  - exact I.
  - exact I.
Qed.

End ArenaZeroAlign.

(** ** Arena: release and reset *)

Section ArenaRelease.
  Import Arena.

(** A request for [s] bytes at the default alignment. *)
Lemma request_default s : 0 <= s <= 2 ^ 62 -> request_ok s ZARENA_MAX_ALIGN.
Proof.
  intros Hs. split; [lia|]. split; [apply max_align_power_of_two|].
  unfold ZARENA_MAX_ALIGN. lia.
Qed.

(** An arena with two blocks, reset and used again. *)
Lemma arena_reach_after_reset :
  exists a m regs,
    arena_reach default_platform a m regs /\
    map fst (live (zcalls (hp m))) = [8224; 4096].
Proof.
  eexists _, _, _. split.
  - eapply (areach_step default_platform _ _ _ (Alloc 100) _).
    + eapply (areach_step default_platform _ _ _ Reset _).
      * eapply (areach_step default_platform _ _ _ (Alloc 8000) _).
        -- eapply (areach_step default_platform _ _ [] (Alloc 4000) _).
           ++ apply (areach_init default_platform empty_memory). reflexivity.
           ++ apply request_default. lia.
           ++ vm_compute. reflexivity.
        -- apply request_default. lia.
        -- vm_compute. reflexivity.
      * exact Logic.I.
      * vm_compute. reflexivity.
    + apply request_default. lia.
    + vm_compute. reflexivity.
  - vm_compute. reflexivity.
Qed.

(** X4. In every state an arena reaches with a client within bounds
    (allocations, resizes of regions it holds and resets), [zarena_free]
    returns: it hands back to the backend every block that is still
    allocated, each once, leaves nothing allocated and leaves the arena as
    [zarena_init] does. *)
Theorem zarena_free_releases_every_block (P : platform) (a : zarena) (m : memory)
    (regs : list (Z * Z)) :
  backend_ok (injected P) -> arena_reach P a m regs ->
  exists ch,
    NoDup ch /\ ch ≡ₚ map fst (live (zcalls (hp m))) /\
    zarena_free a m =
      Done (zarena_init,
            Memory (blocks m) (bytes m)
                   (Heap (rev (map Free ch) ++ zcalls (hp m)) (ccalls (hp m)))) /\
    live (rev (map Free ch) ++ zcalls (hp m)) = [].
Proof.
  intros HP R.
  destruct (arena_reach_safe P HP a m regs R) as (ch & S).
  pose proof (sf_wf _ _ _ _ S) as W.
  exists ch. split; [apply (wf_nodup _ _ _ W)|]. split; [apply (wf_live _ _ _ W)|].
  apply zarena_free_spec. exact W.
Qed.

Lemma zarena_free_releases_witness :
  exists a m ch,
    map fst (live (zcalls (hp m))) = [8224; 4096] /\
    NoDup ch /\ ch ≡ₚ map fst (live (zcalls (hp m))) /\
    zarena_free a m =
      Done (zarena_init,
            Memory (blocks m) (bytes m)
                   (Heap (rev (map Free ch) ++ zcalls (hp m)) (ccalls (hp m)))) /\
    live (rev (map Free ch) ++ zcalls (hp m)) = [].
Proof.
  destruct arena_reach_after_reset as (a & m & regs & R & Hl).
  destruct (zarena_free_releases_every_block default_platform a m regs bump_ok R)
    as (ch & H).
  exists a, m, ch. split; [exact Hl | exact H].
Defined.

(** X5. In every state an arena reaches with a client within bounds,
    [zarena_reset] returns without a call to the backend: the current block
    is the first one again, [total_alloc] is zero, and every block of the
    arena keeps its capacity and its link and has its cursor at zero; the
    payload bytes are not touched. *)
Theorem zarena_reset_rewinds (P : platform) (a : zarena) (m : memory)
    (regs : list (Z * Z)) :
  backend_ok (injected P) -> arena_reach P a m regs ->
  exists m',
    zarena_reset a m = Done (Arena (first a) (first a) 0, m') /\
    hp m' = hp m /\ bytes m' = bytes m /\
    Forall (fun b => exists blk,
              blocks m !! b.1 = Some blk /\
              blocks m' !! b.1 = Some (Block (next blk) (capacity blk) 0))
           (live (zcalls (hp m))).
Proof.
  intros HP R.
  destruct (arena_reach_safe P HP a m regs R) as (ch & S).
  pose proof (sf_wf _ _ _ _ S) as W.
  destruct (zarena_reset_spec a m ch W) as (bs' & Hr & Hin & _ & _).
  eexists. split; [exact Hr|]. split; [reflexivity|]. split; [reflexivity|].
  cbn [blocks]. rewrite Forall_forall. intros [b n] Hb. cbn [fst].
  assert (Hc : In b ch).
  { apply list_elem_of_In. rewrite (wf_live _ _ _ W). apply list_elem_of_In.
    apply (in_map fst _ (b, n)). apply list_elem_of_In. exact Hb. }
  destruct (wf_block a m ch b W Hc) as (n' & blk & _ & Hblk & _).
  exists blk. split; [exact Hblk | apply Hin; assumption].
Qed.

Lemma zarena_reset_rewinds_witness :
  exists a m m',
    map fst (live (zcalls (hp m))) = [8224; 4096] /\
    zarena_reset a m = Done (Arena (first a) (first a) 0, m') /\
    hp m' = hp m /\ bytes m' = bytes m /\
    Forall (fun b => exists blk,
              blocks m !! b.1 = Some blk /\
              blocks m' !! b.1 = Some (Block (next blk) (capacity blk) 0))
           (live (zcalls (hp m))).
Proof.
  destruct arena_reach_after_reset as (a & m & regs & R & Hl).
  destruct (zarena_reset_rewinds default_platform a m regs bump_ok R) as (m' & H).
  exists a, m, m'. split; [exact Hl | exact H].
Defined.

End ArenaRelease.

(** ** Arena: what a client can rely on *)

Section ArenaGuarantees.
  Import Arena.

(** A state reached by one allocation, for the examples below. *)
Definition example_arena : zarena := Arena 4096 4096 100.

Definition example_memory : memory :=
  Memory {[ 4096 := Block 0 4096 108 ]} ∅ (Heap [Malloc 4120 4096] []).

Lemma request_ok_small s : 0 <= s <= 2 ^ 62 -> request_ok s ZARENA_MAX_ALIGN.
Proof.
  intros H. split; [lia|]. split; [apply max_align_power_of_two|].
  unfold ZARENA_MAX_ALIGN. lia.
Qed.

Lemma arena_reach_example :
  arena_reach default_platform example_arena example_memory [(4128, 100)].
Proof.
  apply (areach_step default_platform zarena_init empty_memory [] (Alloc 100) 4128).
  - apply areach_init. reflexivity.
  - apply request_ok_small. lia.
  - vm_compute. reflexivity.
Qed.

(** X6. In every state an arena reaches (allocations, resizes of regions
    the client holds, resets, with requests within bounds), the regions the
    client holds are pairwise disjoint, and each lies in the data of a block
    that the backend has granted and not got back. *)
Theorem arena_regions_stay_disjoint (P : platform) (a : zarena) (m : memory)
    (regs : list (Z * Z)) :
  backend_ok (injected P) -> arena_reach P a m regs ->
  disjoint_blocks regs /\
  Forall (fun r => 0 < r.2 /\
            exists b n, In (b, n) (live (zcalls (hp m))) /\
              b + sizeof_block <= r.1 /\ r.1 + r.2 <= b + n) regs.
Proof.
  intros HP R. destruct (arena_reach_safe P HP a m regs R) as (ch & S).
  split; [apply (sf_disjoint _ _ _ _ S)|].
  rewrite Forall_forall. intros r Hr. apply list_elem_of_In in Hr.
  destruct (region_bounds a m ch regs r S Hr) as (H0 & _ & _ & Hb).
  split; assumption.
Qed.

Lemma arena_regions_stay_disjoint_witness :
  disjoint_blocks [(4128, 100)] /\
  Forall (fun r => 0 < r.2 /\
            exists b n, In (b, n) (live (zcalls (hp example_memory))) /\
              b + sizeof_block <= r.1 /\ r.1 + r.2 <= b + n) [(4128, 100)].
Proof.
  apply (arena_regions_stay_disjoint default_platform example_arena example_memory _
           bump_ok arena_reach_example).
Defined.

(** What an allocation returns: a non-null result is a multiple of the
    alignment, and the result is null only for a size of zero or when the
    backend has refused the block asked for. *)
Definition alloc_result (s al p : Z) (m m' : memory) : Prop :=
  (p <> 0 -> 0 < s /\ p mod al = 0) /\
  (p = 0 -> s = 0 \/ exists total, zcalls (hp m') = Malloc total 0 :: zcalls (hp m)).

Lemma safe_post_result a m regs s al p a' m' :
  safe_post a m regs s al p a' m' -> alloc_result s al p m m'.
Proof.
  intros (_ & _ & _ & [(-> & _ & Hw) | (Hp & Hmod & Hs & _)]).
  - split; [intros Hc; contradiction|]. intros _.
    destruct Hw as [(Hz & _)|Hw]; [left; exact Hz | right; exact Hw].
  - split; [intros _; split; assumption | intros ->; lia].
Qed.

(** X7. In every state an arena reaches, every operation with a request
    within bounds returns: it does not abort, touch memory it does not own
    or loop; it calls nothing but the injected backend; an allocation
    returns a multiple of the alignment, or the null pointer when the size
    is zero or the backend refuses; a resize of a region held returns the
    null pointer only for a new size of zero or on a refusal. *)
Theorem arena_operation_returns (P : platform) (a : zarena) (m : memory)
    (regs : list (Z * Z)) (o : op) :
  backend_ok (injected P) -> arena_reach P a m regs -> valid_op regs o ->
  exists p a' m',
    step P a m o = Done (p, a', m') /\
    ccalls (hp m') = ccalls (hp m) /\
    match o with
    | Alloc s | AllocZero s => alloc_result s ZARENA_MAX_ALIGN p m m'
    | AllocAlign s al => alloc_result s al p m m'
    | ReallocOp old os ns =>
        (old <> 0 -> p = 0 ->
         ns = 0 \/ exists total, zcalls (hp m') = Malloc total 0 :: zcalls (hp m)) /\
        (old = 0 -> p <> 0 -> p mod ZARENA_MAX_ALIGN = 0)
    | Reset => p = 0 /\ hp m' = hp m
    end.
Proof.
  intros HP R Hv. destruct (arena_reach_safe P HP a m regs R) as (ch & S).
  destruct o as [s|s al|s|old os ns|]; cbn [step valid_op] in *.
  - destruct (zarena_alloc_align_safe P HP a m ch regs s _ S Hv)
      as (p & a' & m' & H & Hpost).
    exists p, a', m'. split; [exact H|]. split; [apply Hpost|].
    apply (safe_post_result a m regs s _ p a' m' Hpost).
  - destruct (zarena_alloc_align_safe P HP a m ch regs s al S Hv)
      as (p & a' & m' & H & Hpost).
    exists p, a', m'. split; [exact H|]. split; [apply Hpost|].
    apply (safe_post_result a m regs s _ p a' m' Hpost).
  - destruct (zarena_alloc_align_safe P HP a m ch regs s _ S Hv)
      as (p & a' & m' & H & Hpost).
    pose proof (safe_post_result a m regs s _ p a' m' Hpost) as Hres.
    destruct Hpost as (_ & Hcc & _).
    unfold zarena_alloc_zero. rewrite H. cbn [mbind outcome_bind].
    destruct (p =? 0); eexists p, a', _; (split; [reflexivity|]);
      (split; [exact Hcc | exact Hres]).
  - destruct Hv as [Hreq Hold].
    destruct (zarena_realloc_safe P HP a m ch regs old os ns S Hreq Hold)
      as (p & a' & m' & ch' & H & _ & _ & Hcc & _ & _ & Hnull & Hmod).
    exists p, a', m'. split; [exact H|]. split; [exact Hcc|]. split; assumption.
  - destruct (zarena_reset_safe a m ch regs S) as (a' & m' & H & _ & Eh & _).
    exists 0, a', m'. rewrite H. split; [reflexivity|].
    split; [rewrite Eh; reflexivity|]. split; [reflexivity | exact Eh].
Qed.

Lemma arena_operation_returns_witness :
  exists p a' m',
    step default_platform example_arena example_memory (ReallocOp 4128 100 5000)
    = Done (p, a', m') /\
    ccalls (hp m') = ccalls (hp example_memory) /\
    (4128 <> 0 -> p = 0 ->
     5000 = 0 \/ exists total,
       zcalls (hp m') = Malloc total 0 :: zcalls (hp example_memory)) /\
    (4128 = 0 -> p <> 0 -> p mod ZARENA_MAX_ALIGN = 0).
Proof.
  apply (arena_operation_returns default_platform example_arena example_memory
           [(4128, 100)] (ReallocOp 4128 100 5000) bump_ok arena_reach_example).
  split; [apply request_ok_small; lia | right; left; reflexivity].
Defined.

(** X8. [zarena_alloc_zero] hands out zeroed memory: every byte of the
    region it returns reads zero, and no byte of a region the client already
    holds has changed. *)
Theorem zarena_alloc_zero_fills (P : platform) (a : zarena) (m : memory)
    (regs : list (Z * Z)) (s p : Z) (a' : zarena) (m' : memory) :
  backend_ok (injected P) -> arena_reach P a m regs ->
  request_ok s ZARENA_MAX_ALIGN ->
  zarena_alloc_zero P a m s = Done (p, a', m') -> p <> 0 ->
  (forall i, 0 <= i < s -> bytes m' !! (p + i) = Some 0) /\
  (forall r i, In r regs -> 0 <= i < r.2 ->
     bytes m' !! (r.1 + i) = bytes m !! (r.1 + i)).
Proof.
  intros HP R Hreq H Hp. destruct (arena_reach_safe P HP a m regs R) as (ch & S).
  destruct (zarena_alloc_align_safe P HP a m ch regs s _ S Hreq)
    as (p1 & a1 & m1 & H1 & Hpost).
  unfold zarena_alloc_zero in H. rewrite H1 in H. cbn [mbind outcome_bind] in H.
  destruct (Z.eqb_spec p1 0) as [Hz|Hnz].
  { apply Done_inj in H. injection H as <- _ _. contradiction. }
  apply Done_inj in H. injection H as <- <- <-.
  destruct Hpost as (_ & _ & Hby & [(Hc & _) | (Hp0 & _ & Hs & (ch' & S') & _)]);
    [contradiction|].
  destruct (region_bounds a1 m1 ch' _ (p1, s) S' (or_introl eq_refl))
    as (_ & _ & Hend & _). cbn [fst snd] in Hend.
  pose proof (sf_disjoint _ _ _ _ S') as [Dnew _]. rewrite Forall_forall in Dnew.
  cbn [bytes]. split.
  - intros i Hi.
    replace (p1 + i) with (wrap (p1 + Z.of_nat (Z.to_nat i)))
      by (rewrite Z2Nat.id by lia; apply wrap_small; lia).
    apply memset_lookup. lia.
  - intros r i Hr Hi. rewrite memset_other; [rewrite Hby; reflexivity|].
    intros j Hj. rewrite wrap_small by lia.
    specialize (Dnew r). rewrite list_elem_of_In in Dnew. specialize (Dnew Hr).
    unfold disjoint in Dnew. cbn in Dnew. lia.
Qed.

Lemma zarena_alloc_zero_fills_witness :
  exists p a' m',
    zarena_alloc_zero default_platform example_arena example_memory 24
    = Done (p, a', m') /\ p <> 0 /\
    (forall i, 0 <= i < 24 -> bytes m' !! (p + i) = Some 0) /\
    (forall r i, In r [(4128, 100)] -> 0 <= i < r.2 ->
       bytes m' !! (r.1 + i) = bytes example_memory !! (r.1 + i)).
Proof.
  assert (E : exists a' m',
            zarena_alloc_zero default_platform example_arena example_memory 24
            = Done (4240, a', m'))
    by (eexists _, _; vm_compute; reflexivity).
  destruct E as (a' & m' & E). exists 4240, a', m'.
  split; [exact E|]. split; [lia|].
  apply (zarena_alloc_zero_fills default_platform example_arena example_memory _ 24
           4240 a' m' bump_ok arena_reach_example); [apply request_ok_small; lia | exact E | lia].
Defined.

(** X9. [zarena_realloc] on a region the client holds keeps its contents:
    a non-null result starts with the bytes the old region held, up to the
    smaller of the two sizes, whether the region stayed in place or was
    moved; no byte of a region held has changed, the old one included; and a
    null result for a new size that is not zero means that the backend
    refused a block. *)
Theorem zarena_realloc_keeps_contents (P : platform) (a : zarena) (m : memory)
    (regs : list (Z * Z)) (old os ns p : Z) (a' : zarena) (m' : memory) :
  backend_ok (injected P) -> arena_reach P a m regs ->
  In (old, os) regs -> request_ok ns ZARENA_MAX_ALIGN ->
  zarena_realloc P a m old os ns = Done (p, a', m') ->
  (p <> 0 -> forall i, 0 <= i < Z.min os ns ->
     bytes m' !! (p + i) = bytes m !! (old + i)) /\
  (forall r i, In r regs -> 0 <= i < r.2 ->
     bytes m' !! (r.1 + i) = bytes m !! (r.1 + i)) /\
  (p = 0 -> ns = 0 \/
     exists total, zcalls (hp m') = Malloc total 0 :: zcalls (hp m)).
Proof.
  intros HP R Hold Hreq H. destruct (arena_reach_safe P HP a m regs R) as (ch & S).
  destruct (region_bounds a m ch regs (old, os) S Hold) as (_ & Hpos & _).
  cbn [fst] in Hpos.
  destruct (zarena_realloc_safe P HP a m ch regs old os ns S Hreq (or_intror Hold))
    as (p1 & a1 & m1 & ch1 & H1 & _ & _ & _ & Hcopy & Hframe & Hnull & _).
  rewrite H in H1. apply Done_inj in H1. injection H1 as <- <- <-.
  split; [intros Hp; apply Hcopy; [lia | exact Hp]|].
  split; [exact Hframe|]. intros Hp. apply Hnull; [lia | exact Hp].
Qed.

Lemma zarena_realloc_keeps_contents_witness :
  exists p a' m',
    zarena_realloc default_platform example_arena example_memory 4128 100 5000
    = Done (p, a', m') /\
    (p <> 0 -> forall i, 0 <= i < Z.min 100 5000 ->
       bytes m' !! (p + i) = bytes example_memory !! (4128 + i)) /\
    (forall r i, In r [(4128, 100)] -> 0 <= i < r.2 ->
       bytes m' !! (r.1 + i) = bytes example_memory !! (r.1 + i)) /\
    (p = 0 -> 5000 = 0 \/
       exists total, zcalls (hp m') = Malloc total 0 :: zcalls (hp example_memory)).
Proof.
  assert (E : exists p a' m',
            zarena_realloc default_platform example_arena example_memory 4128 100 5000
            = Done (p, a', m'))
    by (eexists _, _, _; vm_compute; reflexivity).
  destruct E as (p & a' & m' & E). exists p, a', m'. split; [exact E|].
  apply (zarena_realloc_keeps_contents default_platform example_arena example_memory
           [(4128, 100)] 4128 100 5000 p a' m' bump_ok arena_reach_example);
    [left; reflexivity | apply request_ok_small; lia | exact E].
Defined.

(** X10. After a reset the memory of the first block is handed out again:
    a request that fits it (with room for the alignment) is served from the
    first block, aligned, without a call to the backend. *)
Theorem zarena_reset_reuses_first_block (P : platform) (a : zarena) (m : memory)
    (regs : list (Z * Z)) (fb : zarena_block) (s al : Z) (a1 : zarena) (m1 : memory) :
  backend_ok (injected P) -> arena_reach P a m regs ->
  first a <> 0 -> blocks m !! first a = Some fb ->
  zarena_reset a m = Done (a1, m1) ->
  0 < s -> request_ok s al -> s + al <= capacity fb ->
  exists p a2 m2,
    zarena_alloc_align P a1 m1 s al = Done (p, a2, m2) /\
    hp m2 = hp m /\ head a2 = first a /\
    first a + sizeof_block <= p /\ p + s <= first a + sizeof_block + capacity fb /\
    p mod al = 0.
Proof.
  intros HP R Hf Hfb Hreset Hs Hreq Hfit.
  destruct (arena_reach_safe P HP a m regs R) as (ch & S).
  destruct (zarena_reset_safe a m ch regs S)
    as (a1' & m1' & Hr & S1 & Eh & _ & Ehd & _ & _ & Hblk).
  rewrite Hreset in Hr. apply Done_inj in Hr. injection Hr as <- <-.
  assert (Hin : In (first a) ch).
  { pose proof (linked_start _ _ _ (wf_linked _ _ _ (sf_wf _ _ _ _ S))) as Hst.
    destruct ch as [|b t]; [cbn in Hst; contradiction|]. left. cbn in Hst. congruence. }
  pose proof (Hblk (first a) fb Hin Hfb) as Hfb1.
  assert (Hnz : head a1 <> 0) by (rewrite Ehd; exact Hf).
  rewrite <- Ehd in Hfb1.
  destruct (bump_head_fits a1 m1 ch [] s al _ S1 Hnz Hfb1 Hs Hreq)
    as ([[p a2] m2] & Hb); [cbn; lia|].
  destruct (bump_head_safe a1 m1 ch [] s al p a2 m2 S1 Hs Hreq Hb)
    as ((Hp & Hmod & _ & (ch2 & S2) & hb' & _ & Hhb' & Hlo & Hhi) & Eh2 & _).
  exists p, a2, m2.
  assert (Ea2 : head a2 = first a).
  { destruct (bump_head_spec _ _ _ _ _ _ _ Hb) as (hb & _ & _ & _ & _ & -> & _).
    cbn. exact Ehd. }
  split.
  { unfold zarena_alloc_align. destruct (Z.eqb_spec s 0) as [Hz|_]; [lia|].
    rewrite Hb. reflexivity. }
  split; [rewrite Eh2; exact Eh|]. split; [exact Ea2|].
  rewrite Ea2 in *. split; [exact Hlo|]. split; [|exact Hmod].
  assert (Hin2 : In (first a) ch2).
  { rewrite <- Ea2. destruct (wf_head_cases a2 m2 ch2 (sf_wf _ _ _ _ S2)) as [(Hz & _)|(_ & Hi)];
      [rewrite Ea2 in Hz; contradiction | exact Hi]. }
  pose proof (sf_used _ _ _ _ S2 (first a) hb' Hin2 Hhb') as Hu.
  destruct (bump_head_spec _ _ _ _ _ _ _ Hb) as (hb & _ & Hhb & _ & _ & _ & ->).
  rewrite Hfb1 in Hhb. injection Hhb as <-.
  rewrite set_used_lookup in Hhb'. rewrite Ehd, decide_True in Hhb' by reflexivity.
  rewrite <- Ehd, Hfb1 in Hhb'. cbn in Hhb'. injection Hhb' as <-. cbn in Hu, Hhi. lia.
Qed.

Lemma zarena_reset_reuses_first_block_witness :
  exists a1 m1 p a2 m2,
    zarena_reset example_arena example_memory = Done (a1, m1) /\
    zarena_alloc_align default_platform a1 m1 200 64 = Done (p, a2, m2) /\
    hp m2 = hp example_memory /\ head a2 = first example_arena /\
    first example_arena + sizeof_block <= p /\
    p + 200 <= first example_arena + sizeof_block + capacity (Block 0 4096 108) /\
    p mod 64 = 0.
Proof.
  assert (E : exists a1 m1, zarena_reset example_arena example_memory = Done (a1, m1))
    by (eexists _, _; vm_compute; reflexivity).
  destruct E as (a1 & m1 & E). exists a1, m1.
  destruct (zarena_reset_reuses_first_block default_platform example_arena example_memory
              [(4128, 100)] (Block 0 4096 108) 200 64 a1 m1 bump_ok arena_reach_example)
    as (p & a2 & m2 & H).
  - cbn. lia.
  - reflexivity.
  - exact E.
  - lia.
  - split; [lia|]. split; [exists 6; split; [unfold word_bits; lia | reflexivity] | lia].
  - cbn. lia.
  - exists p, a2, m2. split; [exact E | exact H].
Defined.

(** X11. The region handed out last is resized in place: right after
    [zarena_alloc] has returned [p] for [s] bytes, a resize of [p] to a
    larger size that the current block has room for returns [p] itself,
    moves nothing and calls nothing. *)
Theorem zarena_realloc_extends_last_region (P : platform) (a : zarena) (m : memory)
    (regs : list (Z * Z)) (s ns p : Z) (a1 : zarena) (m1 : memory) (hb : zarena_block) :
  backend_ok (injected P) -> arena_reach P a m regs ->
  request_ok s ZARENA_MAX_ALIGN -> request_ok ns ZARENA_MAX_ALIGN ->
  zarena_alloc P a m s = Done (p, a1, m1) -> p <> 0 -> s < ns ->
  blocks m1 !! head a1 = Some hb -> used hb + (ns - s) <= capacity hb ->
  zarena_realloc P a1 m1 p s ns =
    Done (p, add_total a1 (ns - s), set_used (head a1) (used hb + (ns - s)) m1).
Proof.
  intros HP R Hreq Hreq' H Hp Hlt Hhb Hfit.
  destruct (arena_reach_safe P HP a m regs R) as (ch & S).
  destruct (zarena_alloc_align_safe P HP a m ch regs s _ S Hreq)
    as (p1 & a1' & m1' & H1 & Hpost).
  unfold zarena_alloc in H. rewrite H in H1. apply Done_inj in H1.
  injection H1 as <- <- <-.
  destruct Hpost as (_ & _ & _ & [(Hc & _) | (Hp0 & _ & Hs & (ch1 & S1) & hb' & Hnz & Hhb' & Hlo & Hhi)]);
    [contradiction|].
  rewrite Hhb in Hhb'. injection Hhb' as <-.
  assert (Hin : In (head a1) ch1).
  { destruct (wf_head_cases a1 m1 ch1 (sf_wf _ _ _ _ S1)) as [(Hz & _)|(_ & Hi)];
      [contradiction | exact Hi]. }
  destruct (safe_span a1 m1 ch1 _ (head a1) hb S1 Hin Hhb)
    as (_ & Hpos & Hend & Hcp & Hmx & Hu).
  destruct Hreq' as (_ & _ & Hsum). unfold ZARENA_MAX_ALIGN in Hsum.
  unfold zarena_realloc.
  destruct (Z.eqb_spec p 0) as [Hc|_]; [contradiction|].
  destruct (Z.eqb_spec ns 0) as [Hc|_]; [lia|].
  destruct (Z.leb_spec ns s) as [Hc|_]; [lia|].
  unfold extend_tail. apply Z.eqb_neq in Hnz as E. rewrite E.
  unfold load. rewrite Hhb. cbn [mbind outcome_bind].
  assert (Edata : data (head a1) = head a1 + sizeof_block).
  { unfold data. apply wrap_small. unfold sizeof_block in *. lia. }
  rewrite Edata, Hhi, Z.eqb_refl.
  rewrite (wrap_small (ns - s)) by (rewrite modulus_eq; lia).
  rewrite (wrap_small (used hb + (ns - s)))
    by (unfold max_object, sizeof_block in *; rewrite modulus_eq; lia).
  destruct (Z.leb_spec (used hb + (ns - s)) (capacity hb)) as [_|Hc]; [|lia].
  reflexivity.
Qed.

Lemma zarena_realloc_extends_witness :
  exists p a1 m1,
    zarena_alloc default_platform example_arena example_memory 50 = Done (p, a1, m1) /\
    blocks m1 !! head a1 = Some (Block 0 4096 170) /\
    zarena_realloc default_platform a1 m1 p 50 300 =
      Done (p, add_total a1 (300 - 50),
            set_used (head a1) (used (Block 0 4096 170) + (300 - 50)) m1).
Proof.
  assert (E : exists a1 m1,
            zarena_alloc default_platform example_arena example_memory 50
            = Done (4240, a1, m1) /\
            blocks m1 !! head a1 = Some (Block 0 4096 170))
    by (eexists _, _; split; vm_compute; reflexivity).
  destruct E as (a1 & m1 & E & Hb). exists 4240, a1, m1.
  split; [exact E|]. split; [exact Hb|].
  apply (zarena_realloc_extends_last_region default_platform example_arena example_memory
           [(4128, 100)] 50 300 4240 a1 m1 (Block 0 4096 170) bump_ok arena_reach_example);
    try (apply request_ok_small; lia); try assumption; try lia.
  cbn. lia.
Defined.

End ArenaGuarantees.

(** ** Pool: initialisation *)

Section PoolInit.
  Import Pool.

Lemma land_clear_low_3 z :
  0 <= z < modulus -> Z.land z (wnot (sizeof_ptr - 1)) = z - z mod 8.
Proof.
  intros Hz. change (sizeof_ptr - 1) with (2 ^ 3 - 1).
  rewrite land_clear_low by (try exact Hz; unfold word_bits; lia). reflexivity.
Qed.

(** X12. For an item size of at most [2^64 - 8], [zpool_init] rounds the
    item size up to a multiple of the pointer size, and to the pointer size
    at least, so that a free item holds its link; a count of zero becomes
    64 and any other count is kept; the free list and the slab array start
    empty. *)
Theorem zpool_init_rounds_item_size (isz n : Z) :
  0 <= isz <= modulus - 8 -> 0 <= n < modulus ->
  let p := zpool_init isz n in
  item_size p mod sizeof_ptr = 0 /\
  Z.max isz sizeof_ptr <= item_size p < Z.max isz sizeof_ptr + sizeof_ptr /\
  count_per_block p = (if n =? 0 then 64 else n) /\ 1 <= count_per_block p /\
  head p = 0 /\ blocks p = 0 /\ block_count p = 0 /\ block_cap p = 0.
Proof.
  intros Hi Hn p. unfold p, zpool_init. cbn [item_size count_per_block head blocks
                                            block_count block_cap].
  set (s := if isz <? sizeof_ptr then sizeof_ptr else isz).
  assert (Hs : s = Z.max isz sizeof_ptr).
  { unfold s. destruct (Z.ltb_spec isz sizeof_ptr); lia. }
  assert (Hr : 8 <= s <= modulus - 8).
  { rewrite Hs. unfold sizeof_ptr. rewrite modulus_eq in *. lia. }
  rewrite <- Hs.
  assert (E : Z.land (wrap (s + (sizeof_ptr - 1))) (wnot (sizeof_ptr - 1))
              = s + 7 - (s + 7) mod 8).
  { rewrite (wrap_small (s + (sizeof_ptr - 1))) by (unfold sizeof_ptr; lia).
    rewrite land_clear_low_3 by (unfold sizeof_ptr; lia). reflexivity. }
  rewrite !E. clear E.
  pose proof (Z.mod_pos_bound (s + 7) 8 ltac:(lia)) as Hm.
  pose proof (Z.div_mod (s + 7) 8 ltac:(lia)) as Hd.
  unfold sizeof_ptr.
  split.
  { replace (s + 7 - (s + 7) mod 8) with (((s + 7) / 8) * 8) by lia.
    apply Z.mod_mul. lia. }
  split.
  { assert (Hq : (s + 7 - (s + 7) mod 8) mod 8 = 0).
    { replace (s + 7 - (s + 7) mod 8) with (((s + 7) / 8) * 8) by lia.
      apply Z.mod_mul. lia. }
    split; [|lia].
    (* a multiple of 8 above s - 1 *)
    destruct (Z_lt_ge_dec (s + 7 - (s + 7) mod 8) s) as [Hlt|Hge]; [|lia].
    exfalso. assert ((s + 7) mod 8 = 7 \/ (s + 7) mod 8 < 7) as [E|E] by lia; lia. }
  split; [destruct (Z.ltb_spec n 1), (Z.eqb_spec n 0); lia|].
  split; [destruct (Z.ltb_spec n 1); lia|].
  repeat split; reflexivity.
Qed.

Lemma zpool_init_rounds_witness :
  0 <= 12 <= modulus - 8 /\ 0 <= 0 < modulus /\
  item_size (zpool_init 12 0) mod sizeof_ptr = 0 /\
  Z.max 12 sizeof_ptr <= item_size (zpool_init 12 0) < Z.max 12 sizeof_ptr + sizeof_ptr /\
  count_per_block (zpool_init 12 0) = (if 0 =? 0 then 64 else 0) /\
  1 <= count_per_block (zpool_init 12 0) /\
  head (zpool_init 12 0) = 0 /\ blocks (zpool_init 12 0) = 0 /\
  block_count (zpool_init 12 0) = 0 /\ block_cap (zpool_init 12 0) = 0.
Proof.
  assert (H : 0 <= 12 <= modulus - 8) by (rewrite modulus_eq; lia).
  assert (H0 : 0 <= 0 < modulus) by (rewrite modulus_eq; lia).
  split; [exact H|]. split; [exact H0|].
  apply (zpool_init_rounds_item_size 12 0 H H0).
Defined.

(** X13. An item given back is the next one handed out: [zpool_recycle] of
    a non-null pointer followed by [zpool_alloc] returns that pointer,
    without a call to the backend, and leaves the pool struct as it was
    before the two calls. *)
Theorem zpool_recycle_then_alloc (P : platform) (p : zpool) (m : memory) (ptr : Z) :
  ptr <> 0 ->
  let '(p1, m1) := zpool_recycle p m ptr in
  zpool_alloc P p1 m1 = Done (ptr, p, m1) /\ hp m1 = hp m.
Proof.
  intros Hp. unfold zpool_recycle. apply Z.eqb_neq in Hp as E. rewrite E.
  unfold zpool_alloc. cbn [head item_size count_per_block blocks block_count block_cap
                           words hp].
  rewrite E. cbn [mbind outcome_bind head words]. rewrite E.
  rewrite lookup_insert_eq. destruct p. split; reflexivity.
Qed.

Lemma zpool_recycle_then_alloc_witness :
  4104 <> 0 /\
  let '(p1, m1) := zpool_recycle (Pool 8 4 4112 8192 1 8) empty_memory 4104 in
  zpool_alloc default_platform p1 m1 = Done (4104, Pool 8 4 4112 8192 1 8, m1) /\
  hp m1 = hp empty_memory.
Proof.
  split; [lia|].
  apply (zpool_recycle_then_alloc default_platform (Pool 8 4 4112 8192 1 8)
           empty_memory 4104). lia.
Defined.

End PoolInit.

(** ** Pool: the free list and the slabs *)

Section PoolInvariant.
  Import Pool.

(** The items reached from [cur] along the links kept in their first
    word, up to the null link. *)
Fixpoint free_list (w : gmap Z Z) (cur : Z) (l : list Z) : Prop :=
  match l with
  | [] => cur = 0
  | x :: t => cur = x /\ x <> 0 /\ exists n, w !! x = Some n /\ free_list w n t
  end.

Lemma free_list_ext w w' l : forall cur,
  (forall x, In x l -> w' !! x = w !! x) ->
  free_list w cur l -> free_list w' cur l.
Proof.
  induction l as [|x t IH]; intros cur Hsame H; [exact H|].
  destruct H as (-> & Hx & n & Hn & Ht).
  split; [reflexivity|]. split; [exact Hx|]. exists n. split.
  - rewrite Hsame by (left; reflexivity). exact Hn.
  - apply IH; [|exact Ht]. intros y Hy. apply Hsame. right. exact Hy.
Qed.

Lemma free_list_null w l : free_list w 0 l -> l = [].
Proof. destruct l as [|x t]; [reflexivity|]. intros (<- & Hx & _). contradiction. Qed.

Definition slab_size (p : zpool) : Z := item_size p * count_per_block p.

(** The address of item [i] of the slab at [b]. *)
Definition item (p : zpool) (b : Z) (i : nat) : Z := b + Z.of_nat i * item_size p.

Definition items_of (p : zpool) (b : Z) : list Z :=
  map (item p b) (seq 0 (Z.to_nat (count_per_block p))).

Definition all_items (p : zpool) (slabs : list Z) : list Z :=
  slabs ≫= items_of p.

Lemma in_items_of p b x :
  In x (items_of p b) <->
  exists i : nat, (Z.of_nat i < count_per_block p) /\ x = item p b i.
Proof.
  unfold items_of. rewrite in_map_iff. split.
  - intros (i & <- & Hi). apply in_seq in Hi. exists i. split; [lia | reflexivity].
  - intros (i & Hi & ->). exists i. split; [reflexivity|]. apply in_seq. lia.
Qed.

Lemma in_all_items p slabs x :
  In x (all_items p slabs) <-> exists b, In b slabs /\ In x (items_of p b).
Proof.
  unfold all_items. rewrite <- list_elem_of_In, list_elem_of_bind. split.
  - intros (b & Hx & Hb). exists b. split; apply list_elem_of_In; assumption.
  - intros (b & Hb & Hx). exists b. split; apply list_elem_of_In; assumption.
Qed.

(** What holds of a pool and the memory it lives in, with [slabs] the slabs
    it has obtained, [fl] its free list and [held] the items its client
    holds. *)
Record pool_inv (p : zpool) (m : memory) (slabs fl held : list Z) : Prop := PoolInv {
  pi_item : sizeof_ptr <= item_size p;
  pi_count : 1 <= count_per_block p;
  pi_size : slab_size p < modulus;
  pi_blocks : Forall (fun b => 0 < b.1 /\ 0 < b.2 /\ b.1 + b.2 < modulus /\
                               b.2 <= max_object)
                     (live (zcalls (hp m)));
  pi_disjoint : disjoint_blocks (live (zcalls (hp m)));
  pi_slabs : forall s, In s slabs -> In (s, slab_size p) (live (zcalls (hp m)));
  pi_array_live : block_cap p <> 0 ->
                  In (blocks p, sizeof_ptr * block_cap p) (live (zcalls (hp m)));
  pi_only : Forall (fun b => In b.1 slabs \/ (block_cap p <> 0 /\ b.1 = blocks p))
                   (live (zcalls (hp m)));
  pi_nodup : NoDup slabs;
  pi_array_slab : ~ In (blocks p) slabs;
  pi_null : block_cap p = 0 -> blocks p = 0;
  pi_counts : block_count p = Z.of_nat (length slabs) /\ block_count p <= block_cap p;
  pi_array : forall (i : nat) s, slabs !! i = Some s ->
               words m !! (blocks p + sizeof_ptr * Z.of_nat i) = Some s;
  pi_free : free_list (words m) (head p) fl;
  pi_items : fl ++ held ≡ₚ all_items p slabs
}.

Lemma slab_size_pos p m slabs fl held :
  pool_inv p m slabs fl held -> sizeof_ptr <= slab_size p.
Proof.
  intros I. pose proof (pi_item _ _ _ _ _ I). pose proof (pi_count _ _ _ _ _ I).
  unfold slab_size, sizeof_ptr in *. nia.
Qed.

(** A slab of the pool and its bounds. *)
Lemma slab_bounds p m slabs fl held s :
  pool_inv p m slabs fl held -> In s slabs ->
  0 < s /\ s + slab_size p < modulus /\ slab_size p <= max_object.
Proof.
  intros I Hs. pose proof (pi_blocks _ _ _ _ _ I) as HB. rewrite Forall_forall in HB.
  destruct (HB (s, slab_size p)) as (H1 & _ & H2 & H3).
  { apply list_elem_of_In. apply (pi_slabs _ _ _ _ _ I s Hs). }
  cbn in *. repeat split; assumption.
Qed.

(** An item lies in its slab. *)
Lemma item_bounds p b (i : nat) :
  0 < item_size p -> Z.of_nat i < count_per_block p ->
  b <= item p b i /\ item p b i + item_size p <= b + slab_size p.
Proof. intros H1 H2. unfold item, slab_size. nia. Qed.

(** Two items of the pool are the same or do not overlap. *)
Lemma items_apart p m slabs fl held x y :
  pool_inv p m slabs fl held ->
  In x (all_items p slabs) -> In y (all_items p slabs) -> x <> y ->
  x + item_size p <= y \/ y + item_size p <= x.
Proof.
  intros I Hx Hy Hne.
  pose proof (pi_item _ _ _ _ _ I) as Hi. unfold sizeof_ptr in Hi.
  apply in_all_items in Hx as (b & Hb & Hx). apply in_all_items in Hy as (c & Hc & Hy).
  apply in_items_of in Hx as (i & Hil & ->). apply in_items_of in Hy as (j & Hjl & ->).
  destruct (item_bounds p b i ltac:(lia) Hil) as [B1 B2].
  destruct (item_bounds p c j ltac:(lia) Hjl) as [C1 C2].
  destruct (decide (b = c)) as [->|Hbc].
  - unfold item in *. assert (i <> j) by congruence. nia.
  - assert (Hd : disjoint (b, slab_size p) (c, slab_size p)).
    { apply (disjoint_blocks_in _ _ _ (pi_disjoint _ _ _ _ _ I)).
      - apply (pi_slabs _ _ _ _ _ I b Hb).
      - apply (pi_slabs _ _ _ _ _ I c Hc).
      - congruence. }
    unfold disjoint in Hd. cbn in Hd. lia.
Qed.

Lemma all_items_NoDup p m slabs fl held :
  pool_inv p m slabs fl held -> NoDup (all_items p slabs).
Proof.
  intros I. pose proof (pi_item _ _ _ _ _ I) as Hi. unfold sizeof_ptr in Hi.
  unfold all_items. apply NoDup_bind.
  - intros b c x Hb Hc Hx Hy.
    apply list_elem_of_In in Hb, Hc, Hx, Hy.
    destruct (decide (b = c)) as [E|Hne]; [exact E|exfalso].
    apply in_items_of in Hx as (i & Hil & ->). apply in_items_of in Hy as (j & Hjl & Hy).
    destruct (item_bounds p b i ltac:(lia) Hil) as [B1 B2].
    destruct (item_bounds p c j ltac:(lia) Hjl) as [C1 C2].
    assert (Hd : disjoint (b, slab_size p) (c, slab_size p)).
    { apply (disjoint_blocks_in _ _ _ (pi_disjoint _ _ _ _ _ I)).
      - apply (pi_slabs _ _ _ _ _ I b Hb).
      - apply (pi_slabs _ _ _ _ _ I c Hc).
      - congruence. }
    unfold disjoint in Hd. cbn in Hd. lia.
  - intros b Hb. unfold items_of. apply NoDup_fmap_2; [|apply NoDup_seq].
    intros i j E. unfold item in E. nia.
  - apply (pi_nodup _ _ _ _ _ I).
Qed.

Lemma pool_items_NoDup p m slabs fl held :
  pool_inv p m slabs fl held -> NoDup (fl ++ held).
Proof.
  intros I. rewrite (pi_items _ _ _ _ _ I). apply (all_items_NoDup p m slabs fl held I).
Qed.

(** An item of the pool is not null and lies in a slab, away from the
    array of slab pointers. *)
Lemma item_in_slab p m slabs fl held x :
  pool_inv p m slabs fl held -> In x (all_items p slabs) ->
  exists b, In b slabs /\ b <= x /\ x + item_size p <= b + slab_size p /\
            0 < x /\ x + item_size p < modulus.
Proof.
  intros I Hx. pose proof (pi_item _ _ _ _ _ I) as Hi. unfold sizeof_ptr in Hi.
  apply in_all_items in Hx as (b & Hb & Hx). apply in_items_of in Hx as (i & Hil & ->).
  destruct (item_bounds p b i ltac:(lia) Hil) as [B1 B2].
  destruct (slab_bounds p m slabs fl held b I Hb) as (S1 & S2 & S3).
  exists b. repeat split; try assumption; lia.
Qed.

Lemma array_apart p m slabs fl held b :
  pool_inv p m slabs fl held -> In b slabs -> block_cap p <> 0 ->
  b + slab_size p <= blocks p \/ blocks p + sizeof_ptr * block_cap p <= b.
Proof.
  intros I Hb Hc.
  pose proof (pi_counts _ _ _ _ _ I) as [Hn Hle].
  assert (Hd : disjoint (b, slab_size p) (blocks p, sizeof_ptr * block_cap p)).
  { apply (disjoint_blocks_in _ _ _ (pi_disjoint _ _ _ _ _ I)).
    - apply (pi_slabs _ _ _ _ _ I b Hb).
    - apply (pi_array_live _ _ _ _ _ I Hc).
    - intros E. injection E as E1 E2.
      apply (pi_array_slab _ _ _ _ _ I). rewrite <- E1. exact Hb. }
  unfold disjoint in Hd. cbn in Hd. exact Hd.
Qed.

End PoolInvariant.

Section PoolWords.
  Import Pool.

Lemma move_words_other n : forall (src_w w : gmap Z Z) dst src a,
  (forall i : nat, (i < n)%nat -> wrap (dst + sizeof_ptr * Z.of_nat i) <> a) ->
  move_words src_w w dst src n !! a = w !! a.
Proof.
  induction n as [|k IH]; intros src_w w dst src a H; cbn [move_words]; [reflexivity|].
  rewrite IH.
  - specialize (H 0%nat ltac:(lia)).
    replace (dst + sizeof_ptr * Z.of_nat 0) with dst in H by lia.
    destruct (src_w !! wrap src).
    + apply lookup_insert_ne. exact H.
    + apply lookup_delete_ne. exact H.
  - intros i Hi. specialize (H (S i) ltac:(lia)).
    replace (dst + sizeof_ptr + sizeof_ptr * Z.of_nat i)
      with (dst + sizeof_ptr * Z.of_nat (S i)) by lia.
    exact H.
Qed.

Lemma move_words_lookup n : forall (src_w w : gmap Z Z) dst src (i : nat),
  (i < n)%nat -> 0 <= dst -> dst + sizeof_ptr * Z.of_nat n <= modulus ->
  0 <= src -> src + sizeof_ptr * Z.of_nat n <= modulus ->
  move_words src_w w dst src n !! (dst + sizeof_ptr * Z.of_nat i)
  = src_w !! (src + sizeof_ptr * Z.of_nat i).
Proof.
  induction n as [|k IH]; intros src_w w dst src i Hi Hd Hde Hs Hse; [lia|].
  cbn [move_words]. unfold sizeof_ptr in *. destruct i as [|j].
  - replace (dst + 8 * Z.of_nat 0) with dst by lia.
    replace (src + 8 * Z.of_nat 0) with src by lia.
    rewrite move_words_other.
    + rewrite (wrap_small dst), (wrap_small src) by lia.
      destruct (src_w !! src); [apply lookup_insert_eq | apply lookup_delete_eq].
    + intros j Hj. unfold sizeof_ptr. rewrite wrap_small by lia. lia.
  - replace (dst + 8 * Z.of_nat (S j)) with (dst + 8 + 8 * Z.of_nat j) by lia.
    replace (src + 8 * Z.of_nat (S j)) with (src + 8 + 8 * Z.of_nat j) by lia.
    apply IH; lia.
Qed.

Lemma link_items_other n : forall (w : gmap Z Z) block isz i a,
  (forall j : nat, (j < n)%nat ->
     wrap (block + wrap ((i + Z.of_nat j) * isz)) <> a) ->
  link_items w block isz i n !! a = w !! a.
Proof.
  induction n as [|k IH]; intros w block isz i a H; cbn [link_items]; [reflexivity|].
  rewrite IH.
  - apply lookup_insert_ne. specialize (H 0%nat ltac:(lia)).
    replace (i + Z.of_nat 0) with i in H by lia. exact H.
  - intros j Hj. specialize (H (S j) ltac:(lia)).
    replace (i + 1 + Z.of_nat j) with (i + Z.of_nat (S j)) by lia. exact H.
Qed.

Lemma link_items_lookup n : forall (w : gmap Z Z) block isz i (j : nat),
  (j < n)%nat -> 0 < isz -> 0 <= i -> 0 <= block ->
  block + (i + Z.of_nat n + 1) * isz <= modulus ->
  link_items w block isz i n !! (block + (i + Z.of_nat j) * isz)
  = Some (block + (i + Z.of_nat j + 1) * isz).
Proof.
  induction n as [|k IH]; intros w block isz i j Hj Hisz Hi Hb Hend; [lia|].
  cbn [link_items]. destruct j as [|j].
  - replace (i + Z.of_nat 0) with i by lia.
    rewrite link_items_other.
    + rewrite (wrap_small (i * isz)), (wrap_small ((i + 1) * isz)) by nia.
      rewrite (wrap_small (block + i * isz)), (wrap_small (block + (i + 1) * isz)) by nia.
      apply lookup_insert_eq.
    + intros j Hj'. rewrite (wrap_small ((i + 1 + Z.of_nat j) * isz)) by nia.
      rewrite wrap_small by nia. nia.
  - replace (i + Z.of_nat (S j)) with (i + 1 + Z.of_nat j) by lia.
    apply IH; try lia; nia.
Qed.

(** The items of a slab, linked from [k] on and followed by [rest]. *)
Lemma free_list_linked (w : gmap Z Z) block isz rest nxt (n : nat) : forall k : nat,
  0 < block -> 0 < isz ->
  (forall j : nat, (k <= j)%nat -> (j < k + n)%nat ->
     w !! (block + Z.of_nat j * isz) = Some (block + (Z.of_nat j + 1) * isz)) ->
  w !! (block + Z.of_nat (k + n) * isz) = Some nxt ->
  free_list w nxt rest ->
  free_list w (block + Z.of_nat k * isz)
    (map (fun j : nat => block + Z.of_nat j * isz) (seq k (S n)) ++ rest).
Proof.
  induction n as [|n IH]; intros k Hb Hi Hlink Hlast Hrest.
  - cbn. split; [reflexivity|]. split; [nia|]. exists nxt.
    replace (k + 0)%nat with k in Hlast by lia. split; assumption.
  - cbn [seq map app]. split; [reflexivity|]. split; [nia|].
    exists (block + (Z.of_nat k + 1) * isz). split; [apply Hlink; lia|].
    replace (Z.of_nat k + 1) with (Z.of_nat (S k)) by lia.
    apply IH; try assumption.
    + intros j H1 H2. apply Hlink; lia.
    + replace (S k + n)%nat with (k + S n)%nat by lia. exact Hlast.
Qed.

(** A block that is still allocated stays so when another one is released. *)
Lemma live_keep (l : list (Z * Z)) (q : Z) :
  Forall (fun b => b.1 <> q) l -> filter (fun b : Z * Z => b.1 <> q) l = l.
Proof. intros H. apply filter_all. exact H. Qed.

End PoolWords.

Section PoolSteps.
  Import Pool.
  Variable P : platform.
  Hypothesis backend_contract : backend_ok (injected P).

(** A freshly granted block is none of the blocks still allocated. *)
Lemma fresh_address (l : list (Z * Z)) b n :
  fresh_block l b n -> 0 < n -> Forall (fun c => 0 < c.2) l ->
  Forall (fun c : Z * Z => c.1 <> b) l.
Proof.
  intros (_ & _ & Hf) Hn Hpos. rewrite Forall_forall in *. intros c Hc E.
  specialize (Hf c Hc). specialize (Hpos c Hc). unfold disjoint in Hf. cbn in Hf. lia.
Qed.

(** Every block of a pool has a size that is not zero. *)
Lemma pool_blocks_pos p m slabs fl held :
  pool_inv p m slabs fl held -> Forall (fun c : Z * Z => 0 < c.2) (live (zcalls (hp m))).
Proof.
  intros I. eapply Forall_impl; [apply (pi_blocks _ _ _ _ _ I)|].
  intros c (_ & H & _). exact H.
Qed.

(** The state of [_zpool_grow] once the array of slab pointers has room for
    the new slab [block]. *)
Definition array_ready (p : zpool) (m : memory) (slabs : list Z) (block : Z)
    (p2 : zpool) (m2 : memory) : Prop :=
  item_size p2 = item_size p /\ count_per_block p2 = count_per_block p /\
  head p2 = head p /\ block_count p2 = block_count p /\
  block_count p + 1 <= block_cap p2 /\
  ccalls (hp m2) = ccalls (hp m) /\
  (exists l, zcalls (hp m2) = l ++ zcalls (hp m) /\ Forall granted l /\ l <> []) /\
  Forall (fun b => 0 < b.1 /\ 0 < b.2 /\ b.1 + b.2 < modulus /\ b.2 <= max_object)
         (live (zcalls (hp m2))) /\
  disjoint_blocks (live (zcalls (hp m2))) /\
  In (block, slab_size p) (live (zcalls (hp m2))) /\
  (forall s, In s slabs -> In (s, slab_size p) (live (zcalls (hp m2)))) /\
  In (blocks p2, sizeof_ptr * block_cap p2) (live (zcalls (hp m2))) /\
  Forall (fun b => In b.1 slabs \/ b.1 = block \/ b.1 = blocks p2)
         (live (zcalls (hp m2))) /\
  ~ In (blocks p2) slabs /\ blocks p2 <> block /\
  (forall (i : nat) s, slabs !! i = Some s ->
     words m2 !! (blocks p2 + sizeof_ptr * Z.of_nat i) = Some s).

Lemma grow_finish p m slabs held block p2 m2 :
  pool_inv p m slabs [] held -> head p = 0 ->
  0 < block -> ~ In block slabs ->
  array_ready p m slabs block p2 m2 ->
  let w1 := <[blocks p2 + sizeof_ptr * block_count p2 := block]> (words m2) in
  let w2 := link_items w1 block (item_size p2) 0
              (Z.to_nat (count_per_block p2 - 1)) in
  let w3 := <[block + (count_per_block p2 - 1) * item_size p2 := head p2]> w2 in
  pool_inv (Pool (item_size p2) (count_per_block p2) block (blocks p2)
                 (block_count p2 + 1) (block_cap p2))
           (Memory w3 (hp m2)) (slabs ++ [block]) (items_of p block) held.
Proof.
  intros I Hhead Hbpos Hbnin
    (Ei & Ec & Eh & Ebc & Hroom & Hcc & Hcalls & Hbounds & Hdis & Hblk & Hslabs & Harr &
     Honly & Hanin & Hane & Harray) w1 w2 w3.
  pose proof (pi_item _ _ _ _ _ I) as Hisz. pose proof (pi_count _ _ _ _ _ I) as Hcnt.
  pose proof (pi_counts _ _ _ _ _ I) as [Hn Hle].
  unfold sizeof_ptr in Hisz.
  rewrite Forall_forall in Hbounds.
  destruct (Hbounds (block, slab_size p)) as (_ & _ & Hbend & Hbmax);
    [apply list_elem_of_In; exact Hblk|]. cbn [fst snd] in Hbend, Hbmax.
  destruct (Hbounds (blocks p2, sizeof_ptr * block_cap p2)) as (Hapos & _ & Haend & Hamax);
    [apply list_elem_of_In; exact Harr|]. cbn [fst snd] in Hapos, Haend, Hamax.
  assert (Hda : disjoint (block, slab_size p) (blocks p2, sizeof_ptr * block_cap p2)).
  { apply (disjoint_blocks_in _ _ _ Hdis Hblk Harr). congruence. }
  unfold disjoint in Hda. cbn [fst snd] in Hda.
  set (isz := item_size p) in *. set (cnt := count_per_block p) in *.
  assert (Hss : slab_size p = isz * cnt) by reflexivity.
  (* the words of the array are not words of the new slab *)
  assert (Hw3_array : forall k, blocks p2 <= k < blocks p2 + sizeof_ptr * block_cap p2 ->
            w3 !! k = w1 !! k).
  { intros k Hk. unfold w3, w2. rewrite Ec, Ei. fold isz cnt.
    rewrite lookup_insert_ne by (unfold sizeof_ptr in *; nia).
    apply link_items_other. intros j Hj.
    rewrite (wrap_small ((0 + Z.of_nat j) * isz)) by nia.
    rewrite wrap_small by nia. unfold sizeof_ptr in *. nia. }
  (* the links of the new slab *)
  assert (Hlinks : forall j : nat, (Z.of_nat j < cnt - 1) ->
            w3 !! (block + Z.of_nat j * isz) = Some (block + (Z.of_nat j + 1) * isz)).
  { intros j Hj. unfold w3, w2. rewrite Ec, Ei. fold isz cnt.
    rewrite lookup_insert_ne by nia.
    replace (block + Z.of_nat j * isz) with (block + (0 + Z.of_nat j) * isz) by lia.
    rewrite link_items_lookup by (try lia; nia). f_equal; lia. }
  assert (Hlast : w3 !! (block + (cnt - 1) * isz) = Some 0).
  { unfold w3. rewrite Ec, Ei, Eh, Hhead. apply lookup_insert_eq. }
  constructor; cbn [item_size count_per_block head blocks block_count block_cap words hp].
  - rewrite Ei. exact (pi_item _ _ _ _ _ I).
  - rewrite Ec. exact Hcnt.
  - unfold slab_size. cbn. rewrite Ei, Ec. exact (pi_size _ _ _ _ _ I).
  - apply Forall_forall. exact Hbounds.
  - exact Hdis.
  - intros s Hs. unfold slab_size. cbn. rewrite Ei, Ec.
    apply in_app_or in Hs as [Hs|[<-|[]]]; [apply Hslabs; exact Hs | exact Hblk].
  - intros _. exact Harr.
  - eapply Forall_impl; [exact Honly|]. intros b [Hb|[Hb|Hb]].
    + left. apply in_or_app. left. exact Hb.
    + left. apply in_or_app. right. left. symmetry. exact Hb.
    + right. split; [lia | exact Hb].
  - apply NoDup_app. split; [apply (pi_nodup _ _ _ _ _ I)|]. split.
    + intros x Hx Hx'. apply list_elem_of_singleton in Hx'. subst x.
      apply Hbnin. apply list_elem_of_In. exact Hx.
    + apply NoDup_singleton.
  - intros Hin. apply in_app_or in Hin as [Hin|[Hin|[]]]; [contradiction|].
    apply Hane. symmetry. exact Hin.
  - intros Hc. lia.
  - rewrite length_app. cbn [length]. split; [lia|]. lia.
  - intros i s Hs.
    assert (Hi : (i <= length slabs)%nat).
    { apply lookup_lt_Some in Hs. rewrite length_app in Hs. cbn in Hs. lia. }
    rewrite Hw3_array by (unfold sizeof_ptr in *; lia).
    unfold w1. destruct (decide (i = length slabs)) as [->|Hne].
    + rewrite lookup_app_r in Hs by lia.
      replace (length slabs - length slabs)%nat with 0%nat in Hs by lia.
      cbn in Hs. injection Hs as <-.
      rewrite Ebc, Hn. apply lookup_insert_eq.
    + rewrite lookup_app_l in Hs by lia.
      rewrite lookup_insert_ne by (unfold sizeof_ptr; lia).
      apply Harray. exact Hs.
  - (* the free list is the items of the new slab *)
    unfold items_of. fold cnt.
    assert (Hk : Z.to_nat cnt = S (Z.to_nat (cnt - 1))) by lia.
    rewrite Hk.
    pose proof (free_list_linked w3 block isz [] 0 (Z.to_nat (cnt - 1)) 0%nat
                  Hbpos ltac:(lia)) as Hfl.
    rewrite app_nil_r in Hfl. replace (block + Z.of_nat 0 * isz) with block in Hfl by lia.
    apply Hfl.
    + intros j _ Hj. apply Hlinks. lia.
    + replace (Z.of_nat (0 + Z.to_nat (cnt - 1))) with (cnt - 1) by lia. exact Hlast.
    + reflexivity.
  - (* the items *)
    unfold all_items. rewrite bind_app, bind_singleton.
    pose proof (pi_items _ _ _ _ _ I) as Hit. cbn [app] in Hit.
    assert (Eitems : forall bs, bs ≫= items_of
               (Pool (item_size p2) (count_per_block p2) block (blocks p2)
                     (block_count p2 + 1) (block_cap p2)) = bs ≫= items_of p).
    { intros bs. apply list_bind_ext; [|reflexivity]. intros b.
      unfold items_of, item. cbn. rewrite Ei, Ec. reflexivity. }
    rewrite Eitems. unfold all_items in Hit. rewrite <- Hit.
    assert (E2 : items_of (Pool (item_size p2) (count_per_block p2) block (blocks p2)
                                (block_count p2 + 1) (block_cap p2)) block
                 = items_of p block).
    { unfold items_of, item. cbn. rewrite Ei, Ec. reflexivity. }
    rewrite E2. apply Permutation_app_comm.
Qed.

(** What [_zpool_grow] has done when it returns: nothing but calls to the
    backend of which one was refused, or a new slab whose items are the free
    list. *)
Lemma _zpool_grow_spec p m slabs held :
  pool_inv p m slabs [] held -> head p = 0 ->
  exists p1 m1,
    _zpool_grow P p m = Done (p1, m1) /\
    ccalls (hp m1) = ccalls (hp m) /\
    ((p1 = p /\ words m1 = words m /\ pool_inv p1 m1 slabs [] held /\
      exists l, zcalls (hp m1) = l ++ zcalls (hp m) /\ ~ Forall granted l) \/
     (exists b,
        head p1 = b /\ item_size p1 = item_size p /\
        count_per_block p1 = count_per_block p /\
        pool_inv p1 m1 (slabs ++ [b]) (items_of p b) held /\
        exists l, zcalls (hp m1) = l ++ zcalls (hp m) /\ Forall granted l /\ l <> [])).
Proof.
  intros I Hhead.
  pose proof (pi_item _ _ _ _ _ I) as Hisz. pose proof (pi_count _ _ _ _ _ I) as Hcnt.
  pose proof (pi_size _ _ _ _ _ I) as Hsz. pose proof (pi_counts _ _ _ _ _ I) as [Hn Hle].
  pose proof (slab_size_pos p m slabs [] held I) as Hspos.
  pose proof (pool_blocks_pos p m slabs [] held I) as Hlpos.
  unfold sizeof_ptr in Hisz, Hspos.
  unfold _zpool_grow, Z_MALLOC.
  assert (Esz : wrap (item_size p * count_per_block p) = slab_size p).
  { apply wrap_small. unfold slab_size in *. lia. }
  rewrite Esz.
  set (block := bk_malloc (injected P) (zcalls (hp m)) (slab_size p)) in *.
  destruct (Z.eqb_spec block 0) as [Hb0|Hbn].
  { (* the slab is refused *)
    eexists _, _. split; [reflexivity|]. split; [reflexivity|]. left.
    split; [reflexivity|]. split; [reflexivity|]. split.
    - destruct I. constructor; cbn [hp words zcalls live]; rewrite ?Hb0; cbn [Z.eqb];
        assumption.
    - exists [Malloc (slab_size p) block]. split; [reflexivity|].
      intros F. apply Forall_cons in F as [F _]. cbn in F. contradiction. }
  destruct (malloc_grant _ backend_contract (zcalls (hp m)) (slab_size p) Hbn)
    as (Hmax & Hfresh).
  fold block in Hfresh. pose proof Hfresh as (Hbpos & Hbend & Hbdis).
  pose proof (fresh_address _ _ _ Hfresh ltac:(lia) Hlpos) as Hbaddr.
  apply Z.eqb_neq in Hbn as Eb.
  set (h1 := Heap (Malloc (slab_size p) block :: zcalls (hp m)) (ccalls (hp m))) in *.
  assert (El1 : live (zcalls h1) = (block, slab_size p) :: live (zcalls (hp m))).
  { cbn. rewrite Eb. reflexivity. }
  match goal with
  | |- exists _ _, match ?g with _ => _ end = _ /\ _ => set (grown := g)
  end.
  assert (Hg : (exists h3, grown = inl h3 /\
                  live (zcalls h3) = live (zcalls (hp m)) /\
                  ccalls h3 = ccalls (hp m) /\
                  exists l, zcalls h3 = l ++ zcalls (hp m) /\ ~ Forall granted l) \/
               (exists p2 m2, grown = inr (p2, m2) /\
                  array_ready p m slabs block p2 m2)).
  { unfold grown. destruct (Z.eqb_spec (block_count p) (block_cap p)) as [Hfull|Hroom].
    - (* the array is full *)
      set (new_cap := if block_cap p =? 0 then 8 else wrap (block_cap p * 2)).
      assert (Hnc : block_cap p + 1 <= new_cap /\ wrap (new_cap * sizeof_ptr)
                    = sizeof_ptr * new_cap /\ 0 < new_cap).
      { unfold new_cap, sizeof_ptr. destruct (Z.eqb_spec (block_cap p) 0) as [Hc0|Hc0].
        - rewrite Hc0. split; [lia|]. split; [reflexivity | lia].
        - pose proof (pi_array_live _ _ _ _ _ I Hc0) as Ha.
          pose proof (pi_blocks _ _ _ _ _ I) as HB. rewrite Forall_forall in HB.
          destruct (HB _ ltac:(apply list_elem_of_In; exact Ha)) as (_ & _ & _ & Hmx).
          cbn in Hmx. unfold sizeof_ptr, max_object in Hmx.
          rewrite (wrap_small (block_cap p * 2)) by (rewrite modulus_eq; lia).
          split; [lia|]. split; [|lia].
          rewrite wrap_small by (rewrite modulus_eq; lia). lia. }
      destruct Hnc as (Hnc1 & Hnc2 & Hnc3).
      unfold Z_REALLOC. rewrite Hnc2.
      set (asz := sizeof_ptr * new_cap).
      set (new_list := bk_realloc (injected P) (zcalls h1) (blocks p) asz).
      assert (Hbarr : block <> blocks p).
      { destruct (Z.eq_dec (block_cap p) 0) as [Hc0|Hc0].
        - rewrite (pi_null _ _ _ _ _ I Hc0). exact Hbn.
        - pose proof (pi_array_live _ _ _ _ _ I Hc0) as Ha.
          rewrite Forall_forall in Hbaddr.
          specialize (Hbaddr _ ltac:(apply list_elem_of_In; exact Ha)). cbn in Hbaddr.
          congruence. }
      destruct (Z.eqb_spec new_list 0) as [Hr0|Hrn].
      + (* the array cannot grow: the slab is released *)
        left. eexists. split; [reflexivity|].
        cbn [Z_FREE zcalls ccalls live h1]. rewrite Hr0. cbn [Z.eqb].
        assert (Ez : (asz =? 0) = false)
          by (apply Z.eqb_neq; unfold asz, sizeof_ptr; lia).
        rewrite Ez, Eb.
        split.
        { rewrite filter_cons. rewrite decide_False by (cbn; tauto).
          apply filter_all. exact Hbaddr. }
        split; [reflexivity|].
        exists [Free block; Realloc (blocks p) asz 0; Malloc (slab_size p) block].
        split; [reflexivity|]. intros F.
        apply Forall_cons in F as [_ F]. apply Forall_cons in F as [F _].
        cbn in F. contradiction.
      + right. eexists _, _. split; [reflexivity|].
        destruct (realloc_grant _ backend_contract (zcalls h1) (blocks p) asz Hrn)
          as (Hamax & Hafresh).
        fold new_list in Hafresh. rewrite El1 in Hafresh.
        rewrite filter_cons in Hafresh.
        rewrite decide_True in Hafresh by (cbn; exact Hbarr).
        set (F := filter (fun b : Z * Z => b.1 <> blocks p) (live (zcalls (hp m)))) in *.
        apply Z.eqb_neq in Hrn as Er.
        assert (El2 : live (Realloc (blocks p) asz new_list
                              :: Malloc (slab_size p) block :: zcalls (hp m))
                      = (new_list, asz) :: (block, slab_size p) :: F).
        { cbn [live]. rewrite Er, Eb.
          rewrite filter_cons. rewrite decide_True by (cbn; exact Hbarr). reflexivity. }
        assert (HFsub : forall b, In b F -> In b (live (zcalls (hp m)))).
        { intros b Hb. apply list_elem_of_In in Hb. apply list_elem_of_filter in Hb as [_ Hb].
          apply list_elem_of_In. exact Hb. }
        assert (HFslab : forall s, In s slabs -> In (s, slab_size p) F).
        { intros s Hs. apply list_elem_of_In. apply list_elem_of_filter. split.
          - cbn. intros E. apply (pi_array_slab _ _ _ _ _ I). rewrite <- E. exact Hs.
          - apply list_elem_of_In. apply (pi_slabs _ _ _ _ _ I s Hs). }
        pose proof Hafresh as (Hapos & Haend & Hadis).
        unfold array_ready.
        cbn [item_size count_per_block head blocks block_count block_cap words hp
             zcalls ccalls h1].
        fold new_cap. rewrite El2.
        split; [reflexivity|]. split; [reflexivity|]. split; [reflexivity|].
        split; [reflexivity|]. split; [lia|]. split; [reflexivity|].
        split.
        { exists [Realloc (blocks p) asz new_list; Malloc (slab_size p) block].
          split; [reflexivity|]. split; [|discriminate].
          repeat constructor; cbn; assumption. }
        split.
        { constructor; [cbn; unfold asz, sizeof_ptr in *; lia|].
          constructor; [cbn; lia|].
          pose proof (pi_blocks _ _ _ _ _ I) as HB.
          rewrite Forall_forall in HB |- *. intros b Hb. apply HB.
          apply list_elem_of_In. apply HFsub. apply list_elem_of_In. exact Hb. }
        split.
        { cbn. split; [exact Hadis|]. split.
          - apply Forall_filter_keep. exact Hbdis.
          - apply disjoint_blocks_filter. apply (pi_disjoint _ _ _ _ _ I). }
        split; [right; left; reflexivity|].
        split; [intros s Hs; right; right; apply HFslab; exact Hs|].
        split; [left; reflexivity|].
        split.
        { constructor; [right; right; reflexivity|].
          constructor; [right; left; reflexivity|].
          pose proof (pi_only _ _ _ _ _ I) as Ho.
          rewrite Forall_forall in Ho |- *. intros b Hb.
          apply list_elem_of_filter in Hb as [Hne Hb].
          destruct (Ho b Hb) as [Hs|[_ Hc]]; [left; exact Hs | contradiction]. }
        assert (Hanew : forall s, In (s, slab_size p) ((block, slab_size p) :: F) ->
                          new_list <> s).
        { intros s Hs E. rewrite Forall_forall in Hadis.
          specialize (Hadis _ ltac:(apply list_elem_of_In; exact Hs)).
          unfold disjoint in Hadis. cbn in Hadis. unfold asz, sizeof_ptr in *. lia. }
        split.
        { intros Hin. apply (Hanew new_list); [|reflexivity].
          right. apply HFslab. exact Hin. }
        split; [apply Hanew; left; reflexivity|].
        intros i s Hs.
        destruct (Z.eqb_spec new_list (blocks p)) as [Esame|Hmoved].
        * rewrite Esame. apply (pi_array _ _ _ _ _ I). exact Hs.
        * assert (Hc0 : block_cap p <> 0).
          { apply lookup_lt_Some in Hs. lia. }
          pose proof (pi_array_live _ _ _ _ _ I Hc0) as Ha.
          pose proof (pi_blocks _ _ _ _ _ I) as HB. rewrite Forall_forall in HB.
          destruct (HB _ ltac:(apply list_elem_of_In; exact Ha)) as (Hop & _ & Hoe & _).
          cbn in Hop, Hoe.
          rewrite move_words_lookup.
          -- apply (pi_array _ _ _ _ _ I). exact Hs.
          -- apply lookup_lt_Some in Hs. lia.
          -- lia.
          -- unfold asz, sizeof_ptr in *. rewrite Z2Nat.id by lia. lia.
          -- lia.
          -- unfold sizeof_ptr in *. rewrite Z2Nat.id by lia. lia.
    - (* the array has room *)
      right. exists p, (Memory (words m) h1). split; [reflexivity|].
      assert (Hc0 : block_cap p <> 0) by lia.
      pose proof (pi_array_live _ _ _ _ _ I Hc0) as Ha.
      unfold array_ready. cbn [words hp zcalls ccalls h1]. fold (live (zcalls h1)).
      change (live (Malloc (slab_size p) block :: zcalls (hp m))) with (live (zcalls h1)).
      rewrite El1.
      split; [reflexivity|]. split; [reflexivity|]. split; [reflexivity|].
      split; [reflexivity|]. split; [lia|]. split; [reflexivity|].
      split.
      { exists [Malloc (slab_size p) block]. split; [reflexivity|].
        split; [|discriminate]. repeat constructor. cbn. exact Hbn. }
      split.
      { constructor; [cbn; lia | apply (pi_blocks _ _ _ _ _ I)]. }
      split; [cbn; split; [exact Hbdis | apply (pi_disjoint _ _ _ _ _ I)]|].
      split; [left; reflexivity|].
      split; [intros s Hs; right; apply (pi_slabs _ _ _ _ _ I s Hs)|].
      split; [right; exact Ha|].
      split.
      { constructor; [right; left; reflexivity|].
        eapply Forall_impl; [apply (pi_only _ _ _ _ _ I)|].
        intros b [Hb|[_ Hb]]; [left; exact Hb | right; right; exact Hb]. }
      split; [apply (pi_array_slab _ _ _ _ _ I)|].
      split.
      { rewrite Forall_forall in Hbaddr.
        apply (Hbaddr _ ltac:(apply list_elem_of_In; exact Ha)). }
      apply (pi_array _ _ _ _ _ I). }
  assert (Hbnin : ~ In block slabs).
  { intros Hin. rewrite Forall_forall in Hbaddr.
    apply (Hbaddr _ ltac:(apply list_elem_of_In; apply (pi_slabs _ _ _ _ _ I _ Hin))).
    reflexivity. }
  destruct Hg as [(h3 & Eg & Elive & Ecc & Hcalls) | (p2 & m2 & Eg & Hready)];
    rewrite Eg; clear Eg grown.
  - eexists _, _. split; [reflexivity|]. split; [exact Ecc|]. left.
    split; [reflexivity|]. split; [reflexivity|]. split; [|exact Hcalls].
    destruct I. constructor; cbn [hp words]; rewrite ?Elive; assumption.
  - pose proof Hready as
      (Ei & Ec & Eh & Ebc & Hroom & Hcc & Hcalls & Hbounds & Hdis & Hblk & Hslabs & Harr &
       _).
    rewrite Forall_forall in Hbounds.
    destruct (Hbounds (blocks p2, sizeof_ptr * block_cap p2)) as (Hapos & _ & Haend & Hamax);
      [apply list_elem_of_In; exact Harr|]. cbn [fst snd] in Hapos, Haend, Hamax.
    rewrite (wrap_small (block_cap p2 * sizeof_ptr))
      by (unfold sizeof_ptr, max_object in *; rewrite modulus_eq; lia).
    destruct (Z.ltb_spec (block_cap p2 * sizeof_ptr)
                (sizeof_ptr * block_count p2 + sizeof_ptr)) as [Hc|_];
      [unfold sizeof_ptr in *; lia|].
    assert (Echeck : (1 <=? count_per_block p2) && (sizeof_ptr <=? item_size p2) &&
                     (item_size p2 * count_per_block p2 =? slab_size p) = true).
    { rewrite Ei, Ec. unfold slab_size, sizeof_ptr.
      rewrite Z.eqb_refl, andb_true_r. apply andb_true_intro.
      split; apply Z.leb_le; lia. }
    rewrite Echeck.
    eexists _, _. split; [reflexivity|]. cbn [hp]. split; [exact Hcc|].
    right. exists block.
    cbn [head item_size count_per_block hp].
    split; [reflexivity|]. split; [exact Ei|]. split; [exact Ec|]. split; [|exact Hcalls].
    pose proof (grow_finish p m slabs held block p2 m2 I Hhead Hbpos Hbnin Hready) as Hfin.
    cbn zeta in Hfin.
    rewrite (wrap_small (blocks p2 + sizeof_ptr * block_count p2))
      by (unfold sizeof_ptr in *; lia).
    rewrite (wrap_small (block_count p2 + 1))
      by (unfold sizeof_ptr, max_object in *; rewrite modulus_eq; lia).
    rewrite (wrap_small (count_per_block p2 - 1))
      by (rewrite Ec; unfold slab_size in *; rewrite modulus_eq in *; nia).
    rewrite (wrap_small ((count_per_block p2 - 1) * item_size p2))
      by (rewrite Ec, Ei; unfold slab_size in *; nia).
    rewrite (wrap_small (block + (count_per_block p2 - 1) * item_size p2))
      by (rewrite Ec, Ei; unfold slab_size in *; nia).
    exact Hfin.
Qed.


End PoolSteps.

Section PoolOperations.
  Import Pool.
  Variable P : platform.
  Hypothesis backend_contract : backend_ok (injected P).

(** The pool struct with another free-list head. *)
Definition with_head (p : zpool) (h : Z) : zpool :=
  Pool (item_size p) (count_per_block p) h (blocks p) (block_count p) (block_cap p).

Lemma held_NoDup p m slabs fl held :
  pool_inv p m slabs fl held -> NoDup held.
Proof.
  intros I. pose proof (pool_items_NoDup p m slabs fl held I) as H.
  apply NoDup_app in H as (_ & _ & H). exact H.
Qed.

(** The first item of the free list is handed out. *)
Lemma pool_inv_pop p m slabs x fl held n :
  pool_inv p m slabs (x :: fl) held -> words m !! x = Some n ->
  pool_inv (with_head p n) m slabs fl (x :: held) /\ ~ In x held.
Proof.
  intros I Hn. split.
  - destruct I as [I1 I2 I3 I4 I5 I6 I7 I8 I9 I10 I11 I12 I13 I14 I15].
    constructor; try assumption.
    + destruct I14 as (_ & _ & n' & Hn' & Ht). rewrite Hn in Hn'. injection Hn' as <-.
      exact Ht.
    + rewrite <- I15. cbn. symmetry. apply Permutation_middle.
  - pose proof (pool_items_NoDup p m slabs _ held I) as Hnd.
    cbn in Hnd. apply NoDup_cons in Hnd as [Hx _].
    intros Hin. apply Hx. apply elem_of_app. right. apply list_elem_of_In. exact Hin.
Qed.

(** What [zpool_alloc] does: it returns, with the first item of the free
    list, or with the first item of a new slab when the list was empty, or
    with the null pointer when the backend refused a block. *)
Lemma zpool_alloc_spec p m slabs fl held :
  pool_inv p m slabs fl held ->
  exists x p' m',
    zpool_alloc P p m = Done (x, p', m') /\
    ccalls (hp m') = ccalls (hp m) /\
    ((x = 0 /\ fl = [] /\ p' = p /\ words m' = words m /\
      pool_inv p' m' slabs [] held /\
      exists l, zcalls (hp m') = l ++ zcalls (hp m) /\ ~ Forall granted l) \/
     (x <> 0 /\ ~ In x held /\
      exists slabs' fl',
        pool_inv p' m' slabs' fl' (x :: held) /\
        ((fl = x :: fl' /\ slabs' = slabs /\ m' = m) \/
         (fl = [] /\ slabs' = slabs ++ [x] /\ x :: fl' = items_of p x /\
          exists l, zcalls (hp m') = l ++ zcalls (hp m) /\ Forall granted l /\
                    l <> [])))).
Proof.
  intros I. unfold zpool_alloc.
  destruct (Z.eqb_spec (head p) 0) as [Hz|Hnz].
  - (* an empty free list *)
    assert (Hfl : fl = []).
    { pose proof (pi_free _ _ _ _ _ I) as Hf. rewrite Hz in Hf.
      apply (free_list_null _ _ Hf). }
    subst fl.
    destruct (_zpool_grow_spec P backend_contract p m slabs held I Hz)
      as (p1 & m1 & -> & Hcc & [(-> & Ew & I1 & Hcalls) | (b & Hb & Ei & Ec & I1 & Hcalls)]);
      cbn [mbind outcome_bind].
    + rewrite Hz. cbn [Z.eqb]. exists 0, p, m1.
      split; [reflexivity|]. split; [exact Hcc|]. left.
      split; [reflexivity|]. split; [reflexivity|]. split; [reflexivity|].
      split; [exact Ew|]. split; [exact I1 | exact Hcalls].
    + pose proof (pi_free _ _ _ _ _ I1) as Hf.
      assert (Hitems : exists fl', items_of p b = b :: fl').
      { unfold items_of. pose proof (pi_count _ _ _ _ _ I).
        assert (Hk : Z.to_nat (count_per_block p) = S (Z.to_nat (count_per_block p - 1)))
          by lia.
        rewrite Hk. cbn [seq map]. eexists. f_equal. unfold item. lia. }
      destruct Hitems as (fl' & Efl). rewrite Efl in Hf, I1.
      destruct Hf as (Hhd & Hbn & n & Hn & _).
      rewrite Hhd. apply Z.eqb_neq in Hbn as Eb. rewrite Eb. rewrite Hn.
      destruct (pool_inv_pop p1 m1 _ b fl' held n I1 Hn) as (I2 & Hnin).
      exists b, (with_head p1 n), m1. split; [reflexivity|]. split; [exact Hcc|].
      right. split; [exact Hbn|]. split; [exact Hnin|].
      exists (slabs ++ [b]), fl'. split; [exact I2|]. right.
      split; [reflexivity|]. split; [reflexivity|]. split; [symmetry; exact Efl|].
      exact Hcalls.
  - (* the first item of the list *)
    cbn [mbind outcome_bind]. apply Z.eqb_neq in Hnz as E. rewrite E.
    pose proof (pi_free _ _ _ _ _ I) as Hf.
    destruct fl as [|x fl']; [cbn in Hf; contradiction|].
    destruct Hf as (Hhd & Hxn & n & Hn & _). rewrite Hhd, Hn.
    destruct (pool_inv_pop p m slabs x fl' held n I Hn) as (I2 & Hnin).
    exists x, (with_head p n), m. split; [reflexivity|]. split; [reflexivity|].
    right. split; [exact Hxn|]. split; [exact Hnin|].
    exists slabs, fl'. split; [exact I2|]. left.
    split; [reflexivity|]. split; reflexivity.
Qed.

End PoolOperations.

Section PoolClients.
  Import Pool.

(** The items a client holds once it has given [x] back. *)
Definition given_back (held : list Z) (x : Z) : list Z :=
  filter (fun y => y <> x) held.

Lemma given_back_perm held x :
  NoDup held -> In x held -> held ≡ₚ x :: given_back held x.
Proof.
  intros Hnd Hx. apply NoDup_Permutation.
  - exact Hnd.
  - apply NoDup_cons. split.
    + unfold given_back. rewrite list_elem_of_filter. tauto.
    + apply NoDup_filter. exact Hnd.
  - intros y. rewrite elem_of_cons. unfold given_back. rewrite list_elem_of_filter.
    split.
    + intros Hy. destruct (decide (y = x)); [left; assumption | right; tauto].
    + intros [->|[_ Hy]]; [apply list_elem_of_In; exact Hx | exact Hy].
Qed.

(** A held item and the array of slab pointers do not overlap. *)
Lemma item_not_array p m slabs fl held x (i : nat) s :
  pool_inv p m slabs fl held -> In x (all_items p slabs) ->
  slabs !! i = Some s ->
  blocks p + sizeof_ptr * Z.of_nat i < x \/
  x + item_size p <= blocks p + sizeof_ptr * Z.of_nat i.
Proof.
  intros I Hx Hs.
  destruct (item_in_slab p m slabs fl held x I Hx) as (b & Hb & Hlo & Hhi & _).
  pose proof (pi_counts _ _ _ _ _ I) as [Hn Hle].
  apply lookup_lt_Some in Hs.
  destruct (array_apart p m slabs fl held b I Hb ltac:(lia)) as [Ha|Ha];
    pose proof (pi_item _ _ _ _ _ I); unfold sizeof_ptr in *; lia.
Qed.

(** [zpool_recycle] of an item the client holds. *)
Lemma zpool_recycle_step p m slabs fl held x :
  pool_inv p m slabs fl held -> In x held ->
  pool_inv (zpool_recycle p m x).1 (zpool_recycle p m x).2 slabs (x :: fl)
           (given_back held x).
Proof.
  intros I Hx.
  assert (Hitem : In x (all_items p slabs)).
  { apply list_elem_of_In. rewrite <- (pi_items _ _ _ _ _ I).
    apply elem_of_app. right. apply list_elem_of_In. exact Hx. }
  destruct (item_in_slab p m slabs fl held x I Hitem) as (b & Hb & Hlo & Hhi & Hpos & _).
  pose proof (pool_items_NoDup p m slabs fl held I) as Hnd.
  assert (Hxfl : ~ In x fl).
  { apply NoDup_app in Hnd as (_ & Hd & _). intros Hin.
    apply (Hd x); apply list_elem_of_In; assumption. }
  unfold zpool_recycle. assert (E : (x =? 0) = false) by (apply Z.eqb_neq; lia).
  rewrite E. cbn [fst snd].
  pose proof I as [I1 I2 I3 I4 I5 I6 I7 I8 I9 I10 I11 I12 I13 I14 I15].
  constructor; cbn [item_size count_per_block head blocks block_count block_cap words hp];
    try assumption.
  - intros i s Hs. rewrite lookup_insert_ne; [apply I13; exact Hs|].
    destruct (item_not_array p m slabs fl held x i s I Hitem Hs);
      pose proof (pi_item _ _ _ _ _ I); unfold sizeof_ptr in *; lia.
  - split; [reflexivity|]. split; [lia|]. exists (head p). split; [apply lookup_insert_eq|].
    apply (free_list_ext (words m)); [|exact I14].
    intros y Hy. apply lookup_insert_ne. intros ->. contradiction.
  - change (all_items (Pool (item_size p) (count_per_block p) x (blocks p)
                             (block_count p) (block_cap p)) slabs)
      with (all_items p slabs).
    rewrite <- I15. cbn [app].
    rewrite (given_back_perm held x (held_NoDup p m slabs fl held I) Hx) at 2.
    apply Permutation_middle.
Qed.

(** A write of the client to an item it holds. *)
Lemma pool_inv_write p m slabs fl held x i v :
  pool_inv p m slabs fl held -> In x held -> 0 <= i < item_size p ->
  pool_inv p (Memory (<[x + i := v]> (words m)) (hp m)) slabs fl held.
Proof.
  intros I Hx Hi.
  assert (Hitem : In x (all_items p slabs)).
  { apply list_elem_of_In. rewrite <- (pi_items _ _ _ _ _ I).
    apply elem_of_app. right. apply list_elem_of_In. exact Hx. }
  pose proof (pool_items_NoDup p m slabs fl held I) as Hnd.
  pose proof I as [I1 I2 I3 I4 I5 I6 I7 I8 I9 I10 I11 I12 I13 I14 I15].
  constructor; cbn [words hp]; try assumption.
  - intros j s Hs. rewrite lookup_insert_ne; [apply I13; exact Hs|].
    destruct (item_not_array p m slabs fl held x j s I Hitem Hs); lia.
  - apply (free_list_ext (words m)); [|exact I14].
    intros y Hy. apply lookup_insert_ne.
    assert (Hy' : In y (all_items p slabs)).
    { apply list_elem_of_In. rewrite <- I15. apply elem_of_app. left.
      apply list_elem_of_In. exact Hy. }
    assert (Hne : x <> y).
    { intros ->. apply NoDup_app in Hnd as (_ & Hd & _).
      apply (Hd y); apply list_elem_of_In; assumption. }
    destruct (items_apart p m slabs fl held x y I Hitem Hy' Hne); unfold sizeof_ptr in *; lia.
Qed.

(** *** The loop of [zpool_free] *)

Lemma free_slabs_spec p w : forall (l : list Z) h (i : nat),
  (forall (j : nat) s, l !! j = Some s ->
     w !! (blocks p + sizeof_ptr * Z.of_nat (i + j)) = Some s) ->
  0 <= blocks p -> blocks p + sizeof_ptr * Z.of_nat (i + length l) <= modulus ->
  free_slabs p w h (Z.of_nat i) (length l)
  = Done (Heap (rev (map Free l) ++ zcalls h) (ccalls h)).
Proof.
  induction l as [|s l IH]; intros h i Harr Hb Hend.
  - destruct h. reflexivity.
  - cbn [length free_slabs].
    pose proof (Harr 0%nat s eq_refl) as H0. replace (i + 0)%nat with i in H0 by lia.
    cbn [length] in Hend.
    rewrite wrap_small by (unfold sizeof_ptr in *; lia). rewrite H0.
    replace (Z.of_nat i + 1) with (Z.of_nat (S i)) by lia.
    rewrite IH.
    + cbn [Z_FREE zcalls ccalls map rev]. rewrite <- app_assoc. reflexivity.
    + intros j s' Hs'. replace (S i + j)%nat with (i + S j)%nat by lia.
      apply Harr. exact Hs'.
    + exact Hb.
    + replace (S i + length l)%nat with (i + S (length l))%nat by lia. exact Hend.
Qed.

Lemma zpool_free_spec p m slabs fl held :
  pool_inv p m slabs fl held ->
  let released := (if block_cap p =? 0 then [] else [Free (blocks p)])
                  ++ rev (map Free slabs) in
  zpool_free p m =
    Done (Pool 0 0 0 0 0 0,
          Memory (words m) (Heap (released ++ zcalls (hp m)) (ccalls (hp m)))) /\
  live (released ++ zcalls (hp m)) = [].
Proof.
  intros I released.
  pose proof (pi_counts _ _ _ _ _ I) as [Hn Hle].
  assert (Harr : 0 <= blocks p /\ blocks p + sizeof_ptr * block_cap p <= modulus).
  { destruct (Z.eq_dec (block_cap p) 0) as [Hc|Hc].
    - rewrite (pi_null _ _ _ _ _ I Hc), Hc. rewrite modulus_eq. unfold sizeof_ptr. lia.
    - pose proof (pi_array_live _ _ _ _ _ I Hc) as Ha.
      pose proof (pi_blocks _ _ _ _ _ I) as HB. rewrite Forall_forall in HB.
      destruct (HB _ ltac:(apply list_elem_of_In; exact Ha)) as (H1 & _ & H2 & _).
      cbn in H1, H2. lia. }
  assert (Eb : (blocks p =? 0) = (block_cap p =? 0)).
  { destruct (Z.eqb_spec (block_cap p) 0) as [Hc|Hc].
    - rewrite (pi_null _ _ _ _ _ I Hc). reflexivity.
    - pose proof (pi_array_live _ _ _ _ _ I Hc) as Ha.
      pose proof (pi_blocks _ _ _ _ _ I) as HB. rewrite Forall_forall in HB.
      destruct (HB _ ltac:(apply list_elem_of_In; exact Ha)) as (H1 & _).
      cbn in H1. apply Z.eqb_neq. lia. }
  split.
  - unfold zpool_free. rewrite Hn, Nat2Z.id.
    pose proof (free_slabs_spec p (words m) slabs (hp m) 0) as Hloop.
    change (Z.of_nat 0) with 0 in Hloop. rewrite Hloop.
    + cbn [mbind outcome_bind]. rewrite Eb. unfold released.
      destruct (block_cap p =? 0); cbn [Z_FREE zcalls ccalls app]; reflexivity.
    + intros j s Hs. apply (pi_array _ _ _ _ _ I). exact Hs.
    + lia.
    + unfold sizeof_ptr in *. cbn [Nat.add]. lia.
  - unfold released. destruct (Z.eqb_spec (block_cap p) 0) as [Hc|Hc].
    + cbn [app]. apply live_released. 
      eapply Forall_impl; [apply (pi_only _ _ _ _ _ I)|].
      intros b [Hb|[Hcc _]]; [exact Hb | contradiction].
    + change ([Free (blocks p)] ++ rev (map Free slabs))
        with (rev (map Free [blocks p]) ++ rev (map Free slabs)).
      rewrite <- rev_app_distr, <- map_app.
      apply live_released.
      eapply Forall_impl; [apply (pi_only _ _ _ _ _ I)|].
      intros b [Hb|[_ Hb]]; apply in_or_app; [left; exact Hb | right; left; congruence].
Qed.

(** *** Every state a pool reaches *)

(** The states a pool reaches from [zpool_init] through calls that return,
    with the items its client holds: the client gives back only items it
    holds (or the null pointer) and writes only to items it holds. *)
Inductive pool_reach (P : platform) : zpool -> memory -> list Z -> Prop :=
  | preach_init m0 isz n :
      zcalls (hp m0) = [] -> 0 <= isz <= modulus - 8 ->
      item_size (zpool_init isz n) * count_per_block (zpool_init isz n) < modulus ->
      pool_reach P (zpool_init isz n) m0 []
  | preach_alloc p m held x p' m' :
      pool_reach P p m held ->
      zpool_alloc P p m = Done (x, p', m') ->
      pool_reach P p' m' (if x =? 0 then held else x :: held)
  | preach_recycle p m held x :
      pool_reach P p m held -> x = 0 \/ In x held ->
      pool_reach P (zpool_recycle p m x).1 (zpool_recycle p m x).2 (given_back held x)
  | preach_write p m held x i v :
      pool_reach P p m held -> In x held -> 0 <= i < item_size p ->
      pool_reach P p (Memory (<[x + i := v]> (words m)) (hp m)) held.

Lemma zpool_init_sizes isz n :
  0 <= isz <= modulus - 8 ->
  sizeof_ptr <= item_size (zpool_init isz n) /\ 1 <= count_per_block (zpool_init isz n).
Proof.
  intros Hi. unfold zpool_init. cbn [item_size count_per_block].
  set (s := if isz <? sizeof_ptr then sizeof_ptr else isz).
  assert (Hr : 8 <= s <= modulus - 8).
  { unfold s, sizeof_ptr. rewrite modulus_eq in *. destruct (Z.ltb_spec isz 8); lia. }
  rewrite (wrap_small (s + (sizeof_ptr - 1))) by (unfold sizeof_ptr; lia).
  rewrite land_clear_low_3 by (unfold sizeof_ptr; lia).
  pose proof (Z.mod_pos_bound (s + (sizeof_ptr - 1)) 8 ltac:(lia)) as Hm.
  pose proof (Z.div_mod (s + (sizeof_ptr - 1)) 8 ltac:(lia)) as Hd.
  unfold sizeof_ptr in *. split; [|destruct (Z.ltb_spec n 1); lia].
  assert (Hq : 1 <= (s + (8 - 1)) / 8) by (apply Z.div_le_lower_bound; lia).
  lia.
Qed.

Lemma pool_inv_init m0 isz n :
  zcalls (hp m0) = [] -> 0 <= isz <= modulus - 8 ->
  item_size (zpool_init isz n) * count_per_block (zpool_init isz n) < modulus ->
  pool_inv (zpool_init isz n) m0 [] [] [].
Proof.
  intros H0 Hi Hs. destruct (zpool_init_sizes isz n Hi) as [H1 H2].
  constructor; rewrite ?H0; cbn [live].
  - exact H1.
  - exact H2.
  - exact Hs.
  - constructor.
  - constructor.
  - intros s [].
  - intros Hc. exfalso. apply Hc. reflexivity.
  - constructor.
  - constructor.
  - intros [].
  - reflexivity.
  - split; [reflexivity|]. cbn. lia.
  - intros i s Hs'. discriminate.
  - reflexivity.
  - reflexivity.
Qed.

Section PoolWithBackend.
  Variable P : platform.
  Hypothesis backend_contract : backend_ok (injected P).

Lemma pool_reach_inv p m held :
  pool_reach P p m held -> exists slabs fl, pool_inv p m slabs fl held.
Proof.
  induction 1 as [m0 isz n H0 Hi Hs | p m held x p' m' _ IH H
                  | p m held x _ IH Hx | p m held x i v _ IH Hx Hi].
  - exists [], []. apply pool_inv_init; assumption.
  - destruct IH as (slabs & fl & I).
    destruct (zpool_alloc_spec P backend_contract p m slabs fl held I)
      as (x1 & p1 & m1 & H1 & _ & Hcase).
    rewrite H in H1. apply Done_inj in H1. injection H1 as <- <- <-.
    destruct Hcase as [(-> & -> & _ & _ & I' & _) | (Hx & _ & slabs' & fl' & I' & _)].
    + exists slabs, []. exact I'.
    + apply Z.eqb_neq in Hx. rewrite Hx. exists slabs', fl'. exact I'.
  - destruct IH as (slabs & fl & I). destruct Hx as [->|Hx].
    + exists slabs, fl. cbn.
      assert (E : given_back held 0 = held).
      { apply filter_all. rewrite Forall_forall. intros y Hy ->.
        assert (Hitem : In 0 (all_items p slabs)).
        { apply list_elem_of_In. rewrite <- (pi_items _ _ _ _ _ I).
          apply elem_of_app. right. exact Hy. }
        destruct (item_in_slab p m slabs fl held 0 I Hitem) as (_ & _ & _ & _ & H0 & _).
        lia. }
      rewrite E. exact I.
    + exists slabs, (x :: fl). apply zpool_recycle_step; assumption.
  - destruct IH as (slabs & fl & I). exists slabs, fl.
    apply pool_inv_write; assumption.
Qed.

End PoolWithBackend.

End PoolClients.

Section PoolGuarantees.
  Import Pool.

(** [n] calls of [zpool_alloc] in a row, with the pointers they return in
    the order of the calls. *)
Fixpoint zpool_alloc_n (P : platform) (p : zpool) (m : memory) (n : nat)
  : outcome (list Z * zpool * memory) :=
  match n with
  | O => Done ([], p, m)
  | S k =>
      '(x, p1, m1) ← zpool_alloc P p m;
      '(xs, p2, m2) ← zpool_alloc_n P p1 m1 k;
      Done (x :: xs, p2, m2)
  end.

Lemma zpool_alloc_n_free_list P m : forall fl p,
  free_list (words m) (head p) fl ->
  zpool_alloc_n P p m (length fl) = Done (fl, with_head p 0, m).
Proof.
  induction fl as [|x t IH]; intros p Hf.
  - cbn in Hf. cbn. unfold with_head. rewrite <- Hf. destruct p. reflexivity.
  - cbn [free_list] in Hf. destruct Hf as (Hh & Hx & n & Hn & Ht).
    cbn [length zpool_alloc_n]. unfold zpool_alloc.
    assert (E : (head p =? 0) = false) by (apply Z.eqb_neq; lia).
    rewrite E. cbn [mbind outcome_bind]. rewrite E, Hh, Hn. cbn [mbind outcome_bind].
    rewrite (IH (Pool (item_size p) (count_per_block p) n (blocks p)
                      (block_count p) (block_cap p))) by exact Ht.
    reflexivity.
Qed.

(** The pool of the examples: items of 16 bytes, slabs of 3 items, on the
    bump backend, after two allocations. *)
Definition example_pool : zpool := Pool 16 3 4128 4144 1 8.
Definition example_pool_words : gmap Z Z :=
  {[ 4096 := 4112; 4112 := 4128; 4128 := 0; 4144 := 4096 ]}.
Definition example_pool_memory : memory :=
  Memory example_pool_words (Heap [Realloc 0 64 4144; Malloc 48 4096] []).

Lemma pool_reach_example :
  pool_reach default_platform example_pool example_pool_memory [4112; 4096].
Proof.
  assert (Hi : 0 <= 12 <= modulus - 8) by (rewrite modulus_eq; lia).
  assert (R0 : pool_reach default_platform (zpool_init 12 3) empty_memory []).
  { apply preach_init; [reflexivity | exact Hi | vm_compute; reflexivity]. }
  assert (R1 : pool_reach default_platform (Pool 16 3 4112 4144 1 8) example_pool_memory [4096]).
  { apply (preach_alloc default_platform _ _ _ 4096 _ _ R0). vm_compute. reflexivity. }
  apply (preach_alloc default_platform _ _ _ 4112 _ _ R1). vm_compute. reflexivity.
Qed.

Section PoolWithContract.
  Variable P : platform.
  Hypothesis backend_contract : backend_ok (injected P).

(** X14. In every state a pool reaches (allocations, items given back,
    writes of the client to items it holds), the items the client holds are
    distinct and non-null, no two of them overlap, and each lies within a
    slab that the backend has granted and not got back. *)
Theorem pool_items_stay_disjoint (p : zpool) (m : memory) (held : list Z) :
  pool_reach P p m held ->
  NoDup held /\
  (forall x y, In x held -> In y held -> x <> y ->
     x + item_size p <= y \/ y + item_size p <= x) /\
  (forall x, In x held ->
     0 < x /\
     exists b, In (b, item_size p * count_per_block p) (live (zcalls (hp m))) /\
               b <= x /\ x + item_size p <= b + item_size p * count_per_block p).
Proof.
  intros R. destruct (pool_reach_inv P backend_contract p m held R) as (slabs & fl & I).
  assert (Hitem : forall x, In x held -> In x (all_items p slabs)).
  { intros x Hx. apply list_elem_of_In. rewrite <- (pi_items _ _ _ _ _ I).
    apply elem_of_app. right. apply list_elem_of_In. exact Hx. }
  split; [apply (held_NoDup p m slabs fl held I)|]. split.
  - intros x y Hx Hy Hne.
    apply (items_apart p m slabs fl held x y I (Hitem x Hx) (Hitem y Hy) Hne).
  - intros x Hx.
    destruct (item_in_slab p m slabs fl held x I (Hitem x Hx)) as (b & Hb & Hlo & Hhi & Hpos & _).
    split; [exact Hpos|]. exists b. split; [|split; assumption].
    apply (pi_slabs _ _ _ _ _ I b Hb).
Qed.

(** X15. In every state a pool reaches, [zpool_alloc] returns.  A non-null
    result is an item the client does not hold yet.  The result is null
    only when the free list was empty and the backend has refused a call,
    and then the pool struct and the words of memory are as before.  With a
    free list that is not empty the result is its first item and the
    backend is not called. *)
Theorem zpool_alloc_returns (p : zpool) (m : memory) (held : list Z) :
  pool_reach P p m held ->
  exists x p' m',
    zpool_alloc P p m = Done (x, p', m') /\
    (x <> 0 -> ~ In x held) /\
    (x = 0 -> head p = 0 /\ p' = p /\ words m' = words m /\
              exists l, zcalls (hp m') = l ++ zcalls (hp m) /\ ~ Forall granted l) /\
    (head p <> 0 -> x = head p /\ m' = m).
Proof.
  intros R. destruct (pool_reach_inv P backend_contract p m held R) as (slabs & fl & I).
  destruct (zpool_alloc_spec P backend_contract p m slabs fl held I)
    as (x & p' & m' & H & _ & Hcase).
  exists x, p', m'. split; [exact H|].
  pose proof (pi_free _ _ _ _ _ I) as Hf.
  destruct Hcase as [(-> & -> & -> & Hw & _ & Hl) | (Hx & Hn & slabs' & fl' & _ & Hsub)].
  - cbn in Hf. split; [intros Hc; contradiction|]. split.
    + intros _. repeat split; assumption.
    + intros Hc. contradiction.
  - split; [intros _; exact Hn|]. split; [intros Hc; contradiction|].
    intros Hh. destruct Hsub as [(-> & _ & ->) | (-> & _)].
    + cbn in Hf. destruct Hf as (Hh' & _). split; [symmetry; exact Hh' | reflexivity].
    + cbn in Hf. contradiction.
Qed.

(** X16. A slab is handed out item by item, in the order of the addresses:
    when [zpool_alloc] on a pool with an empty free list returns a non-null
    pointer [x], then it and the next [count_per_block - 1] calls return
    [x], [x + item_size], [x + 2 * item_size], ..., the backend is not
    called after the first of them, and the free list is empty again after
    the last. *)
Theorem zpool_alloc_hands_out_slab_in_order (p : zpool) (m : memory) (held : list Z)
    (x : Z) (p1 : zpool) (m1 : memory) :
  pool_reach P p m held -> head p = 0 ->
  zpool_alloc P p m = Done (x, p1, m1) -> x <> 0 ->
  exists p',
    zpool_alloc_n P p m (Z.to_nat (count_per_block p))
    = Done (map (fun i : nat => x + Z.of_nat i * item_size p)
                (seq 0 (Z.to_nat (count_per_block p))),
            p', m1) /\
    head p' = 0.
Proof.
  intros R Hh H Hx.
  destruct (pool_reach_inv P backend_contract p m held R) as (slabs & fl & I).
  destruct (zpool_alloc_spec P backend_contract p m slabs fl held I)
    as (x' & p1' & m1' & H' & _ & Hcase).
  rewrite H in H'. apply Done_inj in H'. injection H' as <- <- <-.
  destruct Hcase as [(-> & _) | (_ & _ & slabs' & fl' & I1 & Hsub)]; [contradiction|].
  destruct Hsub as [(-> & _ & _) | (-> & _ & Hitems & _)].
  { pose proof (pi_free _ _ _ _ _ I) as Hf. cbn in Hf. destruct Hf as (Hf & Hf' & _).
    congruence. }
  pose proof (pi_count _ _ _ _ _ I) as Hc.
  exists (with_head p1 0). split; [|reflexivity].
  change (map (fun i : nat => x + Z.of_nat i * item_size p)
              (seq 0 (Z.to_nat (count_per_block p)))) with (items_of p x).
  rewrite <- Hitems.
  assert (El : Z.to_nat (count_per_block p) = S (length fl')).
  { change (S (length fl')) with (length (x :: fl')). rewrite Hitems.
    unfold items_of. rewrite length_map, length_seq. reflexivity. }
  rewrite El. cbn [zpool_alloc_n]. rewrite H. cbn [mbind outcome_bind].
  rewrite (zpool_alloc_n_free_list P m1 fl' p1 (pi_free _ _ _ _ _ I1)). reflexivity.
Qed.

(** X17. In every state a pool reaches from a backend with nothing granted
    yet, [zpool_free] returns, gives every slab and the array of slab
    pointers back to the backend, each once and with no other call, so that
    nothing the backend has granted stays live, and leaves a pool struct of
    zeros. *)
Theorem zpool_free_releases_everything (p : zpool) (m : memory) (held : list Z) :
  pool_reach P p m held ->
  exists frees,
    zpool_free p m =
      Done (Pool 0 0 0 0 0 0,
            Memory (words m) (Heap (map Free frees ++ zcalls (hp m)) (ccalls (hp m)))) /\
    NoDup frees /\
    (forall b, In b frees <-> exists n, In (b, n) (live (zcalls (hp m)))) /\
    live (map Free frees ++ zcalls (hp m)) = [].
Proof.
  intros R. destruct (pool_reach_inv P backend_contract p m held R) as (slabs & fl & I).
  destruct (zpool_free_spec p m slabs fl held I) as [H Hl].
  exists ((if block_cap p =? 0 then [] else [blocks p]) ++ rev slabs).
  assert (E : map Free ((if block_cap p =? 0 then [] else [blocks p]) ++ rev slabs)
              = (if block_cap p =? 0 then [] else [Free (blocks p)]) ++ rev (map Free slabs)).
  { rewrite map_app, map_rev. destruct (block_cap p =? 0); reflexivity. }
  rewrite E. split; [exact H|]. split; [|split; [|exact Hl]].
  - apply NoDup_app. split; [|split].
    + destruct (block_cap p =? 0); [constructor|]. apply NoDup_singleton.
    + intros b Hb Hb'. apply list_elem_of_In, in_rev in Hb'.
      destruct (block_cap p =? 0); [inversion Hb|].
      apply list_elem_of_singleton in Hb. subst b.
      apply (pi_array_slab _ _ _ _ _ I Hb').
    + rewrite <- Permutation_rev. apply (pi_nodup _ _ _ _ _ I).
  - intros b. rewrite in_app_iff, <- in_rev. split.
    + intros [Hb|Hb].
      * destruct (Z.eqb_spec (block_cap p) 0) as [Hc|Hc]; [destruct Hb|].
        destruct Hb as [<-|[]]. eexists. apply (pi_array_live _ _ _ _ _ I Hc).
      * eexists. apply (pi_slabs _ _ _ _ _ I b Hb).
    + intros (n & Hn). pose proof (pi_only _ _ _ _ _ I) as Ho.
      rewrite Forall_forall in Ho. apply list_elem_of_In in Hn.
      destruct (Ho _ Hn) as [Hb|[Hc Hb]]; cbn in Hb.
      * right. exact Hb.
      * left. apply Z.eqb_neq in Hc. rewrite Hc. left. symmetry. exact Hb.
Qed.

End PoolWithContract.

Lemma pool_items_stay_disjoint_witness :
  NoDup [4112; 4096] /\
  (forall x y, In x [4112; 4096] -> In y [4112; 4096] -> x <> y ->
     x + item_size example_pool <= y \/ y + item_size example_pool <= x) /\
  (forall x, In x [4112; 4096] ->
     0 < x /\
     exists b, In (b, item_size example_pool * count_per_block example_pool)
                  (live (zcalls (hp example_pool_memory))) /\
               b <= x /\
               x + item_size example_pool
               <= b + item_size example_pool * count_per_block example_pool).
Proof.
  apply (pool_items_stay_disjoint default_platform bump_ok example_pool example_pool_memory
           _ pool_reach_example).
Defined.

Lemma zpool_alloc_returns_witness :
  exists x p' m',
    zpool_alloc default_platform example_pool example_pool_memory = Done (x, p', m') /\
    (x <> 0 -> ~ In x [4112; 4096]) /\
    (x = 0 -> head example_pool = 0 /\ p' = example_pool /\
              words m' = words example_pool_memory /\
              exists l, zcalls (hp m') = l ++ zcalls (hp example_pool_memory) /\
                        ~ Forall granted l) /\
    (head example_pool <> 0 -> x = head example_pool /\ m' = example_pool_memory).
Proof.
  apply (zpool_alloc_returns default_platform bump_ok example_pool example_pool_memory
           _ pool_reach_example).
Defined.

Lemma zpool_alloc_hands_out_slab_witness :
  exists p',
    zpool_alloc_n default_platform (zpool_init 12 3) empty_memory
      (Z.to_nat (count_per_block (zpool_init 12 3)))
    = Done (map (fun i : nat => 4096 + Z.of_nat i * item_size (zpool_init 12 3))
                (seq 0 (Z.to_nat (count_per_block (zpool_init 12 3)))),
            p', example_pool_memory) /\
    head p' = 0.
Proof.
  assert (Hi : 0 <= 12 <= modulus - 8) by (rewrite modulus_eq; lia).
  assert (R0 : pool_reach default_platform (zpool_init 12 3) empty_memory []).
  { apply preach_init; [reflexivity | exact Hi | vm_compute; reflexivity]. }
  assert (E : zpool_alloc default_platform (zpool_init 12 3) empty_memory
              = Done (4096, Pool 16 3 4112 4144 1 8, example_pool_memory))
    by (vm_compute; reflexivity).
  apply (zpool_alloc_hands_out_slab_in_order default_platform bump_ok
           (zpool_init 12 3) empty_memory [] 4096 _ _ R0 eq_refl E).
  lia.
Defined.

Lemma zpool_free_releases_witness :
  exists frees,
    zpool_free example_pool example_pool_memory =
      Done (Pool 0 0 0 0 0 0,
            Memory (words example_pool_memory)
                   (Heap (map Free frees ++ zcalls (hp example_pool_memory))
                         (ccalls (hp example_pool_memory)))) /\
    NoDup frees /\
    (forall b, In b frees <-> exists n, In (b, n) (live (zcalls (hp example_pool_memory)))) /\
    live (map Free frees ++ zcalls (hp example_pool_memory)) = [].
Proof.
  apply (zpool_free_releases_everything default_platform bump_ok example_pool
           example_pool_memory _ pool_reach_example).
Defined.

End PoolGuarantees.

(** ** Debug guard: what the calls that return do *)

Section GuardCalls.
  Import Debug.
  Variable P : platform.
  Hypothesis libc_contract : backend_ok (stdlib P).

(** What [zdebug_malloc_loc] leaves behind when it returns the null
    pointer. *)
Definition malloc_refused (st : state) (sz : Z) (f : string) (ln : Z) (st' : state)
  : Prop :=
  hdrs st' = hdrs st /\ bytes st' = bytes st /\
  g_zdebug_head st' = g_zdebug_head st /\ zcalls (hp st') = zcalls (hp st) /\
  ((sz = 0 /\ st' = st) \/
   (sz <> 0 /\ log st' = OutOfMemory f ln :: log st /\
    ccalls (hp st')
    = Malloc (sizeof_header + sz + ZDEBUG_CANARY_SIZE) 0 :: ccalls (hp st))).

(** What it leaves behind when it returns the payload of the header [h]. *)
Definition malloc_granted (st : state) (sz : Z) (f : string) (ln : Z) (h : Z)
  (st' : state) : Prop :=
  sz <> 0 /\
  (exists hd, hdrs st' !! h = Some hd /\ size hd = sz /\ file hd = f /\ line hd = ln /\
              magic hd = ZDEBUG_MAGIC_ALIVE) /\
  ccalls (hp st')
  = Malloc (sizeof_header + sz + ZDEBUG_CANARY_SIZE) h :: ccalls (hp st) /\
  zcalls (hp st') = zcalls (hp st) /\ log st' = log st /\
  (forall a, ~ (h + sizeof_header + sz <= a < h + sizeof_header + sz + ZDEBUG_CANARY_SIZE) ->
     bytes st' !! a = bytes st !! a).

Lemma zdebug_malloc_loc_returns st l sz f ln :
  guard_inv st l -> size_ok sz ->
  exists p st',
    zdebug_malloc_loc P st sz f ln = Done (p, st') /\
    ((p = 0 /\ guard_inv st' l /\ malloc_refused st sz f ln st') \/
     (exists h, p = h + sizeof_header /\ ~ In h l /\ guard_inv st' (h :: l) /\
                malloc_granted st sz f ln h st')).
Proof.
  intros I [Hs Hfit]. unfold zdebug_malloc_loc.
  destruct (Z.eqb_spec sz 0) as [Hz|Hnz].
  { exists 0, st. split; [reflexivity|]. left. split; [reflexivity|]. split; [exact I|].
    repeat split. left. split; [exact Hz | reflexivity]. }
  unfold malloc.
  assert (Etot : wrap (sizeof_header + sz + ZDEBUG_CANARY_SIZE)
                 = sizeof_header + sz + ZDEBUG_CANARY_SIZE).
  { apply wrap_small. unfold sizeof_header, ZDEBUG_CANARY_SIZE in *. lia. }
  rewrite Etot.
  set (total := sizeof_header + sz + ZDEBUG_CANARY_SIZE) in *.
  set (b := bk_malloc (stdlib P) (ccalls (hp st)) total) in *.
  destruct (Z.eqb_spec b 0) as [Hb0|Hbn].
  { eexists 0, _. split; [reflexivity|]. left. split; [reflexivity|]. split.
    - apply (guard_inv_ext st); try reflexivity; [exact I|].
      cbn. rewrite Hb0. reflexivity.
    - repeat split. right. split; [exact Hnz|]. split; [reflexivity|].
      cbn. rewrite Hb0. reflexivity. }
  assert (Ef : (total <? sizeof_header) = false).
  { apply Z.ltb_ge. unfold total, sizeof_header, ZDEBUG_CANARY_SIZE in *. lia. }
  rewrite Ef.
  destruct (malloc_grant _ libc_contract (ccalls (hp st)) total Hbn) as (Hmax & Hfresh).
  fold b in Hfresh. pose proof Hfresh as (Hbpos & Hbend & _).
  set (hd0 := Header 0 0 f sz ln ZDEBUG_MAGIC_ALIVE) in *.
  match goal with
  | |- exists _ _, (_zdebug_set_canary ?s1 b ≫= _) = _ /\ _ => set (st1 := s1)
  end.
  assert (A0 : hdrs st1 !! b = Some hd0) by (cbn; apply lookup_insert_eq).
  rewrite (_zdebug_set_canary_bytes st1 b hd0 A0)
    by (cbn [size hd0]; unfold total in *; lia).
  cbn [mbind outcome_bind size hd0].
  match goal with
  | |- exists _ _, (_zdebug_add ?s2 b ≫= _) = _ /\ _ => set (st2 := s2)
  end.
  assert (A1 : forall x, In x l -> x <> b -> hdrs st2 !! x = hdrs st !! x).
  { intros x _ Hx. cbn. apply lookup_insert_ne. congruence. }
  assert (A2 : hdrs st2 !! b = Some hd0) by exact A0.
  assert (A3 : forall a, ~ (b + sizeof_header + sz <= a < b + total) ->
                 bytes st2 !! a = bytes st !! a).
  { intros a Ha. cbn [bytes st2 st1 set_bytes]. apply memset_other. intros i Hi.
    change (Z.to_nat ZDEBUG_CANARY_SIZE) with 16%nat in Hi.
    rewrite canary_addr by (unfold total in *; assumption || lia).
    unfold total, sizeof_header, ZDEBUG_CANARY_SIZE in *. lia. }
  assert (A4 : canary_intact st2 b hd0).
  { apply (canary_memset_intact st2 b hd0 (bytes st));
      [exact Hbpos | exact Hs | unfold total_of; cbn [size hd0]; unfold total in *; lia
      | reflexivity]. }
  assert (A5 : live (ccalls (hp st2)) = (b, total) :: live (ccalls (hp st))).
  { cbn. apply Z.eqb_neq in Hbn. rewrite Hbn. reflexivity. }
  destruct (guard_inv_link st st2 l b total sz hd0 (live (ccalls (hp st)))
              I eq_refl A1 A2 eq_refl eq_refl) as (st3 & Hadd & I3 & Eb3 & El3 & Ehp3 & hd3 & Hb3 & Sf & Sl & Ss & Sm).
  { intros a Ha. apply A3. unfold total, sizeof_header in *. lia. }
  { exact A4. }
  { exact A5. }
  { intros h n _ Hin. exact Hin. }
  { apply (g_blocks _ _ I). }
  { exact Hfresh. }
  { reflexivity. }
  { exact Hs. }
  rewrite Hadd. cbn [mbind outcome_bind].
  eexists _, st3. split; [reflexivity|]. right. exists b. split.
  { unfold user_mem. apply wrap_small.
    unfold total, sizeof_header, ZDEBUG_CANARY_SIZE in *. lia. }
  split.
  { pose proof (g_nodup _ _ I3) as Hnd. apply NoDup_cons in Hnd as [Hnd _].
    intros Hi. apply Hnd. apply list_elem_of_In. exact Hi. }
  split; [exact I3|].
  split; [exact Hnz|]. split.
  { exists hd3. cbn in Sf, Sl, Ss, Sm. repeat split; assumption. }
  rewrite Ehp3, El3. split; [reflexivity|]. split; [reflexivity|].
  split; [reflexivity|].
  intros a Ha. rewrite Eb3. apply A3. unfold total. lia.
Qed.

(** [zdebug_free] of a non-null pointer, when it returns, has given the
    block of the header back and written no byte of a payload or a
    canary. *)
Lemma zdebug_free_effect st ptr hd st' :
  ptr <> 0 -> hdrs st !! wrap (ptr - sizeof_header) = Some hd ->
  zdebug_free st ptr = Done st' ->
  hp st' = free (hp st) (wrap (ptr - sizeof_header)) /\
  bytes st' = bytes st /\ log st' = log st.
Proof.
  intros Hp Hh H.
  assert (Hnz : (ptr =? 0) = false) by (apply Z.eqb_neq; exact Hp).
  unfold zdebug_free in H. rewrite Hnz in H.
  unfold load at 1 in H. rewrite Hh in H. cbn -[_zdebug_check_canary] in H.
  destruct (magic hd =? ZDEBUG_MAGIC_ALIVE) eqn:Em; cbn -[_zdebug_check_canary] in H.
  2:{ destruct (magic hd =? ZDEBUG_MAGIC_FREED); discriminate. }
  bind_inv H. destruct r; cbn in H; [|discriminate].
  bind_inv H. bind_inv H. injection H as <-.
  apply modify_inv in Hr0 as (hd0 & Hk & ->). rewrite Hh in Hk. injection Hk as <-.
  apply _zdebug_remove_links_only in Hr1 as (L & Eb & El & Ehp).
  cbn in Eb, El, Ehp. cbn [hp set_heap forget bytes log hdrs]. rewrite Ehp.
  split; [reflexivity|]. split; [exact Eb | exact El].
Qed.

End GuardCalls.

Section GuardResize.
  Import Debug.
  Variable P : platform.
  Hypothesis libc_contract : backend_ok (stdlib P).

(** What [zdebug_realloc_loc] leaves behind when the backend has granted
    the resize of the block of [h] (whose header was [hd]) as the block of
    [new_h]. *)
Definition realloc_granted (st : state) (h : Z) (hd : zdebug_header) (sz : Z)
  (f : string) (ln : Z) (new_h : Z) (st' : state) : Prop :=
  (exists hd', hdrs st' !! new_h = Some hd' /\ size hd' = sz /\ file hd' = f /\
               line hd' = ln /\ magic hd' = ZDEBUG_MAGIC_ALIVE) /\
  (forall i, 0 <= i < Z.min (size hd) sz ->
     bytes st' !! (new_h + sizeof_header + i) = bytes st !! (h + sizeof_header + i)) /\
  (forall a, ~ (new_h <= a < new_h + (sizeof_header + sz + ZDEBUG_CANARY_SIZE)) ->
     bytes st' !! a = bytes st !! a) /\
  ccalls (hp st')
  = Realloc h (sizeof_header + sz + ZDEBUG_CANARY_SIZE) new_h :: ccalls (hp st) /\
  zcalls (hp st') = zcalls (hp st) /\ log st' = log st.

Lemma zdebug_realloc_loc_granted st l1 h l2 sz f ln hd :
  guard_inv st (l1 ++ h :: l2) ->
  0 < sz -> size_ok sz ->
  hdrs st !! h = Some hd ->
  let new_h := bk_realloc (stdlib P) (ccalls (hp st)) h
                 (sizeof_header + sz + ZDEBUG_CANARY_SIZE) in
  new_h <> 0 ->
  exists st',
    zdebug_realloc_loc P st (h + sizeof_header) sz f ln
    = Done (new_h + sizeof_header, st') /\
    guard_inv st' (new_h :: l1 ++ l2) /\ ~ In new_h (l1 ++ l2) /\
    realloc_granted st h hd sz f ln new_h st'.
Proof.
  intros I Hsz [_ Hfit] Hhd new_h Hnz.
  assert (Hin : In h (l1 ++ h :: l2)) by (apply in_or_app; right; left; reflexivity).
  destruct (member_validated st _ h I Hin)
    as (hd0 & Hhd0 & Hmag & _ & _ & _ & Hs & Hpos & Hend).
  rewrite Hhd in Hhd0. injection Hhd0 as <-.
  assert (Etot : wrap (sizeof_header + sz + ZDEBUG_CANARY_SIZE)
                 = sizeof_header + sz + ZDEBUG_CANARY_SIZE).
  { apply wrap_small. unfold sizeof_header, ZDEBUG_CANARY_SIZE in *. lia. }
  destruct (_zdebug_remove_step st l1 h l2 hd I Hhd)
    as (st1 & Hrem & I1 & Hlo1 & Eb1 & El1 & Ehp1).
  rewrite (zdebug_realloc_loc_prefix P st _ h sz f ln hd st1 I Hin ltac:(lia) Hhd Hrem Ehp1).
  cbn zeta. rewrite Etot.
  set (total := sizeof_header + sz + ZDEBUG_CANARY_SIZE) in *.
  fold new_h.
  apply Z.eqb_neq in Hnz as En. rewrite En.
  assert (Ef : (total <? sizeof_header) = false).
  { apply Z.ltb_ge. unfold total, sizeof_header, ZDEBUG_CANARY_SIZE in *. lia. }
  rewrite Ef.
  destruct (realloc_grant _ libc_contract (ccalls (hp st)) h total Hnz)
    as (Hmax & Hfresh).
  fold new_h in Hfresh. pose proof Hfresh as (Hnpos & Hnend & _).
  destruct (Hlo1 h hd Hhd) as (hd1 & Hhd1 & Sf1 & Sl1 & Ss1 & Sm1).
  unfold load. rewrite Hhd1. cbn [mbind outcome_bind].
  set (hp' := Heap (zcalls (hp st)) (Realloc h total new_h :: ccalls (hp st))) in *.
  set (st2 := moved (set_heap st1 hp') h new_h hd1 total) in *.
  destruct (NoDup_remove_mid l1 l2 h (g_nodup _ _ I)) as [Hnd' Hnin].
  assert (B1 : hdrs st2 !! new_h = Some hd1).
  { unfold st2, moved. destruct (Z.eqb_spec new_h h) as [->|Hne].
    - exact Hhd1.
    - cbn. apply lookup_insert_eq. }
  assert (B2 : forall x, In x (l1 ++ l2) -> x <> new_h ->
                 hdrs st2 !! x = hdrs st1 !! x).
  { intros x Hin' Hx. unfold st2, moved. destruct (new_h =? h); [reflexivity|].
    cbn. rewrite lookup_insert_ne by congruence.
    apply lookup_delete_ne. intros ->. contradiction. }
  assert (B3 : g_zdebug_head st2 = g_zdebug_head st1 /\ hp st2 = hp' /\ log st2 = log st1).
  { unfold st2, moved. destruct (new_h =? h); repeat split. }
  assert (B4 : forall a, ~ (new_h <= a < new_h + total) -> bytes st2 !! a = bytes st1 !! a).
  { intros a Ha. unfold st2, moved. destruct (new_h =? h); [reflexivity|].
    cbn [bytes set_heap]. apply memcpy_other. intros i Hi.
    unfold user_mem, total, sizeof_header, ZDEBUG_CANARY_SIZE in *.
    rewrite (wrap_small (new_h + 40)) by lia.
    rewrite wrap_small by lia. lia. }
  assert (B5 : forall i, 0 <= i < Z.min (size hd) sz ->
                 bytes st2 !! (new_h + sizeof_header + i)
                 = bytes st !! (h + sizeof_header + i)).
  { intros i Hi. unfold st2, moved. destruct (Z.eqb_spec new_h h) as [->|Hne].
    - cbn [bytes set_heap]. rewrite Eb1. reflexivity.
    - cbn [bytes set_heap]. rewrite Eb1, Ss1.
      unfold total_of, user_mem, total, sizeof_header, ZDEBUG_CANARY_SIZE in *.
      rewrite (wrap_small (new_h + 40)) by lia.
      rewrite (wrap_small (h + 40)) by lia.
      replace (Z.min (40 + size hd + 16) (40 + sz + 16) - 40)
        with (Z.min (size hd) sz + 16) by lia.
      pose proof (memcpy_lookup (Z.to_nat (Z.min (size hd) sz + 16)) (bytes st) (bytes st)
                    (new_h + 40) (h + 40) (Z.to_nat i)) as Hcp.
      rewrite Z2Nat.id in Hcp by lia.
      rewrite (wrap_small (new_h + 40 + i)) in Hcp by lia.
      rewrite (wrap_small (h + 40 + i)) in Hcp by lia.
      apply Hcp; [lia|].
      intros j Hj Hne'. rewrite wrap_small by lia. lia. }
  unfold modify. rewrite B1. cbn [mbind outcome_bind].
  set (hdN := set_origin sz f ln hd1) in *.
  match goal with
  | |- exists _, (_zdebug_set_canary ?s3 new_h ≫= _) = _ /\ _ => set (st3 := s3)
  end.
  assert (A0 : hdrs st3 !! new_h = Some hdN) by (cbn; apply lookup_insert_eq).
  rewrite (_zdebug_set_canary_bytes st3 new_h hdN A0)
    by (cbn [size hdN set_origin]; unfold total in *; lia).
  cbn [mbind outcome_bind size hdN set_origin].
  match goal with
  | |- exists _, (_zdebug_add ?s4 new_h ≫= _) = _ /\ _ => set (st4 := s4)
  end.
  destruct B3 as (B3a & B3b & B3c).
  assert (A1 : forall x, In x (l1 ++ l2) -> x <> new_h ->
                 hdrs st4 !! x = hdrs st1 !! x).
  { intros x Hin' Hx. cbn. rewrite lookup_insert_ne by congruence.
    apply B2; assumption. }
  assert (A2 : hdrs st4 !! new_h = Some hdN) by exact A0.
  assert (A3 : forall a, ~ (new_h + sizeof_header + sz <= a < new_h + total) ->
                 bytes st4 !! a = bytes st2 !! a).
  { intros a Ha. cbn [bytes st4 st3 set_bytes]. apply memset_other. intros i Hi.
    change (Z.to_nat ZDEBUG_CANARY_SIZE) with 16%nat in Hi.
    rewrite canary_addr by (unfold total in *; assumption || lia).
    unfold total, sizeof_header, ZDEBUG_CANARY_SIZE in *. lia. }
  assert (A4 : canary_intact st4 new_h hdN).
  { apply (canary_memset_intact st4 new_h hdN (bytes st2));
      [exact Hnpos | cbn; lia
      | unfold total_of; cbn [size hdN set_origin]; unfold total in *; lia
      | reflexivity]. }
  assert (A5 : live (ccalls (hp st4)) =
               (new_h, total) :: filter (fun b => b.1 <> h) (live (ccalls (hp st1)))).
  { cbn [hp st4 st3 set_bytes]. rewrite B3b, Ehp1. cbn. rewrite En. reflexivity. }
  assert (A6 : forall x n, In x (l1 ++ l2) -> In (x, n) (live (ccalls (hp st1))) ->
               In (x, n) (filter (fun b => b.1 <> h) (live (ccalls (hp st1))))).
  { intros x n Hx Hn. apply list_elem_of_In. apply list_elem_of_filter.
    split; [cbn; intros ->; contradiction | apply list_elem_of_In; exact Hn]. }
  assert (A7 : magic hdN = ZDEBUG_MAGIC_ALIVE).
  { cbn. rewrite Sm1. apply Z.eqb_eq. exact Hmag. }
  rewrite <- Ehp1 in Hfresh.
  destruct (guard_inv_link st1 st4 (l1 ++ l2) new_h total sz hdN
              (filter (fun b => b.1 <> h) (live (ccalls (hp st1))))
              I1 B3a A1 A2 A7 eq_refl)
    as (st5 & Hadd & I5 & Eb5 & El5 & Ehp5 & hd5 & Hhd5 & Sf5 & Sl5 & Ss5 & Sm5).
  { intros a Ha. rewrite A3, B4; [reflexivity | exact Ha|].
    unfold total, sizeof_header in *. lia. }
  { exact A4. }
  { exact A5. }
  { exact A6. }
  { apply disjoint_blocks_filter. apply (g_blocks _ _ I1). }
  { exact Hfresh. }
  { reflexivity. }
  { lia. }
  rewrite Hadd. cbn [mbind outcome_bind].
  exists st5. split.
  { do 2 f_equal. unfold user_mem. apply wrap_small.
    unfold total, sizeof_header, ZDEBUG_CANARY_SIZE in *. lia. }
  split; [exact I5|]. split.
  { pose proof (g_nodup _ _ I5) as Hnd. apply NoDup_cons in Hnd as [Hnd _].
    intros Hi. apply Hnd. apply list_elem_of_In. exact Hi. }
  split.
  { exists hd5. cbn in Sf5, Sl5, Ss5. rewrite Sm5. repeat split; assumption. }
  split.
  { intros i Hi. rewrite Eb5, A3; [apply B5; exact Hi|].
    unfold total, sizeof_header, ZDEBUG_CANARY_SIZE in *. lia. }
  split.
  { intros a Ha. rewrite Eb5, A3, B4, Eb1; [reflexivity | exact Ha|].
    unfold total, sizeof_header, ZDEBUG_CANARY_SIZE in *. lia. }
  rewrite Ehp5, El5. cbn [hp st4 st3 set_bytes log]. rewrite B3b, B3c, El1.
  repeat split.
Qed.

End GuardResize.

(** ** Debug guard: the canary and the leak report *)

Section GuardCanary.
  Import Debug.

(** A byte other than the sentinel among the sixteen after the payload
    fails the check of the canary. *)
Lemma canary_damaged st l h hd off v :
  guard_inv st l -> In h l -> hdrs st !! h = Some hd ->
  size hd <= off < size hd + ZDEBUG_CANARY_SIZE -> v <> ZDEBUG_CANARY_VAL ->
  _zdebug_check_canary
    (set_bytes st (<[h + sizeof_header + off := v]> (bytes st))) h = Done false.
Proof.
  intros I Hin Hhd Hoff Hv.
  destruct (member_validated st l h I Hin) as (hd0 & Hhd0 & _ & _ & _ & _ & Hs & Hpos & Hend).
  rewrite Hhd in Hhd0. injection Hhd0 as <-.
  unfold _zdebug_check_canary, load. cbn [hdrs set_bytes]. rewrite Hhd.
  cbn [mbind outcome_bind bytes]. f_equal.
  destruct (forallb _ _) eqn:E; [|reflexivity]. exfalso.
  rewrite forallb_forall in E.
  specialize (E (Z.to_nat (off - size hd))).
  unfold total_of, ZDEBUG_CANARY_SIZE in *.
  assert (Hi : (Z.to_nat (off - size hd) < 16)%nat) by lia.
  unfold canary_byte_ok in E.
  rewrite load_byte_outside in E
    by (apply canary_off_fields; unfold ZDEBUG_CANARY_SIZE; assumption || lia).
  rewrite (canary_addr h (size hd) _ Hpos Hs ltac:(unfold ZDEBUG_CANARY_SIZE; lia) Hi) in E.
  replace (h + sizeof_header + size hd + Z.of_nat (Z.to_nat (off - size hd)))
    with (h + sizeof_header + off) in E by lia.
  cbn [bytes set_bytes] in E. rewrite lookup_insert_eq in E.
  assert (Et : (v =? ZDEBUG_CANARY_VAL) = true).
  { apply E. apply in_seq. change (Z.to_nat 16) with 16%nat. lia. }
  apply Z.eqb_eq in Et. contradiction.
Qed.

(** The line of the report for the header [hd] at [h]. *)
Definition leak_of (h : Z) (hd : zdebug_header) : message :=
  Leak (size hd) (h + sizeof_header) (file hd) (line hd).

Definition sum_sizes (hds : list zdebug_header) : Z :=
  fold_right (fun hd acc => size hd + acc) 0 hds.

(** The walk of [zdebug_print_leaks] logs one line per header of the list,
    in the order of the list, and adds up the sizes. *)
Lemma leaks_loop_log l : forall fuel st p cur count b,
  dll (hdrs st) p cur l -> (length l <= fuel)%nat ->
  Forall (fun h => 0 <= h + sizeof_header < modulus) l ->
  0 <= count -> count + Z.of_nat (length l) < modulus ->
  exists hds st',
    Forall2 (fun h hd => hdrs st !! h = Some hd) l hds /\
    leaks_loop fuel st cur count b
    = Done (count + Z.of_nat (length l),
            match l with [] => b | _ => wrap (b + sum_sizes hds) end, st') /\
    log st' = rev (zip_with leak_of l hds) ++ log st /\
    hdrs st' = hdrs st /\ bytes st' = bytes st /\
    g_zdebug_head st' = g_zdebug_head st /\ hp st' = hp st.
Proof.
  induction l as [|h t IH]; intros fuel st p cur count b Hd Hf Hr Hc Hm.
  - cbn in Hd. subst cur. exists [], st. split; [constructor|]. split; [|repeat split].
    destruct fuel; cbn; f_equal; f_equal; f_equal; lia.
  - cbn [dll] in Hd. destruct Hd as (-> & Hh0 & hd & Hhd & _ & Ht).
    destruct fuel as [|fuel]; [cbn in Hf; lia|].
    cbn [leaks_loop]. apply Z.eqb_neq in Hh0. rewrite Hh0.
    unfold load. rewrite Hhd. cbn [mbind outcome_bind].
    cbn [length] in Hf, Hm. apply Forall_cons in Hr as [Hh Hr].
    rewrite (wrap_small (count + 1)) by lia.
    assert (Eu : user_mem h = h + sizeof_header) by (apply wrap_small; exact Hh).
    rewrite Eu.
    destruct (IH fuel (say st (Leak (size hd) (h + sizeof_header) (file hd) (line hd)))
                h (next hd) (count + 1) (wrap (b + size hd)))
      as (hds & st' & Hall & Hrun & El & E1 & E2 & E3 & E4).
    + exact Ht.
    + lia.
    + exact Hr.
    + lia.
    + lia.
    + exists (hd :: hds), st'. split; [constructor; assumption|].
      split; [|split; [|repeat split; assumption]].
      * rewrite Hrun. do 3 f_equal; [cbn [length]; lia|].
        cbn [sum_sizes fold_right]. destruct t as [|t0 t'].
        -- inversion Hall. cbn. f_equal. lia.
        -- fold (sum_sizes hds). rewrite wrap_add_l. f_equal. lia.
      * rewrite El. cbn [zip_with rev log say]. rewrite <- app_assoc. reflexivity.
Qed.

Lemma zdebug_print_leaks_log st l :
  guard_inv st l ->
  exists hds st',
    Forall2 (fun h hd => hdrs st !! h = Some hd) l hds /\
    zdebug_print_leaks st = Done (Z.of_nat (length l), st') /\
    log st' =
      match l with
      | [] => log st
      | _ => LeaksTotal (wrap (sum_sizes hds)) (Z.of_nat (length l))
             :: rev (zip_with leak_of l hds) ++ LeaksBanner :: log st
      end /\
    hdrs st' = hdrs st /\ bytes st' = bytes st /\
    g_zdebug_head st' = g_zdebug_head st /\ hp st' = hp st.
Proof.
  intros I. unfold zdebug_print_leaks.
  pose proof (g_members _ _ I) as Hm.
  assert (Hlen : Z.of_nat (length l) < modulus).
  { apply addresses_count; [apply (g_nodup _ _ I)|].
    eapply Forall_impl; [exact Hm|].
    intros h (hd & _ & _ & Hs & _ & Hpos & Hend & _).
    unfold total_of, sizeof_header, ZDEBUG_CANARY_SIZE in *. lia. }
  assert (Hfuel : (length l <= S (base.size (hdrs st)))%nat).
  { apply Nat.le_le_succ_r. apply members_in_store; [apply (g_nodup _ _ I)|].
    eapply Forall_impl; [exact Hm|]. intros h (hd & Hhd & _). eauto. }
  assert (Hr : Forall (fun h => 0 <= h + sizeof_header < modulus) l).
  { eapply Forall_impl; [exact Hm|].
    intros h (hd & _ & _ & Hs & _ & Hpos & Hend & _).
    unfold total_of, sizeof_header, ZDEBUG_CANARY_SIZE in *. lia. }
  pose proof (dll_head _ _ _ _ (g_list _ _ I)) as Hhead.
  set (st1 := if g_zdebug_head st =? 0 then st else say st LeaksBanner).
  assert (E1 : hdrs st1 = hdrs st /\ bytes st1 = bytes st /\
               g_zdebug_head st1 = g_zdebug_head st /\ hp st1 = hp st).
  { unfold st1. destruct (g_zdebug_head st =? 0); repeat split. }
  destruct E1 as (Eh & Eb & Eg & Ep).
  destruct (leaks_loop_log l (S (base.size (hdrs st))) st1 0 (g_zdebug_head st) 0 0)
    as (hds & st2 & Hall & Hrun & El2 & Eh2 & Eb2 & Eg2 & Ep2).
  - rewrite Eh. apply (g_list _ _ I).
  - exact Hfuel.
  - exact Hr.
  - lia.
  - lia.
  - rewrite Hrun. cbn [mbind outcome_bind]. rewrite Z.add_0_l.
    destruct l as [|h t].
    + exists hds, st2. split; [rewrite <- Eh; exact Hall|]. split; [reflexivity|].
      cbn [zip_with rev app] in El2. cbn in Hhead.
      assert (Est : st1 = st) by (unfold st1; rewrite Hhead; reflexivity).
      rewrite Est in *. repeat split; congruence.
    + assert (Hpos : (0 <? Z.of_nat (length (h :: t))) = true).
      { apply Z.ltb_lt. cbn [length]. lia. }
      rewrite Hpos.
      assert (Hh0 : (g_zdebug_head st =? 0) = false).
      { rewrite Hhead. apply Z.eqb_neq. intros ->.
        pose proof (member_positive st _ 0 I (or_introl eq_refl)). lia. }
      exists hds. eexists. split; [rewrite <- Eh; exact Hall|]. split; [reflexivity|].
      cbn [log say hdrs bytes g_zdebug_head hp]. rewrite El2.
      unfold st1. rewrite Hh0. cbn [log say].
      rewrite Z.add_0_l. split; [reflexivity|].
      unfold st1 in Eh2, Eb2, Eg2, Ep2. rewrite Hh0 in Eh2, Eb2, Eg2, Ep2.
      cbn in Eh2, Eb2, Eg2, Ep2. repeat split; assumption.
Qed.

End GuardCanary.

(** ** Debug guard: what a client can rely on *)

Section GuardGuarantees.
  Import Debug.

(** The block of a header handed back to the backend is not live. *)
Lemma freed_not_live h c n : ~ In (h, n) (live (Free h :: c)).
Proof.
  cbn [live]. intros Hi. apply list_elem_of_In, list_elem_of_filter in Hi as [Hne _].
  apply Hne. reflexivity.
Qed.

(** X19. No false alarm: in every state the guard reaches, [zdebug_free]
    of a pointer the client holds returns (it does not abort); it hands the
    block of the header back to the backend with one call, writes no byte
    of a payload or a canary and logs nothing; the pointer is no longer
    held. *)
Theorem zdebug_free_releases (P : platform) (st : state) (L : list Z) (ptr : Z) :
  backend_ok (stdlib P) -> reachable P st L -> In ptr L ->
  exists st',
    zdebug_free st ptr = Done st' /\
    ccalls (hp st') = Free (header_of ptr) :: ccalls (hp st) /\
    zcalls (hp st') = zcalls (hp st) /\
    (forall n, ~ In (header_of ptr, n) (live (ccalls (hp st')))) /\
    bytes st' = bytes st /\ log st' = log st /\
    reachable P st' (released L ptr).
Proof.
  intros HP Hr Hptr.
  destruct (reachable_guard_inv P HP st L Hr) as (l & I & Hperm).
  destruct (held_pointer l L ptr Hperm Hptr) as (l1 & l2 & -> & Eptr).
  set (h := header_of ptr) in *.
  assert (Hin : In h (l1 ++ h :: l2)) by (apply in_or_app; right; left; reflexivity).
  destruct (member_validated st _ h I Hin)
    as (hd & Hhd & _ & _ & Hnz & Hw & _).
  destruct (zdebug_free_step st l1 h l2 I) as (st' & Hfree & _).
  rewrite <- Eptr in Hfree, Hnz, Hw. apply Z.eqb_neq in Hnz.
  rewrite <- Hw in Hhd.
  destruct (zdebug_free_effect st ptr hd st' Hnz Hhd Hfree) as (Ehp & Eb & El).
  rewrite Hw in Ehp.
  exists st'. split; [exact Hfree|]. rewrite Ehp. cbn [free ccalls zcalls].
  split; [reflexivity|]. split; [reflexivity|].
  split; [intros n; apply freed_not_live|].
  split; [exact Eb|]. split; [exact El|].
  apply (reach_free P st L ptr st' Hr (or_intror Hptr) Hfree).
Qed.

(** X20. A write past the end of a payload is found: in every state the
    guard reaches, once a byte other than the sentinel has been written to
    one of the sixteen bytes after the payload of a pointer the client
    holds, [zdebug_free] of that pointer aborts with the buffer-overflow
    report and [zdebug_realloc_loc] of it (to a size that is not zero) with
    the corruption report, both naming the site of the allocation. *)
Theorem zdebug_detects_overflow (P : platform) (st : state) (L : list Z) (ptr : Z)
    (hd : zdebug_header) (off v : Z) :
  backend_ok (stdlib P) -> reachable P st L -> In ptr L ->
  hdrs st !! header_of ptr = Some hd ->
  size hd <= off < size hd + ZDEBUG_CANARY_SIZE ->
  0 <= v < 256 -> v <> ZDEBUG_CANARY_VAL ->
  let st1 := set_bytes st (<[ptr + off := v]> (bytes st)) in
  zdebug_free st1 ptr = Abort (BufferOverflow ptr (file hd) (line hd)) /\
  forall sz f ln, 0 < sz < modulus -> int_ok ln ->
    zdebug_realloc_loc P st1 ptr sz f ln
    = Abort (CorruptionDuringRealloc ptr (file hd) (line hd)).
Proof.
  intros HP Hr Hptr Hhd Hoff Hbyte Hv st1.
  destruct (reachable_guard_inv P HP st L Hr) as (l & I & Hperm).
  destruct (held_pointer l L ptr Hperm Hptr) as (l1 & l2 & -> & Eptr).
  set (h := header_of ptr) in *.
  assert (Hin : In h (l1 ++ h :: l2)) by (apply in_or_app; right; left; reflexivity).
  destruct (member_validated st _ h I Hin)
    as (hd0 & Hhd0 & Hmag & _ & Hnz & Hw & _).
  rewrite Hhd in Hhd0. injection Hhd0 as <-.
  pose proof (canary_damaged st _ h hd off v I Hin Hhd Hoff Hv) as Hcan.
  rewrite <- Eptr in Hcan, Hnz, Hw. fold st1 in Hcan.
  assert (Hl : load st1 h = Done hd) by (unfold load; cbn; rewrite Hhd; reflexivity).
  split.
  - unfold zdebug_free. rewrite Hnz, Hw, Hl. cbn [mbind outcome_bind].
    rewrite Hmag. cbn [negb]. rewrite Hcan. reflexivity.
  - intros sz f ln Hsz _. unfold zdebug_realloc_loc. rewrite Hnz, Hw.
    assert (Hsz' : (sz =? 0) = false) by (apply Z.eqb_neq; lia).
    rewrite Hsz', Hl. cbn [mbind outcome_bind].
    rewrite Hmag. cbn [negb]. rewrite Hcan. reflexivity.
Qed.

(** X21. [zdebug_realloc_loc] on a non-null pointer whose header is
    readable, with a size that is not zero, never returns when the magic is
    not ALIVE or the canary is damaged: it aborts with the bad-pointer report
    and the site of the call in the first case, with the corruption report
    and the site of the allocation in the second (one of the sixteen bytes
    after the payload differs from the sentinel). *)
Theorem zdebug_realloc_loc_violation_aborts (P : platform) (st : state) (ptr sz : Z)
    (f : string) (ln : Z) (hd : zdebug_header) :
  ptr <> 0 -> sz <> 0 ->
  hdrs st !! wrap (ptr - sizeof_header) = Some hd ->
  (magic hd <> ZDEBUG_MAGIC_ALIVE ->
     zdebug_realloc_loc P st ptr sz f ln = Abort (BadReallocPointer ptr f ln)) /\
  (magic hd = ZDEBUG_MAGIC_ALIVE ->
   block_in_range (wrap (ptr - sizeof_header)) hd ->
   ~ canary_intact st (wrap (ptr - sizeof_header)) hd ->
     zdebug_realloc_loc P st ptr sz f ln
     = Abort (CorruptionDuringRealloc ptr (file hd) (line hd))).
Proof.
  intros Hp Hsz Hh.
  assert (Hnz : (ptr =? 0) = false) by (apply Z.eqb_neq; exact Hp).
  assert (Hsnz : (sz =? 0) = false) by (apply Z.eqb_neq; exact Hsz).
  split.
  - intros Hm. unfold zdebug_realloc_loc, load. rewrite Hnz, Hsnz, Hh.
    cbn [mbind outcome_bind]. apply Z.eqb_neq in Hm. rewrite Hm. reflexivity.
  - intros Hm _ Hc. unfold zdebug_realloc_loc. rewrite Hnz, Hsnz. cbv zeta.
    assert (Hl : load st (wrap (ptr - sizeof_header)) = Done hd).
    { unfold load. rewrite Hh. reflexivity. }
    rewrite Hl. cbn [mbind outcome_bind].
    apply Z.eqb_eq in Hm as Em. rewrite Em. cbn [negb].
    destruct (check_canary_total st _ hd Hh) as [b Hb]. rewrite Hb.
    cbn [mbind outcome_bind].
    destruct b; [|reflexivity].
    exfalso. apply Hc. eapply check_canary_true; eassumption.
Qed.

(** X22. In every state the guard reaches, [zdebug_realloc_loc] of a
    pointer the client holds, to a size that is not zero and fits a
    [size_t] with the header and the canary, returns.  A non-null result
    [p] is a pointer the client did not hold beside the old one; its header
    records the new size and the site of the call; the bytes of the payload,
    up to the smaller of the old and the new size, are those of the old
    payload; nothing is logged; and [p] replaces the old pointer among those
    the client holds. *)
Theorem zdebug_realloc_loc_keeps_contents (P : platform) (st : state) (L : list Z)
    (ptr sz : Z) (f : string) (ln : Z) (hd : zdebug_header) :
  backend_ok (stdlib P) -> reachable P st L -> In ptr L ->
  0 < sz -> size_ok sz -> int_ok ln ->
  hdrs st !! header_of ptr = Some hd ->
  exists p st',
    zdebug_realloc_loc P st ptr sz f ln = Done (p, st') /\
    reachable P st' (resized L ptr sz p) /\
    (p <> 0 ->
       ~ In p (released L ptr) /\
       (exists hd', hdrs st' !! header_of p = Some hd' /\ size hd' = sz /\
                    file hd' = f /\ line hd' = ln /\
                    magic hd' = ZDEBUG_MAGIC_ALIVE) /\
       (forall i, 0 <= i < Z.min (size hd) sz ->
          bytes st' !! (p + i) = bytes st !! (ptr + i)) /\
       log st' = log st).
Proof.
  intros HP Hr Hptr Hsz Hok Hln Hhd.
  destruct (reachable_guard_inv P HP st L Hr) as (l & I & Hperm).
  destruct (held_pointer l L ptr Hperm Hptr) as (l1 & l2 & El & Eptr).
  subst l. set (h := header_of ptr) in *.
  pose proof Hok as [_ Hfit].
  assert (Hreach : forall p st',
            zdebug_realloc_loc P st ptr sz f ln = Done (p, st') ->
            reachable P st' (resized L ptr sz p)).
  { intros p st' H.
    apply (reach_realloc P st L ptr sz f ln p st' Hr (or_intror Hptr) Hok Hln H). }
  set (total := sizeof_header + sz + ZDEBUG_CANARY_SIZE).
  destruct (Z.eq_dec (bk_realloc (stdlib P) (ccalls (hp st)) h total) 0) as [Hz|Hnz].
  - destruct (zdebug_realloc_loc_refused P st l1 h l2 sz f ln hd I ltac:(lia)) with (2 := Hhd)
      as (st' & Hrun & _).
    { rewrite wrap_small; unfold sizeof_header, ZDEBUG_CANARY_SIZE in *; lia. }
    { rewrite wrap_small; [exact Hz|].
      unfold sizeof_header, ZDEBUG_CANARY_SIZE in *. lia. }
    rewrite <- Eptr in Hrun. exists 0, st'. split; [exact Hrun|].
    split; [apply Hreach; exact Hrun|]. intros Hc. contradiction.
  - destruct (zdebug_realloc_loc_granted P HP st l1 h l2 sz f ln hd I Hsz Hok Hhd Hnz)
      as (st' & Hrun & I' & Hnew & (hd' & Hhd' & Hd1 & Hd2 & Hd3 & Hd4) & Hpre & _ & _ & _ & Hlog).
    fold total in Hrun, I', Hnew, Hhd', Hpre.
    set (new_h := bk_realloc (stdlib P) (ccalls (hp st)) h total) in *.
    rewrite <- Eptr in Hrun.
    exists (new_h + sizeof_header), st'. split; [exact Hrun|].
    split; [apply Hreach; exact Hrun|]. intros _.
    assert (Eh : header_of (new_h + sizeof_header) = new_h) by (unfold header_of; lia).
    rewrite Eh. split; [|split; [|split]].
    + intros Hin. apply Hnew.
      pose proof (released_headers l1 h l2 L ptr (g_nodup _ _ I) Hperm eq_refl) as Hp'.
      apply list_elem_of_In. rewrite Hp'. apply list_elem_of_In.
      rewrite <- Eh. apply in_map. exact Hin.
    + exists hd'. repeat split; assumption.
    + intros i Hi. rewrite (Hpre i Hi). f_equal. lia.
    + exact Hlog.
Qed.

(** X23. In every state the guard reaches, [zdebug_malloc_loc] of a size
    that fits a [size_t] with the header and the canary returns.  The
    result is null only for a size of zero, where the state is as before,
    or when the backend has refused the block, where the refusal is logged
    with the site of the call and the headers, the bytes and the list are as
    before.  A non-null result is a pointer the client did not hold; its
    header records the size, the site and the magic ALIVE; no byte outside
    the canary is written. *)
Theorem zdebug_malloc_loc_result (P : platform) (st : state) (L : list Z) (sz : Z)
    (f : string) (ln : Z) :
  backend_ok (stdlib P) -> reachable P st L ->
  size_ok sz -> int_ok ln ->
  exists p st',
    zdebug_malloc_loc P st sz f ln = Done (p, st') /\
    reachable P st' (if p =? 0 then L else p :: L) /\
    (p = 0 -> malloc_refused st sz f ln st') /\
    (p <> 0 -> ~ In p L /\ malloc_granted st sz f ln (header_of p) st').
Proof.
  intros HP Hr Hok Hln.
  destruct (reachable_guard_inv P HP st L Hr) as (l & I & Hperm).
  destruct (zdebug_malloc_loc_returns P HP st l sz f ln I Hok)
    as (p & st' & Hrun & Hcase).
  exists p, st'. split; [exact Hrun|]. split.
  { apply (reach_malloc P st L sz f ln p st' Hr Hok Hln Hrun). }
  destruct Hcase as [(-> & _ & Href) | (h & -> & Hnin & I' & Hgr)].
  - split; [intros _; exact Href | intros Hc; contradiction].
  - pose proof (member_positive st' _ h I' (or_introl eq_refl)) as Hpos.
    split; [intros Hc; unfold sizeof_header in Hc; lia|]. intros _.
    assert (Eh : header_of (h + sizeof_header) = h) by (unfold header_of; lia).
    rewrite Eh. split; [|exact Hgr].
    intros Hin. apply Hnin. apply list_elem_of_In. rewrite Hperm.
    apply list_elem_of_In. rewrite <- Eh. apply in_map. exact Hin.
Qed.

(** X24. In every state the guard reaches, the pointers the client holds
    are distinct; behind each is a header with a size that is not negative,
    an intact canary and a block (header, payload, canary) that the backend
    has granted and not got back; and the blocks of two of them do not
    overlap. *)
Theorem guard_allocations_stay_apart (P : platform) (st : state) (L : list Z) :
  backend_ok (stdlib P) -> reachable P st L ->
  NoDup L /\
  (forall p, In p L ->
     exists hd, hdrs st !! header_of p = Some hd /\ 0 <= size hd /\
       canary_intact st (header_of p) hd /\ 0 < header_of p /\
       In (header_of p, total_of hd) (live (ccalls (hp st)))) /\
  (forall p q hd_p hd_q, In p L -> In q L -> p <> q ->
     hdrs st !! header_of p = Some hd_p -> hdrs st !! header_of q = Some hd_q ->
     p + size hd_p + ZDEBUG_CANARY_SIZE <= header_of q \/
     q + size hd_q + ZDEBUG_CANARY_SIZE <= header_of p).
Proof.
  intros HP Hr.
  destruct (reachable_guard_inv P HP st L Hr) as (l & I & Hperm).
  pose proof (g_members _ _ I) as Hm. rewrite Forall_forall in Hm.
  assert (Hmem : forall p, In p L -> member_ok st (header_of p)).
  { intros p Hp. apply Hm. rewrite Hperm. apply list_elem_of_In, in_map. exact Hp. }
  split; [|split].
  - assert (Hnd : NoDup (header_of <$> L)).
    { change (NoDup (map header_of L)). rewrite <- Hperm. apply (g_nodup _ _ I). }
    eapply NoDup_fmap_1. exact Hnd.
  - intros p Hp. destruct (Hmem p Hp) as (hd & Hhd & _ & Hs & Hc & Hpos & _ & Hl).
    exists hd. repeat split; assumption.
  - intros p q hd_p hd_q Hp Hq Hne Hhp Hhq.
    destruct (Hmem p Hp) as (hp0 & Hhp0 & _ & _ & _ & _ & _ & Hlp).
    destruct (Hmem q Hq) as (hq0 & Hhq0 & _ & _ & _ & _ & _ & Hlq).
    rewrite Hhp in Hhp0. injection Hhp0 as <-.
    rewrite Hhq in Hhq0. injection Hhq0 as <-.
    assert (Hd : disjoint (header_of p, total_of hd_p) (header_of q, total_of hd_q)).
    { apply (disjoint_blocks_in _ _ _ (g_blocks _ _ I) Hlp Hlq).
      unfold header_of. intros E. injection E as E _. lia. }
    unfold disjoint in Hd. cbn in Hd.
    unfold total_of, header_of, sizeof_header, ZDEBUG_CANARY_SIZE in *. lia.
Qed.

(** X25. In every state the guard reaches, [zdebug_print_leaks] returns
    the number of live allocations and changes nothing but the log: with no
    live allocation it logs nothing; otherwise it logs the banner, one line
    per header of the list in the order of the list (the newest first) with
    the size, the payload pointer and the site of the allocation, and the
    total with the sum of the sizes (as [size_t]) and the count. *)
Theorem zdebug_print_leaks_report (P : platform) (st : state) (L : list Z) :
  backend_ok (stdlib P) -> reachable P st L ->
  exists l hds st',
    dll (hdrs st) 0 (g_zdebug_head st) l /\ l ≡ₚ map header_of L /\
    Forall2 (fun h hd => hdrs st !! h = Some hd) l hds /\
    zdebug_print_leaks st = Done (Z.of_nat (length L), st') /\
    log st' =
      match l with
      | [] => log st
      | _ => LeaksTotal (wrap (sum_sizes hds)) (Z.of_nat (length L))
             :: rev (zip_with leak_of l hds) ++ LeaksBanner :: log st
      end /\
    hdrs st' = hdrs st /\ bytes st' = bytes st /\
    g_zdebug_head st' = g_zdebug_head st /\ hp st' = hp st.
Proof.
  intros HP Hr.
  destruct (reachable_guard_inv P HP st L Hr) as (l & I & Hperm).
  destruct (zdebug_print_leaks_log st l I)
    as (hds & st' & Hall & Hrun & Hlog & Hrest).
  assert (El : length l = length L).
  { rewrite Hperm. apply length_map. }
  rewrite El in Hrun, Hlog.
  exists l, hds, st'. split; [apply (g_list _ _ I)|]. split; [exact Hperm|].
  split; [exact Hall|]. split; [exact Hrun|]. split; [exact Hlog | exact Hrest].
Qed.

(** X26. In every state the guard reaches, [zdebug_calloc_loc] with a
    count and a size whose product fits a [size_t] with the header and the
    canary returns; behind a non-null result the header records
    [count * size] as the size and every byte of the payload is zero. *)
Theorem zdebug_calloc_loc_zero_fills (P : platform) (st : state) (L : list Z)
    (count sz : Z) (f : string) (ln : Z) :
  backend_ok (stdlib P) -> reachable P st L ->
  0 <= count < modulus -> 0 <= sz < modulus ->
  sizeof_header + count * sz + ZDEBUG_CANARY_SIZE < modulus -> int_ok ln ->
  exists p st',
    zdebug_calloc_loc P st count sz f ln = Done (p, st') /\
    reachable P st' (if p =? 0 then L else p :: L) /\
    (p <> 0 ->
       ~ In p L /\
       (exists hd, hdrs st' !! header_of p = Some hd /\ size hd = count * sz /\
                   file hd = f /\ line hd = ln /\ magic hd = ZDEBUG_MAGIC_ALIVE) /\
       forall i, 0 <= i < count * sz -> bytes st' !! (p + i) = Some 0).
Proof.
  intros HP Hr Hcount Hsize Hfit Hln.
  assert (Hs : 0 <= count * sz) by nia.
  destruct (reachable_guard_inv P HP st L Hr) as (l & I & Hperm).
  assert (Ew : wrap (count * sz) = count * sz).
  { apply wrap_small. unfold sizeof_header, ZDEBUG_CANARY_SIZE in *. lia. }
  assert (Hok : size_ok (count * sz)) by (split; assumption).
  assert (Hreach : forall p st',
            zdebug_calloc_loc P st count sz f ln = Done (p, st') ->
            reachable P st' (if p =? 0 then L else p :: L)).
  { intros p st' H.
    apply (reach_calloc P st L count sz f ln p st' Hr Hcount Hsize); try assumption.
    rewrite Ew. exact Hok. }
  destruct (zdebug_malloc_loc_returns P HP st l (count * sz) f ln I Hok)
    as (p & st1 & Hrun & Hcase).
  assert (Ef : (wrap (sizeof_header + count * sz + ZDEBUG_CANARY_SIZE)
                <? sizeof_header + count * sz) = false).
  { rewrite (total_size_exact _ Hok). apply Z.ltb_ge.
    unfold ZDEBUG_CANARY_SIZE. lia. }
  unfold zdebug_calloc_loc in *. cbv zeta in *. rewrite Ew in *. rewrite Hrun in *.
  cbn [mbind outcome_bind] in *. rewrite Ef in *.
  destruct Hcase as [(-> & _) | (h & -> & Hnin & I' & Hz & (hd & Hhd & Hsz & Hf & Hl & Hm) & _)].
  - simpl (0 =? 0) in *. exists 0, st1. split; [reflexivity|].
    split; [apply Hreach; reflexivity|]. intros Hc. contradiction.
  - pose proof (member_validated st1 _ h I' (or_introl eq_refl))
      as (hd0 & Hhd0 & _ & _ & Hnz & _ & _ & Hpos & Hend).
    rewrite Hhd in Hhd0. injection Hhd0 as <-.
    rewrite Hnz in *. eexists _, _. split; [reflexivity|].
    split; [apply Hreach; reflexivity|]. intros _.
    assert (Eh : header_of (h + sizeof_header) = h) by (unfold header_of; lia).
    rewrite Eh. split; [|split].
    + intros Hin. apply Hnin. apply list_elem_of_In. rewrite Hperm.
      apply list_elem_of_In. rewrite <- Eh. apply in_map. exact Hin.
    + exists hd. cbn [hdrs set_bytes]. repeat split; assumption.
    + intros i Hi. cbn [bytes set_bytes].
      pose proof (memset_lookup (Z.to_nat (count * sz)) (bytes st1) (h + sizeof_header) 0
                    (Z.to_nat i) ltac:(lia)) as Hset.
      rewrite Z2Nat.id in Hset by lia.
      rewrite wrap_small in Hset; [exact Hset|].
      unfold total_of, sizeof_header, ZDEBUG_CANARY_SIZE in *. lia.
Qed.

(** The canary written over the end of a header: what [store_bytes] does
    when some of its bytes are bytes of the fields. *)
Lemma store_bytes_app h v n1 : forall n2 st p,
  store_bytes st h p v (n1 + n2)
  = store_bytes (store_bytes st h p v n1) h (p + Z.of_nat n1) v n2.
Proof.
  induction n1 as [|k IH]; intros n2 st p.
  - cbn [store_bytes Nat.add]. rewrite Z.add_0_r. reflexivity.
  - cbn [store_bytes Nat.add]. rewrite IH. f_equal. lia.
Qed.

Lemma store_byte_is_Some st h a v x :
  is_Some (hdrs st !! x) -> is_Some (hdrs (store_byte st h a v) !! x).
Proof.
  unfold store_byte. destruct (in_fields h a); [|intros H; exact H].
  cbn [hdrs]. intros [hd Hx]. destruct (decide (h = x)) as [->|Hne].
  - rewrite lookup_alter_eq, Hx. cbn. eauto.
  - rewrite lookup_alter_ne by exact Hne. rewrite Hx. eauto.
Qed.

Lemma store_bytes_is_Some h v x n : forall st p,
  is_Some (hdrs st !! x) -> is_Some (hdrs (store_bytes st h p v n) !! x).
Proof.
  induction n as [|k IH]; intros st p H; cbn [store_bytes]; [exact H|].
  apply IH. apply store_byte_is_Some. exact H.
Qed.

(** A magic whose last byte is the sentinel is not ALIVE. *)
Lemma sentinel_not_alive x :
  with_byte x 3 ZDEBUG_CANARY_VAL <> ZDEBUG_MAGIC_ALIVE.
Proof.
  intros E.
  assert (H : Z.testbit (with_byte x 3 ZDEBUG_CANARY_VAL) 31 = true).
  { unfold with_byte. rewrite Z.lor_spec. apply orb_true_intro. right. reflexivity. }
  rewrite E in H. discriminate H.
Qed.

(** X27. The total of header, size and canary is computed without a check
    for overflow.  For a size within [2^64 - 16] and [2^64 - 1] the total
    wraps to the 40 bytes of the header and up to 15 more, and
    [zdebug_malloc_loc] asks the backend for them.  When the backend
    refuses, the refusal is logged and the result is null.  When the backend
    grants them at [h], the canary is written over the end of the header:
    the call returns [h + 40] and leaves at the head of the list a header
    whose magic is not ALIVE. *)
Theorem zdebug_malloc_loc_wrapped_size (P : platform) (st : state) (sz : Z)
    (f : string) (ln : Z) :
  let total := sizeof_header + sz + ZDEBUG_CANARY_SIZE - modulus in
  let h := bk_malloc (stdlib P) (ccalls (hp st)) total in
  modulus - ZDEBUG_CANARY_SIZE <= sz < modulus ->
  head_readable st ->
  sizeof_header <= total < sizeof_header + ZDEBUG_CANARY_SIZE /\
  (h = 0 ->
     zdebug_malloc_loc P st sz f ln
     = Done (0, say (set_heap st (Heap (zcalls (hp st))
                                       (Malloc total 0 :: ccalls (hp st))))
                    (OutOfMemory f ln))) /\
  (0 < h -> h + total < modulus ->
     exists st' hd,
       zdebug_malloc_loc P st sz f ln = Done (h + sizeof_header, st') /\
       ccalls (hp st') = Malloc total h :: ccalls (hp st) /\
       g_zdebug_head st' = h /\
       hdrs st' !! h = Some hd /\ magic hd <> ZDEBUG_MAGIC_ALIVE).
Proof.
  intros total h Hs Hg.
  pose proof modulus_eq as Hmod.
  assert (Ht : sizeof_header <= total < sizeof_header + ZDEBUG_CANARY_SIZE).
  { unfold total, sizeof_header, ZDEBUG_CANARY_SIZE in *. lia. }
  split; [exact Ht|].
  assert (Hz : (sz =? 0) = false).
  { apply Z.eqb_neq. unfold ZDEBUG_CANARY_SIZE in *. lia. }
  assert (Ew : wrap (sizeof_header + sz + ZDEBUG_CANARY_SIZE) = total).
  { symmetry. unfold wrap. apply Z.mod_unique_pos with 1.
    - unfold total, sizeof_header, ZDEBUG_CANARY_SIZE in *. lia.
    - unfold total. lia. }
  split.
  - intros Hh. unfold zdebug_malloc_loc, malloc. rewrite Hz, Ew. fold h.
    rewrite Hh. reflexivity.
  - intros Hpos Hend. unfold zdebug_malloc_loc, malloc. rewrite Hz, Ew. fold h.
    assert (Eh : (h =? 0) = false) by (apply Z.eqb_neq; lia).
    assert (Ef : (total <? sizeof_header) = false) by (apply Z.ltb_ge; lia).
    rewrite Eh, Ef.
    set (hd0 := Header 0 0 f sz ln ZDEBUG_MAGIC_ALIVE).
    set (st1 := State (<[h:=hd0]> (hdrs st)) (bytes st) (g_zdebug_head st) (log st)
                      (Heap (zcalls (hp st)) (Malloc total h :: ccalls (hp st)))).
    assert (H1 : hdrs st1 !! h = Some hd0) by apply lookup_insert_eq.
    unfold _zdebug_set_canary, load. rewrite H1. cbn [mbind outcome_bind size hd0].
    (* the canary starts [total - 40] bytes after offset 24 of the header *)
    set (k := Z.to_nat (total - sizeof_header)).
    assert (Hk : (k < 16)%nat) by (unfold k, sizeof_header, ZDEBUG_CANARY_SIZE in *; lia).
    assert (Efoot : wrap (user_mem h + sz) = h + 24 + Z.of_nat k).
    { unfold user_mem. rewrite (wrap_small (h + sizeof_header))
        by (unfold sizeof_header in *; lia).
      symmetry. unfold wrap. apply Z.mod_unique_pos with 1.
      - unfold k, total, sizeof_header, ZDEBUG_CANARY_SIZE in *. lia.
      - unfold k, total, sizeof_header, ZDEBUG_CANARY_SIZE in *. lia. }
    rewrite Efoot.
    replace (Z.to_nat ZDEBUG_CANARY_SIZE) with ((15 - k) + (1 + k))%nat
      by (unfold ZDEBUG_CANARY_SIZE; lia).
    rewrite store_bytes_app.
    set (sta := store_bytes st1 h (h + 24 + Z.of_nat k) ZDEBUG_CANARY_VAL (15 - k)).
    rewrite store_bytes_app. cbn [store_bytes].
    assert (Ea : wrap (h + 24 + Z.of_nat k + Z.of_nat (15 - k)) = h + 39).
    { rewrite wrap_small by (unfold sizeof_header in *; lia). lia. }
    rewrite Ea.
    destruct (store_bytes_is_Some h ZDEBUG_CANARY_VAL h (15 - k) st1
                (h + 24 + Z.of_nat k) (ex_intro _ hd0 H1)) as [hda Hhda].
    fold sta in Hhda.
    set (stb := store_byte sta h (h + 39) ZDEBUG_CANARY_VAL).
    assert (Hhdb : hdrs stb !! h = Some (poke hda 39 ZDEBUG_CANARY_VAL)).
    { unfold stb, store_byte.
      assert (Ein : in_fields h (h + 39) = true).
      { unfold in_fields, offsetof_size, sizeof_header.
        apply andb_true_intro. split; [apply Z.leb_le | apply Z.ltb_lt]; lia. }
      rewrite Ein. cbn [hdrs]. rewrite lookup_alter_eq, Hhda. cbn.
      replace (h + 39 - h) with 39 by lia. reflexivity. }
    match goal with
    | |- context [store_bytes stb h ?q ZDEBUG_CANARY_VAL k] =>
        set (stc := store_bytes stb h q ZDEBUG_CANARY_VAL k);
        assert (Estc : stc = set_bytes stb (memset (bytes stb) q ZDEBUG_CANARY_VAL k))
    end.
    { unfold stc. apply store_bytes_outside. intros i Hi.
      rewrite wrap_small
        by (unfold k, total, sizeof_header, ZDEBUG_CANARY_SIZE in *; lia).
      unfold in_fields, sizeof_header. apply andb_false_intro2. apply Z.ltb_ge. lia. }
    assert (Hhdc : hdrs stc !! h = Some (poke hda 39 ZDEBUG_CANARY_VAL)).
    { rewrite Estc. exact Hhdb. }
    assert (Hframe : hp stc = hp st1 /\ g_zdebug_head stc = g_zdebug_head st1).
    { rewrite Estc. cbn [hp g_zdebug_head set_bytes].
      destruct (store_byte_frame sta h (h + 39) ZDEBUG_CANARY_VAL) as (G1 & _ & G3).
      fold stb in G1, G3.
      destruct (store_bytes_frame h ZDEBUG_CANARY_VAL (15 - k) st1
                  (h + 24 + Z.of_nat k)) as (K1 & _ & K3).
      fold sta in K1, K3.
      split; congruence. }
    destruct Hframe as [Fhp Fhead].
    destruct (_zdebug_add_returns stc h _ Hhdc) as [st3 H3].
    { unfold head_readable. rewrite Fhead. cbn [g_zdebug_head st1].
      destruct Hg as [Hg|Hg]; [left; exact Hg|right].
      unfold stc. apply store_bytes_is_Some. unfold stb. apply store_byte_is_Some.
      unfold sta. apply store_bytes_is_Some. cbn [hdrs st1].
      destruct (decide (h = g_zdebug_head st)) as [<-|Hne].
      - rewrite lookup_insert_eq. eauto.
      - rewrite lookup_insert_ne by exact Hne. exact Hg. }
    rewrite H3. cbn [mbind outcome_bind].
    assert (Eu : user_mem h = h + sizeof_header).
    { unfold user_mem. apply wrap_small. unfold sizeof_header in *. lia. }
    rewrite Eu.
    assert (Hhead3 : g_zdebug_head st3 = h).
    { pose proof H3 as H3'. unfold _zdebug_add in H3'. bind_inv H3'. bind_inv H3'.
      injection H3' as <-. reflexivity. }
    apply _zdebug_add_links_only in H3 as (L & _ & _ & Hhp3).
    destruct (L h _ Hhdc) as (hd & Hl & Sf & Sl & Ss & Sm).
    exists st3, hd. split; [reflexivity|].
    split; [rewrite Hhp3, Fhp; reflexivity|].
    split; [exact Hhead3|]. split; [exact Hl|].
    rewrite Sm. apply sentinel_not_alive.
Qed.

End GuardGuarantees.

Section GuardExamples.
  Import Debug.

Lemma zdebug_free_releases_witness :
  exists st st',
    reachable default_platform st [4200; 4136] /\
    zdebug_free st 4136 = Done st' /\
    ccalls (hp st') = Free (header_of 4136) :: ccalls (hp st) /\
    bytes st' = bytes st /\
    reachable default_platform st' (released [4200; 4136] 4136).
Proof.
  destruct (two_allocations_reachable bump eq_refl) as (st & Hr & _).
  destruct (zdebug_free_releases default_platform st [4200; 4136] 4136 bump_ok Hr
              ltac:(right; left; reflexivity))
    as (st' & H1 & H2 & _ & _ & H5 & _ & H8).
  exists st, st'. repeat split; assumption.
Defined.

Lemma zdebug_detects_overflow_witness :
  exists st,
    reachable default_platform st [4200; 4136] /\
    zdebug_free (set_bytes st (<[4136 + 3 := 0]> (bytes st))) 4136
    = Abort (BufferOverflow 4136 "a.c" 10).
Proof.
  destruct (two_allocations_reachable bump eq_refl) as (st & Hr & Hh & _).
  exists st. split; [exact Hr|].
  refine (proj1 (zdebug_detects_overflow default_platform st [4200; 4136] 4136
                   (Header 4160 0 "a.c" 3 10 ZDEBUG_MAGIC_ALIVE) 3 0
                   bump_ok Hr _ Hh _ _ _)).
  - right. left. reflexivity.
  - unfold ZDEBUG_CANARY_SIZE. cbn [size]. lia.
  - lia.
  - discriminate.
Defined.

Lemma zdebug_realloc_loc_violation_witness :
  zdebug_realloc_loc default_platform overrun 4136 8 "use.c" 20
  = Abort (CorruptionDuringRealloc 4136 "main.c" 10).
Proof.
  refine (proj2 (zdebug_realloc_loc_violation_aborts default_platform overrun
            4136 8 "use.c" 20 (Header 0 0 "main.c" 3 10 ZDEBUG_MAGIC_ALIVE) _ _ _) _ _ _).
  - lia.
  - lia.
  - reflexivity.
  - reflexivity.
  - vm_compute. repeat split; congruence.
  - intros Hc. specialize (Hc 0%nat ltac:(lia)). vm_compute in Hc. discriminate.
Defined.

Lemma zdebug_realloc_loc_keeps_contents_witness :
  exists st p st',
    reachable default_platform st [4200; 4136] /\
    zdebug_realloc_loc default_platform st 4136 5 "c.c" 12 = Done (p, st') /\
    reachable default_platform st' (resized [4200; 4136] 4136 5 p) /\
    (p <> 0 ->
       forall i, 0 <= i < Z.min 3 5 -> bytes st' !! (p + i) = bytes st !! (4136 + i)).
Proof.
  destruct (two_allocations_reachable bump eq_refl) as (st & Hr & Hh & _).
  destruct (zdebug_realloc_loc_keeps_contents default_platform st [4200; 4136] 4136 5
              "c.c" 12 (Header 4160 0 "a.c" 3 10 ZDEBUG_MAGIC_ALIVE) bump_ok Hr
              ltac:(right; left; reflexivity) ltac:(lia)
              ltac:(client_ok) ltac:(client_ok) Hh)
    as (p & st' & H1 & H2 & H3).
  exists st, p, st'. split; [exact Hr|]. split; [exact H1|]. split; [exact H2|].
  intros Hp. apply (H3 Hp).
Defined.

Lemma zdebug_malloc_loc_result_witness :
  exists p st',
    zdebug_malloc_loc default_platform initial 3 "a.c" 10 = Done (p, st') /\
    reachable default_platform st' (if p =? 0 then [] else [p]) /\
    (p = 0 -> malloc_refused initial 3 "a.c" 10 st') /\
    (p <> 0 -> ~ In p [] /\ malloc_granted initial 3 "a.c" 10 (header_of p) st').
Proof.
  apply (zdebug_malloc_loc_result default_platform initial [] 3 "a.c" 10 bump_ok
           (reach_initial default_platform)).
  - client_ok.
  - client_ok.
Defined.

Lemma guard_allocations_stay_apart_witness :
  exists st,
    reachable default_platform st [4200; 4136] /\
    NoDup [4200; 4136] /\
    (forall p, In p [4200; 4136] ->
       exists hd, hdrs st !! header_of p = Some hd /\ 0 <= size hd /\
         canary_intact st (header_of p) hd /\ 0 < header_of p /\
         In (header_of p, total_of hd) (live (ccalls (hp st)))).
Proof.
  destruct (two_allocations_reachable bump eq_refl) as (st & Hr & _).
  destruct (guard_allocations_stay_apart default_platform st [4200; 4136] bump_ok Hr)
    as (H1 & H2 & _).
  exists st. split; [exact Hr|]. split; assumption.
Defined.

Lemma zdebug_print_leaks_report_witness :
  exists st l hds st',
    reachable default_platform st [4200; 4136] /\
    Forall2 (fun h hd => hdrs st !! h = Some hd) l hds /\
    zdebug_print_leaks st = Done (Z.of_nat (length [4200; 4136]), st') /\
    log st' =
      match l with
      | [] => log st
      | _ => LeaksTotal (wrap (sum_sizes hds)) (Z.of_nat (length [4200; 4136]))
             :: rev (zip_with leak_of l hds) ++ LeaksBanner :: log st
      end.
Proof.
  destruct (two_allocations_reachable bump eq_refl) as (st & Hr & _).
  destruct (zdebug_print_leaks_report default_platform st [4200; 4136] bump_ok Hr)
    as (l & hds & st' & _ & _ & H3 & H4 & H5 & _).
  exists st, l, hds, st'. split; [exact Hr|]. repeat split; assumption.
Defined.

Lemma zdebug_calloc_loc_zero_fills_witness :
  exists p st',
    zdebug_calloc_loc default_platform initial 2 3 "a.c" 10 = Done (p, st') /\
    reachable default_platform st' (if p =? 0 then [] else [p]) /\
    (p <> 0 -> forall i, 0 <= i < 2 * 3 -> bytes st' !! (p + i) = Some 0).
Proof.
  destruct (zdebug_calloc_loc_zero_fills default_platform initial [] 2 3 "a.c" 10 bump_ok
              (reach_initial default_platform)
              ltac:(rewrite modulus_eq; lia) ltac:(rewrite modulus_eq; lia)
              ltac:(rewrite modulus_eq; unfold sizeof_header, ZDEBUG_CANARY_SIZE; lia)
              ltac:(client_ok))
    as (p & st' & H1 & H2 & H3).
  exists p, st'. split; [exact H1|]. split; [exact H2|].
  intros Hp. apply (H3 Hp).
Defined.

Lemma zdebug_malloc_loc_wrapped_size_witness :
  exists st' hd,
    zdebug_malloc_loc default_platform initial (2 ^ 64 - 16) "a.c" 10
      = Done (4096 + sizeof_header, st') /\
    ccalls (hp st') = [Malloc 40 4096] /\
    g_zdebug_head st' = 4096 /\
    hdrs st' !! 4096 = Some hd /\ magic hd <> ZDEBUG_MAGIC_ALIVE.
Proof.
  apply (proj2 (proj2 (zdebug_malloc_loc_wrapped_size default_platform initial
                         (2 ^ 64 - 16) "a.c" 10
                         ltac:(rewrite modulus_eq; unfold ZDEBUG_CANARY_SIZE; lia)
                         ltac:(left; reflexivity)))).
  - reflexivity.
  - vm_compute. reflexivity.
Defined.

End GuardExamples.
